(* ===== verification/_CoqProject ===== *)
-Q . S2P
Prelude.v
Machine.v
Mmu.v
PageTable.v
PageTree.v
PageTableProofs.v
PageTableList.v
Concrete.v
PageTableProps.v
FreeList.v
GlobalMap.v
GlobalMapProofs.v
UserMap.v
UserMapProofs.v
Regions.v
Buddy.v
Allocator.v
Malloc.v
Tlb.v
MapSetup.v
KernelMap.v
Console.v
Interrupts.v
Devices.v
FreeTable.v
Acpi.v
AcpiRoot.v
Apic.v
Modules.v
Segments.v
Clock.v
Processor.v
UserSpace.v
Wakeup.v
Messages.v
Shootdown.v
DomainList.v
ProcEntry.v
Boot.v
State.v
Asm.v
Syscall.v
Switch.v
System.v
Startup.v
Broadcast.v
