(* ===== verification/Prelude.v ===== *)
(** * anarch: a verification library for the x86-64 hardware abstraction layer

    anarch is the layer of a kernel that hides the machine: page tables and
    address spaces, physical and virtual allocators, interrupts and their
    controllers, clocks and timers, segments, the processors and the messages
    between them, system calls, the console.  This library models its C++ code,
    file by file, as executable definitions and states what makes each part
    correct.  Paths below are those of the repository (its sources are under
    src/, the x86-64 ones under src/arch/x64/).

    ** The model

    A computation is a state monad with failures ([M], this file): [Ok] with a
    result and a state, or [Stop] with the reason, a failed assertion, a panic,
    a page fault, a halt, undefined behaviour, or no fuel left.  The state is
    [machine] (Machine.v): physical memory, CR3, RFLAGS.IF, the model-specific
    registers, the locks that are held, a trace of what is sent to devices and
    streams, and the state [alloc] of the component the code is linked with.
    Unsigned integers are [Z] with the wrap-around of the code written out
    ([u64], [+u], [-u], ...); [assert], [AssertCritical] and [AssertNoncritical]
    are as in the code, so every theorem that a computation returns shows that
    its assertions hold.  Loops have the fuel or the structure that bounds
    them, and a theorem that the loop ends; where the code waits for the rest
    of the machine, [advance] (Clock.v) is what happens meanwhile.  Code that
    several processors run at the same time is, besides, a step relation in
    which each access to shared memory is one step (Tlb.v, Wakeup.v,
    Startup.v), with an invariant proved by induction on the steps and a rank
    that bounds the runs.

    What lives outside the repository is an interface with laws, and a concrete
    instance in Concrete.v or next to the witness: the ANAlloc library (regions,
    clusters, free lists), [ansa] (locks, Bzero, Memcmp, Rational, modules),
    the physical allocator behind a page table, the answers of devices and of
    [cpuid].  The assembly files are lists of instructions, which small machines
    of their own run (Asm.v, Syscall.v, Switch.v, ProcEntry.v); the thunks of the
    interrupt table are bytes that Interrupts.v decodes, and the trampoline's
    descriptor table is bytes that ProcEntry.v reads through the page tables.

    ** The files

    Foundations.
    - Prelude.v: this header, the monad, machine integers and their lemmas.
    - Machine.v: the machine; src/arch/x64/critical/functions.cpp,
      src/util/critical.cpp and lock.cpp, the wrappers of common.cpp; the
      interfaces of locks and of the kernel heap.
    - Mmu.v: physical words and the processor's 4-level translation.
    - Concrete.v: instances of the interfaces that run.
    - Devices.v: bytes, windows on physical memory (EasyMap, PhysCopy) and
      memory-mapped registers.

    Memory.
    - PageTable.v, PageTree.v, PageTableProofs.v, PageTableList.v,
      PageTableProps.v: vmm/page-table.cpp.  The code reads and writes the
      tables through the fractal mapping, i.e. through the tables themselves;
      [pt_state] says that they form a tree, and the properties say what each
      operation does to the addresses the processor translates.
    - FreeTable.v: the rest of page-table.cpp, FreeTable, which reads the tables
      of another address space through the windows of Devices.v, and the
      destructor of UserMap.
    - FreeList.v: vmm/user/free-list.cpp, the free regions of a user space.
    - GlobalMap.v, GlobalMapProofs.v: vmm/global/free-finder.cpp and
      global-map.cpp.
    - UserMap.v, UserMapProofs.v: src/memory/easy-map.cpp, phys-copy.cpp and
      vmm/user/user-map.cpp, over FreeList.v and PageTable.v; UserSpace.v: the
      life of a user map, from UserMap::New to Delete.
    - Regions.v: public/region-list.cpp, multiboot-region-list.cpp and
      pmm/step-allocator.cpp; Buddy.v: pmm/buddy-allocator.cpp.
    - Allocator.v: src/arch/api/allocator.cpp over any physical allocator and
      any map; Malloc.v: src/memory/malloc.cpp, the kernel heap.
    - MapSetup.v: vmm/global/map-setup.cpp, the first address space;
      KernelMap.v: GlobalMap::Initialize, which goes on to build the buddy
      allocator in pages that it maps with the map it has just loaded.
    - Tlb.v: vmm/tlb.cpp, with the shootdown as a step relation.  Its code over
      the processors is in Shootdown.v, after Messages.v.

    Interrupts, devices and processors.
    - Console.v: console/text-console.cpp and src/util/stream.cpp.
    - Interrupts.v: interrupts/idt.cpp, irt.cpp, isr.cpp, pic.cpp,
      segments/local-segment.cpp; the thunks are run as machine code.
    - Acpi.v: acpi/apic-table.cpp; AcpiRoot.v: acpi-pointer.cpp, acpi-root.cpp,
      rsdt.cpp, xsdt.cpp, acpi-module.cpp.
    - Apic.v: interrupts/apic/ (I/O APIC, both local APICs, their modules).
    - Segments.v: segments/gdt.cpp, short-descriptor.cpp, tss.cpp.
    - Clock.v: src/arch/api/clock.cpp and clock/ (PIT, HPET, the module).
    - Processor.v: smp/cpu.cpp, timer/, domains/domain.cpp and
      src/arch/api/domain.cpp; [smp] is the state these components share.
    - Wakeup.v: RunAsync and HandleWakeup of cpu.cpp as a step relation;
      Messages.v: the interfaces of src/arch/api/thread.hpp and timer.hpp, the
      processors as instances of them, and the two functions as computations of
      Processor.v related to the steps of Wakeup.v; Shootdown.v does the same
      for the distribution and the handler of tlb.cpp and the steps of Tlb.v.
    - DomainList.v: domains/domain-list.cpp and smp/startup-code.cpp;
      Startup.v: the start of the processors as a step relation; ProcEntry.v:
      smp/proc-entry.s, the code they run first; Boot.v: the start of one
      processor put together, from the copied trampoline through CpuEntrance to
      the destructor that takes the trampoline away.
    - State.v: state/state.cpp and syscall/; Asm.v: interrupts/raw-isr.s around
      the handlers of Interrupts.v; Syscall.v: syscall/handler.s,
      syscall/syscall.cpp and src/arch/api/syscall-ret.hpp; Switch.v: the
      inline assembly of state.cpp and cpu.cpp that changes stacks.
    - Broadcast.v: the Initialize of syscall/module.cpp and timer/module.cpp on
      all processors, as a step relation.
    - Modules.v: what each module depends on and the order in which they load;
      System.v: panic/panic.cpp, critical/module.cpp, public/init.cpp.

    ** What is shown

    - Page tables: Set, SetList and Unset change the translation of their own
      pages and of no other address, and write tables only; Walk agrees with the
      processor; tables are allocated exactly when needed and freed exactly
      when nothing is left in them; an address
      space that is freed gives back its own tables, each once, and not the
      kernel's; the errors are exactly the ones the code checks for.
    - Address spaces: the free list hands out free, aligned ranges, lowest
      first, which are not free until it takes them back; the free finder's scan
      ends and finds the largest gap; the kernel and user maps map what they
      return; loading a map notes it for the shootdown; a new user map
      translates the kernel's half and nothing else; from the boot
      loader's mapping the kernel gets its own tables, and a page allocator
      that never hands out what they use.
    - Allocators: boot regions are sorted and split at 4 GiB; the step and
      buddy allocators hand out disjoint aligned blocks, the latter as a
      refinement of one allocator; contiguous allocation undoes its failures
      and its success can be undone; mapped allocation hands out new frames at
      free addresses, and what it leaves when it fails, reservations and
      stops, is listed; both hold over a map that may stop the machine on a
      range it cannot take, as GlobalMap does; the heap returns fresh pointers.
    - Concurrency: no stale translation survives a shootdown; messages to a
      processor run in order and the last one runs; processors enter the domain
      one at a time with their own index and, with room for all, none is left
      behind; the system calls and the timer are set up once on every processor
      before the code goes on.  All of these hold in every interleaving and
      every run ends.  The code of messages and of the shootdown refines the
      steps on a processor that agrees with the world of the steps.  For the
      messages the others may change the slots while the code waits for the
      lock and after the release ([waits] and [passes]): what it does under the
      lock is three steps from the state it finds when it gets it, and a sender
      interrupts only then.  For the shootdown the two agree before, while the
      code waits, with exactly the processors asked that have to be, and after.
    - Devices: what MapIrq, SendIpi, the timer and the console store is what
      the device documentation makes of it; the ACPI queries answer for the
      entries the bytes encode.
    - Processors and modes: a new processor has its own object, stacks, task
      segment and GS base; a started one has every table loaded before it
      builds them; the trampoline is set up and taken down without a trace, and
      in between a processor that runs it reaches CpuEntrance in 64-bit mode,
      on the kernel's tables and on the stack it was given; the
      selectors that interrupts, system calls and thread states use name the
      descriptors they mean; a module is loaded after all it uses, but for one
      dependency that is not declared.
    - Assembly: an interrupt goes back to the interrupted code with every
      register as it was, whatever the handler does to them; a system call
      takes the user's arguments to the handler and its typed result back; the
      trampoline ends in 64-bit mode with the kernel's tables if the descriptor
      table is low enough; a thread that is suspended and resumed has its
      registers and its stack back.
    Several theorems and lemmas describe what the code does where it does not
    do what it means to, e.g. Malloc::Free beyond the first segment, the
    alignment that GlobalMap::Map asks for, the prefix case of FreeList::AllocAt
    and, in Startup.v, a domain without room and a processor that comes late.

    ** Fuel and bounds

    The page-table loops run over the four levels and over page counts.  The
    scan of the free finder and the step allocator have fuel for which the
    theorems prove that they end.  The iterator of the APIC table has one turn
    for each byte of the table, more than it has entries, since an entry has at
    least two; with an entry of size 0 the code itself does not end
    ([zero_size_loops]).  Flushing page by page takes at most 513 turns.  The
    waits of clocks have no bound of their own: Clock.v shows that a wait ends
    with enough fuel whenever the clock advances, and more fuel changes
    nothing.  A run of the start of the processors has at most 130 steps for an
    entry of the table, one of the messages 11 for a message.

    ** What is not modelled

    - The code of ansa::Module, a git submodule that is not in the repository:
      Modules.v takes the order that its documentation promises.  Singletons
      are initial states.
    - Headers that only declare: where a component is used through an interface
      of src/arch/api/ there is a class or a record of its operations; an
      interface that nothing here uses as one (user-map.hpp) has none.
    - Switch.v and Syscall.v have stacks of words of their own; the machine of
      Machine.v does not hold the bytes of those stacks.
    - The windows of EasyMap, for the clients other than UserMap: they are
      windows of Devices.v, without the change of the kernel's tables that
      UserSpace.v has.
    - Caches, memory ordering beyond one access at a time, protection bits, and
      non-maskable interrupts between two instructions. *)

From stdpp Require Import base numbers list gmap strings.
From Stdlib Require Import ZArith Lia.
#[local] Open Scope Z_scope.

(** ** Machine-width integers

    An unsigned [w]-bit C++ integer is a [Z] in [0, 2^w); the wrap-around of
    the C++ operators is written out with these functions. *)

Definition u8 (x : Z) : Z := x mod 2 ^ 8.
Definition u16 (x : Z) : Z := x mod 2 ^ 16.
Definition u32 (x : Z) : Z := x mod 2 ^ 32.
Definition u64 (x : Z) : Z := x mod 2 ^ 64.

(** C truth value of an integer expression. *)
Definition truthy (x : Z) : bool := negb (x =? 0).

Definition is_u64 (x : Z) : Prop := 0 ≤ x < 2 ^ 64.

Declare Scope c_scope.
Delimit Scope c_scope with c.
Notation "x +u y" := (u64 (x + y)) (at level 50, left associativity) : c_scope.
Notation "x -u y" := (u64 (x - y)) (at level 50, left associativity) : c_scope.
Notation "x *u y" := (u64 (x * y)) (at level 40, left associativity) : c_scope.
Notation "x .& y" := (Z.land x y) (at level 40, left associativity) : c_scope.
Notation "x .| y" := (Z.lor x y) (at level 45, left associativity) : c_scope.
Notation "x .<< y" := (Z.shiftl x y) (at level 39, left associativity) : c_scope.
Notation "x .>> y" := (Z.shiftr x y) (at level 39, left associativity) : c_scope.
#[global] Open Scope c_scope.

Create HintDb anarch discriminated.

Lemma u64_small x : is_u64 x → u64 x = x.
Proof. apply Z.mod_small. Qed.

Lemma u64_range x : is_u64 (u64 x).
Proof. apply Z.mod_pos_bound. lia. Qed.

Lemma u64_wrap x : 2 ^ 64 ≤ x < 2 * 2 ^ 64 → u64 x = x - 2 ^ 64.
Proof. unfold u64. intros H. symmetry. apply (Z.mod_unique_pos _ _ 1); lia. Qed.

Lemma u64_borrow x : - 2 ^ 64 ≤ x < 0 → u64 x = x + 2 ^ 64.
Proof. unfold u64. intros H. symmetry. apply (Z.mod_unique_pos _ _ (-1)); lia. Qed.

#[export] Hint Resolve u64_range : anarch.

(** ** Outcomes and the state monad

    A run of anarch code either returns or stops the machine.  [Panic] is a
    call of [anarch::Panic] (src/arch/api/panic.hpp), which never returns;
    [AssertFail] is a failed [assert], which panics
    (src/util/assert.cpp); [PageFault] is a memory access the MMU rejects;
    [Undefined] is behaviour the C++ standard leaves undefined (a null
    dereference, an uninitialised read, a zero divisor); [Hang] is a wait that
    no step of the model ends; [OutOfFuel] marks a loop whose iteration bound
    was too small for the run. *)

Inductive fault : Type :=
  | Panic (msg : string)
  | AssertFail (what : string)
  | PageFault (addr : Z)
  | Undefined (what : string)
  | Hang (what : string)
  | OutOfFuel.

#[export] Instance fault_eq_dec : EqDecision fault.
Proof. solve_decision. Defined.

Inductive outcome (A : Type) : Type :=
  | Ok (a : A)
  | Stop (f : fault).
Arguments Ok {A} a.
Arguments Stop {A} f.

(** A computation over a state [S]. *)
Definition M (S A : Type) : Type := S → outcome (A * S).

#[export] Instance M_ret {S} : MRet (M S) := λ A a s, Ok (a, s).
#[export] Instance M_bind {S} : MBind (M S) := λ A B k m s,
  match m s with
  | Ok (a, s') => k a s'
  | Stop f => Stop f
  end.

Definition stop {S A} (f : fault) : M S A := λ _, Stop f.
Definition get {S} : M S S := λ s, Ok (s, s).
Definition gets {S A} (f : S → A) : M S A := λ s, Ok (f s, s).
Definition put {S} (s : S) : M S unit := λ _, Ok (tt, s).
Definition modify {S} (f : S → S) : M S unit := λ s, Ok (tt, f s).

(** [assert(x)] of src/util/assert.hpp, compiled in. *)
Definition assert {S} (b : bool) (what : string) : M S unit :=
  if b then mret tt else stop (AssertFail what).

Definition panic {S A} (msg : string) : M S A := stop (Panic msg).

(** [for (i = 0; i < n; i++) body(i)] *)
Fixpoint for_loop {S} (n : nat) (i : Z) (body : Z → M S unit) : M S unit :=
  match n with
  | O => mret tt
  | Datatypes.S n' => _ ← body i; for_loop n' (i + 1) body
  end.

(** *** Running computations *)

Section Run.
Context {S : Type}.

Lemma run_bind {A B} (m : M S A) (k : A → M S B) s a s' :
  m s = Ok (a, s') → (m ≫= k) s = k a s'.
Proof. intros H. unfold mbind, M_bind. by rewrite H. Qed.

Lemma run_bind_stop {A B} (m : M S A) (k : A → M S B) s f :
  m s = Stop f → (m ≫= k) s = Stop f.
Proof. intros H. unfold mbind, M_bind. by rewrite H. Qed.

Lemma bind_ok_inv {A B} (m : M S A) (k : A → M S B) s b s'' :
  (m ≫= k) s = Ok (b, s'') → ∃ a s', m s = Ok (a, s') ∧ k a s' = Ok (b, s'').
Proof. unfold mbind, M_bind. destruct (m s) as [[a s']|]; [eauto|done]. Qed.

Lemma run_ret {A} (a : A) (s : S) : (mret a : M S A) s = Ok (a, s).
Proof. done. Qed.

Lemma run_gets {A} (f : S → A) (s : S) : gets f s = Ok (f s, s).
Proof. done. Qed.

Lemma run_modify (f : S → S) (s : S) : modify f s = Ok (tt, f s).
Proof. done. Qed.

Lemma run_assert b what (s : S) : b = true → assert b what s = Ok (tt, s).
Proof. by intros ->. Qed.

Lemma run_assert_fail b what (s : S) :
  b = false → assert b what s = Stop (AssertFail what).
Proof. by intros ->. Qed.

Lemma assert_ok_inv b what (s s' : S) u :
  assert b what s = Ok (u, s') → b = true ∧ s' = s.
Proof. destruct b; cbn; [|done]. by intros [= _ ->]. Qed.
End Run.

(** Expose the state passing of a computation. *)
Ltac unfold_m :=
  cbv beta iota zeta
    delta [mbind M_bind mret M_ret get gets put modify stop panic assert].

(** Run the first operation of a bind by the equation [H], whose premises are
    left after the main goal. *)
Tactic Notation "run" uconstr(H) := erewrite run_bind; [cbn beta|eapply H].
(** Run an assertion that holds. *)
Tactic Notation "run_assert" tactic3(t) :=
  erewrite run_bind; [cbn beta|apply run_assert; t].

(** Split every bind that returned into its steps. *)
Ltac inv_run :=
  repeat match goal with
  | H : (_ ≫= _) _ = Ok _ |- _ =>
      let a := fresh "a" in let s := fresh "s" in
      let H1 := fresh "Hrun" in let H2 := fresh "Hrun" in
      apply bind_ok_inv in H as (a & s & H1 & H2); cbn beta in H2
  | H : assert _ _ _ = Ok _ |- _ =>
      let b := fresh "Hassert" in apply assert_ok_inv in H as [b ->]
  | H : (mret _) _ = Ok _ |- _ => injection H as ? ?; subst
  | H : Ok _ = Ok _ |- _ => injection H as ? ?; subst
  | H : Stop _ = Ok _ |- _ => discriminate H
  end.

(** ** Arithmetic tactics *)

(** Linear arithmetic with division and remainder by literals. *)
Ltac zlia := Z.div_mod_to_equations; lia.

(** Case split on every integer test of the goal and hypotheses. *)
Ltac case_test :=
  match goal with
  | |- context [Z.eqb ?a ?b] => destruct (Z.eqb_spec a b)
  | |- context [Z.leb ?a ?b] => destruct (Z.leb_spec a b)
  | |- context [Z.ltb ?a ?b] => destruct (Z.ltb_spec a b)
  | H : context [Z.eqb ?a ?b] |- _ => destruct (Z.eqb_spec a b)
  | H : context [Z.leb ?a ?b] |- _ => destruct (Z.leb_spec a b)
  | H : context [Z.ltb ?a ?b] |- _ => destruct (Z.ltb_spec a b)
  end.

(** Evaluate the literal powers of two of the goal and hypotheses. *)
Ltac eval_pow :=
  repeat match goal with
  | |- context [2 ^ ?e] =>
      let r := eval vm_compute in (2 ^ e) in
      lazymatch r with Zpos _ => change (2 ^ e) with r end
  | H : context [2 ^ ?e] |- _ =>
      let r := eval vm_compute in (2 ^ e) in
      lazymatch r with Zpos _ => change (2 ^ e) with r in H end
  end.

(** ** Bit fields *)

(** A field of bits [lo] to [lo + n - 1]. *)
Lemma land_field x lo n : 0 ≤ lo → 0 ≤ n →
  x .& (Z.ones n .<< lo) = x / 2 ^ lo mod 2 ^ n * 2 ^ lo.
Proof.
  intros Hlo Hn.
  rewrite <-Z.land_ones, <-Z.shiftr_div_pow2, <-Z.shiftl_mul_pow2 by lia.
  apply Z.bits_inj'. intros i Hi.
  rewrite Z.land_spec, !Z.shiftl_spec by lia.
  destruct (Z.ltb_spec i lo).
  - rewrite !(Z.testbit_neg_r _ (i - lo)) by lia. by rewrite andb_false_r.
  - rewrite Z.land_spec, Z.shiftr_spec by lia. by replace (i - lo + lo) with i by lia.
Qed.

Lemma land_bit x n : 0 ≤ n → x .& (1 .<< n) = Z.b2z (Z.testbit x n) * 2 ^ n.
Proof.
  intros Hn. rewrite Z.testbit_spec' by done.
  change 1 with (Z.ones 1) at 1. rewrite land_field by lia. by change (2 ^ 1) with 2.
Qed.

Lemma land_low x n : 0 ≤ n → x .& Z.ones n = x mod 2 ^ n.
Proof. intros. by apply Z.land_ones. Qed.

Lemma land_1 x : x .& 1 = x mod 2.
Proof. change 1 with (Z.ones 1). by rewrite land_low by lia. Qed.
Lemma truthy_false x : truthy x = false ↔ x = 0.
Proof. unfold truthy. destruct (Z.eqb_spec x 0); naive_solver. Qed.

Lemma truthy_true x : truthy x = true ↔ x ≠ 0.
Proof. unfold truthy. destruct (Z.eqb_spec x 0); naive_solver. Qed.

(** The test [x & (1 << n)] of the code is the bit. *)
Lemma truthy_bit x n : 0 ≤ n → truthy (x .& (1 .<< n)) = Z.testbit x n.
Proof.
  intros Hn. rewrite land_bit by done. unfold truthy.
  destruct (Z.testbit x n); cbn [Z.b2z]; [|done].
  rewrite Z.mul_1_l. destruct (Z.eqb_spec (2 ^ n) 0); [|done].
  assert (0 < 2 ^ n) by (apply Z.pow_pos_nonneg; lia). lia.
Qed.

Lemma lor_u64 x y : is_u64 x → is_u64 y → is_u64 (x .| y).
Proof.
  unfold is_u64. intros Hx Hy.
  replace (x .| y) with ((x .| y) mod 2 ^ 64); [apply Z.mod_pos_bound; lia|].
  rewrite <-Z.land_ones, Z.land_lor_distr_l, !Z.land_ones by lia.
  by rewrite !Z.mod_small by done.
Qed.

#[export] Hint Resolve lor_u64 : anarch.

(** Fields that are put side by side. *)
Lemma lor_shiftl_add a b n : 0 ≤ n → 0 ≤ a < 2 ^ n → a .| (b .<< n) = a + b * 2 ^ n.
Proof.
  intros Hn Ha. set (x := a + b * 2 ^ n).
  assert (x mod 2 ^ n = a) as Hm.
  { unfold x. rewrite Z_mod_plus_full. by apply Z.mod_small. }
  assert (x / 2 ^ n = b) as Hd.
  { unfold x. rewrite Z.div_add by lia. rewrite Z.div_small by done. lia. }
  apply Z.bits_inj'. intros i Hi. rewrite Z.lor_spec, Z.shiftl_spec by done.
  destruct (Z.ltb_spec i n).
  - rewrite (Z.testbit_neg_r b) by lia. rewrite orb_false_r, <-Hm.
    by apply Z.mod_pow2_bits_low.
  - assert (Z.testbit a i = false) as ->.
    { rewrite <-Hm. apply Z.mod_pow2_bits_high. lia. }
    cbn [orb]. rewrite <-Hd, Z.div_pow2_bits by lia. f_equal. lia.
Qed.

Lemma u64_shiftl x n k : 0 ≤ n → 0 ≤ x < 2 ^ k → n + k ≤ 64 → 0 ≤ k → u64 (x .<< n) = x .<< n.
Proof.
  intros. apply u64_small. rewrite Z.shiftl_mul_pow2 by done. unfold is_u64.
  assert (2 ^ (n + k) ≤ 2 ^ 64) by (apply Z.pow_le_mono_r; lia).
  rewrite Z.pow_add_r in * by lia. assert (0 < 2 ^ n) by (apply Z.pow_pos_nonneg; lia). nia.
Qed.

(** The first element of a list that passes a test. *)
Lemma find_app {X} (test : X → bool) l1 l2 :
  List.find test (l1 ++ l2)
  = match List.find test l1 with Some r => Some r | None => List.find test l2 end.
Proof. induction l1 as [|x l1 IH]; cbn; [done|]. by destruct (test x). Qed.
