(* ===== verification/Machine.v ===== *)
(** * The x86-64 machine the code runs on

    The state shared by the components that touch memory, control registers,
    the interrupt flag and locks; the critical-section functions
    (src/arch/x64/critical/functions.cpp, src/util/critical.cpp), the lock interface; the
    instruction wrappers of src/arch/x64/common.cpp; and the 4-level
    address translation of the processor, through which every load and store
    of the page-table code goes.  The state is indexed by the type [A] of the
    physical allocator the code is linked with. *)

From stdpp Require Import base numbers list gmap strings.
From Stdlib Require Import ZArith Lia.
From S2P Require Import Prelude.
#[local] Open Scope Z_scope.

(** ** State *)

Inductive event : Type :=
  | EvOutB (port byte : Z)
  | EvInvlpg (start size : Z)
  | EvLoadCr3 (pml4 : Z)
  | EvMmio (addr width value : Z)    (* a store to a device register *)
  | EvMsr (cell value : Z)           (* a store to a model-specific register *)
  | EvLgdt (limit start : Z)
  | EvLidt (limit start : Z)
  | EvLtr (selector : Z)
  | EvPrint (text : string)          (* text sent to a stream *)
  | EvPrintNumber (value : Z).       (* a number sent to a stream *)

Inductive lock_name : Type :=
  | GlobalMapLock
  | UserMapLock
  | UpperLock                    (* BuddyAllocator::upperLock *)
  | LowerLock                    (* BuddyAllocator::lowerLock *)
  | FirstLock                    (* Malloc::firstLock *)
  | SegmentLock (segment : Z)    (* Malloc::Segment::lock *)
  | ConsoleLock                  (* TextConsole::lock *)
  | IOApicLock                   (* IOApic::lock *)
  | IOApicTableLock              (* IOApic::tableLock *)
  | InitLock                     (* DomainList::initLock *)
  | TlbLock                      (* Tlb::lock *)
  | WakeupLock (cpu : Z).        (* Cpu::wakeupLock *)

#[export] Instance lock_name_eq_dec : EqDecision lock_name.
Proof. solve_decision. Defined.

Record machine {A : Type} : Type := Machine {
  mem : gmap Z Z;            (* 64-bit words of physical memory by byte address *)
  cr3 : Z;
  iflag : bool;              (* RFLAGS.IF *)
  critical_loaded : bool;    (* CriticalModule::IsInitialized() *)
  msrs : gmap Z Z;
  held : list lock_name;
  trace : list event;        (* newest first *)
  alloc : A;                 (* the physical allocator *)
}.
Arguments machine : clear implicits.

Section Machine.
Context {A : Type}.
Implicit Types (s : machine A) (m : gmap Z Z).

Definition set_mem m s : machine A :=
  Machine _ m s.(cr3) s.(iflag) s.(critical_loaded) s.(msrs) s.(held)
    s.(trace) s.(alloc).
Definition set_cr3 (v : Z) s : machine A :=
  Machine _ s.(mem) v s.(iflag) s.(critical_loaded) s.(msrs) s.(held)
    s.(trace) s.(alloc).
Definition set_iflag (b : bool) s : machine A :=
  Machine _ s.(mem) s.(cr3) b s.(critical_loaded) s.(msrs) s.(held)
    s.(trace) s.(alloc).
Definition set_msrs (r : gmap Z Z) s : machine A :=
  Machine _ s.(mem) s.(cr3) s.(iflag) s.(critical_loaded) r s.(held)
    s.(trace) s.(alloc).
Definition set_held (l : list lock_name) s : machine A :=
  Machine _ s.(mem) s.(cr3) s.(iflag) s.(critical_loaded) s.(msrs) l
    s.(trace) s.(alloc).
Definition set_alloc (a : A) s : machine A :=
  Machine _ s.(mem) s.(cr3) s.(iflag) s.(critical_loaded) s.(msrs) s.(held)
    s.(trace) a.
Definition push_event (e : event) s : machine A :=
  Machine _ s.(mem) s.(cr3) s.(iflag) s.(critical_loaded) s.(msrs) s.(held)
    (e :: s.(trace)) s.(alloc).
Definition set_trace (t : list event) s : machine A :=
  Machine _ s.(mem) s.(cr3) s.(iflag) s.(critical_loaded) s.(msrs) s.(held)
    t s.(alloc).

Definition emit (e : event) : M (machine A) unit := modify (push_event e).

(** ** Critical sections *)

Definition IgnoreCriticality : M (machine A) bool :=
  gets (λ s, negb s.(critical_loaded)).

(** [pushfq; pop]: critical when RFLAGS.IF (bit 9) is clear. *)
Definition GetCritical : M (machine A) bool :=
  ignore ← IgnoreCriticality;
  if (ignore : bool) then mret true else gets (λ s, negb s.(iflag)).

Definition SetCritical (flag : bool) : M (machine A) unit :=
  ignore ← IgnoreCriticality;
  if (ignore : bool) then mret tt else modify (set_iflag (negb flag)).

Definition AssertCritical : M (machine A) unit :=
  ignore ← IgnoreCriticality;
  if (ignore : bool) then mret tt
  else c ← GetCritical; assert c "AssertCritical".

Definition AssertNoncritical : M (machine A) unit :=
  ignore ← IgnoreCriticality;
  if (ignore : bool) then mret tt
  else c ← GetCritical; assert (negb c) "AssertNoncritical".

(** A block that opens with [ScopedCritical critical;]. *)
Definition ScopedCritical {B} (body : M (machine A) B) : M (machine A) B :=
  wasCritical ← GetCritical;
  _ ← (if negb wasCritical then SetCritical true else mret tt);
  r ← body;
  _ ← (if negb wasCritical then SetCritical false else mret tt);
  mret r.

(** ** Instruction wrappers *)

Definition OutB (port byte : Z) : M (machine A) unit :=
  _ ← AssertCritical; emit (EvOutB port byte).

(** [rdmsr] leaves the high half in EDX and the low half in EAX. *)
Definition ReadMsr (cell : Z) : M (machine A) Z :=
  _ ← AssertCritical;
  s ← get;
  let value := default 0 (s.(msrs) !! cell) in
  let higher := value .>> 32 in
  let lower := value .& 0xffffffff in
  mret (u64 (higher .<< 0x20) .| lower).

(** [wrmsr] takes EDX:EAX, the low 32 bits of RDX and RAX. *)
Definition WriteMsr (cell value : Z) : M (machine A) unit :=
  _ ← AssertCritical;
  let lower := value .& 0xffffffff in
  let higher := value .>> 0x20 in
  _ ← emit (EvMsr cell value);
  modify (λ s, set_msrs (<[cell := (u32 higher .<< 32) .| u32 lower]> s.(msrs)) s).

Definition read_cr3 : M (machine A) Z := gets cr3.
End Machine.

(** ** Facts about critical sections and locks *)

Section MachineFacts.
Context {A : Type}.
Implicit Types (s : machine A).

(** Where [AssertNoncritical] and [AssertCritical] pass. *)
Definition noncritical s : Prop := s.(critical_loaded) = false ∨ s.(iflag) = true.
Definition critical s : Prop := s.(critical_loaded) = false ∨ s.(iflag) = false.

Lemma run_AssertNoncritical s : noncritical s → AssertNoncritical s = Ok (tt, s).
Proof. intros [H|H]; cbv; destruct s as [? ? [] []]; naive_solver. Qed.

Lemma run_AssertNoncritical_fail s :
  ¬ noncritical s → AssertNoncritical s = Stop (AssertFail "AssertNoncritical").
Proof.
  intros H. destruct s as [? ? [] []]; cbv in *; try done; exfalso; tauto.
Qed.

Lemma run_AssertCritical s : critical s → AssertCritical s = Ok (tt, s).
Proof. intros [H|H]; cbv; destruct s as [? ? [] []]; naive_solver. Qed.

Lemma run_AssertCritical_fail s :
  ¬ critical s → AssertCritical s = Stop (AssertFail "AssertCritical").
Proof.
  intros H. destruct s as [? ? [] []]; cbv in *; try done; exfalso; tauto.
Qed.

(** The state in which a [ScopedCritical] body starts. *)
Definition enter_critical s : machine A :=
  if s.(critical_loaded) then set_iflag false s else s.

(** The state after the destructor, from the state [s'] the body left. *)
Definition leave_critical (s s' : machine A) : machine A :=
  if s.(critical_loaded) && s.(iflag) && s'.(critical_loaded)
  then set_iflag true s' else s'.

Lemma run_ScopedCritical {B} (body : M (machine A) B) s b s' :
  body (enter_critical s) = Ok (b, s') →
  ScopedCritical body s = Ok (b, leave_critical s s').
Proof.
  unfold ScopedCritical, GetCritical, SetCritical, IgnoreCriticality,
    enter_critical, leave_critical.
  intros H. destruct s as [? ? [] [] ? ? ? ?]; unfold_m; unfold set_iflag in *; cbn in *; rewrite H; cbn;
    try done; destruct s' as [? ? [] [] ? ? ? ?]; done.
Qed.

(** The block leaves the interrupt flag as it found it. *)
Lemma leave_enter s s' :
  s'.(critical_loaded) = s.(critical_loaded) → s'.(iflag) = (enter_critical s).(iflag) →
  leave_critical s s' = set_iflag s.(iflag) s'.
Proof.
  unfold leave_critical, enter_critical. intros Hc Hi. rewrite Hc.
  destruct s as [? ? [] []], s' as [? ? i c]; cbn in *; by subst.
Qed.

Lemma enter_critical_critical s : critical (enter_critical s).
Proof. unfold critical, enter_critical. destruct s as [? ? [] []]; auto. Qed.

End MachineFacts.

(** ** A component inside a larger one

    The same machine around another component state, and an operation of a
    component run on the part of a larger state that it owns. *)

Definition with_alloc {A B} (b : B) (s : machine A) : machine B :=
  Machine _ s.(mem) s.(cr3) s.(iflag) s.(critical_loaded) s.(msrs) s.(held) s.(trace) b.

Definition zoom {A B X} (part : A → B) (put : B → A → A) (m : M (machine B) X)
  : M (machine A) X := λ s,
  match m (with_alloc (part s.(alloc)) s) with
  | Ok (x, s') => Ok (x, with_alloc (put s'.(alloc) s.(alloc)) s')
  | Stop f => Stop f
  end.

Lemma run_zoom {A B X} (part : A → B) (put : B → A → A) (m : M (machine B) X) s x s' :
  m (with_alloc (part s.(alloc)) s) = Ok (x, s') →
  zoom part put m s = Ok (x, with_alloc (put s'.(alloc) s.(alloc)) s').
Proof. intros Hm. unfold zoom. by rewrite Hm. Qed.

(** ** Locks

    [NoncriticalLock] and [ansa::ScopedLock] are not part of the repository:
    the two lock operations are an interface. *)

Class AnsaLock (A : Type) := {
  Seize : lock_name → M (machine A) unit;
  Release : lock_name → M (machine A) unit;
}.

(** A free lock can be seized, and a held one released. *)
Class LockLaws (A : Type) `{AnsaLock A} := {
  seize_free : ∀ l (s : machine A), l ∉ s.(held) →
    Seize l s = Ok (tt, set_held (l :: s.(held)) s);
  release_held : ∀ l (s : machine A) ls, s.(held) = l :: ls →
    Release l s = Ok (tt, set_held ls s);
}.

(** A block that opens with [ScopedLock scope(l);]: the lock is seized on
    construction and released on destruction. *)
Definition ScopedLock {A B} `{AnsaLock A} (l : lock_name) (body : M (machine A) B)
  : M (machine A) B :=
  _ ← Seize l;
  r ← body;
  _ ← Release l;
  mret r.

Lemma run_ScopedLock {A B} `{LockLaws A} l (body : M (machine A) B) (s s' : machine A) b :
  l ∉ s.(held) →
  body (set_held (l :: s.(held)) s) = Ok (b, s') → s'.(held) = l :: s.(held) →
  ScopedLock l body s = Ok (b, set_held s.(held) s').
Proof.
  intros Hl Hb Hh. unfold ScopedLock. run seize_free; [|done]. run Hb.
  run release_held; [|done]. done.
Qed.

(** [CriticalLock] (src/util/lock.cpp): a lock of critical sections. *)
Section CriticalLock.
Context {A : Type} `{AnsaLock A}.

Definition CriticalLock_Seize (l : lock_name) : M (machine A) unit :=
  _ ← AssertCritical; Seize l.

Definition CriticalLock_Release (l : lock_name) : M (machine A) unit :=
  _ ← AssertCritical; Release l.

(** A block that opens with [ScopedLock scope(l);] for such a lock. *)
Definition ScopedCriticalLock {B} (l : lock_name) (body : M (machine A) B) : M (machine A) B :=
  _ ← CriticalLock_Seize l;
  r ← body;
  _ ← CriticalLock_Release l;
  mret r.

Lemma run_ScopedCriticalLock {B} `{!LockLaws A} l (body : M (machine A) B) (s s' : machine A) b :
  critical s → l ∉ s.(held) →
  body (set_held (l :: s.(held)) s) = Ok (b, s') →
  critical s' → s'.(held) = l :: s.(held) →
  ScopedCriticalLock l body s = Ok (b, set_held s.(held) s').
Proof.
  intros Hc Hl Hb Hc' Hh. unfold ScopedCriticalLock, CriticalLock_Seize, CriticalLock_Release.
  erewrite run_bind; [|run (run_AssertCritical s Hc); by apply seize_free]. run Hb.
  erewrite run_bind; [|run (run_AssertCritical s' Hc'); by apply release_held]. done.
Qed.
End CriticalLock.

(** ** Kernel objects

    [VirtualAllocator] (src/arch/api/virtual-allocator.hpp), the interface of
    the kernel heap; [Malloc] of Malloc.v is its implementation. *)
Class VirtualAllocator (A : Type) := {
  VAlloc : Z → M (machine A) (option Z);
  VFree : Z → M (machine A) unit;
  VOwns : Z → M (machine A) bool;
}.

(** [allocator.New<T>(args)]: [None] is the null pointer. *)
Definition New {A T} `{VirtualAllocator A} (size : Z) (construct : M (machine A) T)
  : M (machine A) (option T) :=
  buf ← VAlloc size;
  match buf with
  | None => mret None
  | Some _ => t ← construct; mret (Some t)
  end.

(** A heap with room for what is asked. *)
Class RoomyHeap (A : Type) `{VirtualAllocator A} := {
  heap_room : ∀ size (s : machine A), noncritical s →
    ∃ p a, VAlloc size s = Ok (Some p, set_alloc a s);
}.

Lemma run_New {A T} `{RoomyHeap A} size (construct : M (machine A) T) (s : machine A) t :
  noncritical s → (∀ a, construct (set_alloc a s) = Ok (t, set_alloc a s)) →
  ∃ a, New size construct s = Ok (Some t, set_alloc a s).
Proof.
  intros Hn Hc. destruct (heap_room size s Hn) as (p & a & Hp). exists a.
  unfold New. run Hp. cbn beta iota. by run Hc.
Qed.

(** [cout << text] and [cout << number]; the streams are modelled in
    Console.v. *)
Definition put_text {A} (text : string) : M (machine A) unit := emit (EvPrint text).
Definition newline : string := String (Ascii.ascii_of_nat 10) EmptyString.
Definition put_endl {A} : M (machine A) unit := emit (EvPrint newline).
Definition put_number {A} (n : Z) : M (machine A) unit := emit (EvPrintNumber n).

(** The blocks the device drivers open: a critical section around a critical
    lock.  A body that only adds to the trace does so for the whole block. *)
Section LockedTrace.
Context {A : Type} `{LockLaws A}.

Lemma run_locked_trace {B} l (body : M (machine A) B) (s : machine A) b t :
  l ∉ s.(held) →
  (∀ s', critical s' → s'.(held) = l :: s.(held) → s'.(trace) = s.(trace) → s'.(mem) = s.(mem) →
    body s' = Ok (b, set_trace t s')) →
  ScopedCritical (ScopedCriticalLock l body) s = Ok (b, set_trace t s).
Proof.
  intros Hl Hb.
  assert (critical (enter_critical s)) as Hc by apply enter_critical_critical.
  assert ((enter_critical s).(held) = s.(held) ∧ (enter_critical s).(trace) = s.(trace) ∧
    (enter_critical s).(mem) = s.(mem)) as (Hh & Ht & Hm)
    by (unfold enter_critical; by destruct (critical_loaded s)).
  erewrite run_ScopedCritical; [|eapply run_ScopedCriticalLock; [done|by rewrite Hh|apply Hb| |]].
  - by destruct s as [? ? [] [] ? ? ? ?].
  - done.
  - cbn. by rewrite Hh.
  - done.
  - done.
  - done.
  - done.
Qed.
End LockedTrace.

#[export] Hint Resolve run_AssertNoncritical run_AssertCritical
  enter_critical_critical : anarch.
