(* ===== verification/Mmu.v ===== *)
(** * Physical memory and address translation

    Physical memory is a map from byte addresses to 64-bit words; addresses
    outside the map read as 0, and every theorem quantifies over the map.
    [translate] is the processor's 4-level walk (48-bit canonical addresses,
    4 KiB, 2 MiB and 1 GiB pages, 52-bit physical addresses); protection bits
    play no part in it.  [load64] and [store64] are the accesses the compiled
    code makes through a virtual address. *)

From stdpp Require Import base numbers list gmap strings.
From Stdlib Require Import ZArith Lia.
From S2P Require Import Prelude Machine.
#[local] Open Scope Z_scope.

Definition read64 (m : gmap Z Z) (a : Z) : Z := default 0 (m !! a).
Definition write64 (m : gmap Z Z) (a v : Z) : gmap Z Z := <[a := v]> m.

(** ** Address fields *)

(** Bytes a table entry at depth [d] spans: 512 GiB, 1 GiB, 2 MiB, 4 KiB. *)
Definition span (d : Z) : Z := 2 ^ (39 - 9 * d).

(** Index into the table at depth [d]. *)
Definition idx (v d : Z) : Z := (v / span d) mod 512.

(** Bits 12 to 51 of an entry. *)
Definition frame_mask : Z := 0x000FFFFFFFFFF000.
Definition frame (e : Z) : Z := e .& frame_mask.

Definition present (e : Z) : bool := truthy (e .& 1).
(** Bit 7: a page, at depths 1 and 2. *)
Definition huge (e : Z) : bool := truthy (e .& 0x80).
(** The entry points to a table of the next depth. *)
Definition is_table (e : Z) : bool := present e && negb (huge e).

(** Physical address of [v] in the page the entry [e] at depth [d] maps. *)
Definition in_page (e d v : Z) : Z := frame e / span d * span d + v mod span d.

(** ** The walk *)

(** The first entry on the walk of [v] that is not a table, with its depth. *)
Fixpoint leaf (n : nat) (m : gmap Z Z) (tbl d v : Z) : Z * Z :=
  let e := read64 m (tbl + 8 * idx v d) in
  match n with
  | O => (d, e)
  | S n' => if is_table e then leaf n' m (frame e) (d + 1) v else (d, e)
  end.

(** The leaf of the 4-level walk from [root]. *)
Definition leaf4 (m : gmap Z Z) (root v : Z) : Z * Z := leaf 3 m root 0 v.

#[global] Arguments leaf4 : simpl never.

(** What a leaf maps [v] to: nothing when it is not present, or when bit 7 is
    set in a PML4 entry, where it is reserved. *)
Definition leaf_frame (l : Z * Z) (v : Z) : option Z :=
  let '(d, e) := l in
  if present e && negb (d =? 0) then Some (in_page e d v) else None.

Definition canonical (v : Z) : bool := (v <? 2 ^ 47) || (2 ^ 64 - 2 ^ 47 <=? v).

Definition translate (m : gmap Z Z) (root v : Z) : option Z :=
  if canonical v then leaf_frame (leaf4 m (frame root) v) v else None.

Section Access.
Context {A : Type}.

Definition load64 (va : Z) : M (machine A) Z :=
  s ← get;
  match translate s.(mem) s.(cr3) va with
  | Some pa => mret (read64 s.(mem) pa)
  | None => stop (PageFault va)
  end.

Definition store64 (va v : Z) : M (machine A) unit :=
  s ← get;
  match translate s.(mem) s.(cr3) va with
  | Some pa => put (set_mem (write64 s.(mem) pa v) s)
  | None => stop (PageFault va)
  end.

Lemma run_load64 va pa (s : machine A) :
  translate s.(mem) s.(cr3) va = Some pa →
  load64 va s = Ok (read64 s.(mem) pa, s).
Proof. intros H. unfold load64. unfold_m. by rewrite H. Qed.

Lemma run_store64 va v pa (s : machine A) :
  translate s.(mem) s.(cr3) va = Some pa →
  store64 va v s = Ok (tt, set_mem (write64 s.(mem) pa v) s).
Proof. intros H. unfold store64. unfold_m. by rewrite H. Qed.
End Access.

(** ** Facts *)

Lemma read_write_eq m a v : read64 (write64 m a v) a = v.
Proof. unfold read64, write64. by rewrite lookup_insert_eq. Qed.

Lemma read_write_ne m a b v : a ≠ b → read64 (write64 m a v) b = read64 m b.
Proof. intros. unfold read64, write64. by rewrite lookup_insert_ne. Qed.

Lemma frame_eq e : frame e = e / 2 ^ 12 mod 2 ^ 40 * 2 ^ 12.
Proof. unfold frame, frame_mask. change 0x000FFFFFFFFFF000 with (Z.ones 40 .<< 12). by apply land_field. Qed.

Lemma idx_mod48 v d : 0 ≤ d < 4 → idx v d = (v mod 2 ^ 48 / span d) mod 512.
Proof.
  intros Hd. unfold idx, span.
  replace (2 ^ 48) with (2 ^ (39 - 9 * d) * 2 ^ (9 + 9 * d)) by (rewrite <-Z.pow_add_r by lia; f_equal; lia).
  assert (0 < 2 ^ (39 - 9 * d)) by (apply Z.pow_pos_nonneg; lia).
  assert (0 < 2 ^ (9 + 9 * d)) by (apply Z.pow_pos_nonneg; lia).
  rewrite Z.rem_mul_r by lia.
  rewrite (Z.mul_comm (2 ^ (39 - 9 * d)) (_ mod _)), Z.div_add by lia.
  rewrite (Z.div_small (v mod _)), Z.add_0_l by (apply Z.mod_pos_bound; lia).
  replace (2 ^ (9 + 9 * d)) with (512 * 2 ^ (9 * d)) by (rewrite Z.pow_add_r by lia; done).
  assert (0 < 2 ^ (9 * d)) by (apply Z.pow_pos_nonneg; lia).
  rewrite Z.rem_mul_r by lia.
  rewrite (Z.mul_comm 512), Z_mod_plus_full. by rewrite Z.mod_mod by lia.
Qed.

Lemma span_pos d : d ≤ 4 → 0 < span d.
Proof. intros. apply Z.pow_pos_nonneg; lia. Qed.

Lemma idx_range v d : 0 ≤ idx v d < 512.
Proof. apply Z.mod_pos_bound. lia. Qed.

(** A page-aligned physical address is its own frame. *)
Lemma frame_page g : g mod 4096 = 0 → 0 ≤ g < 2 ^ 52 → frame g = g.
Proof. intros. rewrite frame_eq. eval_pow. zlia. Qed.

Lemma present_bit e : present e = Z.testbit e 0.
Proof. unfold present. change 1 with (1 .<< 0). by apply truthy_bit. Qed.

Lemma huge_bit e : huge e = Z.testbit e 7.
Proof. unfold huge. change 0x80 with (1 .<< 7). by apply truthy_bit. Qed.

Lemma leaf_unfold n m tbl d v :
  leaf (Datatypes.S n) m tbl d v =
  let e := read64 m (tbl + 8 * idx v d) in
  if is_table e then leaf n m (frame e) (d + 1) v else (d, e).
Proof. done. Qed.

Lemma leaf_0 m tbl d v : leaf 0 m tbl d v = (d, read64 m (tbl + 8 * idx v d)).
Proof. done. Qed.

#[export] Hint Resolve idx_range : anarch.
