(* ===== verification/PageTable.v ===== *)
(** * Page tables (src/arch/x64/vmm/page-table.cpp)

    The operations of [PageTable], reading and writing the tables through the
    fractal mapping, i.e. through virtual addresses the MMU translates with
    the very tables being edited.  The physical allocator is the interface
    [PhysAllocator]; [ansa::Bzero] is a parameter. *)

From stdpp Require Import base numbers list gmap strings.
From Stdlib Require Import ZArith Lia.
From S2P Require Import Prelude Machine Mmu.
#[local] Open Scope Z_scope.

(** ** Interfaces *)

(** The two operations of [anarch::Allocator] (src/arch/api/allocator.hpp)
    the page tables call. *)
Class PhysAllocator (A : Type) := {
  Alloc : Z → Z → M A (option Z);  (* size, align; [None]: returned false *)
  Free : Z → M A unit;
}.

(** What an allocator promises for page-sized requests: the page handed out
    is aligned, lies below 2^52 and is owned by nobody else. *)
Class AllocLaws (A : Type) `{PhysAllocator A} := {
  owned : A → gset Z;
  alloc_total : ∀ a, ∃ r (a' : A), Alloc 0x1000 0x1000 a = Ok (r, a');
  alloc_some : ∀ a p a', Alloc 0x1000 0x1000 a = Ok (Some p, a') →
    p mod 0x1000 = 0 ∧ 0 < p < 2 ^ 52 ∧ (p ∉ owned a) ∧ owned a' = {[p]} ∪ owned a;
  alloc_none : ∀ a a', Alloc 0x1000 0x1000 a = Ok (None, a') → owned a' = owned a;
  (** a lower bound on the pages that can still be handed out *)
  avail : A → nat;
  alloc_avail : ∀ a, (0 < avail a)%nat →
    ∃ p (a' : A), Alloc 0x1000 0x1000 a = Ok (Some p, a') ∧ (avail a ≤ Datatypes.S (avail a'))%nat;
}.

Class FreeLaws (A : Type) `{AllocLaws A} := {
  free_page : ∀ a p, p ∈ owned a →
    ∃ a', Free p a = Ok (tt, a') ∧ owned a' = owned a ∖ {[p]};
}.

(** [ansa::Bzero(ptr, size)]. *)
Class AnsaBzero (A : Type) := { Bzero : Z → Z → M (machine A) unit }.

(** [n] stores of a zero word from [va] on. *)
Fixpoint zero_words {A} (n : nat) (va : Z) : M (machine A) unit :=
  match n with
  | O => mret tt
  | S n' => _ ← store64 va 0; zero_words n' (va + 8)
  end.

(** [Bzero] of a whole page clears its 512 words. *)
Class BzeroLaws (A : Type) `{AnsaBzero A} := {
  bzero_page : ∀ va (s s' : machine A),
    zero_words 512 va s = Ok (tt, s') → Bzero va 0x1000 s = Ok (tt, s');
}.

(** ** Sizes and attributes (src/arch/api/memory-map.hpp) *)

Record Attributes : Type := mkAttributes {
  executable : bool;
  writable : bool;
  cachable : bool;
}.

Definition default_attributes : Attributes := mkAttributes true true true.

(** What a kind of map can do; [placementReserve]: [ReserveAt] is available,
    [placementMap]: so are the other operations that place pages. *)
Module Capabilities.
Record t : Type := mk {
  placementReserve : bool;
  placementMap : bool;
  executableFlag : bool;
  writableFlag : bool;
  cachableFlag : bool;
}.
End Capabilities.

Record Size : Type := mkSize { pageSize : Z; pageCount : Z }.

Definition Bytes (sz : Size) : Z := sz.(pageSize) *u sz.(pageCount).

Module PageTable.

Definition KernelEnd : Z := 0x8000000000.
Definition UserEnd : Z := 0xFFFFFF8000000000.

Section Ops.
Context {A : Type} `{PhysAllocator A, AnsaBzero A}.
Implicit Types (s : machine A).

Definition CalcDepth (size : Z) : M (machine A) Z :=
  if size =? 0x1000 then mret 3
  else if size =? 0x200000 then mret 2
  else if size =? 0x40000000 then mret 1
  else panic "PageTable::CalcDepth() - unknown page size".

Definition CalcMask (pageSize : Z) (kernel : bool) (attributes : Attributes) : Z :=
  1 .| (if pageSize =? 0x1000 then 0 else 0x80) .| (if kernel then 0x100 else 0x4)
    .| (if attributes.(executable) then 0 else 1 .<< 63)
    .| (if attributes.(writable) then 2 else 0).

(** [~(uint64_t)7] and [~(VirtAddr)0xfff] *)
Definition not7 : Z := 0xFFFFFFFFFFFFFFF8.
Definition notfff : Z := 0xFFFFFFFFFFFFF000.

(** The virtual address of the entry: the C++ returns it as a reference. *)
Definition entry_address (address depth : Z) : Z :=
  let address := address .& 0xFFFFFFFFFFFF in
  if depth =? 3 then 0xFFFFFF8000000000 +u ((address / 0x200) .& not7)
  else if depth =? 2 then 0xFFFFFFFFC0000000 +u ((address / 0x40000) .& not7)
  else if depth =? 1 then 0xFFFFFFFFFFE00000 +u ((address / 0x8000000) .& not7)
  else 0xFFFFFFFFFFFFF000 +u ((address / 0x1000000000) .& not7).

Definition GetTableEntry (address depth : Z) : M (machine A) Z :=
  _ ← assert ((0 <=? depth) && (depth <? 4)) "depth >= 0 && depth < 4";
  mret (entry_address address depth).

Definition GetTableStart (address depth : Z) : M (machine A) Z :=
  entryPtr ← GetTableEntry address depth;
  mret (entryPtr .& notfff).

(** [uint64_t value = GetTableEntry(address, depth)] *)
Definition load_entry (address depth : Z) : M (machine A) Z :=
  p ← GetTableEntry address depth; load64 p.

Definition IsSet (pml4 : Z) : M (machine A) bool := gets (λ s, s.(cr3) =? pml4).

Definition assert_set (pml4 : Z) : M (machine A) unit :=
  b ← IsSet pml4; assert b "IsSet()".

(** Bytes of a page at [depth], [0x1000UL << (27 - 9 * depth)]. *)
Definition depth_size (depth : Z) : Z := u64 (0x1000 .<< (27 - 9 * depth)).

(** The loop of [Walk]: [n] is 4 - depth. *)
Fixpoint walk_loop (n : nat) (addr depth entry : Z) : M (machine A) (Z * Z) :=
  match n with
  | O => mret (depth, entry)
  | Datatypes.S n' =>
      entry ← load_entry addr depth;
      if truthy (entry .& 0x80) || negb (truthy (entry .& 1))
      then mret (depth, entry)
      else walk_loop n' addr (depth + 1) entry
  end.

(** Returns the depth or -1, the last entry read and the size. *)
Definition Walk (pml4 addr : Z) : M (machine A) (Z * Z * Z) :=
  _ ← AssertNoncritical;
  _ ← assert_set pml4;
  '(depth, entry) ← walk_loop 4 addr 0 0;
  if (depth =? 4) || truthy (entry .& 0x80) then
    let depth := if depth =? 4 then 3 else depth in
    mret (depth, entry, depth_size depth)
  else mret (-1, entry, depth_size depth).

Definition alloc_op {B} (m : M A B) : M (machine A) B := λ s,
  match m s.(alloc) with
  | Ok (r, a) => Ok (r, set_alloc a s)
  | Stop f => Stop f
  end.

(** The loop of [Set]: makes the tables of depths below [theDepth]; [n] is
    [theDepth - depth].  [false]: a huge page is in the way. *)
Fixpoint set_loop (n : nat) (addr parentMask depth : Z) : M (machine A) bool :=
  match n with
  | O => mret true
  | Datatypes.S n' =>
      nextPage ← GetTableEntry addr depth;
      e ← load64 nextPage;
      if negb (truthy (e .& 1)) then
        fresh ← alloc_op (Alloc 0x1000 0x1000);
        match fresh with
        | None => panic "PageTable::Set() - allocation failed"
        | Some fresh =>
            _ ← store64 nextPage (fresh .| parentMask);
            t ← GetTableStart addr (depth + 1);
            _ ← Bzero t 0x1000;
            set_loop n' addr parentMask (depth + 1)
        end
      else if truthy (e .& 0x80) then mret false
      else
        _ ← store64 nextPage (e .| parentMask);
        set_loop n' addr parentMask (depth + 1)
  end.

(** [None]: failed; [Some b]: succeeded with [*overwrote = b]. *)
Definition Set_ (pml4 addr entry parentMask theDepth : Z)
  : M (machine A) (option bool) :=
  _ ← AssertNoncritical;
  _ ← assert_set pml4;
  _ ← assert ((0 <=? theDepth) && (theDepth <? 4)) "theDepth >= 0 && theDepth < 4";
  _ ← assert (negb (truthy (addr mod (0x1000 .<< (27 - 9 * theDepth)))))
        "!(addr % (0x1000L << (27 - 9 * theDepth)))";
  ok ← set_loop (Z.to_nat theDepth) addr parentMask 0;
  if (ok : bool) then
    entryRef ← GetTableEntry addr theDepth;
    old ← load64 entryRef;
    _ ← store64 entryRef entry;
    mret (Some (truthy old))
  else mret None.

(** The search loop of [Unset]: [n] is 3 - depth. *)
Fixpoint unset_find (n : nat) (addr depth : Z) : M (machine A) Z :=
  match n with
  | O => mret depth
  | Datatypes.S n' =>
      entry ← load_entry addr depth;
      if truthy (entry .& 0x80) then mret depth
      else if negb (truthy (entry .& 1)) then
        panic "PageTable::Unset() - no mapping found"
      else unset_find n' addr (depth + 1)
  end.

(** [for (i < 0x200) if (tablePtr[i]) return true;]: is a word non-zero? *)
Fixpoint any_entry (n : nat) (tablePtr i : Z) : M (machine A) bool :=
  match n with
  | O => mret false
  | Datatypes.S n' =>
      w ← load64 (tablePtr + 8 * i);
      if truthy w then mret true else any_entry n' tablePtr (i + 1)
  end.

(** The freeing loop of [Unset], from [depth] = [n] up to 1. *)
Fixpoint unset_free (n : nat) (addr : Z) : M (machine A) bool :=
  match n with
  | O => mret true
  | Datatypes.S n' =>
      let depth := Z.of_nat n in
      tablePtr ← GetTableStart addr depth;
      used ← any_entry 512 tablePtr 0;
      if (used : bool) then mret true
      else
        parentEntry ← GetTableEntry addr (depth - 1);
        e ← load64 parentEntry;
        let memory := e .& 0x7FFFFFFFFFFFF000 in
        _ ← store64 parentEntry 0;
        _ ← emit (EvInvlpg tablePtr 0x1000);
        _ ← alloc_op (Free memory);
        unset_free n' addr
  end.

Definition Unset (pml4 addr : Z) : M (machine A) bool :=
  _ ← AssertNoncritical;
  _ ← assert_set pml4;
  _ ← assert (negb (truthy (addr .& 0xfff))) "!(addr & 0xfff)";
  depth ← unset_find 3 addr 0;
  p ← GetTableEntry addr depth;
  _ ← store64 p 0;
  unset_free (Z.to_nat depth) addr.

(** The loop of [SetList].  [live]: the local pointer is not yet NULL;
    [cell]: the pointed-to flag, [None] while uninitialised. *)
Fixpoint setlist_loop (n : nat) (pml4 curVirt curPhys : Z) (size : Size)
    (parentMask depth : Z) (live : bool) (cell : option bool)
  : M (machine A) (option bool) :=
  match n with
  | O => mret cell
  | Datatypes.S n' =>
      r ← Set_ pml4 curVirt curPhys parentMask depth;
      match r with
      | None => panic "PageTable::SetList() - Set() failed"
      | Some o =>
          let cell := if live then Some o else cell in
          let live := live && negb o in
          setlist_loop n' pml4 (curVirt +u size.(pageSize))
            (curPhys +u size.(pageSize)) size parentMask depth live cell
      end
  end.

(** Returns the final contents of [*overwrote], when the pointer is given. *)
Definition SetList (pml4 virt phys : Z) (size : Size) (parentMask : Z)
    (overwrote : bool) : M (machine A) (option bool) :=
  _ ← AssertNoncritical;
  _ ← assert_set pml4;
  depth ← CalcDepth size.(pageSize);
  setlist_loop (Z.to_nat size.(pageCount)) pml4 virt phys size parentMask depth
    overwrote None.

(** [None]: returned false.  The caller ignores what it passed NULL for. *)
Definition Read (pml4 addr : Z) : M (machine A) (option (Z * Attributes * Z)) :=
  _ ← AssertNoncritical;
  _ ← assert_set pml4;
  '(depth, entry, size) ← Walk pml4 addr;
  if depth <? 0 then mret None
  else
    _ ← assert (negb (entry =? 0)) "entry != 0";
    _ ← assert (2 <=? depth) "depth >= 2";
    let phys := if depth =? 3 then entry .& 0x7ffffffffffff000
                else entry .& 0x7fffffffffe00000 in
    let attr := mkAttributes (negb (truthy (entry .& (1 .<< 63))))
                  (truthy (entry .& 2)) true in
    mret (Some (phys, attr, size)).
End Ops.

End PageTable.
