(* ===== verification/PageTree.v ===== *)
(** * The tree of page tables in physical memory

    [tree_ok m root T] says that the tables reachable from [root] (other than
    through the fractal slot 511 of the PML4) form a tree of distinct pages:
    [T] maps the path of indices that leads to a table, deepest index first,
    to the physical page of the table.  The lemmas say where the fractal
    mapping puts each table, and how the tree and the walks of other
    addresses change when one word of a table is written. *)

From stdpp Require Import base numbers list gmap strings.
From Stdlib Require Import ZArith Lia.
From S2P Require Import Prelude Machine Mmu PageTable.
#[local] Open Scope Z_scope.

Implicit Types (m : gmap Z Z) (T : gmap (list Z) Z) (p q : list Z) (g v e i : Z).

(** Where the code clears the flags of a table entry, bits 12 to 62. *)
Definition code_frame (e : Z) : Z := e .& 0x7FFFFFFFFFFFF000.

Definition slot (g i : Z) : Z := g + 8 * i.

(** The fractal slot. *)
Definition fractal p i : Prop := p = [] ∧ i = 511.
#[export] Instance fractal_dec p i : Decision (fractal p i).
Proof. unfold fractal. apply _. Defined.

(** The indices of the first [n] levels of the walk of [v]. *)
Fixpoint vpath (v : Z) (n : nat) : list Z :=
  match n with
  | O => []
  | Datatypes.S n' => idx v (Z.of_nat n') :: vpath v n'
  end.

Record tree_ok m (root : Z) T : Prop := {
  t_root : T !! [] = Some root;
  t_frac : is_table (read64 m (slot root 511)) = true
           ∧ frame (read64 m (slot root 511)) = root;
  t_page : ∀ p g, T !! p = Some g → g mod 4096 = 0 ∧ 0 ≤ g < 2 ^ 52;
  t_inj : ∀ p q g, T !! p = Some g → T !! q = Some g → p = q;
  t_child : ∀ p g i, T !! p = Some g → (length p < 3)%nat → 0 ≤ i < 512 →
    ¬ fractal p i →
    T !! (i :: p) = if is_table (read64 m (slot g i))
                    then Some (frame (read64 m (slot g i))) else None;
  t_clean : ∀ p g i, T !! p = Some g → (length p < 3)%nat → 0 ≤ i < 512 →
    ¬ fractal p i → is_table (read64 m (slot g i)) = true →
    code_frame (read64 m (slot g i)) = frame (read64 m (slot g i));
  t_parent : ∀ i p g, T !! (i :: p) = Some g →
    (length p < 3)%nat ∧ 0 ≤ i < 512 ∧ ¬ fractal p i ∧ is_Some (T !! p);
}.

(** A chain of tables along the walk of [v], from [root] down to the table [g]
    at depth [n]. *)
Inductive chain m (root v : Z) : nat → Z → Prop :=
  | chain_0 : chain m root v 0 root
  | chain_S n g :
      chain m root v n g →
      is_table (read64 m (slot g (idx v (Z.of_nat n)))) = true →
      chain m root v (Datatypes.S n)
        (frame (read64 m (slot g (idx v (Z.of_nat n))))).

(** The PML4 [root] maps itself at slot 511. *)
Definition self_mapped m (root : Z) : Prop :=
  root mod 4096 = 0 ∧ 0 ≤ root < 2 ^ 52
  ∧ is_table (read64 m (slot root 511)) = true
  ∧ frame (read64 m (slot root 511)) = root.

(** ** The fractal mapping *)

(** *** The address computed by [GetTableEntry] *)

Lemma not7_eq x : is_u64 x → x .& PageTable.not7 = x - x mod 8.
Proof.
  intros. unfold PageTable.not7, is_u64 in *. change 0xFFFFFFFFFFFFFFF8 with (Z.ones 61 .<< 3).
  rewrite land_field by lia. zlia.
Qed.

Lemma entry_address_eq v d : 0 ≤ d < 4 → 
  PageTable.entry_address v d = 2 ^ 64 - 2 ^ (12 + 9 * d) + 8 * (v mod 2 ^ 48 / span d).
Proof.
  intros Hd. unfold PageTable.entry_address, span.
  change 0xFFFFFFFFFFFF with (Z.ones 48). rewrite land_low by lia.
  assert (d = 0 ∨ d = 1 ∨ d = 2 ∨ d = 3) as [->|[->|[->| ->]]] by lia; cbn [Z.eqb Pos.eqb];
  rewrite not7_eq by (unfold is_u64; zlia); rewrite u64_small by (unfold is_u64; zlia); 
    change (39 - 9 * 0) with 39; change (39 - 9*1) with 30; change (39 - 9 *2) with 21; change (39 - 9 * 3) with 12; zlia.
Qed.

Lemma idx_entry_address v d k : 0 ≤ d < 4 → 0 ≤ k < 4 →
  idx (PageTable.entry_address v d) k = if k <? 4 - d then 511 else idx v (k - (4 - d)).
Proof.
  intros Hd Hk. rewrite entry_address_eq by done.
  assert (0 ≤ v mod 2 ^ 48 / span d < 2 ^ (9 + 9 * d)) as Hq.
  { split; [apply Z.div_pos; [apply Z.mod_pos_bound; lia|apply Z.pow_pos_nonneg; lia]|].
    apply Z.div_lt_upper_bound; [apply Z.pow_pos_nonneg; lia|].
    unfold span. rewrite <-Z.pow_add_r by lia. replace (39 - 9 * d + (9 + 9 * d)) with 48 by lia.
    apply Z.mod_pos_bound; lia. }
  destruct (Z.ltb_spec k (4 - d)).
  - set (q := v mod 2 ^ 48 / span d) in *. clearbody q. unfold idx, span.
    assert (d = 0 ∨ d = 1 ∨ d = 2 ∨ d = 3) as [->|[->|[->| ->]]] by lia;
    assert (k = 0 ∨ k = 1 ∨ k = 2 ∨ k = 3) as [->|[->|[->| ->]]] by lia; try lia;
    eval_pow; zlia.
  - rewrite (idx_mod48 v) by lia.
    replace (v mod 2 ^ 48 / span (k - (4 - d))) with (v mod 2 ^ 48 / span d / 2 ^ (36 - 9 * k)).
    2:{ unfold span. rewrite Z.div_div by lia. f_equal. rewrite <-Z.pow_add_r by lia. f_equal. lia. }
    set (q := v mod 2 ^ 48 / span d) in *. clearbody q. unfold idx, span.
    assert (d = 0 ∨ d = 1 ∨ d = 2 ∨ d = 3) as [->|[->|[->| ->]]] by lia;
    assert (k = 0 ∨ k = 1 ∨ k = 2 ∨ k = 3) as [->|[->|[->| ->]]] by lia; try lia;
    eval_pow; zlia.
Qed.

Lemma off_entry_address v d : 0 ≤ d < 4 → PageTable.entry_address v d mod 2 ^ 12 = 8 * idx v d.
Proof.
  intros Hd. rewrite entry_address_eq, (idx_mod48 v) by done.
  set (q := v mod 2 ^ 48 / span d) in *. clearbody q.
    assert (d = 0 ∨ d = 1 ∨ d = 2 ∨ d = 3) as [->|[->|[->| ->]]] by lia; eval_pow; zlia.
Qed.

Lemma length_vpath v n : length (vpath v n) = n.
Proof. induction n; cbn; auto. Qed.

Lemma leaf_chain m root v n g :
  chain m root v n g → (n ≤ 3)%nat →
  leaf4 m root v = leaf (3 - n) m g (Z.of_nat n) v.
Proof.
  induction 1 as [|n g Hc IH Ht]; intros Hn; [done|].
  rewrite IH by lia. replace (3 - n)%nat with (Datatypes.S (3 - Datatypes.S n)) by lia.
  rewrite leaf_unfold. cbn zeta. unfold slot in Ht. rewrite Ht.
  by rewrite Nat2Z.inj_succ, <-Z.add_1_r.
Qed.

(** Addresses that differ from an entry address only in the last 12 bits. *)
Definition same_page (a b : Z) : Prop := a / 4096 = b / 4096.

Lemma idx_same_page a b k : 0 ≤ k ≤ 3 → same_page a b → idx a k = idx b k.
Proof.
  unfold same_page, idx, span. intros Hk Hab.
  replace (2 ^ (39 - 9 * k)) with (4096 * 2 ^ (27 - 9 * k)).
  2:{ change 4096 with (2 ^ 12). rewrite <-Z.pow_add_r by lia. f_equal. lia. }
  rewrite <-!Z.div_div by (try apply Z.pow_pos_nonneg; lia). by rewrite Hab.
Qed.

(** Steps of the walk of a fractal address [va] for the table at depth [n]. *)
Lemma chain_self m root va n :
  self_mapped m root → (∀ k, 0 ≤ k < Z.of_nat n → idx va k = 511) →
  chain m root va n root.
Proof.
  intros (_ & _ & Ht & Hf). induction n as [|n IH]; intros H; [constructor|].
  rewrite <-Hf at 2. rewrite <-(H (Z.of_nat n)) by lia.
  apply chain_S; [apply IH; intros; apply H; lia|]. by rewrite H by lia.
Qed.

Lemma chain_S' m root va n g e :
  chain m root va n g → read64 m (slot g (idx va (Z.of_nat n))) = e →
  is_table e = true → chain m root va (Datatypes.S n) (frame e).
Proof. intros Hc <- Ht. by constructor. Qed.

Lemma chain_0_inv m root v g : chain m root v 0 g → g = root.
Proof. by inversion 1. Qed.

Lemma chain_S_inv m root v n g :
  chain m root v (Datatypes.S n) g → ∃ g0, chain m root v n g0
    ∧ is_table (read64 m (slot g0 (idx v (Z.of_nat n)))) = true
    ∧ g = frame (read64 m (slot g0 (idx v (Z.of_nat n)))).
Proof. inversion 1; subst; eauto. Qed.

Lemma is_table_present e : is_table e = true → present e = true.
Proof. unfold is_table. by intros [? _]%andb_true_iff. Qed.

Lemma translate_chain3 m root va g e :
  root mod 4096 = 0 → 0 ≤ root < 2 ^ 52 → canonical va = true →
  chain m root va 3 g → read64 m (slot g (idx va 3)) = e → is_table e = true →
  translate m root va = Some (frame e + va mod 4096).
Proof.
  intros Hr1 Hr2 Hc Hg He Ht. unfold translate. rewrite Hc, (frame_page root) by done.
  rewrite (leaf_chain _ _ _ 3 g) by (done || lia).
  change (leaf _ m g _ va) with (3, read64 m (slot g (idx va 3))).
  unfold leaf_frame. rewrite He, (is_table_present e) by done.
  cbn [andb negb Z.eqb]. f_equal. unfold in_page, span.
  change (2 ^ (39 - 9 * 3)) with 4096. rewrite frame_eq. eval_pow. zlia.
Qed.

Lemma canonical_entry_page v d va :
  0 ≤ d < 4 → same_page va (PageTable.entry_address v d) → canonical va = true.
Proof.
  intros Hd Hp. unfold same_page in Hp. rewrite entry_address_eq in Hp by done.
  assert (0 ≤ v mod 2 ^ 48 / span d) by
    (apply Z.div_pos; [apply Z.mod_pos_bound; lia|apply span_pos; lia]).
  unfold canonical. apply orb_true_iff. right. apply Z.leb_le.
  assert (2 ^ (12 + 9 * d) ≤ 2 ^ 39) by (apply Z.pow_le_mono_r; lia).
  eval_pow. zlia.
Qed.

(** The fractal mapping shows the table at depth [n] of the walk of [v]. *)
Lemma translate_table m root v n g va :
  self_mapped m root → chain m root v n g → (n ≤ 3)%nat →
  same_page va (PageTable.entry_address v (Z.of_nat n)) →
  translate m root va = Some (g + va mod 4096).
Proof.
  intros Hs Hc Hn Hp.
  assert (Hi : ∀ k, 0 ≤ k < 4 → idx va k =
    if k <? 4 - Z.of_nat n then 511 else idx v (k - (4 - Z.of_nat n))).
  { intros k Hk. rewrite (idx_same_page va _ k ltac:(lia) Hp).
    apply idx_entry_address; lia. }
  assert (Hself : chain m root va (if decide (n = 0) then 3 else 4 - n)%nat root).
  { apply chain_self; [done|]. intros k Hk. rewrite Hi by (destruct (decide (n = 0)%nat); lia).
    destruct (decide (n = 0)%nat); case_test; lia. }
  pose proof (canonical_entry_page v (Z.of_nat n) va ltac:(lia) Hp) as Hcan.
  destruct Hs as (Hr1 & Hr2 & Ht & Hf).
  assert (n = 0 ∨ n = 1 ∨ n = 2 ∨ n = 3)%nat as [->|[->|[->| ->]]] by lia; cbn in Hself.
  - apply chain_0_inv in Hc as ->. rewrite <-Hf at 2.
    eapply translate_chain3; [done..|by rewrite Hi by lia|done].
  - apply chain_S_inv in Hc as (g0 & ->%chain_0_inv & Ht0 & ->).
    eapply translate_chain3; [done..|by rewrite Hi by lia|done].
  - apply chain_S_inv in Hc as (g1 & Hc & Ht1 & ->).
    apply chain_S_inv in Hc as (g0 & ->%chain_0_inv & Ht0 & ->).
    eapply translate_chain3; [done..| |by rewrite Hi by lia|done].
    eapply (chain_S' _ _ _ 2); [done|by rewrite Hi by lia|done].
  - apply chain_S_inv in Hc as (g2 & Hc & Ht2 & ->).
    apply chain_S_inv in Hc as (g1 & Hc & Ht1 & ->).
    apply chain_S_inv in Hc as (g0 & ->%chain_0_inv & Ht0 & ->).
    eapply translate_chain3; [done..| |by rewrite Hi by lia|done].
    eapply (chain_S' _ _ _ 2); [|by rewrite Hi by lia|done].
    eapply (chain_S' _ _ _ 1); [done|by rewrite Hi by lia|done].
Qed.

Lemma entry_page v d : 0 ≤ d < 4 →
  same_page (PageTable.entry_address v d) (PageTable.entry_address v d).
Proof. done. Qed.

Lemma translate_entry m root v n g :
  self_mapped m root → chain m root v n g → (n ≤ 3)%nat →
  translate m root (PageTable.entry_address v (Z.of_nat n))
  = Some (slot g (idx v (Z.of_nat n))).
Proof.
  intros Hs Hc Hn. rewrite (translate_table _ _ _ _ _ _ Hs Hc Hn) by done.
  f_equal. change 4096 with (2 ^ 12). rewrite off_entry_address by lia. done.
Qed.

Lemma entry_address_u64 v d : 0 ≤ d < 4 → is_u64 (PageTable.entry_address v d).
Proof.
  intros Hd. rewrite entry_address_eq by done.
  assert (0 ≤ v mod 2 ^ 48 / span d < 2 ^ (9 + 9 * d)) as Hq.
  { split; [apply Z.div_pos; [apply Z.mod_pos_bound; lia|apply span_pos; lia]|].
    apply Z.div_lt_upper_bound; [apply span_pos; lia|].
    unfold span. rewrite <-Z.pow_add_r by lia.
    replace (39 - 9 * d + (9 + 9 * d)) with 48 by lia. apply Z.mod_pos_bound; lia. }
  replace (2 ^ (12 + 9 * d)) with (8 * 2 ^ (9 + 9 * d)).
  2:{ replace (12 + 9 * d) with (3 + (9 + 9 * d)) by lia. by rewrite (Z.pow_add_r 2 3) by lia. }
  assert (2 ^ (9 + 9 * d) ≤ 2 ^ 36) by (apply Z.pow_le_mono_r; lia).
  unfold is_u64. eval_pow. lia.
Qed.

Lemma notfff_eq x : is_u64 x → x .& PageTable.notfff = x / 4096 * 4096.
Proof.
  intros. unfold PageTable.notfff, is_u64 in *.
  change 0xFFFFFFFFFFFFF000 with (Z.ones 52 .<< 12). rewrite land_field by lia. zlia.
Qed.

(** The [i]-th word of the table [GetTableStart] points to. *)
Lemma translate_table_start m root v n g i :
  self_mapped m root → chain m root v n g → (n ≤ 3)%nat → 0 ≤ i < 512 →
  translate m root
    ((PageTable.entry_address v (Z.of_nat n) .& PageTable.notfff) + 8 * i)
  = Some (slot g i).
Proof.
  intros Hs Hc Hn Hi. rewrite notfff_eq by (apply entry_address_u64; lia).
  rewrite (translate_table _ _ _ _ _ _ Hs Hc Hn); unfold same_page; [f_equal|]; unfold slot; zlia.
Qed.

(** ** Walking the tree *)

Section Tree.
Context {m : gmap Z Z} {root : Z} {T : gmap (list Z) Z}.
Hypothesis (HT : tree_ok m root T).

Lemma tree_self : self_mapped m root.
Proof.
  destruct (t_frac _ _ _ HT). destruct (t_page _ _ _ HT [] root); [apply (t_root _ _ _ HT)|].
  done.
Qed.

Lemma vpath_not_fractal v n : idx v 0 ≠ 511 → ¬ fractal (vpath v n) (idx v (Z.of_nat n)).
Proof. intros Hv [Hp Hi]. destruct n; cbn in *; done. Qed.

Lemma tree_chain v n g : T !! vpath v n = Some g → chain m root v n g.
Proof.
  revert g. induction n as [|n IH]; intros g Hg; cbn in Hg.
  { rewrite (t_root _ _ _ HT) in Hg. injection Hg as <-. constructor. }
  destruct (t_parent _ _ _ HT _ _ _ Hg) as (Hl & Hi & Hf & [h Hh]).
  rewrite (t_child _ _ _ HT _ _ _ Hh Hl Hi Hf) in Hg.
  destruct (is_table _) eqn:Ht; [|done]. injection Hg as <-.
  constructor; auto.
Qed.

(** The next table on the walk of [v]. *)
Lemma tree_next v n g :
  idx v 0 ≠ 511 → (n < 3)%nat → T !! vpath v n = Some g →
  T !! vpath v (Datatypes.S n) =
    if is_table (read64 m (slot g (idx v (Z.of_nat n))))
    then Some (frame (read64 m (slot g (idx v (Z.of_nat n))))) else None.
Proof.
  intros Hv Hn Hg. cbn [vpath]. apply (t_child _ _ _ HT); [done|..|apply idx_range|].
  - by rewrite length_vpath.
  - by apply vpath_not_fractal.
Qed.

Lemma chain_tree v n g :
  idx v 0 ≠ 511 → (n ≤ 3)%nat → chain m root v n g → T !! vpath v n = Some g.
Proof.
  intros Hv Hn Hc. induction Hc as [|n g Hc IH Ht]; cbn; [apply (t_root _ _ _ HT)|].
  rewrite (t_child _ _ _ HT _ g); [by rewrite Ht|apply IH; lia|..].
  - rewrite length_vpath. lia.
  - apply idx_range.
  - by apply vpath_not_fractal.
Qed.

Lemma slot_ne p q g h i j :
  T !! p = Some g → T !! q = Some h → 0 ≤ i < 512 → 0 ≤ j < 512 →
  i :: p ≠ j :: q → slot g i ≠ slot h j.
Proof.
  intros Hp Hq Hi Hj Hne Heq.
  destruct (t_page _ _ _ HT _ _ Hp) as [Hg _], (t_page _ _ _ HT _ _ Hq) as [Hh _].
  unfold slot in Heq. assert (g = h ∧ i = j) as [-> ->] by zlia.
  by rewrite (t_inj _ _ _ HT _ _ _ Hp Hq) in Hne.
Qed.
End Tree.

(** ** Writing one slot *)

(** [m'] agrees with [m] on every word of the tree except the slot [x]. *)
Definition agree_off m m' T (x : list Z) : Prop :=
  ∀ q h j, T !! q = Some h → 0 ≤ j < 512 → j :: q ≠ x →
    read64 m' (slot h j) = read64 m (slot h j).

(** The walk of [v] goes through the slot [x]. *)
Definition passes (v : Z) (x : list Z) : Prop := vpath v (length x) = x.
#[export] Instance passes_dec v x : Decision (passes v x).
Proof. unfold passes. apply _. Defined.

(** Forget the tables below the slot [x]. *)
Definition prune (x : list Z) T : gmap (list Z) Z :=
  filter (λ kv, ¬ x `suffix_of` kv.1) T.

Lemma agree_write m root T p g i e :
  tree_ok m root T → T !! p = Some g → 0 ≤ i < 512 →
  agree_off m (write64 m (slot g i) e) T (i :: p).
Proof.
  intros HT Hp Hi q h j Hq Hj Hne. apply read_write_ne.
  eapply slot_ne; eauto.
Qed.

(** Entries that carry the walk to the same place. *)
Definition entry_sim (n : nat) (e e' : Z) : Prop :=
  e' = e ∨ (n < 3)%nat ∧ is_table e = true ∧ is_table e' = true ∧ frame e' = frame e.

Lemma leaf_sim m m' root T v :
  tree_ok m root T → idx v 0 ≠ 511 →
  (∀ n h, T !! vpath v n = Some h →
    entry_sim n (read64 m (slot h (idx v (Z.of_nat n))))
      (read64 m' (slot h (idx v (Z.of_nat n))))) →
  leaf4 m' root v = leaf4 m root v.
Proof.
  intros HT Hv Hsim.
  assert (∀ k n g, (n + k = 3)%nat → T !! vpath v n = Some g →
    leaf k m' g (Z.of_nat n) v = leaf k m g (Z.of_nat n) v) as Hk.
  2:{ apply (Hk 3%nat 0%nat); [done|]. apply (t_root _ _ _ HT). }
  induction k as [|k IH]; intros n g Hn Hg; pose proof (Hsim _ _ Hg) as Hr;
    unfold slot in Hr.
  { rewrite !leaf_0. destruct Hr as [->|[? _]]; [done|lia]. }
  assert (Hnext : is_table (read64 m (g + 8 * idx v (Z.of_nat n))) = true →
    leaf k m' (frame (read64 m (g + 8 * idx v (Z.of_nat n)))) (Z.of_nat n + 1) v
    = leaf k m (frame (read64 m (g + 8 * idx v (Z.of_nat n)))) (Z.of_nat n + 1) v).
  { intros Ht. replace (Z.of_nat n + 1) with (Z.of_nat (Datatypes.S n)) by lia.
    apply IH; [lia|]. cbn.
    rewrite (t_child _ _ _ HT _ g); [unfold slot; by rewrite Ht|done
      |rewrite length_vpath; lia|apply idx_range|by apply vpath_not_fractal]. }
  rewrite !leaf_unfold. cbn zeta. destruct Hr as [->|(_ & Ht & Ht' & Hf)].
  - destruct (is_table _) eqn:Ht; auto.
  - rewrite Ht, Ht', Hf. auto.
Qed.

Lemma leaf_agree m m' root T x v :
  tree_ok m root T → agree_off m m' T x → idx v 0 ≠ 511 → ¬ passes v x →
  leaf4 m' root v = leaf4 m root v.
Proof.
  intros HT Hag Hv Hx. apply (leaf_sim _ _ _ T); [done..|]. intros n h Hh. left.
  apply (Hag _ _ _ Hh); [apply idx_range|]. intros <-. apply Hx.
  unfold passes. cbn. by rewrite length_vpath.
Qed.

Lemma prune_Some x T p g :
  prune x T !! p = Some g ↔ T !! p = Some g ∧ ¬ x `suffix_of` p.
Proof. unfold prune. by rewrite map_lookup_filter_Some. Qed.

Lemma prune_lookup x T p : ¬ x `suffix_of` p → prune x T !! p = T !! p.
Proof.
  intros Hx. unfold prune. destruct (T !! p) eqn:Hp.
  - by apply map_lookup_filter_Some.
  - apply map_lookup_filter_None. by left.
Qed.

Lemma prune_sub x T p g : prune x T !! p = Some g → T !! p = Some g.
Proof. by intros [? _]%prune_Some. Qed.

(** A path without a table has none below. *)
Lemma tree_prefix m root T p l :
  tree_ok m root T → is_Some (T !! (l ++ p)) → is_Some (T !! p).
Proof.
  intros HT. induction l as [|i l IH]; cbn; [done|]. intros [g Hg].
  destruct (t_parent _ _ _ HT _ _ _ Hg) as (_ & _ & _ & Hp). auto.
Qed.

Lemma prune_none m root T x : tree_ok m root T → T !! x = None → prune x T = T.
Proof.
  intros HT Hx. apply map_filter_id. intros p g Hp [l Hl]. cbn in Hl. subst p.
  destruct (tree_prefix _ _ _ x l HT) as [? ?]; [by exists g|]. congruence.
Qed.

Lemma suffix_cons_ne x j q : x ≠ j :: q → x `suffix_of` j :: q → x `suffix_of` q.
Proof. intros Hne [[|y k] Hk]; cbn in Hk; [by subst|]. exists k. congruence. Qed.

(** A slot that holds a leaf: nothing is mapped below it any more. *)
Lemma tree_leaf m m' root T p g i :
  tree_ok m root T → agree_off m m' T (i :: p) → T !! p = Some g → ¬ fractal p i →
  length p = 3%nat ∨ is_table (read64 m' (slot g i)) = false →
  tree_ok m' root (prune (i :: p) T).
Proof.
  intros HT Hag Hp Hf Hleaf.
  assert (Hr : ∀ q h j, T !! q = Some h → 0 ≤ j < 512 → i :: p ≠ j :: q →
    read64 m' (slot h j) = read64 m (slot h j)) by (intros; eapply Hag; eauto).
  constructor.
  - rewrite prune_lookup; [apply (t_root _ _ _ HT)|].
    intros [k Hk]. by destruct k.
  - rewrite (Hr [] root 511 (t_root _ _ _ HT)); [apply (t_frac _ _ _ HT)|lia|].
    intros [= -> ->]. by apply Hf.
  - intros q h Hq%prune_sub. by eapply (t_page _ _ _ HT).
  - intros q1 q2 h H1%prune_sub H2%prune_sub. by eapply (t_inj _ _ _ HT).
  - intros q h j [Hq Hs]%prune_Some Hl Hj Hfj.
    destruct (decide (i :: p = j :: q)) as [Heq|Hne].
    + injection Heq as <- <-. rewrite Hp in Hq. injection Hq as <-.
      destruct Hleaf as [Hl3|Hl0]; [lia|]. rewrite Hl0.
      destruct (prune _ T !! _) eqn:E; [|done]. apply prune_Some in E as [_ []]. done.
    + rewrite (Hr _ _ _ Hq Hj Hne). rewrite prune_lookup.
      * by apply (t_child _ _ _ HT).
      * intros Hx. by apply Hs, (suffix_cons_ne _ j).
  - intros q h j [Hq Hs]%prune_Some Hl Hj Hfj Ht.
    destruct (decide (i :: p = j :: q)) as [Heq|Hne].
    + injection Heq as <- <-. rewrite Hp in Hq. injection Hq as <-.
      destruct Hleaf as [Hl3|Hl0]; [lia|congruence].
    + rewrite (Hr _ _ _ Hq Hj Hne) in Ht |- *. by eapply (t_clean _ _ _ HT).
  - intros j q h [Hq Hs]%prune_Some.
    destruct (t_parent _ _ _ HT _ _ _ Hq) as (? & ? & ? & [h' Hh']).
    split_and!; try done; try lia. exists h'. apply prune_Some. split; [done|].
    intros Hx. by apply Hs, suffix_cons_r.
Qed.

(** Rewriting a table entry with the same table. *)
Lemma tree_same m m' root T p g i :
  tree_ok m root T → agree_off m m' T (i :: p) → T !! p = Some g →
  ¬ fractal p i → (length p < 3)%nat → 0 ≤ i < 512 →
  is_table (read64 m (slot g i)) = true → is_table (read64 m' (slot g i)) = true →
  frame (read64 m' (slot g i)) = frame (read64 m (slot g i)) →
  code_frame (read64 m' (slot g i)) = frame (read64 m (slot g i)) →
  tree_ok m' root T.
Proof.
  intros HT Hag Hp Hf Hl Hi Ht Ht' Hfr Hc.
  constructor; try apply HT.
  - rewrite (Hag [] root 511); [apply (t_frac _ _ _ HT)|apply (t_root _ _ _ HT)|lia|].
    intros [= <- <-]. by apply Hf.
  - intros q h j Hq Hlq Hj Hfj. rewrite (t_child _ _ _ HT _ _ _ Hq Hlq Hj Hfj).
    destruct (decide (j :: q = i :: p)) as [[= -> ->]|Hne].
    + rewrite Hp in Hq. injection Hq as <-. by rewrite Ht, Ht', Hfr.
    + by rewrite (Hag _ _ _ Hq Hj Hne).
  - intros q h j Hq Hlq Hj Hfj Htq.
    destruct (decide (j :: q = i :: p)) as [[= -> ->]|Hne].
    + rewrite Hp in Hq. injection Hq as <-. congruence.
    + rewrite (Hag _ _ _ Hq Hj Hne) in Htq |- *. by eapply (t_clean _ _ _ HT).
Qed.

(** Hanging a fresh, cleared table at a slot that held none. *)
Lemma tree_new m m' root T p g i h :
  tree_ok m root T → agree_off m m' T (i :: p) → T !! p = Some g →
  ¬ fractal p i → (length p < 3)%nat → 0 ≤ i < 512 →
  is_table (read64 m (slot g i)) = false →
  is_table (read64 m' (slot g i)) = true → frame (read64 m' (slot g i)) = h →
  code_frame (read64 m' (slot g i)) = h →
  h mod 4096 = 0 → 0 ≤ h < 2 ^ 52 → (∀ q, T !! q ≠ Some h) →
  (∀ j, 0 ≤ j < 512 → read64 m' (slot h j) = 0) →
  tree_ok m' root (<[i :: p := h]> T).
Proof.
  intros HT Hag Hp Hf Hl Hi Ht Ht' Hfr Hc Hal Hb Hfresh Hz.
  assert (HN : T !! (i :: p) = None).
  { by rewrite (t_child _ _ _ HT _ _ _ Hp Hl Hi Hf), Ht. }
  assert (HN2 : ∀ j, T !! (j :: i :: p) = None).
  { intros j. destruct (T !! (j :: i :: p)) eqn:E; [|done].
    destruct (t_parent _ _ _ HT _ _ _ E) as (_ & _ & _ & [? E']). congruence. }
  constructor.
  - rewrite lookup_insert_ne by done. apply (t_root _ _ _ HT).
  - rewrite (Hag [] root 511); [apply (t_frac _ _ _ HT)|apply (t_root _ _ _ HT)|lia|].
    intros [= <- <-]. by apply Hf.
  - intros q k [[<- <-]|[Hne Hq]]%lookup_insert_Some; [done|]. by eapply (t_page _ _ _ HT).
  - intros q1 q2 k [[<- <-]|[? H1]]%lookup_insert_Some
      [[<- ?]|[? H2]]%lookup_insert_Some; subst; try done.
    + by apply Hfresh in H2.
    + by apply Hfresh in H1.
    + by eapply (t_inj _ _ _ HT).
  - intros q k j [[<- <-]|[Hne Hq]]%lookup_insert_Some Hlq Hj Hfj.
    + rewrite lookup_insert_ne by (intros Heq%(f_equal length); cbn in Heq; lia). by rewrite HN2, Hz.
    + destruct (decide (i :: p = j :: q)) as [[= <- <-]|Hne'].
      * rewrite lookup_insert_eq. rewrite Hp in Hq. injection Hq as <-. by rewrite Ht', Hfr.
      * rewrite lookup_insert_ne by done. rewrite (Hag _ _ _ Hq Hj) by done.
        by apply (t_child _ _ _ HT).
  - intros q k j [[<- <-]|[Hne Hq]]%lookup_insert_Some Hlq Hj Hfj Htq.
    + by rewrite Hz in Htq.
    + destruct (decide (i :: p = j :: q)) as [[= <- <-]|Hne'].
      * rewrite Hp in Hq. injection Hq as <-. congruence.
      * rewrite (Hag _ _ _ Hq Hj) in Htq |- * by done. by eapply (t_clean _ _ _ HT).
  - intros j q k [[[= <- <-] <-]|[Hne Hq]]%lookup_insert_Some.
    + split_and!; try done; try lia. destruct (decide (i :: p = p)) as [E|E].
      * by exists h; rewrite E, lookup_insert_eq.
      * rewrite lookup_insert_ne by done. eauto.
    + destruct (t_parent _ _ _ HT _ _ _ Hq) as (? & ? & ? & [k' Hk']).
      split_and!; try done; try lia. exists k'. rewrite lookup_insert_ne; [done|].
      intros <-. congruence.
Qed.

(** Everything above the slot [vpath v (n + 1)] survives a change there. *)
Lemma agree_self m m' root T v n :
  tree_ok m root T → idx v 0 ≠ 511 → agree_off m m' T (vpath v (Datatypes.S n)) →
  self_mapped m' root.
Proof.
  intros HT Hv Hag. destruct (tree_self HT) as (? & ? & Ht & Hf).
  assert (read64 m' (slot root 511) = read64 m (slot root 511)) as Hr.
  { apply (Hag [] root 511); [apply (t_root _ _ _ HT)|lia|].
    intros [= Hi Hp]. destruct n; [by rewrite Hi in Hv|done]. }
  repeat split; rewrite ?Hr; done || lia.
Qed.

Lemma agree_chain m m' root T v n k g :
  tree_ok m root T → idx v 0 ≠ 511 → agree_off m m' T (vpath v (Datatypes.S n)) →
  (k ≤ n)%nat → (n ≤ 3)%nat → chain m root v k g → chain m' root v k g.
Proof.
  intros HT Hv Hag Hk Hn Hc. induction Hc as [|k g Hc IH Ht]; [constructor|].
  assert (read64 m' (slot g (idx v (Z.of_nat k)))
    = read64 m (slot g (idx v (Z.of_nat k)))) as Hr.
  { apply (Hag (vpath v k)); [by apply (chain_tree HT); auto with lia|apply idx_range|].
    intros Heq%(f_equal length). cbn in Heq. rewrite !length_vpath in Heq. lia. }
  rewrite <-Hr in Ht |- *. constructor; [|done]. apply IH. lia.
Qed.

(** ** The empty address space *)

(** A PML4 with the fractal entry and no other table. *)
Lemma tree_root m root :
  root mod 4096 = 0 → 0 ≤ root < 2 ^ 52 →
  is_table (read64 m (slot root 511)) = true → frame (read64 m (slot root 511)) = root →
  (∀ i, 0 ≤ i < 511 → is_table (read64 m (slot root i)) = false) →
  tree_ok m root {[ [] := root ]}.
Proof.
  intros Hal Hb Ht Hf Hempty.
  assert (Hslot : ∀ p g i, ({[ [] := root ]} : gmap (list Z) Z) !! p = Some g →
    0 ≤ i < 512 → ¬ fractal p i → is_table (read64 m (slot g i)) = false).
  { intros p g i [<- <-]%lookup_singleton_Some Hi Hfr. apply Hempty.
    destruct (decide (i = 511)) as [->|]; [by destruct Hfr|lia]. }
  constructor.
  - apply lookup_singleton_eq.
  - done.
  - by intros p g [_ <-]%lookup_singleton_Some.
  - by intros p q g [<- _]%lookup_singleton_Some [<- _]%lookup_singleton_Some.
  - intros p g i Hp Hl Hi Hfr. rewrite (Hslot p g i) by done.
    by rewrite lookup_singleton_ne.
  - intros p g i Hp Hl Hi Hfr Hx. by rewrite (Hslot p g i) in Hx.
  - intros i p g [? _]%lookup_singleton_Some. done.
Qed.
