(* ===== verification/PageTableProofs.v ===== *)
(** * Running the page-table operations

    Symbolic execution of [PageTable] (src/arch/x64/vmm/page-table.cpp) on a
    machine whose memory holds a tree of tables: every fractal access lands in
    the table it is meant for, and the result is described by [leaf4], the
    entry the processor's own walk ends at. *)

From stdpp Require Import base numbers list gmap strings.
From Stdlib Require Import ZArith Lia.
From S2P Require Import Prelude Machine Mmu PageTable PageTree.
Import PageTable.
#[local] Open Scope Z_scope.

(** ** Masks *)

(** The flag masks the code ORs into parent entries: present, low flags only. *)
Definition parent_flags (mask : Z) : Prop := 0 ≤ mask < 128 ∧ Z.testbit mask 0 = true.

Lemma lor_div x mask n : 0 ≤ mask < 2 ^ n → 0 ≤ n → (x .| mask) / 2 ^ n = x / 2 ^ n.
Proof.
  intros Hm Hn. rewrite <-!Z.shiftr_div_pow2, Z.shiftr_lor by done.
  rewrite (Z.shiftr_div_pow2 mask), (Z.div_small mask), Z.lor_0_r by done. done.
Qed.

Lemma code_frame_eq e : code_frame e = e / 2 ^ 12 mod 2 ^ 51 * 2 ^ 12.
Proof.
  unfold code_frame. change 0x7FFFFFFFFFFFF000 with (Z.ones 51 .<< 12).
  by apply land_field.
Qed.

Section Mask.
Context (mask : Z) (Hmask : parent_flags mask).

Lemma frame_lor e : frame (e .| mask) = frame e.
Proof. rewrite !frame_eq, lor_div; [done| |lia]. destruct Hmask. eval_pow. lia. Qed.

Lemma code_frame_lor e : code_frame (e .| mask) = code_frame e.
Proof. rewrite !code_frame_eq, lor_div; [done| |lia]. destruct Hmask. eval_pow. lia. Qed.

Lemma bit7_lor e : Z.testbit (e .| mask) 7 = Z.testbit e 7.
Proof.
  rewrite Z.lor_spec. assert (Z.testbit mask 7 = false) as ->.
  { apply Z.testbit_false; [lia|]. destruct Hmask. eval_pow. zlia. }
  apply orb_false_r.
Qed.

Lemma is_table_lor e : huge e = false → is_table (e .| mask) = true.
Proof.
  unfold is_table. rewrite present_bit, !huge_bit, bit7_lor. intros ->.
  rewrite Z.lor_spec. destruct Hmask as [_ ->]. by rewrite orb_true_r.
Qed.
End Mask.

Lemma bit7_page h : h mod 4096 = 0 → huge h = false.
Proof. intros. rewrite huge_bit. apply Z.testbit_false; [lia|]. eval_pow. zlia. Qed.

Lemma code_frame_page h : h mod 4096 = 0 → 0 ≤ h < 2 ^ 52 → code_frame h = h.
Proof. intros. rewrite code_frame_eq. eval_pow. zlia. Qed.

Lemma depth_size_span d : 0 ≤ d < 4 → depth_size d = span d.
Proof.
  intros. assert (d = 0 ∨ d = 1 ∨ d = 2 ∨ d = 3) as [->|[->|[->| ->]]] by lia; done.
Qed.

(** ** The machine while tables are edited *)

(** The machine is the same but for memory and the allocator. *)
Record same_cpu {A} (s s' : machine A) : Prop := {
  sc_cr3 : s'.(cr3) = s.(cr3);
  sc_iflag : s'.(iflag) = s.(iflag);
  sc_loaded : s'.(critical_loaded) = s.(critical_loaded);
  sc_msrs : s'.(msrs) = s.(msrs);
  sc_held : s'.(held) = s.(held);
}.

#[export] Instance same_cpu_preorder {A} : PreOrder (@same_cpu A).
Proof.
  split; [by split|]. intros s1 s2 s3 H1 H2. split; etrans; apply H2 || apply H1.
Qed.

Lemma same_cpu_noncritical {A} (s s' : machine A) :
  same_cpu s s' → noncritical s → noncritical s'.
Proof. intros H. unfold noncritical. by rewrite (sc_loaded _ _ H), (sc_iflag _ _ H). Qed.

(** What making tables down to depth [d] may do to the walk of another
    address: nothing, except that an address whose walk ended above [d], at an
    entry that is not present, may now end at an empty slot. *)
Definition leaf_keep (d : Z) (m m' : gmap Z Z) (root v : Z) : Prop :=
  leaf4 m' root v = leaf4 m root v
  ∨ (leaf4 m root v).1 < d ∧ present (leaf4 m root v).2 = false
    ∧ (leaf4 m' root v).2 = 0.

Lemma leaf_keep_trans d m1 m2 m3 root v :
  leaf_keep d m1 m2 root v → leaf_keep d m2 m3 root v → leaf_keep d m1 m3 root v.
Proof.
  unfold leaf_keep. intros [E1|(H1 & H1' & H1'')] [E2|(H2 & H2' & H2'')].
  - left. congruence.
  - right. by rewrite <-E1.
  - right. by rewrite E2.
  - by right.
Qed.

Lemma leaf_keep_mono d d' m m' root v :
  d ≤ d' → leaf_keep d m m' root v → leaf_keep d' m m' root v.
Proof. intros Hd [E|(? & ? & ?)]; [by left|right; split; [lia|done]]. Qed.

Section Run.
Context {A : Type} `{AllocLaws A, BzeroLaws A}.
Implicit Types (s : machine A) (T : gmap (list Z) Z).

Record pt_state s (root : Z) T : Prop := {
  ps_cr3 : s.(cr3) = root;
  ps_noncritical : noncritical s;
  ps_tree : tree_ok s.(mem) root T;
  ps_owned : ∀ p g, T !! p = Some g → g ∈ owned s.(alloc);
}.

(** From [s] to [s'] the pages that were handed out and are not tables are left
    alone: they stay handed out, do not become tables, and keep their words. *)
Definition spared s s' T T' : Prop :=
  ∀ h, h mod 4096 = 0 → h ∈ owned s.(alloc) → (∀ p, T !! p ≠ Some h) →
    h ∈ owned s'.(alloc) ∧ (∀ p, T' !! p ≠ Some h)
    ∧ ∀ j, 0 ≤ j < 512 → read64 s'.(mem) (slot h j) = read64 s.(mem) (slot h j).

Lemma spared_refl s T : spared s s T T.
Proof. by intros h. Qed.

Lemma spared_trans s1 s2 s3 T1 T2 T3 :
  spared s1 s2 T1 T2 → spared s2 s3 T2 T3 → spared s1 s3 T1 T3.
Proof.
  intros Hs1 Hs2 h Hal Hh HT. destruct (Hs1 h Hal Hh HT) as (Hh2 & HT2 & Hr2).
  destruct (Hs2 h Hal Hh2 HT2) as (Hh3 & HT3 & Hr3). split_and!; [done..|].
  intros j Hj. by rewrite Hr3, Hr2.
Qed.

(** A store to a slot of a table spares the other pages, whether tables are
    forgotten or not. *)
Lemma spared_write s s' root T T' p g i e :
  tree_ok s.(mem) root T → T !! p = Some g → 0 ≤ i < 512 →
  s'.(mem) = write64 s.(mem) (slot g i) e →
  (∀ q h, T' !! q = Some h → T !! q = Some h) →
  (∀ h, h ∈ owned s.(alloc) → (∀ q, T !! q ≠ Some h) → h ∈ owned s'.(alloc)) →
  spared s s' T T'.
Proof.
  intros HT Hg Hi Hm Hsub Hown h Hal Hh Hno. split_and!; [by apply Hown| |].
  - intros q Hq%Hsub. by apply (Hno q).
  - intros j Hj. rewrite Hm. apply read_write_ne. intros Heq. apply (Hno p).
    destruct (t_page _ _ _ HT _ _ Hg) as [Hga _]. rewrite Hg. f_equal. unfold slot in Heq. zlia.
Qed.

Lemma run_GetTableEntry v d s :
  0 ≤ d < 4 → GetTableEntry v d s = Ok (entry_address v d, s).
Proof.
  intros Hd. unfold GetTableEntry. by run_assert lia.
Qed.

Lemma run_load_entry v n g s :
  self_mapped s.(mem) s.(cr3) → chain s.(mem) s.(cr3) v n g → (n ≤ 3)%nat →
  load_entry v (Z.of_nat n) s
  = Ok (read64 s.(mem) (slot g (idx v (Z.of_nat n))), s).
Proof.
  intros Hs Hc Hn. unfold load_entry. run run_GetTableEntry; [|lia].
  apply run_load64. by apply translate_entry.
Qed.

Lemma run_GetTableStart v d s :
  0 ≤ d < 4 → GetTableStart v d s = Ok (entry_address v d .& notfff, s).
Proof. intros Hd. unfold GetTableStart. by run run_GetTableEntry. Qed.

Lemma run_assert_set root s : s.(cr3) = root → assert_set root s = Ok (tt, s).
Proof.
  intros <-. unfold assert_set, IsSet. unfold_m. by rewrite Z.eqb_refl.
Qed.
End Run.

(** ** Walk *)

(** What [Walk] reports of the entry the processor's walk ends at. *)
Definition walk_report (l : Z * Z) : Z * Z * Z :=
  let '(d, e) := l in (if present e || huge e then d else -1, e, span d).

Lemma leaf_props n m tbl d v :
  let '(d', e) := leaf n m tbl d v in
  d ≤ d' ≤ d + Z.of_nat n ∧ (d' < d + Z.of_nat n → is_table e = false).
Proof.
  revert tbl d. induction n as [|n IH]; intros tbl d.
  { rewrite leaf_0. split; [lia|]. intros. lia. }
  rewrite leaf_unfold. cbn zeta. destruct (is_table _) eqn:Ht.
  - specialize (IH (frame (read64 m (tbl + 8 * idx v d))) (d + 1)).
    destruct (leaf n _ _ _ _) as [d' e]. destruct IH as [? IH]. split; [lia|].
    intros. apply IH. lia.
  - split; [lia|done].
Qed.

Lemma leaf4_props m root v d e :
  leaf4 m root v = (d, e) → 0 ≤ d ≤ 3 ∧ (d < 3 → is_table e = false).
Proof. intros E. pose proof (leaf_props 3 m root 0 v) as Hp. unfold leaf4 in E. rewrite E in Hp. naive_solver lia. Qed.

Section Walk.
Context {A : Type} `{AllocLaws A, BzeroLaws A}.
Implicit Types (s : machine A).

Lemma walk_loop_S n addr depth e0 :
  walk_loop (A:=A) (Datatypes.S n) addr depth e0 =
  entry ← load_entry addr depth;
  if truthy (entry .& 0x80) || negb (truthy (entry .& 1))
  then mret (depth, entry)
  else walk_loop n addr (depth + 1) entry.
Proof. done. Qed.

Lemma run_walk_loop k n v g e0 s :
  self_mapped s.(mem) s.(cr3) → chain s.(mem) s.(cr3) v n g → (n + k = 3)%nat →
  walk_loop (Datatypes.S k) v (Z.of_nat n) e0 s
  = let '(d, e) := leaf k s.(mem) g (Z.of_nat n) v in
    Ok ((if is_table e then 4 else d, e), s).
Proof.
  intros Hs. revert n g e0. induction k as [|k IH]; intros n g e0 Hc Hn.
  all: rewrite walk_loop_S, ?leaf_0, ?leaf_unfold; cbn zeta.
  all: run run_load_entry; [|done|done|lia].
  all: fold (slot g (idx v (Z.of_nat n))).
  all: set (e := read64 s.(mem) (slot g (idx v (Z.of_nat n)))).
  all: replace (truthy (e .& 128) || negb (truthy (e .& 1))) with (negb (is_table e))
    by (unfold is_table, present, huge; by rewrite negb_andb, negb_involutive, orb_comm).
  all: destruct (is_table e) eqn:Ht; cbn [negb]; [|by rewrite ?Ht].
  - by replace (Z.of_nat n + 1) with 4 by lia.
  - replace (Z.of_nat n + 1) with (Z.of_nat (Datatypes.S n)) by lia.
    apply IH; [|lia]. by constructor.
Qed.

(** [Walk] reports the entry the processor's walk ends at. *)
Lemma run_Walk v s :
  self_mapped s.(mem) s.(cr3) → noncritical s →
  Walk s.(cr3) v s = Ok (walk_report (leaf4 s.(mem) s.(cr3) v), s).
Proof.
  intros Hs Hn. unfold Walk. run run_AssertNoncritical; [|done].
  run run_assert_set; [|done].
  pose proof (run_walk_loop 3 0 v s.(cr3) 0 s Hs (chain_0 _ _ _) eq_refl) as Hl.
  unfold leaf4. change (Z.of_nat 0) with 0 in Hl.
  pose proof (leaf_props 3 s.(mem) s.(cr3) 0 v) as Hp.
  destruct (leaf 3 s.(mem) s.(cr3) 0 v) as [d e]. run Hl.
  unfold walk_report. destruct Hp as [Hd Hleaf].
  change (truthy (e .& 0x80)) with (huge e).
  destruct (is_table e) eqn:Ht; cbn [Z.eqb Pos.eqb orb].
  - assert (d = 3) as -> by (destruct (decide (d = 3)); [done|]; discriminate Hleaf; lia).
    by rewrite (is_table_present _ Ht).
  - destruct (Z.eqb_spec d 4); [lia|]. cbn [orb].
    unfold is_table in Ht. rewrite depth_size_span by lia.
    destruct (present e), (huge e); cbn in *; done.
Qed.
End Walk.

(** ** Making a table *)

Section NewTable.
Context {A : Type} `{AllocLaws A, BzeroLaws A}.
Implicit Types (s : machine A) (T : gmap (list Z) Z).

Lemma run_zero_words (P : gmap Z Z → Prop) root h va :
  (∀ m i, P m → 0 ≤ i < 512 → translate m root (va + 8 * i) = Some (slot h i)) →
  (∀ m i, P m → 0 ≤ i < 512 → P (write64 m (slot h i) 0)) →
  ∀ k j s, s.(cr3) = root → P s.(mem) → 0 ≤ j → j + Z.of_nat k = 512 →
  ∃ m', zero_words k (va + 8 * j) s = Ok (tt, set_mem m' s) ∧ P m'
    ∧ (∀ i, j ≤ i < 512 → read64 m' (slot h i) = 0)
    ∧ (∀ a, (∀ i, j ≤ i < 512 → a ≠ slot h i) → read64 m' a = read64 s.(mem) a).
Proof.
  intros Htr Hwr. induction k as [|k IH]; intros j s Hcr HP Hj Hjk.
  { exists s.(mem). split_and!; [by destruct s|done|intros; lia|done]. }
  cbn [zero_words].
  run (run_store64 _ _ (slot h j)); [|rewrite Hcr; apply Htr; [done|lia]].
  set (s1 := set_mem (write64 s.(mem) (slot h j) 0) s).
  replace (va + 8 * j + 8) with (va + 8 * (j + 1)) by lia.
  destruct (IH (j + 1) s1) as (m' & -> & HP' & Hz & Hfr); [done| |lia|lia|].
  { apply Hwr; [done|lia]. }
  exists m'. split_and!; [done|done| |].
  - intros i Hi. destruct (decide (i = j)) as [->|]; [|apply Hz; lia].
    rewrite Hfr; [apply read_write_eq|]. unfold slot. intros; lia.
  - intros a Ha. rewrite Hfr by (intros; apply Ha; lia).
    apply read_write_ne. intros <-. apply (Ha j); [lia|done].
Qed.

(** A fresh page is not a table of the tree. *)
Lemma fresh_slot s root T q g h i j :
  pt_state s root T → h mod 4096 = 0 → h ∉ owned s.(alloc) → T !! q = Some g →
  0 ≤ i < 512 → 0 ≤ j < 512 → slot h i ≠ slot g j.
Proof.
  intros Hps Hal Hown Hq Hi Hj Heq. apply Hown.
  destruct (t_page _ _ _ (ps_tree _ _ _ Hps) _ _ Hq) as [Hg _].
  assert (h = g) as -> by (unfold slot in Heq; zlia).
  by eapply (ps_owned _ _ _ Hps).
Qed.

(** The addresses a new table covers now end at an empty slot. *)
Lemma fresh_leaf m m' root T v w n g h :
  tree_ok m root T → tree_ok m' root (<[vpath v (Datatypes.S n) := h]> T) →
  T !! vpath v n = Some g → (n < 3)%nat →
  present (read64 m (slot g (idx v (Z.of_nat n)))) = false →
  vpath w (Datatypes.S n) = vpath v (Datatypes.S n) →
  (∀ i, 0 ≤ i < 512 → read64 m' (slot h i) = 0) →
  (leaf4 m root w).1 = Z.of_nat n ∧ present (leaf4 m root w).2 = false
  ∧ (leaf4 m' root w).2 = 0.
Proof.
  intros HT HT' Hg Hn Hnp Hw Hz. pose proof Hw as Hw'. cbn in Hw'.
  injection Hw' as Hi Hp.
  assert (Hl : leaf4 m root w
    = (Z.of_nat n, read64 m (slot g (idx v (Z.of_nat n))))).
  { rewrite (leaf_chain _ _ _ n g); [|apply (tree_chain HT); by rewrite Hp|lia].
    replace (3 - n)%nat with (Datatypes.S (2 - n)) by lia.
    rewrite leaf_unfold. cbn zeta. fold (slot g (idx w (Z.of_nat n))).
    rewrite Hi. unfold is_table. by rewrite Hnp. }
  rewrite Hl. split_and!; [done..|].
  rewrite (leaf_chain _ _ _ (Datatypes.S n) h);
    [|apply (tree_chain HT'); by rewrite Hw, lookup_insert_eq|lia].
  destruct (3 - Datatypes.S n)%nat; rewrite ?leaf_0, ?leaf_unfold; cbn zeta;
      fold (slot h (idx w (Z.of_nat (Datatypes.S n)))); rewrite Hz by apply idx_range; done.
Qed.

Context (mask : Z) (Hmask : parent_flags mask).

(** The steps of [Set] after the allocation of a fresh page [h]. *)
Definition link_table (v n h : Z) : M (machine A) unit :=
  _ ← store64 (entry_address v n) (h .| mask);
  t ← GetTableStart v (n + 1);
  Bzero t 0x1000.

Lemma run_link_table v n g h s s0 root T :
  pt_state s0 root T → idx v 0 ≠ 511 → (n < 3)%nat → T !! vpath v n = Some g →
  present (read64 s0.(mem) (slot g (idx v (Z.of_nat n)))) = false →
  h mod 4096 = 0 → 0 < h < 2 ^ 52 → h ∉ owned s0.(alloc) →
  s = set_alloc s.(alloc) s0 → owned s.(alloc) = {[h]} ∪ owned s0.(alloc) →
  ∃ m', link_table v (Z.of_nat n) h s = Ok (tt, set_mem m' s)
    ∧ pt_state (set_mem m' s) root (<[vpath v (Datatypes.S n) := h]> T)
    ∧ (∀ w, idx w 0 ≠ 511 → leaf_keep (Z.of_nat n + 1) s0.(mem) m' root w)
    ∧ agree_off s0.(mem) m' T (vpath v (Datatypes.S n))
    ∧ (∀ j, 0 ≤ j < 512 → read64 m' (slot h j) = 0)
    ∧ spared s0 (set_mem m' s) T (<[vpath v (Datatypes.S n) := h]> T).
Proof.
  intros Hps Hv Hn Hg Hnp Hal Hb Hown Hs Hown'.
  pose proof (ps_tree _ _ _ Hps) as HT.
  set (i := idx v (Z.of_nat n)). set (x := vpath v (Datatypes.S n)).
  set (m0 := s0.(mem)) in *.
  assert (Hi : 0 ≤ i < 512) by apply idx_range.
  set (P := λ m, agree_off m0 m T x ∧ read64 m (slot g i) = h .| mask).
  assert (Hframe : frame (h .| mask) = h) by (rewrite frame_lor, frame_page; done || lia).
  assert (Htab : is_table (h .| mask) = true)
    by (apply is_table_lor, bit7_page; done).
  assert (HPchain : ∀ m, P m → self_mapped m root ∧ chain m root v (Datatypes.S n) h).
  { intros m [Hag Hr]. split; [by eapply agree_self|].
    rewrite <-Hframe. eapply chain_S'; [|exact Hr|done].
    eapply agree_chain; [done..|lia|]. by apply (tree_chain HT). }
  assert (Hmem : s.(mem) = m0) by (by rewrite Hs).
  assert (Hcr : s.(cr3) = root) by (rewrite Hs; apply (ps_cr3 _ _ _ Hps)).
  unfold link_table.
  run (run_store64 _ _ (slot g i)).
  2:{ rewrite Hmem, Hcr. apply translate_entry; [by apply (tree_self HT)| |lia].
      by apply (tree_chain HT). }
  set (s1 := set_mem (write64 s.(mem) (slot g i) (h .| mask)) s).
  assert (HP1 : P s1.(mem)).
  { split; cbn; rewrite Hmem; [by eapply agree_write|apply read_write_eq]. }
  replace (Z.of_nat n + 1) with (Z.of_nat (Datatypes.S n)) by lia.
  run run_GetTableStart; [|lia].
  destruct (run_zero_words P root h
    (entry_address v (Z.of_nat (Datatypes.S n)) .& notfff)) with (k := 512%nat) (j := 0) (s := s1)
    as (m' & Hrun & [Hag Hr] & Hz & Hrest); [..|done|done|lia|done|].
  { intros m j [Hsm Hc]%HPchain Hj. apply translate_table_start; done || lia. }
  { intros m j [Hag Hr] Hj. split.
    - intros q g' k Hq Hk Hne. rewrite read_write_ne; [by eapply Hag|].
      by eapply fresh_slot.
    - rewrite read_write_ne; [done|]. by eapply fresh_slot. }
  rewrite Z.mul_0_r, Z.add_0_r in Hrun.
  assert (HT' : tree_ok m' root (<[x:=h]> T)).
  { eapply tree_new; try done; fold i; rewrite ?Hr; try done || lia.
    - by apply vpath_not_fractal.
    - rewrite length_vpath. lia.
    - unfold is_table, i. by rewrite Hnp.
    - rewrite code_frame_lor, code_frame_page; done || lia.
    - intros q Hq. apply Hown. by eapply (ps_owned _ _ _ Hps). }
  exists m'. split_and!.
  - eapply bzero_page, Hrun.
  - split; cbn; [done| |done|].
    + rewrite Hs. apply (ps_noncritical _ _ _ Hps).
    + intros q g' Hq. rewrite Hown'. apply lookup_insert_Some in Hq as [[_ <-]|[_ Hq]];
        [by apply elem_of_union_l, elem_of_singleton_2|].
      apply elem_of_union_r. by eapply (ps_owned _ _ _ Hps).
  - intros w Hw. destruct (decide (passes w x)) as [Hpass|Hpass].
    2:{ left. by eapply leaf_agree. }
    right. unfold passes, x in Hpass. rewrite length_vpath in Hpass.
    destruct (fresh_leaf m0 m' root T v w n g h HT HT' Hg Hn Hnp Hpass Hz) as (? & ? & ?).
    split_and!; done || lia.
  - done.
  - done.
  - intros k Hk Hko Hkn. assert (Hkh : k ≠ h) by (by intros ->).
    destruct (t_page _ _ _ HT _ _ Hg) as [Hga _]. split_and!.
    + cbn. rewrite Hown'. by apply elem_of_union_r.
    + intros q [[_ ?]|[_ ?]]%lookup_insert_Some; [by apply Hkh|by apply (Hkn q)].
    + intros j Hj. cbn [mem set_mem]. rewrite Hrest.
      * cbn [s1 mem set_mem]. rewrite Hmem. apply read_write_ne. intros Heq.
        apply (Hkn (vpath v n)). rewrite Hg. f_equal. unfold slot in Heq. zlia.
      * intros l Hl Heq. apply Hkh. unfold slot in Heq. zlia.
Qed.

Lemma link_table_then {B} v n h s s' (k : M (machine A) B) :
  link_table v n h s = Ok (tt, s') →
  (_ ← store64 (entry_address v n) (h .| mask);
   t ← GetTableStart v (n + 1);
   _ ← Bzero t 0x1000; k) s = k s'.
Proof.
  unfold link_table. intros Hr. inv_run. run Hrun. run Hrun1. by run Hrun2.
Qed.
End NewTable.

(** ** Set *)

Lemma tree_below T m root v n k :
  tree_ok m root T → T !! vpath v n = None → T !! vpath v (n + k) = None.
Proof.
  intros HT Hn. induction k as [|k IH]; [by rewrite Nat.add_0_r|].
  rewrite Nat.add_succ_r. cbn. destruct (T !! (_ :: _)) eqn:E; [|done].
  destruct (t_parent _ _ _ HT _ _ _ E) as (_ & _ & _ & [? E']). congruence.
Qed.

Lemma idx0_vpath v w n :
  vpath w (Datatypes.S n) = vpath v (Datatypes.S n) → idx v 0 ≠ 511 → idx w 0 ≠ 511.
Proof.
  induction n as [|n IH]; intros H; [|by apply IH, (f_equal tail H)].
  injection H as H. change 0 with (Z.of_nat 0). by rewrite H.
Qed.

Lemma vpath_app v n k : vpath v n `suffix_of` vpath v (n + k).
Proof.
  induction k as [|k IH]; [by rewrite Nat.add_0_r|].
  rewrite Nat.add_succ_r. cbn. by apply suffix_cons_r.
Qed.

(** A walk that has a table at depth [n] ends no higher. *)
Lemma leaf_deep m root v n g :
  chain m root v n g → (n ≤ 3)%nat → Z.of_nat n ≤ (leaf4 m root v).1.
Proof.
  intros Hc Hn. rewrite (leaf_chain _ _ _ n g) by done.
  pose proof (leaf_props (3 - n) m g (Z.of_nat n) v) as Hp.
  destruct (leaf _ _ _ _ _). cbn. lia.
Qed.

Section Set_.
Context {A : Type} `{AllocLaws A, BzeroLaws A}.
Implicit Types (s : machine A) (T : gmap (list Z) Z).

(** The contents of the slot for [v] at depth [d] before an edit: 0 when the
    table does not exist yet. *)
Definition old_entry (m : gmap Z Z) T (v : Z) (d : nat) : Z :=
  match T !! vpath v d with
  | Some g => read64 m (slot g (idx v (Z.of_nat d)))
  | None => 0
  end.

(** The machine after the loop of [Set] has reached the table at depth
    [d] of [v], from the machine [s]. *)
Record reached s s' root T T' (v : Z) (d : nat) (g' : Z) : Prop := {
  re_state : pt_state s' root T';
  re_table : T' !! vpath v d = Some g';
  re_cpu : same_cpu s s';
  re_trace : s'.(trace) = s.(trace);
  re_keep : ∀ w, idx w 0 ≠ 511 → leaf_keep (Z.of_nat d) s.(mem) s'.(mem) root w;
  re_old : ∀ w, old_entry s'.(mem) T' w d = old_entry s.(mem) T w d;
  re_sub : ∀ p g, T !! p = Some g → T' !! p = Some g;
  re_spare : spared s s' T T';
}.

Definition set_loop_post (k n : nat) v s root T (r : outcome (bool * machine A)) : Prop :=
  match r with
  | Ok (true, s') =>
      (∃ T' g', reached s s' root T T' v (n + k) g')
      ∧ (avail s.(alloc) ≤ avail s'.(alloc) + k)%nat
  | Ok (false, s') =>
      ∃ d e, leaf4 s.(mem) root v = (d, e) ∧ d < Z.of_nat (n + k)
        ∧ present e = true ∧ huge e = true
  | Stop f => f = Panic "PageTable::Set() - allocation failed"
      ∧ (avail s.(alloc) < k)%nat ∧ present (leaf4 s.(mem) root v).2 = false
  end.

Context (mask : Z) (Hmask : parent_flags mask).

(** One step of the loop at a table entry: the flags are added, and every
    walk ends where it did. *)
Lemma set_same_table v n g s root T :
  pt_state s root T → idx v 0 ≠ 511 → (n < 3)%nat → T !! vpath v n = Some g →
  let e := read64 s.(mem) (slot g (idx v (Z.of_nat n))) in
  is_table e = true →
  let s1 := set_mem (write64 s.(mem) (slot g (idx v (Z.of_nat n))) (e .| mask)) s in
  pt_state s1 root T ∧ agree_off s.(mem) s1.(mem) T (vpath v (Datatypes.S n))
  ∧ (∀ w, idx w 0 ≠ 511 → leaf4 s1.(mem) root w = leaf4 s.(mem) root w)
  ∧ T !! vpath v (Datatypes.S n) = Some (frame e) ∧ spared s s1 T T.
Proof.
  intros Hps Hv Hn Hg e Ht s1. pose proof (ps_tree _ _ _ Hps) as HT.
  assert (Hl : (length (vpath v n) < 3)%nat) by (rewrite length_vpath; lia).
  assert (Hf : ¬ fractal (vpath v n) (idx v (Z.of_nat n))) by (by apply vpath_not_fractal).
  assert (Hag : agree_off s.(mem) s1.(mem) T (vpath v (Datatypes.S n)))
    by (eapply agree_write; eauto with anarch).
  assert (Hr : read64 s1.(mem) (slot g (idx v (Z.of_nat n))) = e .| mask)
    by apply read_write_eq.
  assert (Hh : huge e = false).
  { unfold is_table in Ht. destruct (present e), (huge e); done. }
  assert (Ht' : is_table (e .| mask) = true) by (by apply is_table_lor).
  split_and!; [split| | | |].
  - apply (ps_cr3 _ _ _ Hps).
  - apply (ps_noncritical _ _ _ Hps).
  - eapply (tree_same s.(mem)); try done; rewrite ?Hr; auto using frame_lor with anarch.
    rewrite code_frame_lor by done. by eapply (t_clean _ _ _ HT); auto with anarch.
  - apply (ps_owned _ _ _ Hps).
  - done.
  - intros w Hw. eapply leaf_sim; [done..|]. intros k h Hh'.
    destruct (decide (vpath w (Datatypes.S k) = vpath v (Datatypes.S n))) as [Heq|Hne].
    + pose proof (f_equal length Heq) as Hlen. rewrite !length_vpath in Hlen.
      injection Hlen as ->. cbn in Heq. injection Heq as Hi Hp.
      rewrite Hp, Hg in Hh'. injection Hh' as <-. rewrite Hi. right.
      fold e. rewrite Hr. split_and!; auto using frame_lor.
    + left. apply (Hag _ _ _ Hh'); auto with anarch.
  - cbn. rewrite (t_child _ _ _ HT _ _ _ Hg Hl) by auto with anarch. fold e. by rewrite Ht.
  - eapply spared_write; eauto with anarch.
Qed.

Lemma set_loop_S k v n s :
  set_loop (A:=A) (Datatypes.S k) v mask n s =
  (nextPage ← GetTableEntry v n;
   e ← load64 nextPage;
   if negb (truthy (e .& 1)) then
     fresh ← alloc_op (Alloc 0x1000 0x1000);
     match fresh with
     | None => panic "PageTable::Set() - allocation failed"
     | Some fresh =>
         _ ← store64 nextPage (fresh .| mask);
         t ← GetTableStart v (n + 1);
         _ ← Bzero t 0x1000;
         set_loop k v mask (n + 1)
     end
   else if truthy (e .& 0x80) then mret false
   else _ ← store64 nextPage (e .| mask); set_loop k v mask (n + 1)) s.
Proof. done. Qed.

Lemma reached_step_same v n k s s1 s' root T T' g g' :
  pt_state s root T → same_cpu s s1 → s1.(trace) = s.(trace) →
  agree_off s.(mem) s1.(mem) T (vpath v (Datatypes.S n)) →
  (∀ w, idx w 0 ≠ 511 → leaf4 s1.(mem) root w = leaf4 s.(mem) root w) →
  T !! vpath v n = Some g → spared s s1 T T →
  reached s1 s' root T T' v (Datatypes.S n + k) g' →
  reached s s' root T T' v (Datatypes.S n + k) g'.
Proof.
  intros Hps Hcpu Htr Hag Hleaf Hg Hsp [? ? ? ? Hkeep Hold ? Hsp']. split; try done.
  - by etrans.
  - congruence.
  - intros w Hw. destruct (Hkeep w Hw) as [E|E]; [left|right]; by rewrite Hleaf in E.
  - intros w. rewrite Hold. unfold old_entry.
    destruct (T !! vpath w (Datatypes.S n + k)) as [h|] eqn:E; [|done].
    apply (Hag _ _ _ E); [auto with anarch|].
    intros Heq%(f_equal length). cbn in Heq. rewrite !length_vpath in Heq. lia.
  - by eapply spared_trans.
Qed.

Lemma reached_step_new v n k s s1 s' root T T' g' h :
  pt_state s root T → same_cpu s s1 → s1.(trace) = s.(trace) →
  agree_off s.(mem) s1.(mem) T (vpath v (Datatypes.S n)) →
  (∀ w, idx w 0 ≠ 511 → leaf_keep (Z.of_nat n + 1) s.(mem) s1.(mem) root w) →
  T !! vpath v (Datatypes.S n) = None →
  (∀ i, 0 ≤ i < 512 → read64 s1.(mem) (slot h i) = 0) →
  spared s s1 T (<[vpath v (Datatypes.S n) := h]> T) →
  reached s1 s' root (<[vpath v (Datatypes.S n) := h]> T) T' v (Datatypes.S n + k) g' →
  reached s s' root T T' v (Datatypes.S n + k) g'.
Proof.
  intros Hps Hcpu Htr Hag Hkeep1 Hnone Hz Hsp [? ? ? ? Hkeep Hold Hsub Hsp'].
  split; try done.
  - by etrans.
  - congruence.
  - intros w Hw. eapply leaf_keep_trans; [|by auto].
    eapply leaf_keep_mono; [|by auto]. lia.
  - intros w. rewrite Hold. unfold old_entry.
    destruct (decide (vpath v (Datatypes.S n) = vpath w (Datatypes.S n + k))) as [Heq|Hne].
    + rewrite <-Heq, lookup_insert_eq, Hnone. apply Hz. auto with anarch.
    + rewrite lookup_insert_ne by done.
      destruct (T !! vpath w (Datatypes.S n + k)) as [g|] eqn:E; [|done].
      apply (Hag _ _ _ E); [auto with anarch|].
      intros Heq%(f_equal length). cbn in Heq. rewrite !length_vpath in Heq. lia.
  - intros p g Hp. apply Hsub. rewrite lookup_insert_ne; [done|]. intros <-. congruence.
  - by eapply spared_trans.
Qed.

Lemma run_set_loop k n v s root T g :
  pt_state s root T → idx v 0 ≠ 511 → (n + k ≤ 3)%nat → T !! vpath v n = Some g →
  set_loop_post k n v s root T (set_loop k v mask (Z.of_nat n) s).
Proof.
  revert n s T g. induction k as [|k IH]; intros n s T g Hps Hv Hk Hg.
  { cbn. split; [|lia]. exists T, g. rewrite Nat.add_0_r. split; try done.
    intros w _. by left. }
  pose proof (ps_tree _ _ _ Hps) as HT. pose proof (ps_cr3 _ _ _ Hps) as Hcr.
  assert (Hc : chain s.(mem) root v n g) by (by apply (tree_chain HT)).
  assert (Htr : translate s.(mem) s.(cr3) (entry_address v (Z.of_nat n))
    = Some (slot g (idx v (Z.of_nat n)))).
  { rewrite Hcr. apply translate_entry; [by apply (tree_self HT)|done|lia]. }
  assert (Hleaf : is_table (read64 s.(mem) (slot g (idx v (Z.of_nat n)))) = false →
    leaf4 s.(mem) root v = (Z.of_nat n, read64 s.(mem) (slot g (idx v (Z.of_nat n))))).
  { intros Hnt. rewrite (leaf_chain _ _ _ n g) by (done || lia).
    replace (3 - n)%nat with (Datatypes.S (2 - n)) by lia. rewrite leaf_unfold.
    cbn zeta. unfold slot in *. by rewrite Hnt. }
  rewrite set_loop_S. run run_GetTableEntry; [|lia]. run run_load64; [|exact Htr].
  set (e := read64 s.(mem) (slot g (idx v (Z.of_nat n)))) in *.
  change (truthy (e .& 1)) with (present e). change (truthy (e .& 0x80)) with (huge e).
  destruct (present e) eqn:Hp; cbn [negb].
  - destruct (huge e) eqn:Hh.
    { cbn. exists (Z.of_nat n), e. split_and!; [|lia|done..].
      apply Hleaf. unfold is_table. by rewrite Hp, Hh. }
    assert (Ht : is_table e = true) by (unfold is_table; by rewrite Hp, Hh).
    run run_store64; [|exact Htr].
    replace (Z.of_nat n + 1) with (Z.of_nat (Datatypes.S n)) by lia.
    destruct (set_same_table v n g s root T Hps Hv ltac:(lia) Hg Ht)
      as (Hps1 & Hag & Hl1 & Hg1 & Hsp1).
    fold e in Hps1, Hag, Hl1, Hg1, Hsp1.
    set (s1 := set_mem _ s) in *.
    specialize (IH (Datatypes.S n) s1 T (frame e) Hps1 Hv ltac:(lia) Hg1).
    unfold set_loop_post in *.
    destruct (set_loop _ _ _ _ _) as [[[] s']|f].
    + destruct IH as [(T' & g' & Hre) Hav]. split; [|cbn in Hav; lia].
      exists T', g'. rewrite Nat.add_succ_r, <-Nat.add_succ_l.
      by eapply (reached_step_same v n k s s1).
    + destruct IH as (d & e' & He & ?). exists d, e'. rewrite <-(Hl1 v Hv).
      rewrite Nat.add_succ_r, <-Nat.add_succ_l. done.
    + destruct IH as (? & Hav & Hnp). split_and!; [done|cbn in Hav; lia|].
      by rewrite <-(Hl1 v Hv).
  - assert (Hg1 : T !! vpath v (Datatypes.S n) = None).
    { cbn. rewrite (t_child _ _ _ HT _ _ _ Hg); auto using vpath_not_fractal with anarch.
      - unfold is_table. fold e. by rewrite Hp.
      - rewrite length_vpath. lia. }
    assert (Hlp : present (leaf4 s.(mem) root v).2 = false)
      by (rewrite Hleaf by (unfold is_table; by rewrite Hp); exact Hp).
    destruct (alloc_total s.(alloc)) as (r & a' & Ha). unfold alloc_op.
    erewrite run_bind; [cbn beta|by rewrite Ha]. destruct r as [h|].
    2:{ unfold set_loop_post, panic, stop. split_and!; [reflexivity| |done].
        destruct (decide (0 < avail s.(alloc))%nat) as [Hpos|]; [|lia].
        destruct (alloc_avail _ Hpos) as (? & ? & ? & _). congruence. }
    assert (Hav : (avail s.(alloc) ≤ Datatypes.S (avail a'))%nat).
    { destruct (decide (0 < avail s.(alloc))%nat) as [Hpos|]; [|lia].
      destruct (alloc_avail _ Hpos) as (p & a2 & Ha2 & ?). rewrite Ha in Ha2.
      by injection Ha2 as _ <-. }
    destruct (alloc_some _ _ _ Ha) as (Hal & Hb & Hfr & Hown).
    destruct (run_link_table mask Hmask v n g h (set_alloc a' s) s root T
      Hps Hv ltac:(lia) Hg Hp Hal Hb Hfr eq_refl Hown) as (m' & Hlink & Hps1 & Hkeep & Hag & Hz & Hsp1).
    rewrite (link_table_then _ _ _ _ _ _ _ Hlink).
    replace (Z.of_nat n + 1) with (Z.of_nat (Datatypes.S n)) by lia.
    set (s1 := set_mem m' (set_alloc a' s)) in *.
    specialize (IH (Datatypes.S n) s1 _ h Hps1 Hv ltac:(lia) (lookup_insert_eq _ _ _)).
    unfold set_loop_post in *.
    destruct (set_loop _ _ _ _ _) as [[[] s']|f].
    + destruct IH as [(T' & g' & Hre) Hav']. split; [|cbn in Hav'; lia].
      exists T', g'. rewrite Nat.add_succ_r, <-Nat.add_succ_l.
      by eapply (reached_step_new v n k s s1).
    + destruct IH as (d & e' & He & Hd & Hpe & Hhe). exfalso.
      change m' with s1.(mem) in Hkeep.
      specialize (Hkeep v Hv). unfold leaf_keep in Hkeep.
      rewrite He, Hleaf in Hkeep by (unfold is_table; by rewrite Hp).
      destruct Hkeep as [E|(_ & _ & E)]; [|cbn in E; by subst].
      injection E as _ <-. congruence.
    + destruct IH as (? & Hav' & _). split_and!; [done|cbn in Hav'; lia|done].
Qed.

(** [w] lies in the page of depth [d] that holds [v], seen by the walk. *)
Definition covers (v d w : Z) : Prop := w mod 2 ^ 48 / span d = v mod 2 ^ 48 / span d.
#[export] Instance covers_dec v d w : Decision (covers v d w).
Proof using. unfold covers. apply _. Defined.

Lemma vpath_covers v w d :
  (d ≤ 3)%nat → vpath w (Datatypes.S d) = vpath v (Datatypes.S d) ↔ covers v (Z.of_nat d) w.
Proof using.
  intros Hd. unfold covers. cbn [vpath].
  rewrite !idx_mod48 by lia.
  assert (0 ≤ w mod 2 ^ 48 < 2 ^ 48) as Hw by (apply Z.mod_pos_bound; lia).
  assert (0 ≤ v mod 2 ^ 48 < 2 ^ 48) as Hv by (apply Z.mod_pos_bound; lia).
  assert (d = 0 ∨ d = 1 ∨ d = 2 ∨ d = 3)%nat as [->|[->|[->| ->]]] by lia; cbn [vpath];
    rewrite ?idx_mod48 by lia; unfold span; generalize dependent (w mod 2 ^ 48);
    generalize dependent (v mod 2 ^ 48); clear; intros v Hv w Hw; eval_pow;
    (split; [intros H; injection H; intros; zlia|intros;
      repeat (apply (f_equal2 cons); [zlia|]); done]).
Qed.

Lemma write_leaf v d e s root T g :
  pt_state s root T → idx v 0 ≠ 511 → (d ≤ 3)%nat → T !! vpath v d = Some g →
  (d = 3%nat ∨ is_table e = false) →
  let s1 := set_mem (write64 s.(mem) (slot g (idx v (Z.of_nat d))) e) s in
  pt_state s1 root (prune (vpath v (Datatypes.S d)) T)
  ∧ (∀ w, covers v (Z.of_nat d) w → leaf4 s1.(mem) root w = (Z.of_nat d, e))
  ∧ (∀ w, idx w 0 ≠ 511 → ¬ covers v (Z.of_nat d) w →
       leaf4 s1.(mem) root w = leaf4 s.(mem) root w)
  ∧ (∀ w, ¬ covers v (Z.of_nat d) w →
       old_entry s1.(mem) (prune (vpath v (Datatypes.S d)) T) w d = old_entry s.(mem) T w d).
Proof.
  intros Hps Hv Hd Hg Hlf s1. pose proof (ps_tree _ _ _ Hps) as HT.
  assert (Hag : agree_off s.(mem) s1.(mem) T (vpath v (Datatypes.S d)))
    by (eapply agree_write; eauto with anarch).
  assert (Hr : read64 s1.(mem) (slot g (idx v (Z.of_nat d))) = e) by apply read_write_eq.
  split_and!; [split| | |].
  - apply (ps_cr3 _ _ _ Hps).
  - apply (ps_noncritical _ _ _ Hps).
  - eapply (tree_leaf s.(mem)); try done; [by apply vpath_not_fractal|].
    rewrite Hr, length_vpath. naive_solver.
  - intros p h Hp%prune_sub. by eapply (ps_owned _ _ _ Hps).
  - intros w Hw%vpath_covers; [|done]. pose proof Hw as [= Hi Hp].
    rewrite (leaf_chain _ _ _ d g); [| |done].
    2:{ apply (agree_chain s.(mem) _ _ T _ d); [done|by eapply idx0_vpath| |done..|].
        - by rewrite Hw.
        - apply (tree_chain HT). by rewrite Hp. }
    destruct (3 - d)%nat eqn:Hk; rewrite ?leaf_0, ?leaf_unfold; cbn zeta;
      fold (slot g (idx w (Z.of_nat d))); rewrite Hi, Hr; [done|].
    destruct Hlf as [->|Hlf]; [lia|by rewrite Hlf].
  - intros w Hw Hc. eapply leaf_agree; [done..|]. unfold passes.
    rewrite length_vpath. by rewrite vpath_covers.
  - intros w Hc. unfold old_entry. rewrite prune_lookup.
    2:{ intros Hs%suffix_length. rewrite !length_vpath in Hs. lia. }
    destruct (T !! vpath w d) as [h|] eqn:E; [|done].
    apply (Hag _ _ _ E); [auto with anarch|]. intros Heq.
    by apply Hc, vpath_covers.
Qed.

(** What [Set] leaves of the walks, from [s] to [s']. *)
Record edited s s' root T T' (v d e : Z) : Prop := {
  ed_state : pt_state s' root T';
  ed_cpu : same_cpu s s';
  ed_trace : s'.(trace) = s.(trace);
  ed_here : ∀ w, covers v d w → leaf4 s'.(mem) root w = (d, e);
  ed_else : ∀ w, idx w 0 ≠ 511 → ¬ covers v d w →
    leaf_keep d s.(mem) s'.(mem) root w;
  ed_old : ∀ w, ¬ covers v d w →
    old_entry s'.(mem) T' w (Z.to_nat d) = old_entry s.(mem) T w (Z.to_nat d);
  ed_spare : spared s s' T T';
  ed_sub : ∀ q g, (length q ≤ Z.to_nat d)%nat → T !! q = Some g → T' !! q = Some g;
}.

(** A huge page covers [v] above depth [d]. *)
Definition blocked (m : gmap Z Z) (root v d : Z) : Prop :=
  (leaf4 m root v).1 < d ∧ present (leaf4 m root v).2 = true
  ∧ huge (leaf4 m root v).2 = true.

Definition set_post v e d s root T (r : outcome (option bool * machine A)) : Prop :=
  match r with
  | Ok (Some b, s') =>
      (∃ T', edited s s' root T T' v d e)
      ∧ ¬ blocked s.(mem) root v d
      ∧ b = truthy (old_entry s.(mem) T v (Z.to_nat d))
      ∧ (avail s.(alloc) ≤ avail s'.(alloc) + Z.to_nat d)%nat
  | Ok (None, s') => blocked s.(mem) root v d
  | Stop f => f = Panic "PageTable::Set() - allocation failed"
      ∧ (avail s.(alloc) < Z.to_nat d)%nat ∧ present (leaf4 s.(mem) root v).2 = false
  end.

Lemma run_Set v e d s root T :
  pt_state s root T → idx v 0 ≠ 511 → 0 ≤ d ≤ 3 → v mod span d = 0 →
  (d = 3 ∨ is_table e = false) →
  set_post v e d s root T (Set_ root v e mask d s).
Proof.
  intros Hps Hv Hd Hal Hlf. pose proof (ps_tree _ _ _ Hps) as HT.
  unfold Set_. run run_AssertNoncritical; [|apply (ps_noncritical _ _ _ Hps)].
  run run_assert_set; [|apply (ps_cr3 _ _ _ Hps)]. run_assert lia.
  run_assert ltac:(apply negb_true_iff, truthy_false;
    assert (d = 0 ∨ d = 1 ∨ d = 2 ∨ d = 3) as [->|[->|[->| ->]]] by lia; exact Hal).
  pose proof (run_set_loop (Z.to_nat d) 0 v s root T root Hps Hv ltac:(lia)
    (t_root _ _ _ HT)) as Hloop.
  change (Z.of_nat 0) with 0 in Hloop. unfold set_loop_post in Hloop.
  destruct (set_loop _ _ _ _ _) as [[[] s1]|f] eqn:Hrun; cbn in Hloop.
  2:{ run Hrun. destruct Hloop as (d' & e' & Hl & ?). cbn. unfold blocked.
      rewrite Hl. cbn. by rewrite Z2Nat.id in * by lia. }
  2:{ erewrite run_bind_stop by exact Hrun. done. }
  run Hrun. destruct Hloop as [(T1 & g & [Hps1 Hg1 Hcpu Htr Hkeep Hold Hsub Hsp]) Hav].
  pose proof (ps_tree _ _ _ Hps1) as HT1. 
  run run_GetTableEntry; [|lia].
  assert (Htrans : translate s1.(mem) s1.(cr3) (entry_address v d) = Some (slot g (idx v d))).
  { rewrite (ps_cr3 _ _ _ Hps1). rewrite <-(Z2Nat.id d) by lia.
    apply translate_entry; [by apply (tree_self HT1)|by apply (tree_chain HT1)|lia]. }
  run run_load64; [|exact Htrans]. run run_store64; [|exact Htrans].
  destruct (write_leaf v (Z.to_nat d) e s1 root T1 g) as (Hps2 & Hhere & Helse & Hold2);
    [done|done|lia|done|destruct Hlf as [->|]; [by left|by right]|].
  rewrite Z2Nat.id in * by lia. cbn.
  specialize (Hold v) as Holdv. unfold old_entry in Holdv at 1.
  rewrite Hg1, Z2Nat.id in Holdv by lia.
  split_and!; [| |by rewrite Holdv|done].
  2:{ intros (Hb1 & Hb2 & _). destruct (Hkeep v Hv) as [E|(_ & E & _)]; [|congruence].
      rewrite <-E in Hb1. pose proof (leaf_deep s1.(mem) root v (Z.to_nat d) g
        (tree_chain HT1 _ _ _ Hg1) ltac:(lia)). lia. }
  eexists. split; [exact Hps2| |done|done| | | |].
  - etrans; [exact Hcpu|by split].
  - intros w Hw Hc. unfold leaf_keep. cbn in Helse |- *.
    rewrite Helse by done. by apply Hkeep.
  - intros w Hc. rewrite <-Hold. by apply Hold2.
  - eapply spared_trans; [exact Hsp|].
    eapply spared_write; [exact HT1|exact Hg1|apply idx_range|done|intros ? ?; apply prune_sub|done].
  - intros q h Hq Hh. rewrite prune_lookup; [by apply Hsub|].
    intros Hs%suffix_length. rewrite length_vpath in Hs. lia.
Qed.

(** The walks tell what the processor translates. *)
Lemma pt_translate s root T v :
  pt_state s root T →
  translate s.(mem) root v =
    if canonical v then leaf_frame (leaf4 s.(mem) root v) v else None.
Proof.
  intros Hps. unfold translate.
  destruct (t_page _ _ _ (ps_tree _ _ _ Hps) [] root (t_root _ _ _ (ps_tree _ _ _ Hps))).
  by rewrite frame_page.
Qed.

Lemma keep_translate d s s' root T T' w :
  pt_state s root T → pt_state s' root T' → leaf_keep d s.(mem) s'.(mem) root w →
  translate s'.(mem) root w = translate s.(mem) root w.
Proof.
  intros Hps Hps' Hk. rewrite !(pt_translate _ _ _ w) by done.
  destruct (canonical w); [|done]. destruct Hk as [->|(_ & Hp & Hz)]; [done|].
  destruct (leaf4 s.(mem) root w), (leaf4 s'.(mem) root w); cbn in *.
  by rewrite Hp, Hz.
Qed.
End Set_.
