(* ===== verification/PageTableList.v ===== *)
(** * Mapping, unmapping and reading ranges of pages

    [SetList], [Unset] and [Read] of src/arch/x64/vmm/page-table.cpp on top
    of [PageTableProofs.v], then the properties of the page-table operations
    in terms of what the processor translates. *)

From stdpp Require Import base numbers list gmap strings.
From Stdlib Require Import ZArith Lia.
From S2P Require Import Prelude Machine Mmu PageTable PageTree PageTableProofs.
Import PageTable.
#[local] Open Scope Z_scope.

(** ** Ranges of pages *)

Lemma covers_div v d w :
  0 ≤ d ≤ 3 →
  covers v d w ↔ w / span d mod 2 ^ (9 + 9 * d) = v / span d mod 2 ^ (9 + 9 * d).
Proof.
  intros Hd. unfold covers, span.
  assert (d = 0 ∨ d = 1 ∨ d = 2 ∨ d = 3) as [->|[->|[->| ->]]] by lia; eval_pow;
    split; intros; zlia.
Qed.

Lemma covers_self v d : covers v d v.
Proof. done. Qed.

Lemma covers_page v d i :
  0 ≤ d ≤ 3 → (v + i * span d) / span d = v / span d + i.
Proof. intros. pose proof (span_pos d). rewrite Z.div_add by lia. lia. Qed.

(** Two pages of a range shorter than the address space are different. *)
Lemma covers_distinct v d w i j :
  0 ≤ d ≤ 3 → 0 < j - i → (j - i) * span d < 2 ^ 48 →
  covers (v + i * span d) d w → ¬ covers (v + j * span d) d w.
Proof.
  intros Hd Hij Hlt. rewrite !covers_div, !covers_page by done.
  assert (j - i < 2 ^ (9 + 9 * d)) as Hb.
  { pose proof (span_pos d). apply (Z.mul_lt_mono_pos_r (span d)); [lia|].
    unfold span in *. rewrite <-Z.pow_add_r by lia.
    by replace (9 + 9 * d + (39 - 9 * d)) with 48 by lia. }
  intros -> Heq.
  assert (0 < 2 ^ (9 + 9 * d)) by (apply Z.pow_pos_nonneg; lia).
  set (K := 2 ^ (9 + 9 * d)) in *. clearbody K. set (q := v / span d) in *. clearbody q.
  assert ((j - i) mod K = 0) as Hm.
  { replace (j - i) with ((q + j) - (q + i)) by lia.
    rewrite Zminus_mod, Heq, Z.sub_diag. apply Z.mod_0_l. lia. }
  rewrite Z.mod_small in Hm; lia.
Qed.

Lemma idx_covers v d w : 0 ≤ d ≤ 3 → covers v d w → idx w 0 = idx v 0.
Proof.
  intros Hd. unfold covers. rewrite !(idx_mod48 _ 0) by lia. unfold span.
  assert (d = 0 ∨ d = 1 ∨ d = 2 ∨ d = 3) as [->|[->|[->| ->]]] by lia; eval_pow;
    intros; zlia.
Qed.

(** Bit 7 of the entries of a list of huge pages. *)
Lemma huge_step e d i : 0 ≤ d ≤ 2 → huge (e + i * span d) = huge e.
Proof.
  intros Hd. rewrite !huge_bit. apply eq_bool_prop_intro.
  rewrite !Is_true_true, !Z.testbit_true by lia. unfold span.
  assert (d = 0 ∨ d = 1 ∨ d = 2) as [->|[->| ->]] by lia; eval_pow; split; intros; zlia.
Qed.

(** ** SetList *)

Section SetList.
Context {A : Type} `{AllocLaws A, BzeroLaws A}.
Implicit Types (s : machine A) (T : gmap (list Z) Z).
Context (mask : Z) (Hmask : parent_flags mask).
Context (root d : Z) (Hd : 0 ≤ d ≤ 3).

(** Is any entry of the range in use? *)
Fixpoint any_old (m : gmap Z Z) T (n : nat) (virt : Z) : bool :=
  match n with
  | O => false
  | Datatypes.S n' =>
      truthy (old_entry m T virt (Z.to_nat d)) || any_old m T n' (virt + span d)
  end.

Record list_edited s s' T T' (n : nat) (virt phys : Z) : Prop := {
  le_state : pt_state s' root T';
  le_cpu : same_cpu s s';
  le_trace : s'.(trace) = s.(trace);
  le_here : ∀ w i, 0 ≤ i < Z.of_nat n → covers (virt + i * span d) d w →
    leaf4 s'.(mem) root w = (d, phys + i * span d);
  le_else : ∀ w, idx w 0 ≠ 511 →
    (∀ i, 0 ≤ i < Z.of_nat n → ¬ covers (virt + i * span d) d w) →
    leaf_keep d s.(mem) s'.(mem) root w;
  le_spare : spared s s' T T';
  le_sub : ∀ q g, (length q ≤ Z.to_nat d)%nat → T !! q = Some g → T' !! q = Some g;
}.

Definition setlist_post (n : nat) (virt phys : Z) (live : bool) (cell : option bool)
    s T (r : outcome (option bool * machine A)) : Prop :=
  match r with
  | Ok (c, s') =>
      (∃ T', list_edited s s' T T' n virt phys)
      ∧ c = (if live && negb (n =? 0)%nat then Some (any_old s.(mem) T n virt) else cell)
      ∧ (avail s.(alloc) ≤ avail s'.(alloc) + n * Z.to_nat d)%nat
  | Stop f =>
      f = Panic "PageTable::Set() - allocation failed"
      ∧ (avail s.(alloc) < n * Z.to_nat d)%nat
      ∨ f = Panic "PageTable::SetList() - Set() failed"
      ∧ ∃ i, 0 ≤ i < Z.of_nat n ∧ blocked s.(mem) root (virt + i * span d) d
  end.

Lemma any_old_edited s s' T T' v e n virt :
  edited s s' root T T' v d e →
  (∀ i, 0 ≤ i < Z.of_nat n → ¬ covers v d (virt + i * span d)) →
  any_old s'.(mem) T' n virt = any_old s.(mem) T n virt.
Proof.
  intros He. revert virt. induction n as [|n IH]; intros virt Hc; [done|]. cbn.
  rewrite (ed_old _ _ _ _ _ _ _ _ He), IH; [done| |].
  - intros i Hi. replace (virt + span d + i * span d) with (virt + (i + 1) * span d) by lia.
    apply Hc. lia.
  - specialize (Hc 0). rewrite Z.mul_0_l, Z.add_0_r in Hc. apply Hc. lia.
Qed.

Lemma blocked_edited s s' T T' v e w :
  edited s s' root T T' v d e → idx w 0 ≠ 511 → ¬ covers v d w →
  blocked s'.(mem) root w d → blocked s.(mem) root w d.
Proof.
  unfold blocked. intros He Hw Hc Hb.
  destruct (ed_else _ _ _ _ _ _ _ _ He w Hw Hc) as [<-|(_ & _ & Hz)]; [done|].
  rewrite Hz in Hb. by destruct Hb as (_ & ? & _).
Qed.

(** One page, then the rest of the range. *)
Lemma list_edited_cons s s1 s' T T1 T' n virt phys :
  edited s s1 root T T1 virt d phys →
  list_edited s1 s' T1 T' n (virt + span d) (phys + span d) →
  Z.of_nat (Datatypes.S n) * span d ≤ 2 ^ 48 → idx virt 0 ≠ 511 →
  list_edited s s' T T' (Datatypes.S n) virt phys.
Proof.
  intros [? ? ? Hh He _ Hsp ?] [? ? ? Hh' He' Hsp' ?] Hlt Hv.
  split; [done|by etrans|congruence|..|by eapply spared_trans|by auto].
  - intros w i Hi Hc. destruct (decide (i = 0)) as [->|].
    + rewrite Z.mul_0_l, Z.add_0_r in *.
      rewrite <-(Hh w Hc). destruct (He' w) as [E|E].
      * by rewrite (idx_covers virt d).
      * intros j Hj. replace (virt + span d + j * span d)
          with (virt + (j + 1) * span d) by lia.
        apply (covers_distinct virt d w 0); [done|lia| |by rewrite Z.mul_0_l, Z.add_0_r].
        pose proof (span_pos d). nia.
      * done.
      * rewrite (Hh w Hc) in E. cbn in E. lia.
    + rewrite (Hh' w (i - 1)); [f_equal; lia|lia|].
      by replace (virt + span d + (i - 1) * span d) with (virt + i * span d) by lia.
  - intros w Hw Hc. apply (leaf_keep_trans _ _ s1.(mem)).
    + apply He; [done|]. specialize (Hc 0). rewrite Z.mul_0_l, Z.add_0_r in Hc.
      apply Hc. lia.
    + apply He'; [done|]. intros i Hi.
      replace (virt + span d + i * span d) with (virt + (i + 1) * span d) by lia.
      apply Hc. lia.
Qed.

(** A range the list may be written to. *)
Record good_range (n : nat) (virt phys : Z) : Prop := {
  gr_align : virt mod span d = 0;
  gr_virt : 0 ≤ virt ∧ virt + Z.of_nat n * span d < 2 ^ 64;
  gr_phys : 0 ≤ phys ∧ phys + Z.of_nat n * span d < 2 ^ 64;
  gr_len : Z.of_nat n * span d ≤ 2 ^ 48;
  gr_slot : ∀ i, 0 ≤ i < Z.of_nat n → idx (virt + i * span d) 0 ≠ 511;
  gr_huge : d = 3 ∨ huge phys = true;
}.

Lemma good_range_tail n virt phys :
  good_range (Datatypes.S n) virt phys →
  good_range n (virt + span d) (phys + span d)
  ∧ virt +u span d = virt + span d ∧ phys +u span d = phys + span d.
Proof.
  intros [? ? ? ? Hs Hh]. pose proof (span_pos d ltac:(lia)). rewrite Nat2Z.inj_succ in *.
  split; [split|].
  - replace (virt + span d) with (virt + 1 * span d) by lia.
    by rewrite Z_mod_plus_full.
  - nia.
  - nia.
  - nia.
  - intros i Hi. replace (virt + span d + i * span d) with (virt + (i + 1) * span d) by lia.
    apply Hs. lia.
  - destruct (decide (d = 3)); [by left|right]. destruct Hh as [|Hh]; [done|].
    rewrite <-(huge_step _ d 1) in Hh by lia. by rewrite Z.mul_1_l in Hh.
  - split; apply u64_small; unfold is_u64; nia.
Qed.

Lemma run_setlist_loop n virt phys size live cell s T :
  pt_state s root T → size.(pageSize) = span d → good_range n virt phys →
  setlist_post n virt phys live cell s T
    (setlist_loop n root virt phys size mask d live cell s).
Proof.
  intros Hps Hsz. revert virt phys live cell s T Hps.
  induction n as [|n IH]; intros virt phys live cell s T Hps Hgr.
  { cbn [setlist_loop]. unfold setlist_post. rewrite run_ret, andb_false_r. split; [|split; [done|lia]].
    exists T. split; try done; [intros; lia|intros w _ _; by left]. }
  destruct (good_range_tail n virt phys Hgr) as (Hgr' & Hv1 & Hp1).
  destruct Hgr as [Hal Hv Hp Hlen Hslot Hhuge].
  assert (Hv0 : idx virt 0 ≠ 511).
  { specialize (Hslot 0). rewrite Z.mul_0_l, Z.add_0_r in Hslot. apply Hslot. lia. }
  pose proof (run_Set mask Hmask virt phys d s root T Hps Hv0 Hd Hal) as Hset.
  assert (Hlf : d = 3 ∨ is_table phys = false).
  { destruct Hhuge as [|Hh]; [by left|right]. unfold is_table. rewrite Hh. apply andb_false_r. }
  specialize (Hset Hlf). cbn [setlist_loop]. unfold set_post in Hset.
  destruct (Set_ root virt phys mask d s) as [[[o|] s1]|f] eqn:Hrun.
  - destruct Hset as ((T1 & He) & _ & Ho & Hav). run Hrun. rewrite Hsz, Hv1, Hp1.
    specialize (IH _ _ (live && negb o) (if live then Some o else cell) s1 T1
      (ed_state _ _ _ _ _ _ _ _ He) Hgr').
    assert (Hnc : ∀ i, 0 ≤ i < Z.of_nat n → ¬ covers virt d (virt + span d + i * span d)).
    { intros i Hi Hc.
      apply (covers_distinct virt d (virt + span d + i * span d) 0 (i + 1)); try lia.
      - pose proof (span_pos d). nia.
      - by rewrite Z.mul_0_l, Z.add_0_r.
      - by replace (virt + span d + i * span d) with (virt + (i + 1) * span d) by lia. }
    unfold setlist_post in *.
    destruct (setlist_loop _ _ _ _ _ _ _ _ _) as [[c s']|f].
    + destruct IH as ([T' Hl] & -> & Hav'). split; [exists T'; by eapply list_edited_cons|].
      split; [|lia].
      rewrite (any_old_edited _ _ _ _ _ _ _ _ He) by done. cbn [Nat.eqb any_old]. rewrite <-Ho.
      destruct live, o, (n =? 0)%nat eqn:Hn; try done.
      apply Nat.eqb_eq in Hn. by subst n.
    + destruct IH as [[-> Hav']|(-> & i & Hi & Hb)]; [left; split; [done|lia]|].
      right. split; [done|]. exists (i + 1). split; [lia|].
      replace (virt + (i + 1) * span d) with (virt + span d + i * span d) by lia.
      eapply blocked_edited; [done| |by apply Hnc|done].
      replace (virt + span d + i * span d) with (virt + (i + 1) * span d) by lia.
      apply Hslot. lia.
  - run Hrun. right. split; [done|]. exists 0. split; [lia|].
    by rewrite Z.mul_0_l, Z.add_0_r.
  - erewrite run_bind_stop by done. left. destruct Hset as (? & ? & _). split; [done|]. lia.
Qed.

Lemma run_CalcDepth (s : machine A) : 1 ≤ d → CalcDepth (span d) s = Ok (d, s).
Proof using Hd.
  intros. unfold CalcDepth.
  by assert (d = 1 ∨ d = 2 ∨ d = 3) as [->|[->| ->]] by lia.
Qed.

Lemma run_SetList n virt phys size overwrote s T :
  pt_state s root T → 1 ≤ d → size = mkSize (span d) (Z.of_nat n) →
  good_range n virt phys →
  setlist_post n virt phys overwrote None s T
    (SetList root virt phys size mask overwrote s).
Proof.
  intros Hps Hd1 -> Hgr. unfold SetList.
  run run_AssertNoncritical; [|apply (ps_noncritical _ _ _ Hps)].
  run run_assert_set; [|apply (ps_cr3 _ _ _ Hps)].
  run run_CalcDepth; [|done]. cbn [pageCount]. rewrite Nat2Z.id. by apply run_setlist_loop.
Qed.
End SetList.

(** ** Unset *)

(** Along the walk of [v], the tables end where the leaf is. *)
Lemma leaf_table m root T v d e :
  tree_ok m root T → idx v 0 ≠ 511 → leaf4 m root v = (d, e) →
  ∃ g, T !! vpath v (Z.to_nat d) = Some g ∧ read64 m (slot g (idx v d)) = e.
Proof.
  intros HT Hv.
  assert (∀ k n g, (n + k = 3)%nat → T !! vpath v n = Some g →
    leaf k m g (Z.of_nat n) v = (d, e) →
    ∃ g', T !! vpath v (Z.to_nat d) = Some g' ∧ read64 m (slot g' (idx v d)) = e) as Hk.
  2:{ apply (Hk 3%nat 0%nat root); [done|apply (t_root _ _ _ HT)]. }
  induction k as [|k IH]; intros n g Hn Hg; [rewrite leaf_0|rewrite leaf_unfold; cbn zeta].
  { intros [= <- <-]. exists g. by rewrite Nat2Z.id. }
  destruct (is_table _) eqn:Ht.
  - replace (Z.of_nat n + 1) with (Z.of_nat (Datatypes.S n)) by lia. apply IH; [lia|]. cbn.
    rewrite (t_child _ _ _ HT _ g); [unfold slot; by rewrite Ht|done
      |rewrite length_vpath; lia|apply idx_range|by apply vpath_not_fractal].
  - intros [= <- <-]. exists g. by rewrite Nat2Z.id.
Qed.

Lemma tree_up m root T v n k g :
  tree_ok m root T → T !! vpath v n = Some g → (k ≤ n)%nat → is_Some (T !! vpath v k).
Proof.
  intros HT. revert g. induction n as [|n IH]; intros g Hg Hk.
  { by replace k with 0%nat by lia. }
  destruct (decide (k = Datatypes.S n)) as [->|]; [done|].
  destruct (t_parent _ _ _ HT _ _ _ Hg) as (_ & _ & _ & [g' Hg']). apply (IH g'); [done|lia].
Qed.

(** A table that has a child on the walk holds its entry. *)
Lemma tree_entry m root T v n g g' :
  tree_ok m root T → T !! vpath v n = Some g → T !! vpath v (Datatypes.S n) = Some g' →
  let e := read64 m (slot g (idx v (Z.of_nat n))) in
  is_table e = true ∧ frame e = g' ∧ code_frame e = g'.
Proof.
  intros HT Hg Hg' e. destruct (t_parent _ _ _ HT _ _ _ Hg') as (Hl & Hi & Hf & _).
  pose proof (t_child _ _ _ HT _ _ _ Hg Hl Hi Hf) as Hc. fold e in Hc.
  change (T !! vpath v (Datatypes.S n) = Some g') in Hg'. cbn [vpath] in Hg'.
  rewrite Hg' in Hc. destruct (is_table e) eqn:Ht; [|done]. injection Hc as ->.
  split_and!; [done..|]. by apply (t_clean _ _ _ HT (vpath v n) g).
Qed.

Lemma is_table_0 : is_table 0 = false.
Proof. done. Qed.

(** What unmapping [v] may do to the walk of another address: an address that
    ended at an empty slot still does. *)
Definition leaf_drop (m m' : gmap Z Z) (root v : Z) : Prop :=
  leaf4 m' root v = leaf4 m root v
  ∨ (leaf4 m root v).2 = 0 ∧ (leaf4 m' root v).2 = 0.

Lemma leaf_drop_trans m1 m2 m3 root v :
  leaf_drop m1 m2 root v → leaf_drop m2 m3 root v → leaf_drop m1 m3 root v.
Proof.
  unfold leaf_drop. intros [E1|[H1 H1']] [E2|[H2 H2']].
  - left. congruence.
  - right. by rewrite <-E1.
  - right. by rewrite E2.
  - by right.
Qed.

Section Unset.
Context {A : Type} `{FreeLaws A, BzeroLaws A}.
Implicit Types (s : machine A) (T : gmap (list Z) Z).

Lemma run_unset_find k n v s root T g :
  pt_state s root T → idx v 0 ≠ 511 → (n + k = 3)%nat → T !! vpath v n = Some g →
  unset_find k v (Z.of_nat n) s =
    let '(d, e) := leaf k s.(mem) g (Z.of_nat n) v in
    if (d =? 3) || huge e then Ok (d, s)
    else Stop (Panic "PageTable::Unset() - no mapping found").
Proof.
  intros Hps Hv. pose proof (ps_tree _ _ _ Hps) as HT.
  revert n g. induction k as [|k IH]; intros n g Hn Hg.
  { rewrite leaf_0. by assert (Z.of_nat n = 3) as -> by lia. }
  cbn [unset_find]. rewrite leaf_unfold. cbn zeta. pose proof (ps_cr3 _ _ _ Hps) as Hcr.
  run run_load_entry.
  2:{ rewrite Hcr. by apply (tree_self HT). }
  2:{ rewrite Hcr. by apply (tree_chain HT). }
  2:{ lia. }
  fold (slot g (idx v (Z.of_nat n))). set (e := read64 s.(mem) (slot g (idx v (Z.of_nat n)))).
  change (truthy (e .& 1)) with (present e). change (truthy (e .& 0x80)) with (huge e).
  assert (Hn3 : (Z.of_nat n =? 3) = false) by (apply Z.eqb_neq; lia).
  destruct (is_table e) eqn:Ht.
  - assert (present e = true ∧ huge e = false) as [-> ->]
      by (unfold is_table in Ht; destruct (present e), (huge e); done).
    cbn [negb]. replace (Z.of_nat n + 1) with (Z.of_nat (Datatypes.S n)) by lia.
    apply IH; [lia|]. rewrite (tree_next HT _ _ g) by (done || lia). fold e. by rewrite Ht.
  - rewrite Hn3. cbn [orb]. destruct (huge e) eqn:Hh; [done|].
    unfold is_table in Ht. rewrite Hh, andb_true_r in Ht. by rewrite Ht.
Qed.

Lemma run_any_entry k i ptr g s :
  (∀ j, 0 ≤ j < 512 → translate s.(mem) s.(cr3) (ptr + 8 * j) = Some (slot g j)) →
  0 ≤ i → i + Z.of_nat k = 512 →
  ∃ b, any_entry k ptr i s = Ok (b, s) ∧
    if (b : bool) then ∃ j, 0 ≤ j < 512 ∧ read64 s.(mem) (slot g j) ≠ 0
    else ∀ j, i ≤ j < 512 → read64 s.(mem) (slot g j) = 0.
Proof using.
  intros Htr. revert i. induction k as [|k IH]; intros i Hi Hk; cbn [any_entry].
  { exists false. split; [done|]. intros; lia. }
  run run_load64; [|apply Htr; lia].
  destruct (truthy (read64 s.(mem) (slot g i))) eqn:E.
  { exists true. split; [done|]. exists i. apply truthy_true in E. split; [lia|done]. }
  apply truthy_false in E. destruct (IH (i + 1)) as (b & -> & Hb); [lia..|].
  exists b. split; [done|]. destruct b; [done|]. intros j Hj.
  destruct (decide (j = i)) as [->|]; [done|apply Hb; lia].
Qed.

(** An empty table has nothing below it. *)
Lemma empty_below m root T p h q k :
  tree_ok m root T → T !! p = Some h → p ≠ [] →
  (∀ j, 0 ≤ j < 512 → read64 m (slot h j) = 0) →
  T !! q = Some k → p `suffix_of` q → q = p.
Proof using.
  intros HT Hp Hne Hz Hq [l ->]. destruct l as [|i l] using rev_ind; [done|]. exfalso.
  clear IHl. rewrite <-app_assoc in Hq. cbn in Hq. revert k Hq.
  induction l as [|j l IH]; cbn; intros k Hq.
  - destruct (t_parent _ _ _ HT _ _ _ Hq) as (Hl & Hi & Hf & _).
    by rewrite (t_child _ _ _ HT _ h), Hz in Hq by done.
  - destruct (t_parent _ _ _ HT _ _ _ Hq) as (_ & _ & _ & [k' Hk']). by apply (IH k').
Qed.

(** From [T] to [T'] tables went away, and exactly those back to the allocator. *)
Definition gone T T' (g : Z) : Prop := ∃ p, T !! p = Some g ∧ T' !! p = None.

Definition freed s s' T T' : Prop :=
  (∀ p g, T' !! p = Some g → T !! p = Some g)
  ∧ ∀ g, g ∈ owned s'.(alloc) ↔ g ∈ owned s.(alloc) ∧ ¬ gone T T' g.

(** The tables that go are those on the walk of [v], at depths from [n] up, that
    hold nothing: [hollow m v n whole k g] if the table [g] at depth [k] has no
    entry, but for the one on the walk unless [k = n] and [whole]. *)
Definition hollow (m : gmap Z Z) (v : Z) (n : nat) (whole : bool) (k : nat) (g : Z) : Prop :=
  ∀ j, 0 ≤ j < 512 → j ≠ idx v (Z.of_nat k) ∨ (k = n ∧ whole = true) → read64 m (slot g j) = 0.

Record pruned m T T' (v : Z) (n : nat) (whole : bool) : Prop := {
  pr_path : ∀ p g, T !! p = Some g → T' !! p = None → ∃ k, (0 < k ≤ n)%nat ∧ p = vpath v k;
  pr_empty : ∀ k g, (0 < k ≤ n)%nat → T !! vpath v k = Some g →
    T' !! vpath v k = None ↔
    hollow m v n whole k g ∧ ((k < n)%nat → T' !! vpath v (Datatypes.S k) = None);
}.

Lemma unset_step n v g h s a' ev root T :
  pt_state s root T → idx v 0 ≠ 511 → (n < 3)%nat →
  T !! vpath v n = Some g → T !! vpath v (Datatypes.S n) = Some h →
  (∀ j, 0 ≤ j < 512 → read64 s.(mem) (slot h j) = 0) →
  owned a' = owned s.(alloc) ∖ {[h]} →
  let s' := set_alloc a' (push_event ev
    (set_mem (write64 s.(mem) (slot g (idx v (Z.of_nat n))) 0) s)) in
  let T' := prune (vpath v (Datatypes.S n)) T in
  pt_state s' root T' ∧ freed s s' T T' ∧ spared s s' T T'
  ∧ (∀ p q, T !! p = Some q → T' !! p = None → p = vpath v (Datatypes.S n))
  ∧ ∀ w, idx w 0 ≠ 511 → leaf_drop s.(mem) s'.(mem) root w.
Proof.
  intros Hps Hv Hn Hg Hh Hz Hown s' T'. pose proof (ps_tree _ _ _ Hps) as HT.
  destruct (write_leaf v n 0 s root T g Hps Hv ltac:(lia) Hg ltac:(by right))
    as ([Hcr Hnc HT1 _] & Hhere & Helse & _).
  assert (Hgone : ∀ p q, T !! p = Some q → T' !! p = None → p = vpath v (Datatypes.S n)).
  { intros p q Hp Hp'. destruct (decide (vpath v (Datatypes.S n) `suffix_of` p)).
    - by eapply (empty_below s.(mem)).
    - unfold T' in Hp'. rewrite prune_lookup in Hp' by done. congruence. }
  split_and!; [split| | |exact Hgone|].
  - done.
  - done.
  - done.
  - intros p q Hp. cbn. rewrite Hown. apply elem_of_difference.
    apply prune_Some in Hp as [Hp Hs]. split; [by eapply (ps_owned _ _ _ Hps)|].
    intros ->%elem_of_singleton. apply Hs.
    by rewrite (t_inj _ _ _ HT _ _ _ Hp Hh).
  - split; [intros p q; apply prune_sub|]. intros q. cbn. rewrite Hown, elem_of_difference, elem_of_singleton.
    apply and_iff_compat_l. split.
    + intros Hne (p & Hp & Hp'). pose proof (Hgone _ _ Hp Hp') as ->.
      rewrite Hh in Hp. by injection Hp as ->.
    + intros Hno ->. apply Hno. exists (vpath v (Datatypes.S n)). split; [done|].
      destruct (T' !! _) eqn:E; [|done]. by apply prune_Some in E as [_ []].
  - eapply spared_write; [exact HT|exact Hg|apply idx_range|done|intros ? ?; apply prune_sub|].
    intros k Hk Hno. cbn. rewrite Hown. apply elem_of_difference. split; [done|].
    intros ->%elem_of_singleton. by apply (Hno _ Hh).
  - intros w Hw. destruct (decide (covers v (Z.of_nat n) w)) as [Hc|Hc].
    2:{ left. by apply Helse. }
    right. cbn in Hhere |- *. rewrite Hhere by done. split; [|done].
    pose proof (proj2 (vpath_covers v w n ltac:(lia)) Hc) as Hp.
    rewrite (leaf_chain _ _ _ (Datatypes.S n) h); [|apply (tree_chain HT); by rewrite Hp|lia].
    destruct (3 - Datatypes.S n)%nat; rewrite ?leaf_0, ?leaf_unfold; cbn zeta;
      fold (slot h (idx w (Z.of_nat (Datatypes.S n)))); by rewrite Hz by apply idx_range.
Qed.

(** The tables along [v], down to depth [n], hold an entry. *)
Definition no_empty (m : gmap Z Z) T (v : Z) (n : nat) : Prop :=
  ∀ k g, (0 < k ≤ n)%nat → T !! vpath v k = Some g →
    ∃ j, 0 ≤ j < 512 ∧ read64 m (slot g j) ≠ 0.

Record dropped s s' root T T' (v : Z) (n : nat) : Prop := {
  dr_state : pt_state s' root T';
  dr_cpu : same_cpu s s';
  dr_drop : ∀ w, idx w 0 ≠ 511 → leaf_drop s.(mem) s'.(mem) root w;
  dr_freed : freed s s' T T';
  dr_pruned : pruned s.(mem) T T' v n true;
  dr_full : no_empty s'.(mem) T' v n;
  dr_spare : spared s s' T T';
}.

Lemma no_empty_up m root T v n g :
  tree_ok m root T → T !! vpath v n = Some g → (n ≤ 3)%nat →
  (∃ j, 0 ≤ j < 512 ∧ read64 m (slot g j) ≠ 0) → no_empty m T v n.
Proof using.
  intros HT Hg Hn Hu k h Hk Hh. destruct (decide (k = n)) as [->|].
  { rewrite Hg in Hh. by injection Hh as <-. }
  destruct (tree_up _ _ _ _ _ (Datatypes.S k) _ HT Hg) as [h' Hh']; [lia|].
  exists (idx v (Z.of_nat k)). split; [apply idx_range|].
  destruct (tree_entry _ _ _ _ _ _ _ HT Hh Hh') as (Ht & _). intros Hz.
  by rewrite Hz in Ht.
Qed.

Lemma gone_trans T1 T2 T3 g :
  (∀ p q, T2 !! p = Some q → T1 !! p = Some q) → (∀ p q, T3 !! p = Some q → T2 !! p = Some q) →
  gone T1 T3 g ↔ gone T1 T2 g ∨ gone T2 T3 g.
Proof using.
  intros S1 S2. split.
  - intros (p & Hp & Hp'). destruct (T2 !! p) as [q|] eqn:E; [right|left; by exists p].
    exists p. split; [|done]. pose proof (S1 _ _ E). congruence.
  - intros [(p & Hp & Hp')|(p & Hp & Hp')]; exists p; (split; [auto|]); [|done].
    destruct (T3 !! p) eqn:E; [|done]. by rewrite (S2 _ _ E) in Hp'.
Qed.

Lemma freed_refl s s' T : owned s'.(alloc) = owned s.(alloc) → freed s s' T T.
Proof using.
  intros Ho. split; [done|]. intros g. rewrite Ho. split; [|by intros []].
  intros Hg. split; [done|]. intros (p & Hp & Hp'). congruence.
Qed.

Lemma freed_trans s1 s2 s3 T1 T2 T3 :
  freed s1 s2 T1 T2 → freed s2 s3 T2 T3 → freed s1 s3 T1 T3.
Proof using.
  intros [S1 O1] [S2 O2]. split; [auto|]. intros g. rewrite O2, O1, (gone_trans T1 T2 T3) by done. tauto.
Qed.

(** A table with an entry stays, and so do those above it. *)
Lemma pruned_same m root T v n g :
  tree_ok m root T → T !! vpath v n = Some g →
  ((0 < n)%nat → ∃ j, 0 ≤ j < 512 ∧ read64 m (slot g j) ≠ 0) → pruned m T T v n true.
Proof using.
  intros HT Hg Hu. split; [congruence|]. intros k h Hk Hh. split; [congruence|].
  intros [Hz Hd]. exfalso. destruct (decide (k = n)) as [->|].
  - rewrite Hg in Hh. injection Hh as <-. destruct (Hu ltac:(lia)) as (j & Hj & Hne). apply Hne, Hz; auto.
  - destruct (tree_up _ _ _ _ _ (Datatypes.S k) _ HT Hg) as [x Hx]; [lia|].
    rewrite Hd in Hx by lia. done.
Qed.

(** Clearing the entry at depth [n] is all that the table there needs. *)
Lemma hollow_clear m root T v n g k h :
  tree_ok m root T → T !! vpath v n = Some g → (k ≤ n)%nat → T !! vpath v k = Some h →
  hollow (write64 m (slot g (idx v (Z.of_nat n))) 0) v n true k h ↔ hollow m v n false k h.
Proof using.
  intros HT Hg Hk Hh. unfold hollow. destruct (decide (k = n)) as [->|Hne].
  - rewrite Hg in Hh. injection Hh as <-. split; intros Hz j Hj Hor.
    + destruct Hor as [Hi|[_ [=]]]. rewrite <-(Hz j Hj) by (by right).
      symmetry. apply read_write_ne. unfold slot. lia.
    + destruct (decide (j = idx v (Z.of_nat n))) as [->|]; [apply read_write_eq|].
      rewrite read_write_ne by (unfold slot; lia). by apply Hz; auto.
  - assert (Heq : ∀ j, 0 ≤ j < 512 →
      read64 (write64 m (slot g (idx v (Z.of_nat n))) 0) (slot h j) = read64 m (slot h j)).
    { intros j Hj. apply (agree_write m root T _ _ _ 0 HT Hg (idx_range _ _) (vpath v k)); [done..|].
      intros Heq%(f_equal length). cbn in Heq. rewrite !length_vpath in Heq. lia. }
    split; intros Hz j Hj [Hi|[? _]]; try done; [rewrite <-Heq by done|rewrite Heq by done]; auto.
Qed.

(** An empty table goes, and its entry is cleared before the one above is
    looked at. *)
Lemma pruned_step m root T T' v n g0 g :
  tree_ok m root T → T !! vpath v n = Some g0 → T !! vpath v (Datatypes.S n) = Some g →
  (∀ j, 0 ≤ j < 512 → read64 m (slot g j) = 0) →
  let T1 := prune (vpath v (Datatypes.S n)) T in
  (∀ p q, T !! p = Some q → T1 !! p = None → p = vpath v (Datatypes.S n)) →
  (∀ p q, T' !! p = Some q → T1 !! p = Some q) →
  pruned (write64 m (slot g0 (idx v (Z.of_nat n))) 0) T1 T' v n true →
  pruned m T T' v (Datatypes.S n) true.
Proof using.
  intros HT Hg0 Hg Hz T1 Hgone Hsub [Hpath Hempty].
  assert (Hlast : T' !! vpath v (Datatypes.S n) = None).
  { destruct (T' !! _) eqn:E; [|done]. apply Hsub, prune_Some in E as [_ []]. done. }
  split.
  - intros p q Hp Hp'. destruct (T1 !! p) as [x|] eqn:E.
    + destruct (Hpath p x E Hp') as (k & Hk & ->). exists k. split; [lia|done].
    + exists (Datatypes.S n). split; [lia|by eapply Hgone].
  - intros k h Hk Hh. destruct (decide (k = Datatypes.S n)) as [->|].
    { rewrite Hg in Hh. injection Hh as <-. split; [|done]. intros _. split; [|lia].
      intros j Hj _. by apply Hz. }
    assert (Hh1 : T1 !! vpath v k = Some h).
    { apply prune_Some. split; [done|]. intros Hs%suffix_length. rewrite !length_vpath in Hs. lia. }
    rewrite (Hempty k h ltac:(lia) Hh1), (hollow_clear m root T) by (done || lia).
    unfold hollow. destruct (decide (k = n)) as [->|].
    + split; intros [Hho Hd]; (split; [|done || lia]); intros j Hj [?|[? ?]]; try lia; auto.
    + split; intros [Hho Hd]; (split; [|intros; apply Hd; lia]); intros j Hj [?|[? ?]]; try lia; auto.
Qed.

Lemma run_unset_free n v s root T g :
  pt_state s root T → idx v 0 ≠ 511 → (n ≤ 3)%nat → T !! vpath v n = Some g →
  ∃ s' T', unset_free n v s = Ok (true, s') ∧ dropped s s' root T T' v n.
Proof.
  revert s T g. induction n as [|n IH]; intros s T g Hps Hv Hn Hg.
  { exists s, T. split; [done|]. split; try done.
    - intros w _. by left.
    - by apply freed_refl.
    - eapply pruned_same; [apply (ps_tree _ _ _ Hps)|exact Hg|lia].
    - intros k h Hk. lia. }
  pose proof (ps_tree _ _ _ Hps) as HT. pose proof (ps_cr3 _ _ _ Hps) as Hcr.
  destruct (tree_up _ _ _ _ _ n _ HT Hg) as [g0 Hg0]; [lia|].
  destruct (tree_entry _ _ _ _ _ _ _ HT Hg0 Hg) as (_ & _ & Hcf).
  cbn [unset_free]. run run_GetTableStart; [|lia].
  destruct (run_any_entry 512 0 (entry_address v (Z.of_nat (Datatypes.S n)) .& notfff) g s)
    as (b & Hrun & Hb); [|lia|lia|].
  { intros j Hj. rewrite Hcr.
    apply translate_table_start; [by apply (tree_self HT)|by apply (tree_chain HT)|lia|done]. }
  run Hrun. destruct b.
  { exists s, T. split; [done|]. split; try done.
    - intros w _. by left.
    - by apply freed_refl.
    - by eapply pruned_same.
    - by eapply no_empty_up. }
  replace (Z.of_nat (Datatypes.S n) - 1) with (Z.of_nat n) by lia.
  assert (Htr : translate s.(mem) s.(cr3) (entry_address v (Z.of_nat n))
    = Some (slot g0 (idx v (Z.of_nat n)))).
  { rewrite Hcr. apply translate_entry; [by apply (tree_self HT)|by apply (tree_chain HT)|lia]. }
  run run_GetTableEntry; [|lia]. run run_load64; [|exact Htr]. run run_store64; [|exact Htr].
  destruct (free_page s.(alloc) g (ps_owned _ _ _ Hps _ _ Hg)) as (a' & Hfree & Hown).
  unfold emit, modify. erewrite run_bind; [cbn beta|reflexivity].
  erewrite run_bind; [cbn beta|unfold alloc_op; cbn [alloc push_event set_mem];
    fold (code_frame (read64 s.(mem) (slot g0 (idx v (Z.of_nat n))))); by rewrite Hcf, Hfree].
  set (ev := EvInvlpg _ _).
  destruct (unset_step n v g0 g s a' ev root T Hps Hv ltac:(lia) Hg0 Hg Hb Hown)
    as (Hps1 & Hfr1 & Hsp1 & Hgone & Hd1).
  set (s1 := set_alloc _ _) in *. set (T1 := prune _ T) in *.
  assert (Hg1 : T1 !! vpath v n = Some g0).
  { apply prune_Some. split; [done|]. intros Hs%suffix_length.
    rewrite !length_vpath in Hs. lia. }
  destruct (IH s1 T1 g0 Hps1 Hv ltac:(lia) Hg1) as (s' & T' & -> & [? ? Hd2 Hfr2 Hpr2 Hfull Hsp2]).
  exists s', T'. split; [done|]. split; try done.
  - etrans; [|done]. by split.
  - intros w Hw. eapply leaf_drop_trans; [by apply Hd1|by apply Hd2].
  - by eapply freed_trans.
  - eapply (pruned_step _ root T T' v n g0 g); try done. by destruct Hfr2.
  - intros k h Hk Hh. destruct (decide (k = Datatypes.S n)) as [->|];
      [|apply (Hfull k); [lia|done]].
    apply Hfr2 in Hh. unfold T1 in Hh. apply prune_Some in Hh as [_ []]. done.
  - by eapply spared_trans.
Qed.

Lemma leaf_no_table m root T v d e :
  tree_ok m root T → idx v 0 ≠ 511 → leaf4 m root v = (d, e) →
  T !! vpath v (Datatypes.S (Z.to_nat d)) = None.
Proof using.
  intros HT Hv Hl. destruct (leaf4_props _ _ _ _ _ Hl) as [Hd Hnt].
  destruct (leaf_table _ _ _ _ _ _ HT Hv Hl) as (g & Hg & He).
  destruct (decide (d = 3)) as [->|].
  - destruct (T !! vpath v (Datatypes.S (Z.to_nat 3))) eqn:E; [|done].
    destruct (t_parent _ _ _ HT _ _ _ E) as (Hl3 & _).
    assert (length (vpath v 3) < 3)%nat as Hl' by exact Hl3.
    rewrite length_vpath in Hl'. lia.
  - rewrite (tree_next HT _ _ g); [|done|lia|done]. rewrite Z2Nat.id by lia.
    by rewrite He, Hnt by lia.
Qed.

Record unmapped s s' root T T' (v d : Z) : Prop := {
  un_state : pt_state s' root T';
  un_cpu : same_cpu s s';
  un_here : ∀ w, covers v d w → (leaf4 s'.(mem) root w).2 = 0;
  un_else : ∀ w, idx w 0 ≠ 511 → ¬ covers v d w → leaf_drop s.(mem) s'.(mem) root w;
  un_freed : freed s s' T T';
  un_pruned : pruned s.(mem) T T' v (Z.to_nat d) false;
  un_full : no_empty s'.(mem) T' v 3;
  un_spare : spared s s' T T';
}.

Lemma run_Unset v s root T :
  pt_state s root T → idx v 0 ≠ 511 → v mod 4096 = 0 →
  let '(d, e) := leaf4 s.(mem) root v in
  if (d =? 3) || huge e then
    ∃ s' T', Unset root v s = Ok (true, s') ∧ unmapped s s' root T T' v d
  else Unset root v s = Stop (Panic "PageTable::Unset() - no mapping found").
Proof.
  intros Hps Hv Hal. pose proof (ps_tree _ _ _ Hps) as HT.
  destruct (leaf4 s.(mem) root v) as [d e] eqn:Hl.
  pose proof (run_unset_find 3 0 v s root T root Hps Hv eq_refl (t_root _ _ _ HT)) as Hf.
  change (leaf 3 _ _ _ _) with (leaf4 s.(mem) root v) in Hf. rewrite Hl in Hf.
  change (Z.of_nat 0) with 0 in Hf. unfold Unset.
  assert (Hchk : negb (truthy (v .& 0xfff)) = true).
  { apply negb_true_iff, truthy_false. change 0xfff with (Z.ones 12).
    by rewrite land_low by lia. }
  destruct (leaf4_props _ _ _ _ _ Hl) as [Hd _].
  destruct ((d =? 3) || huge e).
  2:{ run run_AssertNoncritical; [|apply (ps_noncritical _ _ _ Hps)].
      run run_assert_set; [|apply (ps_cr3 _ _ _ Hps)]. run_assert (exact Hchk).
      by erewrite run_bind_stop by exact Hf. }
  destruct (leaf_table _ _ _ _ _ _ HT Hv Hl) as (g & Hg & He).
  destruct (write_leaf v (Z.to_nat d) 0 s root T g Hps Hv ltac:(lia) Hg ltac:(by right))
    as (Hps1 & Hhere & Helse & _). rewrite Z2Nat.id in * by lia.
  rewrite (prune_none _ _ _ _ HT (leaf_no_table _ _ _ _ _ _ HT Hv Hl)) in Hps1.
  set (s1 := set_mem _ s) in *.
  destruct (run_unset_free (Z.to_nat d) v s1 root T g Hps1 Hv ltac:(lia) Hg)
    as (s' & T' & Hfree & [? Hcpu Hdrop Hfr Hpr Hfull Hsp]).
  exists s', T'. split.
  { run run_AssertNoncritical; [|apply (ps_noncritical _ _ _ Hps)].
    run run_assert_set; [|apply (ps_cr3 _ _ _ Hps)]. run_assert (exact Hchk). run Hf.
    run run_GetTableEntry; [|lia].
    run (run_store64 _ _ (slot g (idx v d))); [exact Hfree|].
    rewrite (ps_cr3 _ _ _ Hps). rewrite <-(Z2Nat.id d) by lia.
    apply translate_entry; [by apply (tree_self HT)|by apply (tree_chain HT)|lia]. }
  split; [done|transitivity s1; [by split|exact Hcpu]|..|done| | |].
  - intros w Hc.
    assert (Hw : idx w 0 ≠ 511) by (rewrite (idx_covers v d w); [done|lia|done]).
    destruct (Hdrop w Hw) as [->|[_ ->]]; [|done]. by rewrite Hhere.
  - intros w Hw Hc. unfold leaf_drop. cbn in Helse. rewrite <-Helse by done. by apply Hdrop.
  - destruct Hpr as [Hpath Hempty]. split; [done|]. intros k h Hk Hh. rewrite (Hempty k h Hk Hh).
    apply and_iff_compat_r.
    pose proof (hollow_clear _ _ _ _ _ _ k h HT Hg ltac:(lia) Hh) as Hc. by rewrite Z2Nat.id in Hc by lia.
  - intros k h Hk Hh. destruct (decide (k ≤ Z.to_nat d)%nat); [apply (Hfull k); [lia|done]|].
    apply Hfr in Hh. exfalso.
    destruct (tree_up _ _ _ _ _ (Datatypes.S (Z.to_nat d)) _ HT Hh) as [? Hx]; [lia|].
    by rewrite (leaf_no_table _ _ _ _ _ _ HT Hv Hl) in Hx.
  - eapply spared_trans; [|exact Hsp].
    eapply spared_write; [exact HT|exact Hg|apply idx_range|done|done|done].
Qed.
End Unset.
