(* ===== verification/Concrete.v ===== *)
(** * A concrete allocator and zeroing routine

    Instances of the interfaces of [PageTable.v] that run: a first-fit page
    allocator over a fixed list of pages, and a zeroing routine that stores
    words.  The theorems are proved against the interfaces; these instances
    show that the interfaces can be met and let examples be evaluated. *)

From stdpp Require Import base numbers list gmap fin_maps strings.
From Stdlib Require Import ZArith Lia.
From S2P Require Import Prelude Machine Mmu PageTable PageTree.
#[local] Open Scope Z_scope.

(** Pages 0x10000, 0x11000, ... are handed out; the state is the set of pages
    in use. *)
Definition pages : list Z := (λ i, 0x10000 + 0x1000 * i) <$> seqZ 0 32.

Definition PageSet : Type := gset Z.

Definition first_free (a : PageSet) (l : list Z) : option Z :=
  head (filter (λ p, p ∉ a) l).

#[export] Instance page_set_allocator : PhysAllocator PageSet := {
  Alloc size align a :=
    match first_free a pages with
    | Some p => Ok (Some p, {[p]} ∪ a)
    | None => Ok (None, a)
    end;
  Free p a := if decide (p ∈ a) then Ok (tt, a ∖ {[p]})
              else Stop (Panic "Free: not allocated");
}.

Lemma first_free_some a l p : first_free a l = Some p → p ∈ l ∧ p ∉ a.
Proof.
  unfold first_free. intros Hp%head_Some_elem_of.
  by apply list_elem_of_filter in Hp as [? ?].
Qed.

Lemma page_bounds p : p ∈ pages → p mod 0x1000 = 0 ∧ 0 < p < 2 ^ 52.
Proof.
  unfold pages. intros (i & -> & Hi)%list_elem_of_fmap. apply elem_of_seqZ in Hi.
  eval_pow. split; [zlia|lia].
Qed.

Definition free_count (a : PageSet) : nat := length pages - size a.

Lemma NoDup_pages : NoDup pages.
Proof. apply NoDup_fmap_2; [intros ???; lia|apply NoDup_seqZ]. Qed.

Lemma first_free_total (a : PageSet) : (0 < free_count a)%nat → is_Some (first_free a pages).
Proof.
  unfold free_count, first_free. intros Hc.
  destruct (filter (λ p, p ∉ a) pages) as [|p l] eqn:E; cbn; [|by exists p]. exfalso.
  assert ((list_to_set pages : gset Z) ⊆ a) as Hsub.
  { intros p Hp%elem_of_list_to_set. destruct (decide (p ∈ a)); [done|].
    assert (p ∈ filter (λ p, p ∉ a) pages) as Hx by (by apply list_elem_of_filter).
    rewrite E in Hx. by apply not_elem_of_nil in Hx. }
  apply subseteq_size in Hsub.
  rewrite (size_list_to_set (C:=gset Z)) in Hsub by apply NoDup_pages. unfold PageSet in *. lia.
Qed.

#[export] Program Instance page_set_laws : AllocLaws PageSet := {
  owned a := a;
  avail := free_count;
}.
Next Obligation.
  intros a. cbn [Alloc page_set_allocator]. destruct (first_free a pages); eauto.
Qed.
Next Obligation.
  intros a p a'. cbn [Alloc page_set_allocator].
  destruct (first_free a pages) as [q|] eqn:E; [|done]. intros [= -> <-].
  apply first_free_some in E as [Hp Ha]. destruct (page_bounds _ Hp). done.
Qed.
Next Obligation.
  intros a a'. cbn [Alloc page_set_allocator].
  destruct (first_free a pages); [done|]. by intros [= ->].
Qed.
Next Obligation.
  intros a Ha. cbn [Alloc page_set_allocator].
  destruct (first_free_total a Ha) as [p Hp]. rewrite Hp. eexists _, _. split; [done|].
  unfold free_count.
  assert (size ({[p]} ∪ a : gset Z) ≤ Datatypes.S (size a))%nat as Hle; [|unfold PageSet in *; lia].
  rewrite size_union_alt, size_singleton. cbn. apply le_n_S, subseteq_size. set_solver.
Qed.

#[export] Program Instance page_set_free : FreeLaws PageSet.
Next Obligation.
  intros a p Hp. cbn in Hp. cbn [Free page_set_allocator owned page_set_laws].
  rewrite decide_True by done. by eexists.
Qed.

#[export] Instance word_bzero : AnsaBzero PageSet := {
  Bzero va size := zero_words (Z.to_nat (size / 8)) va
}.

#[export] Program Instance word_bzero_laws : BzeroLaws PageSet.
Next Obligation. intros. cbn [Bzero word_bzero]. done. Qed.

(** A lock that waits forever when its holder seizes it again. *)
#[export] Instance list_lock {A} : AnsaLock A := {
  Seize l s := if decide (l ∈ s.(held)) then Stop (Hang "Seize")
               else Ok (tt, set_held (l :: s.(held)) s);
  Release l s := match s.(held) with
                 | l' :: ls => Ok (tt, set_held ls s)
                 | [] => Stop (Panic "Release: not held")
                 end;
}.

#[export] Program Instance list_lock_laws {A} : LockLaws A.
Next Obligation. intros A l s Hl. cbn [Seize list_lock]. by rewrite decide_False. Qed.
Next Obligation. intros A l s ls Hl. cbn [Release list_lock]. by rewrite Hl. Qed.

(** ** A machine with an empty address space *)

(** A PML4 whose only entry is the fractal slot. *)
Definition boot_machine : machine PageSet :=
  Machine _ {[ 0x1ff8 := 0x1003 ]} 0x1000 true true ∅ [] [] {[0x1000]}.

(** A machine that runs with interrupts on, around any component state. *)
Definition idle_machine {A} (a : A) : machine A := Machine _ ∅ 0x1000 true true ∅ [] [] a.

(** A heap that always has room. *)
#[export] Instance bump_heap {A} : VirtualAllocator A := {
  VAlloc _ s := Ok (Some 0x100000, s);
  VFree _ s := Ok (tt, s);
  VOwns p s := Ok (p =? 0x100000, s);
}.

#[export] Program Instance bump_heap_room {A} : RoomyHeap A.
Next Obligation. intros A size s _. exists 0x100000, s.(alloc). by destruct s. Qed.
