(* ===== verification/PageTableProps.v ===== *)
(** * Properties of the page-table operations

    What [PageTable] (src/arch/x64/vmm/page-table.cpp) promises, in terms of
    the addresses the processor translates.  [pt_state s root T] is the state
    in which the operations run: the PML4 [root] is loaded, interrupts are on,
    and the tables in memory form the tree [T] of pages owned by the
    allocator.  Addresses with PML4 index 511 belong to the fractal mapping. *)

From stdpp Require Import base numbers list gmap strings.
From Stdlib Require Import ZArith Lia.
From S2P Require Import Prelude Machine Mmu PageTable PageTree PageTableProofs PageTableList Concrete.
Import PageTable.
#[local] Open Scope Z_scope.

(** ** Auxiliary facts *)

Lemma vpath_prefix v w n k :
  vpath w n = vpath v n → (k ≤ n)%nat → vpath w k = vpath v k.
Proof.
  induction n as [|n IH]; intros Hp Hk; [by replace k with 0%nat by lia|].
  destruct (decide (k = Datatypes.S n)) as [->|]; [done|].
  apply IH; [exact (f_equal tail Hp)|lia].
Qed.

(** A leaf at or above depth [d] is shared by the addresses of the page. *)
Lemma leaf_prefix m root T v w d dv e :
  tree_ok m root T → idx v 0 ≠ 511 → 0 ≤ d ≤ 3 → covers v d w →
  leaf4 m root v = (dv, e) → dv ≤ d → leaf4 m root w = (dv, e).
Proof.
  intros HT Hv Hd Hc Hl Hle. destruct (leaf4_props _ _ _ _ _ Hl) as [Hdv Hnt].
  destruct (leaf_table _ _ _ _ _ _ HT Hv Hl) as (g & Hg & He).
  rewrite <-(Z2Nat.id d) in Hc by lia. apply vpath_covers in Hc; [|lia].
  apply (vpath_prefix _ _ _ (Datatypes.S (Z.to_nat dv))) in Hc; [|lia].
  pose proof Hc as Hi. cbn in Hi. apply (f_equal head) in Hi. cbn in Hi. injection Hi as Hi.
  apply (f_equal tail) in Hc. cbn in Hc.
  rewrite (leaf_chain _ _ _ (Z.to_nat dv) g); [|apply (tree_chain HT); by rewrite Hc|lia].
  rewrite Z2Nat.id in * by lia.
  destruct (3 - Z.to_nat dv)%nat eqn:Hk; rewrite ?leaf_0, ?leaf_unfold; cbn zeta;
    fold (slot g (idx w dv)); rewrite Hi, He; [done|]. by rewrite Hnt by lia.
Qed.

(** A free slot that no huge page covers maps nothing. *)
Lemma unmapped_slot m root T v w d :
  tree_ok m root T → idx v 0 ≠ 511 → 0 ≤ d ≤ 3 → covers v d w →
  old_entry m T v (Z.to_nat d) = 0 → ¬ blocked m root v d →
  present (leaf4 m root w).2 = false.
Proof.
  intros HT Hv Hd Hc Ho Hb. destruct (leaf4 m root v) as [dv e] eqn:Hl.
  destruct (leaf4_props _ _ _ _ _ Hl) as [Hdv Hnt].
  destruct (leaf_table _ _ _ _ _ _ HT Hv Hl) as (g & Hg & He).
  unfold old_entry in Ho. destruct (T !! vpath v (Z.to_nat d)) as [h|] eqn:Hh.
  - rewrite Z2Nat.id in Ho by lia.
    assert (Hvd : leaf4 m root v = (d, 0)).
    { rewrite (leaf_chain _ _ _ (Z.to_nat d) h); [|by apply (tree_chain HT)|lia].
      rewrite Z2Nat.id by lia.
      destruct (3 - Z.to_nat d)%nat; rewrite ?leaf_0, ?leaf_unfold; cbn zeta;
        fold (slot h (idx v d)); by rewrite Ho. }
    by rewrite (leaf_prefix _ _ _ _ _ _ _ _ HT Hv Hd Hc Hvd).
  - assert (dv < d) as Hlt.
    { destruct (decide (dv < d)); [done|]. exfalso.
      destruct (tree_up _ _ _ _ _ (Z.to_nat d) _ HT Hg) as [? Hx]; [lia|congruence]. }
    rewrite (leaf_prefix _ _ _ _ _ _ _ _ HT Hv Hd Hc Hl) by lia. cbn.
    unfold blocked in Hb. rewrite Hl in Hb. cbn in Hb.
    specialize (Hnt ltac:(lia)). unfold is_table in Hnt.
    destruct (present e), (huge e); try done. exfalso. by apply Hb.
Qed.

Lemma unmapped_translate s root T w `{AllocLaws A} (s' : machine A) :
  pt_state s' root T → s = s'.(mem) →
  present (leaf4 s root w).2 = false → translate s root w = None.
Proof.
  intros Hps -> Hp. rewrite (pt_translate _ _ _ _ Hps).
  destruct (canonical w); [|done]. unfold leaf_frame.
  destruct (leaf4 _ _ _) as [d e]. cbn in Hp. by rewrite Hp.
Qed.

(** The empty address space of [boot_machine]. *)
Lemma boot_state : pt_state boot_machine 0x1000 {[ [] := 0x1000 ]}.
Proof.
  split.
  - done.
  - by right.
  - apply tree_root; [done|done|by vm_compute|by vm_compute|].
    intros i Hi. unfold read64, boot_machine. cbn [mem].
    by rewrite lookup_singleton_ne by (unfold slot; lia).
  - intros p g [_ <-]%lookup_singleton_Some. cbn. set_solver.
Qed.

Lemma flags_3 : parent_flags 3.
Proof. split; [lia|reflexivity]. Qed.

(** An address space with one 1 GiB page at address 0. *)
Lemma boot_huge :
  ∃ s T, pt_state s 0x1000 T ∧ ∀ w, covers 0 1 w → leaf4 s.(mem) 0x1000 w = (1, 0x83).
Proof.
  pose proof (run_Set 3 flags_3 0 0x83 1 boot_machine 0x1000 _ boot_state ltac:(by vm_compute)
    ltac:(lia) eq_refl ltac:(by right)) as Hs.
  destruct (Set_ _ _ _ _ _ _) as [[[o|] s]|f].
  - destruct Hs as ([T Hed] & _). exists s, T.
    split; [apply Hed|]. intros w Hw. by apply (ed_here _ _ _ _ _ _ _ _ Hed).
  - destruct Hs as (_ & Hp & _). by vm_compute in Hp.
  - destruct Hs as (_ & Ha & _). vm_compute in Ha. lia.
Qed.

(** ** The fractal mapping *)

(** The address [GetTableEntry] computes for [v] at depth [n] is translated
    by the processor, through the self-mapped PML4, to the entry for [v] in
    the very table at depth [n] of the walk of [v]; and [GetTableStart] to the
    start of that table. *)
Lemma fractal_mapping {A} (s : machine A) root T v n g :
  tree_ok s.(mem) root T → T !! vpath v n = Some g → (n ≤ 3)%nat →
  (∃ p, GetTableEntry v (Z.of_nat n) s = Ok (p, s)
     ∧ translate s.(mem) root p = Some (g + 8 * idx v (Z.of_nat n)))
  ∧ ∃ t, GetTableStart v (Z.of_nat n) s = Ok (t, s)
     ∧ ∀ i, 0 ≤ i < 512 → translate s.(mem) root (t + 8 * i) = Some (g + 8 * i).
Proof.
  intros HT Hg Hn. split; eexists; (split; [by apply run_GetTableEntry || apply run_GetTableStart; lia|]).
  - apply translate_entry; [by apply (tree_self HT)|by apply (tree_chain HT)|done].
  - intros i Hi. apply translate_table_start; [by apply (tree_self HT)|by apply (tree_chain HT)|done..].
Qed.

Lemma fractal_mapping_witness :
  translate boot_machine.(mem) 0x1000 (entry_address 0x345678 0) = Some 0x1000.
Proof.
  destruct (fractal_mapping boot_machine 0x1000 {[ [] := 0x1000 ]} 0x345678 0 0x1000
    (ps_tree _ _ _ boot_state) (lookup_singleton_eq _ _) ltac:(lia)) as [(p & Hp & Ht) _].
  injection Hp as <-. exact Ht.
Defined.

(** ** Walk *)

(** C4. [Walk] reports what the processor's own walk ends at: the depth, entry
    and page size when the entry is present or has bit 7, and -1 otherwise;
    it changes nothing. *)
Theorem Walk_correct {A} `{AllocLaws A, BzeroLaws A} (s : machine A) root T v :
  pt_state s root T →
  Walk root v s =
    let '(d, e) := leaf4 s.(mem) root v in
    Ok ((if present e || huge e then d else -1, e, span d), s).
Proof.
  intros Hps. rewrite <-(ps_cr3 _ _ _ Hps). rewrite run_Walk.
  - unfold walk_report. by destruct (leaf4 _ _ _).
  - rewrite (ps_cr3 _ _ _ Hps). by apply (tree_self (ps_tree _ _ _ Hps)).
  - apply (ps_noncritical _ _ _ Hps).
Qed.

Lemma Walk_correct_witness :
  Walk 0x1000 0x345678 boot_machine = Ok ((-1, 0, 2 ^ 39), boot_machine).
Proof.
  rewrite (Walk_correct boot_machine 0x1000 {[ [] := 0x1000 ]} 0x345678 boot_state).
  vm_compute. reflexivity.
Defined.

(** ** Set *)

Section SetProps.
Context {A : Type} `{AllocLaws A, BzeroLaws A}.
Implicit Types (s : machine A) (T : gmap (list Z) Z).

(** C1. With three pages to spare and no huge page in the way, [Set] returns
    true; every address of the page then translates through the new entry,
    every other address translates as before, the tables still form a tree
    of owned pages, no other page that was handed out is written, and
    [*overwrote] tells whether the slot was in use. *)
Theorem Set_maps v entry mask d s root T :
  pt_state s root T → parent_flags mask → idx v 0 ≠ 511 → 0 ≤ d ≤ 3 →
  v mod span d = 0 → (d = 3 ∨ is_table entry = false) →
  (3 ≤ avail s.(alloc))%nat → ¬ blocked s.(mem) root v d →
  ∃ s' T', Set_ root v entry mask d s
      = Ok (Some (truthy (old_entry s.(mem) T v (Z.to_nat d))), s')
    ∧ pt_state s' root T' ∧ same_cpu s s'
    ∧ (∀ w, covers v d w → translate s'.(mem) root w =
         if canonical w then leaf_frame (d, entry) w else None)
    ∧ (∀ w, idx w 0 ≠ 511 → ¬ covers v d w →
         translate s'.(mem) root w = translate s.(mem) root w)
    ∧ spared s s' T T'.
Proof.
  intros Hps Hm Hv Hd Hal Hlf Hav Hb.
  pose proof (run_Set mask Hm v entry d s root T Hps Hv Hd Hal Hlf) as Hset.
  destruct (Set_ _ _ _ _ _ _) as [[[o|] s']|f]; cbn in Hset.
  - destruct Hset as ([T' [Hps' Hcpu _ Hh He _ Hsp _]] & _ & -> & _).
    exists s', T'. split_and!; [done..| | |done].
    + intros w Hw. by rewrite (pt_translate _ _ _ _ Hps'), Hh.
    + intros w Hw Hc. eapply keep_translate; [done..|]. by apply He.
  - destruct (Hb Hset).
  - destruct Hset as (_ & ? & _). lia.
Qed.

(** [Set] fails without stopping, returning false, when a present huge
    page covers the address above the wanted depth; and only then. *)
Theorem Set_fails v entry mask d s root T :
  pt_state s root T → parent_flags mask → idx v 0 ≠ 511 → 0 ≤ d ≤ 3 →
  v mod span d = 0 → (d = 3 ∨ is_table entry = false) →
  (∃ s', Set_ root v entry mask d s = Ok (None, s')) ↔ blocked s.(mem) root v d.
Proof.
  intros Hps Hm Hv Hd Hal Hlf.
  pose proof (run_Set mask Hm v entry d s root T Hps Hv Hd Hal Hlf) as Hset.
  destruct (Set_ _ _ _ _ _ _) as [[[o|] s']|f]; cbn in Hset; (split; [intros [s2 [=]]|]).
  - by destruct Hset as (_ & ? & _).
  - done.
  - by eexists.
  - destruct Hset as (_ & _ & Hp). intros (_ & Hp' & _). congruence.
Qed.

(** [Set] stops only by the panic it documents, and only when the
    allocator runs out of pages before the tables it needs exist. *)
Theorem Set_stops v entry mask d s root T f :
  pt_state s root T → parent_flags mask → idx v 0 ≠ 511 → 0 ≤ d ≤ 3 →
  v mod span d = 0 → (d = 3 ∨ is_table entry = false) →
  Set_ root v entry mask d s = Stop f →
  f = Panic "PageTable::Set() - allocation failed" ∧ (avail s.(alloc) < Z.to_nat d)%nat
  ∧ present (leaf4 s.(mem) root v).2 = false.
Proof.
  intros Hps Hm Hv Hd Hal Hlf Hr.
  pose proof (run_Set mask Hm v entry d s root T Hps Hv Hd Hal Hlf) as Hset.
  by rewrite Hr in Hset.
Qed.

(** C5. [Set] returns false, without stopping, when a present huge page covers
    the address above the wanted depth, and only then; and it stops only by
    the panic it documents, only when the allocator runs out of pages before
    the tables it needs exist. *)
Theorem Set_errors v entry mask d s root T :
  pt_state s root T → parent_flags mask → idx v 0 ≠ 511 → 0 ≤ d ≤ 3 →
  v mod span d = 0 → (d = 3 ∨ is_table entry = false) →
  ((∃ s', Set_ root v entry mask d s = Ok (None, s')) ↔ blocked s.(mem) root v d) ∧
  (∀ f, Set_ root v entry mask d s = Stop f →
    f = Panic "PageTable::Set() - allocation failed" ∧ (avail s.(alloc) < Z.to_nat d)%nat
    ∧ present (leaf4 s.(mem) root v).2 = false).
Proof. intros. split; [by eapply Set_fails|]. intros f. by eapply Set_stops. Qed.
End SetProps.

Lemma Set_maps_witness :
  ∃ s', Set_ 0x1000 0x400000 (0x7000 .| 3) 3 3 boot_machine = Ok (Some false, s')
    ∧ translate s'.(mem) 0x1000 0x400123 = Some 0x7123.
Proof.
  destruct (Set_maps 0x400000 (0x7000 .| 3) 3 3 boot_machine 0x1000 {[ [] := 0x1000 ]})
    as (s' & T' & Hr & _ & _ & Hh & _).
  - exact boot_state.
  - split; [lia|reflexivity].
  - vm_compute. discriminate.
  - lia.
  - reflexivity.
  - by left.
  - vm_compute. lia.
  - intros (_ & Hp & _). vm_compute in Hp. discriminate.
  - exists s'. split; [exact Hr|]. rewrite Hh by reflexivity. vm_compute. reflexivity.
Defined.

Lemma Set_errors_witness :
  ∃ s s', Set_ 0x1000 0x200000 (0x7000 .| 3) 3 3 s = Ok (None, s').
Proof.
  destruct boot_huge as (s & T & Hps & Hl). exists s.
  apply (Set_errors 0x200000 (0x7000 .| 3) 3 3 s 0x1000 T Hps flags_3).
  - vm_compute. discriminate.
  - lia.
  - reflexivity.
  - by left.
  - unfold blocked. rewrite Hl by reflexivity. by vm_compute.
Defined.

(** The boot machine with no page left. *)
Definition full_machine : machine PageSet :=
  set_alloc (list_to_set pages ∪ {[0x1000]}) boot_machine.

Lemma Set_stops_witness :
  Set_ 0x1000 0 (0x7000 .| 3) 3 3 full_machine
    = Stop (Panic "PageTable::Set() - allocation failed")
  ∧ (avail full_machine.(alloc) < 3)%nat.
Proof.
  assert (Hr : Set_ 0x1000 0 (0x7000 .| 3) 3 3 full_machine
    = Stop (Panic "PageTable::Set() - allocation failed")) by (vm_compute; reflexivity).
  split; [exact Hr|].
  assert (Hps : pt_state full_machine 0x1000 {[ [] := 0x1000 ]}).
  { destruct boot_state as [? ? ? Ho]. split; [done|by right|done|].
    intros p g [_ <-]%lookup_singleton_Some. cbn. set_solver. }
  destruct (Set_stops 0 (0x7000 .| 3) 3 3 full_machine 0x1000 _ _ Hps flags_3
    ltac:(by vm_compute) ltac:(lia) eq_refl (or_introl eq_refl) Hr) as (_ & Ha & _).
  exact Ha.
Defined.

(** ** SetList *)

Section SetListProps.
Context {A : Type} `{AllocLaws A, BzeroLaws A}.
Implicit Types (s : machine A) (T : gmap (list Z) Z).

(** [SetList] with enough free pages and no huge page in the way maps the
    [i]-th page of the range to the [i]-th page of the physical range and
    leaves the translation of every address outside the range, and every page
    that is not a table, alone; the flag behind [overwrote] is set exactly when some page of the range was
    in use. *)
Lemma SetList_maps virt phys mask d n overwrote s root T :
  pt_state s root T → parent_flags mask → 1 ≤ d ≤ 3 → good_range d n virt phys →
  (n * 3 ≤ avail s.(alloc))%nat →
  (∀ i, 0 ≤ i < Z.of_nat n → ¬ blocked s.(mem) root (virt + i * span d) d) →
  ∃ c s' T', SetList root virt phys (mkSize (span d) (Z.of_nat n)) mask overwrote s
      = Ok (c, s')
    ∧ pt_state s' root T' ∧ same_cpu s s'
    ∧ (overwrote = true → (0 < n)%nat → c = Some (any_old d s.(mem) T n virt))
    ∧ (∀ w i, 0 ≤ i < Z.of_nat n → covers (virt + i * span d) d w →
         translate s'.(mem) root w =
         if canonical w then leaf_frame (d, phys + i * span d) w else None)
    ∧ (∀ w, idx w 0 ≠ 511 →
         (∀ i, 0 ≤ i < Z.of_nat n → ¬ covers (virt + i * span d) d w) →
         translate s'.(mem) root w = translate s.(mem) root w)
    ∧ spared s s' T T'.
Proof.
  intros Hps Hm Hd Hgr Hav Hnb.
  pose proof (run_SetList mask Hm root d ltac:(lia) n virt phys _ overwrote s T Hps
    ltac:(lia) eq_refl Hgr) as Hpost.
  destruct (SetList _ _ _ _ _ _ _) as [[c s']|f]; cbn in Hpost.
  - destruct Hpost as [[T' [Hps' Hcpu _ Hh He Hsp _]] [-> _]].
    eexists _, s', T'. split_and!; [done..| | | |done].
    + intros -> Hn. by destruct n; [lia|].
    + intros w i Hi Hc. by rewrite (pt_translate _ _ _ _ Hps'), (Hh w i).
    + intros w Hw Hc. eapply keep_translate; [done..|]. by apply He.
  - destruct Hpost as [[_ Hx]|(_ & i & Hi & Hx)].
    + assert (Z.to_nat d ≤ 3)%nat by lia. nia.
    + by destruct (Hnb i Hi).
Qed.
End SetListProps.

Lemma SetList_maps_witness :
  ∃ c s', SetList 0x1000 0x600000 (0x40000000 .| 0x83) (mkSize 0x200000 2) 3 true boot_machine
      = Ok (c, s')
    ∧ translate s'.(mem) 0x1000 0x812345 = Some 0x40212345.
Proof.
  destruct (SetList_maps 0x600000 (0x40000000 .| 0x83) 3 2 2 true boot_machine 0x1000
    {[ [] := 0x1000 ]} boot_state flags_3) as (c & s' & T' & Hr & _ & _ & _ & Hh & _).
  - lia.
  - split; [reflexivity|vm_compute; intuition discriminate..| |by right].
    intros i Hi. assert (i = 0 ∨ i = 1) as [->| ->] by lia; by vm_compute.
  - vm_compute. lia.
  - intros i Hi. assert (i = 0 ∨ i = 1) as [->| ->] by lia; intros (_ & Hp & _);
      vm_compute in Hp; discriminate.
  - exists c, s'. split; [exact Hr|]. rewrite (Hh _ 1); [vm_compute; reflexivity|lia|reflexivity].
Defined.

(** ** Unset *)

Section UnsetProps.
Context {A : Type} `{FreeLaws A, BzeroLaws A}.
Implicit Types (s : machine A) (T : gmap (list Z) Z).

(** Walks that ended at an empty slot translate nothing, before and after. *)
Lemma drop_translate s s' root T T' w :
  pt_state s root T → pt_state s' root T' → leaf_drop s.(mem) s'.(mem) root w →
  translate s'.(mem) root w = translate s.(mem) root w.
Proof.
  intros Hps Hps' Hd. rewrite (pt_translate _ _ _ _ Hps), (pt_translate _ _ _ _ Hps').
  destruct (canonical w); [|done]. destruct Hd as [->|[Hz Hz']]; [done|].
  destruct (leaf4 s.(mem) root w), (leaf4 s'.(mem) root w); cbn in *. by subst.
Qed.

(** C2. [Unset] of an address whose walk ends at a 4 KiB slot or at an entry
    with bit 7 returns true; the whole page is unmapped, whatever its size,
    every other address translates as before, and only tables are written.
    Otherwise it panics. *)
Theorem Unset_unmaps v s root T :
  pt_state s root T → idx v 0 ≠ 511 → v mod 4096 = 0 →
  let '(d, e) := leaf4 s.(mem) root v in
  if (d =? 3) || huge e then
    ∃ s' T', Unset root v s = Ok (true, s') ∧ pt_state s' root T' ∧ same_cpu s s'
      ∧ (∀ w, covers v d w → translate s'.(mem) root w = None)
      ∧ (∀ w, idx w 0 ≠ 511 → ¬ covers v d w →
           translate s'.(mem) root w = translate s.(mem) root w)
      ∧ spared s s' T T'
  else Unset root v s = Stop (Panic "PageTable::Unset() - no mapping found").
Proof.
  intros Hps Hv Hal. pose proof (run_Unset v s root T Hps Hv Hal) as Hu.
  destruct (leaf4 s.(mem) root v) as [d e]. destruct ((d =? 3) || huge e); [|done].
  destruct Hu as (s' & T' & Hr & [Hps' Hcpu Hh He _ _ _ Hsp]).
  exists s', T'. split_and!; [done..| | |done].
  - intros w Hc. eapply unmapped_translate; [done..|]. by rewrite Hh.
  - intros w Hw Hc. eapply drop_translate; [done..|]. by apply He.
Qed.

(** C3. [Unset] frees exactly the tables that became empty.  With the walk of the
    address ending at depth [d], the table at depth [k] of the walk, for
    [0 < k <= d], goes away if and only if none of its entries but the one on the
    walk was in use and the table below it on the walk, if it has one, goes away
    too; no other table does.  What the allocator gets back is exactly the tables
    that go, and no table of the walk that stays is empty. *)
Theorem Unset_frees_tables v s root T s' b :
  pt_state s root T → idx v 0 ≠ 511 → v mod 4096 = 0 →
  Unset root v s = Ok (b, s') →
  let d := Z.to_nat (leaf4 s.(mem) root v).1 in
  b = true ∧ ∃ T', pt_state s' root T'
    ∧ (∀ p g, T' !! p = Some g → T !! p = Some g)
    ∧ (∀ p g, T !! p = Some g → T' !! p = None → ∃ k, (0 < k ≤ d)%nat ∧ p = vpath v k)
    ∧ (∀ k g, (0 < k ≤ d)%nat → T !! vpath v k = Some g →
         T' !! vpath v k = None ↔
         (∀ j, 0 ≤ j < 512 → j ≠ idx v (Z.of_nat k) → read64 s.(mem) (slot g j) = 0)
         ∧ ((k < d)%nat → T' !! vpath v (Datatypes.S k) = None))
    ∧ (∀ g, g ∈ owned s'.(alloc) ↔ g ∈ owned s.(alloc) ∧ ¬ ∃ p, T !! p = Some g ∧ T' !! p = None)
    ∧ (∀ k g, (0 < k ≤ 3)%nat → T' !! vpath v k = Some g →
         ∃ j, 0 ≤ j < 512 ∧ read64 s'.(mem) (slot g j) ≠ 0).
Proof.
  intros Hps Hv Hal Hr. pose proof (run_Unset v s root T Hps Hv Hal) as Hu.
  destruct (leaf4 s.(mem) root v) as [d e]. cbn [fst].
  destruct ((d =? 3) || huge e); [|congruence].
  destruct Hu as (s2 & T' & Hr2 & [Hps' _ _ _ [Hsub Hfr] [Hpath Hempty] Hfull _]).
  rewrite Hr in Hr2. injection Hr2 as -> ->. split; [done|]. exists T'.
  split_and!; [done|done|exact Hpath| |exact Hfr|done].
  intros k g Hk Hg. rewrite (Hempty k g Hk Hg). apply and_iff_compat_r.
  unfold hollow. split; [by auto|]. intros Hz j Hj [Hne|[_ [=]]]. by apply Hz.
Qed.

(** Mapping a page over a free slot and unmapping it restores the
    translation of every address. *)
Lemma Set_Unset_roundtrip v entry mask d s root T s1 :
  pt_state s root T → parent_flags mask → idx v 0 ≠ 511 → 1 ≤ d ≤ 3 →
  v mod span d = 0 → (d = 3 ∨ huge entry = true) →
  Set_ root v entry mask d s = Ok (Some false, s1) →
  ∃ s2 T2, Unset root v s1 = Ok (true, s2) ∧ pt_state s2 root T2
    ∧ ∀ w, idx w 0 ≠ 511 → translate s2.(mem) root w = translate s.(mem) root w.
Proof.
  intros Hps Hm Hv Hd Hal Hlf Hr.
  assert (Hlf' : d = 3 ∨ is_table entry = false).
  { destruct Hlf as [|Hh]; [by left|right]. unfold is_table. rewrite Hh. apply andb_false_r. }
  pose proof (run_Set mask Hm v entry d s root T Hps Hv ltac:(lia) Hal Hlf') as Hset.
  rewrite Hr in Hset. destruct Hset as ([T1 [Hps1 _ _ Hh He _]] & Hb & Ho & _).
  assert (Hpage : v mod 4096 = 0).
  { unfold span in Hal. assert (d = 1 ∨ d = 2 ∨ d = 3) as [->|[->| ->]] by lia;
      eval_pow; zlia. }
  pose proof (run_Unset v s1 root T1 Hps1 Hv Hpage) as Hu.
  rewrite (Hh v (covers_self v d)) in Hu.
  assert ((d =? 3) || huge entry = true) as Hc.
  { destruct Hlf as [->|Hx]; [done|]. rewrite Hx. apply orb_true_r. }
  rewrite Hc in Hu. destruct Hu as (s2 & T2 & Hr2 & [Hps2 _ Hh2 He2 _ _ _]).
  exists s2, T2. split_and!; [done..|]. intros w Hw.
  destruct (decide (covers v d w)) as [Hcw|Hcw].
  - transitivity (@None Z).
    + eapply (unmapped_translate _ _ _ _ s2); [done..|]. by rewrite Hh2.
    + symmetry. eapply (unmapped_translate _ _ _ _ s); [done..|].
      symmetry in Ho. apply truthy_false in Ho.
      assert (Hd' : 0 ≤ d ≤ 3) by lia.
      exact (unmapped_slot _ _ _ _ _ _ (ps_tree _ _ _ Hps) Hv Hd' Hcw Ho Hb).
  - rewrite <-(keep_translate d s s1 root T T1 w Hps Hps1 (He w Hw Hcw)).
    rewrite (pt_translate _ _ _ _ Hps1), (pt_translate _ _ _ _ Hps2).
    destruct (canonical w); [|done]. destruct (He2 w Hw Hcw) as [->|[Hz Hz']]; [done|].
    destruct (leaf4 s1.(mem) root w), (leaf4 s2.(mem) root w); cbn in *. by subst.
Qed.
End UnsetProps.

Lemma Unset_unmaps_witness :
  ∃ s s', translate s.(mem) 0x1000 0x123 = Some 0x123
    ∧ Unset 0x1000 0x200000 s = Ok (true, s')
    ∧ translate s'.(mem) 0x1000 0x123 = None.
Proof.
  destruct boot_huge as (s & T & Hps & Hl).
  pose proof (Unset_unmaps 0x200000 s 0x1000 T Hps ltac:(by vm_compute) eq_refl) as Hu.
  rewrite (Hl 0x200000 eq_refl) in Hu. destruct Hu as (s' & T' & Hr & _ & _ & Hh & _).
  exists s, s'. split_and!.
  - rewrite (pt_translate _ _ _ _ Hps), (Hl 0x123 eq_refl). vm_compute. reflexivity.
  - exact Hr.
  - apply Hh. reflexivity.
Defined.

(** The machine with a 1 GiB page at address 0, in a table of its own. *)
Definition huge_machine : machine PageSet :=
  match Set_ 0x1000 0 0x83 3 1 boot_machine with Ok (_, s) => s | Stop _ => boot_machine end.

Lemma huge_machine_eq : Set_ 0x1000 0 0x83 3 1 boot_machine = Ok (Some false, huge_machine).
Proof. vm_compute. reflexivity. Qed.

(** The page is alone in its table. *)
Definition alone (m : gmap Z Z) (g i : Z) : bool :=
  forallb (λ j, (j =? i) || (read64 m (slot g j) =? 0)) (seqZ 0 512).

Lemma alone_empty m g i : alone m g i = true → ∀ j, 0 ≤ j < 512 → j ≠ i → read64 m (slot g j) = 0.
Proof.
  unfold alone. rewrite forallb_forall. intros Hall j Hj Hne.
  specialize (Hall j). rewrite <-list_elem_of_In, elem_of_seqZ in Hall.
  specialize (Hall ltac:(lia)). apply orb_true_iff in Hall as [?|?]; lia.
Qed.

(** The page goes, and its table with it. *)
Lemma Unset_frees_tables_witness :
  ∃ s', Unset 0x1000 0x200000 huge_machine = Ok (true, s')
    ∧ (0x10000 ∈ owned huge_machine.(alloc)) ∧ (0x10000 ∉ owned s'.(alloc)).
Proof.
  pose proof (run_Set 3 flags_3 0 0x83 1 boot_machine 0x1000 _ boot_state ltac:(by vm_compute)
    ltac:(lia) eq_refl ltac:(by right)) as Hs.
  rewrite huge_machine_eq in Hs. destruct Hs as ([T [Hps _ _ Hl _ _ _ _]] & _).
  pose proof (run_Unset 0x200000 huge_machine 0x1000 T Hps ltac:(by vm_compute) eq_refl) as Hu.
  rewrite (Hl 0x200000 eq_refl) in Hu. destruct Hu as (s' & T'' & Hr & _).
  destruct (Unset_frees_tables 0x200000 huge_machine 0x1000 T s' true Hps
    ltac:(by vm_compute) eq_refl Hr) as (_ & T' & _ & _ & _ & Hempty & Hown & _).
  rewrite (Hl 0x200000 eq_refl) in Hempty. cbn [fst] in Hempty.
  assert (Hg : T !! vpath 0x200000 1 = Some 0x10000).
  { cbn [vpath]. rewrite (t_child _ _ _ (ps_tree _ _ _ Hps) [] 0x1000 (idx 0x200000 (Z.of_nat 0)));
      [vm_compute; reflexivity|apply (t_root _ _ _ (ps_tree _ _ _ Hps))|cbn; lia|apply idx_range|].
    apply (vpath_not_fractal 0x200000 0). by vm_compute. }
  assert (Hgone : T' !! vpath 0x200000 1 = None).
  { apply (Hempty 1%nat 0x10000); [change (Z.to_nat 1) with 1%nat; lia|exact Hg|].
    split; [|change (Z.to_nat 1) with 1%nat; lia].
    apply alone_empty. vm_compute. reflexivity. }
  exists s'. split; [exact Hr|]. split; [exact (ps_owned _ _ _ Hps _ _ Hg)|].
  intros Hin. apply Hown in Hin as [_ Hno]. exact (Hno (ex_intro _ (vpath 0x200000 1) (conj Hg Hgone))).
Defined.

Lemma Set_Unset_roundtrip_witness :
  ∃ s1 s2, Set_ 0x1000 0x5000 (0x9000 .| 3) 3 3 boot_machine = Ok (Some false, s1)
    ∧ Unset 0x1000 0x5000 s1 = Ok (true, s2).
Proof.
  pose proof (run_Set 3 flags_3 0x5000 (0x9000 .| 3) 3 boot_machine 0x1000 _ boot_state
    ltac:(by vm_compute) ltac:(lia) eq_refl ltac:(by left)) as Hs.
  destruct (Set_ _ _ _ _ _ _) as [[[o|] s1]|f] eqn:E.
  - destruct Hs as (_ & _ & Ho & _).
    assert (o = false) as -> by (rewrite Ho; vm_compute; reflexivity).
    destruct (Set_Unset_roundtrip 0x5000 (0x9000 .| 3) 3 3 boot_machine 0x1000 _ s1
      boot_state flags_3 ltac:(by vm_compute) ltac:(lia) eq_refl (or_introl eq_refl) E)
      as (s2 & T2 & Hr & _).
    exists s1, s2. split; [reflexivity|exact Hr].
  - destruct Hs as (_ & Hp & _). by vm_compute in Hp.
  - destruct Hs as (_ & Ha & _). vm_compute in Ha. lia.
Defined.

(** ** Read *)

Lemma read_page e v d :
  2 ≤ d ≤ 3 → e / 2 ^ 52 mod 2 ^ 11 = 0 →
  in_page e d v = (if d =? 3 then e .& 0x7ffffffffffff000 else e .& 0x7fffffffffe00000)
                  + v mod span d.
Proof.
  intros Hd Hx. unfold in_page, span. rewrite frame_eq.
  assert (d = 2 ∨ d = 3) as [->| ->] by lia; cbn [Z.eqb Pos.eqb]; f_equal.
  - change 0x7fffffffffe00000 with (Z.ones 42 .<< 21). rewrite land_field by lia.
    eval_pow. zlia.
  - change 0x7ffffffffffff000 with (Z.ones 51 .<< 12). rewrite land_field by lia.
    eval_pow. zlia.
Qed.

(** [Read] returns false exactly when the walk ends at an entry that is
    neither present nor has bit 7; for a 4 KiB or 2 MiB page it reports the
    size, the permission bits and a page address that agrees with the
    processor's translation; larger pages fail its assertion. *)
Theorem Read_correct {A} `{AllocLaws A, BzeroLaws A} (s : machine A) root T v :
  pt_state s root T →
  let '(d, e) := leaf4 s.(mem) root v in
  Read root v s =
    (if negb (present e || huge e) then Ok (None, s)
     else if d <? 2 then Stop (AssertFail "depth >= 2")
     else Ok (Some ((if d =? 3 then e .& 0x7ffffffffffff000 else e .& 0x7fffffffffe00000),
                mkAttributes (negb (Z.testbit e 63)) (Z.testbit e 1) true, span d), s))
  ∧ (2 ≤ d → present e = true → e / 2 ^ 52 mod 2 ^ 11 = 0 → canonical v = true →
     translate s.(mem) root v =
       Some ((if d =? 3 then e .& 0x7ffffffffffff000 else e .& 0x7fffffffffe00000)
             + v mod span d)).
Proof.
  intros Hps. pose proof (run_Walk v s) as Hw. rewrite (ps_cr3 _ _ _ Hps) in Hw.
  specialize (Hw (tree_self (ps_tree _ _ _ Hps)) (ps_noncritical _ _ _ Hps)).
  unfold walk_report in Hw.
  destruct (leaf4 s.(mem) root v) as [d e] eqn:Hl.
  destruct (leaf4_props _ _ _ _ _ Hl) as [Hd _]. split.
  - unfold Read. run run_AssertNoncritical; [|apply (ps_noncritical _ _ _ Hps)].
    run run_assert_set; [|apply (ps_cr3 _ _ _ Hps)]. run Hw.
    destruct (present e || huge e) eqn:Hph; cbn [negb]; [|done].
    destruct (Z.ltb_spec d 0); [lia|].
    assert (e ≠ 0) as He by (intros ->; by vm_compute in Hph).
    run_assert ltac:(by apply negb_true_iff, Z.eqb_neq).
    destruct (Z.ltb_spec d 2).
    { erewrite run_bind_stop; [done|]. apply run_assert_fail, Z.leb_gt. lia. }
    run_assert ltac:(apply Z.leb_le; lia). change 2 with (1 .<< 1) at 1.
    by rewrite !truthy_bit by lia.
  - intros Hd2 Hp Hx Hc. rewrite (pt_translate _ _ _ _ Hps), Hc, Hl. unfold leaf_frame.
    rewrite Hp. destruct (Z.eqb_spec d 0); [lia|]. cbn [negb andb].
    rewrite (read_page e v d); [done|lia|done].
Qed.

Lemma Read_correct_witness :
  Read 0x1000 0x345678 boot_machine = Ok (None, boot_machine).
Proof.
  pose proof (Read_correct boot_machine 0x1000 {[ [] := 0x1000 ]} 0x345678 boot_state) as Hr.
  destruct (leaf4 boot_machine.(mem) 0x1000 0x345678) as [d e] eqn:E.
  vm_compute in E. injection E as <- <-. destruct Hr as [Hr _]. exact Hr.
Defined.

(** ** Attributes *)

(** A page entry built from an aligned physical address and [CalcMask]
    keeps the address, is present, has the page-size bit exactly for the large
    pages, and carries the user, writable and no-execute permissions asked
    for. *)
Theorem CalcMask_correct phys sz kernel attr :
  phys mod 4096 = 0 → 0 ≤ phys < 2 ^ 52 →
  let e := phys .| CalcMask sz kernel attr in
  frame e = phys ∧ present e = true ∧ huge e = negb (sz =? 0x1000)
  ∧ Z.testbit e 1 = attr.(writable) ∧ Z.testbit e 2 = negb kernel
  ∧ Z.testbit e 63 = negb attr.(executable) ∧ is_u64 e.
Proof.
  intros Hal Hb e.
  assert (Hlow : ∀ i, 0 ≤ i < 12 → Z.testbit phys i = false).
  { intros i Hi. replace phys with (phys / 2 ^ 12 * 2 ^ 12) by (eval_pow; zlia).
    apply Z.mul_pow2_bits_low. lia. }
  assert (Hhi : Z.testbit phys 63 = false).
  { apply Z.testbit_false; [lia|]. rewrite Z.div_small; [done|eval_pow; lia]. }
  assert (Hu : is_u64 phys) by (unfold is_u64; eval_pow; lia).
  assert (Hf : ∀ m, frame m = 0 → frame (phys .| m) = phys).
  { intros m Hm. unfold frame in *. rewrite Z.land_lor_distr_l, Hm, Z.lor_0_r.
    by apply frame_page. }
  assert (Hm : is_u64 (CalcMask sz kernel attr) ∧ frame (CalcMask sz kernel attr) = 0
    ∧ Z.testbit (CalcMask sz kernel attr) 0 = true
    ∧ Z.testbit (CalcMask sz kernel attr) 7 = negb (sz =? 0x1000)
    ∧ Z.testbit (CalcMask sz kernel attr) 1 = attr.(writable)
    ∧ Z.testbit (CalcMask sz kernel attr) 2 = negb kernel
    ∧ Z.testbit (CalcMask sz kernel attr) 63 = negb attr.(executable)).
  { unfold CalcMask, is_u64. by destruct (sz =? 0x1000), kernel, attr as [[] [] ca]. }
  destruct Hm as (? & ? & ? & ? & ? & ? & ?). unfold e.
  rewrite present_bit, huge_bit, !Z.lor_spec, !Hlow, Hhi by lia.
  split_and!; auto with anarch.
Qed.

Lemma CalcMask_correct_witness :
  frame (0x7000 .| CalcMask 0x1000 true default_attributes) = 0x7000.
Proof.
  destruct (CalcMask_correct 0x7000 0x1000 true default_attributes eq_refl ltac:(lia))
    as (Hf & _). exact Hf.
Defined.
