(* ===== verification/FreeList.v ===== *)
(** * The free list of user address space (src/arch/x64/vmm/user/free-list.cpp)

    [FreeList] keeps the free regions of a user address space in a linked
    list.  The list owns its nodes and no node is shared, so the list is a
    [list Region]; the nodes come from the heap of the current domain, an
    interface of this file. *)

From stdpp Require Import base numbers list gmap strings.
From Stdlib Require Import ZArith Lia.
From S2P Require Import Prelude Machine.
#[local] Open Scope Z_scope.

(** ** The heap (src/arch/api/domain.hpp) *)

(** [Domain::GetCurrent().New<T>()] and [Delete()]; [false]: the pointer
    returned is NULL. *)
Class DomainHeap (A : Type) := {
  NewObject : M (machine A) bool;
  DeleteObject : M (machine A) unit;
}.

(** A heap that has memory: objects come and go, and the processor state the
    caller runs under stays. *)
Class HeapLaws (A : Type) `{DomainHeap A} := {
  heap_step : machine A → machine A → Prop;
  heap_preorder : PreOrder heap_step;
  heap_noncritical : ∀ s s', heap_step s s' → noncritical s → noncritical s';
  heap_new : ∀ s, noncritical s → ∃ s', NewObject s = Ok (true, s') ∧ heap_step s s';
  heap_delete : ∀ s, noncritical s → ∃ s', DeleteObject s = Ok (tt, s') ∧ heap_step s s';
}.

#[export] Existing Instance heap_preorder.

Module FreeList.

(** [FreeList::Region]; the link is the position in the list. *)
Record Region : Type := mkRegion { start : Z; size : Z }.

#[export] Instance Region_eq_dec : EqDecision Region.
Proof. solve_decision. Defined.

(** The constructor's assertion. *)
Definition region_ok (r : Region) : bool :=
  (r.(start) <? r.(start) +u r.(size)) || (r.(start) +u r.(size) =? 0).

Definition End_ (r : Region) : Z := r.(start) +u r.(size).

(** Bytes skipped to reach a multiple of [pageSize]. *)
Definition chop (r : Region) (pageSize : Z) : Z :=
  if truthy (r.(start) mod pageSize) then pageSize - r.(start) mod pageSize else 0.

Definition CanHold (r : Region) (pageSize pageCount : Z) : bool :=
  chop r pageSize +u (pageSize *u pageCount) <=? r.(size).

Definition IsAdjacentBehind (r : Region) (addr : Z) : bool :=
  if r.(start) +u r.(size) =? 0 then false else r.(start) +u r.(size) =? addr.

Definition Contains (r reg : Region) : bool :=
  if reg.(start) <? r.(start) then false
  else if negb (r.(start) +u r.(size) =? 0) then
    if reg.(start) +u reg.(size) =? 0 then false
    else reg.(start) +u reg.(size) <=? r.(start) +u r.(size)
  else true.

Definition IsBehind (r : Region) (addr : Z) : bool :=
  if r.(start) +u r.(size) =? 0 then false else r.(start) +u r.(size) <=? addr.

Definition IsFilledBy (r reg : Region) : bool :=
  (reg.(start) =? r.(start)) && (reg.(size) =? r.(size)).

Definition IsEndedBy (r reg : Region) : bool :=
  reg.(start) +u reg.(size) =? r.(start) +u r.(size).

Definition IsStartedBy (r reg : Region) : bool := reg.(start) =? r.(start).

Section Ops.
Context {A : Type} `{DomainHeap A}.

(** The operations run on the machine; the list is passed along. *)

Definition AllocRegion (start size : Z) : M (machine A) Region :=
  _ ← AssertNoncritical;
  ok ← NewObject;
  if (ok : bool) then
    _ ← assert (region_ok (mkRegion start size)) "start + size > start || start + size == 0";
    mret (mkRegion start size)
  else stop (Undefined "AllocRegion: NULL region").

Definition FreeRegion : M (machine A) unit := _ ← AssertNoncritical; DeleteObject.

(** [requested] taken out of [reg]: what replaces the node in the list. *)
Definition AllocInRegion (reg requested : Region) : M (machine A) (list Region) :=
  if IsFilledBy reg requested then _ ← FreeRegion; mret []
  else if IsStartedBy reg requested then
    mret [mkRegion (reg.(start) +u requested.(size)) reg.(size)]
  else if IsEndedBy reg requested then
    mret [mkRegion reg.(start) (reg.(size) -u requested.(size))]
  else
    let suffixSize := End_ reg -u End_ requested in
    suffix ← AllocRegion (End_ requested) suffixSize;
    mret [mkRegion reg.(start) (requested.(start) -u reg.(start)); suffix].

(** The loop of [AllocAt]: the new list, [None] at the end of the list. *)
Fixpoint allocat_loop (l : list Region) (requested : Region)
  : M (machine A) (option (list Region)) :=
  match l with
  | [] => mret None
  | reg :: rest =>
      if negb (Contains reg requested) then
        r ← allocat_loop rest requested;
        mret (match r with Some l' => Some (reg :: l') | None => None end)
      else
        new ← AllocInRegion reg requested; mret (Some (new ++ rest))
  end.

Definition AllocAt (l : list Region) (start pageSize pageCount : Z)
  : M (machine A) (bool * list Region) :=
  if truthy (start mod pageSize) then mret (false, l)
  else
    let requested := mkRegion start (pageSize *u pageCount) in
    _ ← assert (region_ok requested) "start + size > start || start + size == 0";
    r ← allocat_loop l requested;
    mret (match r with Some l' => (true, l') | None => (false, l) end).

(** The loop of [Alloc]: the address and the new list. *)
Fixpoint alloc_loop (l : list Region) (pageSize pageCount : Z)
  : M (machine A) (option (Z * list Region)) :=
  match l with
  | [] => mret None
  | reg :: rest =>
      if negb (CanHold reg pageSize pageCount) then
        r ← alloc_loop rest pageSize pageCount;
        mret (match r with Some (a, l') => Some (a, reg :: l') | None => None end)
      else
        let requested := mkRegion (reg.(start) +u chop reg pageSize) (pageSize *u pageCount) in
        _ ← assert (region_ok requested) "start + size > start || start + size == 0";
        new ← AllocInRegion reg requested;
        mret (Some (requested.(start), new ++ rest))
  end.

Definition Alloc (l : list Region) (pageSize pageCount : Z)
  : M (machine A) (Z * list Region) :=
  _ ← AssertNoncritical;
  r ← alloc_loop l pageSize pageCount;
  mret (match r with Some (a, l') => (a, l') | None => (0, l) end).

(** The inner loop of [Free]: [reg] takes in the nodes it touches. *)
Fixpoint absorb (reg : Region) (rest : list Region) : M (machine A) (list Region) :=
  match rest with
  | [] => mret [reg]
  | theNext :: rest' =>
      if negb (IsAdjacentBehind reg theNext.(start)) then mret (reg :: rest)
      else
        _ ← FreeRegion;
        absorb (mkRegion reg.(start) (reg.(size) +u theNext.(size))) rest'
  end.

Fixpoint free_loop (l : list Region) (releasing : Region) : M (machine A) (list Region) :=
  match l with
  | [] =>
      newRegion ← AllocRegion releasing.(start) releasing.(size); mret [newRegion]
  | reg :: rest =>
      if IsAdjacentBehind reg releasing.(start) then
        absorb (mkRegion reg.(start) (reg.(size) +u releasing.(size))) rest
      else if IsAdjacentBehind releasing reg.(start) then
        mret (mkRegion (reg.(start) -u releasing.(size)) (reg.(size) +u releasing.(size))
                :: rest)
      else if IsBehind releasing reg.(start) then
        newRegion ← AllocRegion releasing.(start) releasing.(size);
        mret (newRegion :: l)
      else
        rest' ← free_loop rest releasing; mret (reg :: rest')
  end.

Definition Free (l : list Region) (addr pageSize pageCount : Z)
  : M (machine A) (list Region) :=
  _ ← AssertNoncritical;
  let releasing := mkRegion addr (pageSize *u pageCount) in
  _ ← assert (region_ok releasing) "start + size > start || start + size == 0";
  free_loop l releasing.

(** [FreeList::~FreeList] *)
Fixpoint destroy (l : list Region) : M (machine A) unit :=
  match l with
  | [] => mret tt
  | _ :: rest => _ ← FreeRegion; destroy rest
  end.
End Ops.

End FreeList.

(** ** The set of free addresses *)

Import FreeList.

(** The end of a region, not wrapped. *)
Definition rend (r : Region) : Z := r.(start) + r.(size).

Definition in_region (r : Region) (a : Z) : Prop := r.(start) ≤ a < rend r.

Definition is_free (l : list Region) (a : Z) : Prop := ∃ r, r ∈ l ∧ in_region r a.

(** A region of 64-bit addresses; it may end at 2^64. *)
Definition region_wf (r : Region) : Prop := 0 ≤ r.(start) ∧ 0 < r.(size) ∧ rend r ≤ 2 ^ 64.

(** The list invariant: regions in ascending order with a gap between any two
    of them, all at or above [lo].  Address 0 is never free: [Alloc] returns it
    when it fails. *)
Fixpoint sep (lo : Z) (l : list Region) : Prop :=
  match l with
  | [] => True
  | r :: rest => lo ≤ r.(start) ∧ region_wf r ∧ sep (rend r + 1) rest
  end.

Definition fl_inv (l : list Region) : Prop := sep 1 l.

(** *** The wrapped tests, in terms of the ends *)

Lemma u64_end x : 0 < x ≤ 2 ^ 64 → u64 x = if x =? 2 ^ 64 then 0 else x.
Proof.
  intros. destruct (Z.eqb_spec x (2 ^ 64)) as [->|]; [done|]. apply u64_small. unfold is_u64. lia.
Qed.

Section Tests.
Context (r q : Region) (Hr : region_wf r) (Hq : region_wf q).

Lemma end_eq : r.(start) +u r.(size) = if rend r =? 2 ^ 64 then 0 else rend r.
Proof using Hr. destruct Hr as (? & ? & ?). apply u64_end. unfold rend in *. lia. Qed.

Lemma end_zero : (r.(start) +u r.(size) =? 0) = (rend r =? 2 ^ 64).
Proof using Hr.
  rewrite end_eq. destruct Hr as (? & ? & ?). unfold rend in *.
  destruct (Z.eqb_spec (r.(start) + r.(size)) (2 ^ 64)); [done|]. apply Z.eqb_neq. lia.
Qed.

Lemma adjacent_eq a : a < 2 ^ 64 → IsAdjacentBehind r a = (rend r =? a).
Proof using Hr.
  intros Ha. unfold IsAdjacentBehind. rewrite end_zero, end_eq.
  destruct (Z.eqb_spec (rend r) (2 ^ 64)) as [->|]; [|done]. symmetry. apply Z.eqb_neq. lia.
Qed.

Lemma behind_eq a : a < 2 ^ 64 → IsBehind r a = (rend r <=? a).
Proof using Hr.
  intros Ha. unfold IsBehind. rewrite end_zero, end_eq.
  destruct (Z.eqb_spec (rend r) (2 ^ 64)) as [->|]; [|done]. symmetry. apply Z.leb_gt. lia.
Qed.
End Tests.

Section Contained.
Context (r q : Region) (Hr : region_wf r) (Hq : region_wf q).

Lemma contains_eq : Contains r q = (r.(start) <=? q.(start)) && (rend q <=? rend r).
Proof using Hr Hq.
  unfold Contains. rewrite !end_zero, !end_eq by done.
  pose proof Hr as (? & ? & ?). pose proof Hq as (? & ? & ?).
  destruct (Z.ltb_spec q.(start) r.(start)), (Z.leb_spec r.(start) q.(start)); try lia; try done.
  cbn [andb]. destruct (Z.eqb_spec (rend r) (2 ^ 64)), (Z.eqb_spec (rend q) (2 ^ 64)); cbn [negb].
  - symmetry. apply Z.leb_le. lia.
  - symmetry. apply Z.leb_le. lia.
  - symmetry. apply Z.leb_gt. lia.
  - done.
Qed.

Lemma ended_eq : IsEndedBy r q = (rend q =? rend r).
Proof using Hr Hq.
  unfold IsEndedBy. rewrite !end_eq by done.
  pose proof Hr as (? & ? & ?). pose proof Hq as (? & ? & ?). unfold rend in *.
  destruct (Z.eqb_spec (r.(start) + r.(size)) (2 ^ 64)),
    (Z.eqb_spec (q.(start) + q.(size)) (2 ^ 64)); try done.
  - rewrite e, e0. done.
  - transitivity false; [|symmetry]; apply Z.eqb_neq; lia.
  - transitivity false; [|symmetry]; apply Z.eqb_neq; lia.
Qed.
End Contained.

Lemma region_ok_wf r : region_wf r → region_ok r = true.
Proof.
  intros Hr. unfold region_ok. rewrite end_zero, end_eq by done.
  destruct Hr as (? & ? & ?). unfold rend in *.
  destruct (Z.eqb_spec (r.(start) + r.(size)) (2 ^ 64)); [apply orb_true_r|].
  rewrite orb_false_r. apply Z.ltb_lt. lia.
Qed.

(** What is left of [r] when the contained [q] is taken out of its middle or
    end: the part before and the part after. *)
Definition left_part (r q : Region) : list Region :=
  if r.(start) <? q.(start) then [mkRegion r.(start) (q.(start) - r.(start))] else [].
Definition right_part (r q : Region) : list Region :=
  if rend q <? rend r then [mkRegion (rend q) (rend r - rend q)] else [].

(** [q] is a proper prefix of [r]. *)
Definition starts (r q : Region) : Prop := q.(start) = r.(start) ∧ rend q < rend r.
#[export] Instance starts_dec r q : Decision (starts r q).
Proof. unfold starts. apply _. Defined.

(** The nodes that replace [r] when [q] is allocated out of it: a prefix moves
    the start of the node and leaves its size. *)
Definition carved (r q : Region) : list Region :=
  if decide (starts r q) then [mkRegion (rend q) r.(size)]
  else left_part r q ++ right_part r q.

Section Run.
Context {A : Type} `{HeapLaws A}.
Implicit Types (s : machine A).

Lemma run_FreeRegion s :
  noncritical s → ∃ s', FreeRegion s = Ok (tt, s') ∧ heap_step s s'.
Proof.
  intros Hn. unfold FreeRegion. run run_AssertNoncritical; [|done]. by apply heap_delete.
Qed.

Lemma run_AllocRegion a n s :
  noncritical s → region_wf (mkRegion a n) →
  ∃ s', AllocRegion a n s = Ok (mkRegion a n, s') ∧ heap_step s s'.
Proof.
  intros Hn Hw. unfold AllocRegion. run run_AssertNoncritical; [|done].
  destruct (heap_new s Hn) as (s' & Hnew & Hs). exists s'. split; [|done].
  run Hnew. cbn iota. run_assert ltac:(by apply region_ok_wf). done.
Qed.

Lemma run_AllocInRegion r q s :
  noncritical s → region_wf r → region_wf q → Contains r q = true →
  ∃ s', AllocInRegion r q s = Ok (carved r q, s') ∧ heap_step s s'.
Proof.
  intros Hn Hr Hq. rewrite contains_eq by done.
  intros [Hc1%Z.leb_le Hc2%Z.leb_le]%andb_true_iff.
  unfold AllocInRegion, carved, starts, left_part, right_part, IsFilledBy, IsStartedBy.
  rewrite ended_eq by done.
  pose proof Hr as (Hr1 & Hr2 & Hr3). pose proof Hq as (Hq1 & Hq2 & Hq3).
  destruct (Z.eqb_spec q.(start) r.(start)) as [He|He]; cbn [andb].
  - destruct (Z.eqb_spec q.(size) r.(size)) as [Hz|Hz].
    { destruct (run_FreeRegion s Hn) as (s' & Hf & Hs). exists s'. split; [|done].
      run Hf. unfold rend. rewrite decide_False by lia.
      rewrite (proj2 (Z.ltb_ge _ _)) by lia. rewrite (proj2 (Z.ltb_ge _ _)) by lia. done. }
    exists s. split; [|reflexivity].
    rewrite decide_True by (split; [done|unfold rend in *; lia]).
    rewrite u64_small by (unfold is_u64, rend in *; lia). unfold rend. by rewrite He.
  - rewrite decide_False by (intros [? ?]; lia).
    rewrite (proj2 (Z.ltb_lt r.(start) q.(start))) by lia.
    destruct (Z.eqb_spec (rend q) (rend r)) as [Hz|Hz].
    { exists s. split; [|reflexivity]. rewrite (proj2 (Z.ltb_ge _ _)) by lia.
      rewrite u64_small by (unfold is_u64, rend in *; lia). unfold rend in *.
      cbn [app]. by replace (r.(size) - q.(size)) with (q.(start) - r.(start)) by lia. }
    rewrite (proj2 (Z.ltb_lt (rend q) (rend r))) by lia. unfold End_.
    rewrite !end_eq by done. destruct (Z.eqb_spec (rend q) (2 ^ 64)); [lia|].
    assert (Hsz : (if rend r =? 2 ^ 64 then 0 else rend r) -u rend q = rend r - rend q).
    { destruct (Z.eqb_spec (rend r) (2 ^ 64)) as [E|E].
      - rewrite u64_borrow by (unfold rend in *; lia). lia.
      - apply u64_small. unfold is_u64, rend in *. lia. }
    rewrite Hsz.
    destruct (run_AllocRegion (rend q) (rend r - rend q) s Hn) as (s' & Hnew & Hs).
    { unfold region_wf, rend in *. cbn. lia. }
    exists s'. split; [|done]. run Hnew. rewrite u64_small by (unfold is_u64, rend in *; lia).
    done.
Qed.
End Run.

(** ** The invariant *)

Lemma sep_mono lo lo' l : lo' ≤ lo → sep lo l → sep lo' l.
Proof. destruct l; cbn; [done|]. intros ? (? & ? & ?). split_and!; [lia|done..]. Qed.

Lemma sep_wf lo l r : sep lo l → r ∈ l → region_wf r ∧ lo ≤ r.(start).
Proof.
  revert lo. induction l as [|x l IH]; intros lo; cbn; [by intros _ ?%not_elem_of_nil|].
  intros (Hlo & Hx & Hl) [->|Hr]%elem_of_cons; [done|].
  destruct (IH _ Hl Hr). destruct Hx as (? & ? & ?). unfold rend in *. split; [done|lia].
Qed.

Lemma sep_free lo l a : sep lo l → is_free l a → lo ≤ a < 2 ^ 64.
Proof.
  intros Hl (r & Hr & Ha). destruct (sep_wf _ _ _ Hl Hr) as [(? & ? & ?) ?].
  unfold in_region in Ha. lia.
Qed.

(** Replacing one node, the rest of the list being kept. *)
Lemma sep_replace lo l1 r l2 new :
  sep lo (l1 ++ r :: l2) →
  (∀ lo', lo' ≤ r.(start) → sep (rend r + 1) l2 → sep lo' (new ++ l2)) →
  sep lo (l1 ++ new ++ l2).
Proof.
  intros Hl Hnew. revert lo Hl. induction l1 as [|x l1 IH]; intros lo; cbn.
  - intros (? & ? & ?). auto.
  - intros (? & ? & ?). split_and!; auto.
Qed.

Lemma is_free_nil a : ¬ is_free [] a.
Proof. by intros (r & Hr%not_elem_of_nil & _). Qed.

Lemma is_free_cons r l a : is_free (r :: l) a ↔ in_region r a ∨ is_free l a.
Proof.
  unfold is_free. setoid_rewrite elem_of_cons. naive_solver.
Qed.

Lemma is_free_app l1 l2 a : is_free (l1 ++ l2) a ↔ is_free l1 a ∨ is_free l2 a.
Proof. unfold is_free. setoid_rewrite elem_of_app. naive_solver. Qed.

(** Nothing of the rest of the list lies in a node or touches its end. *)
Lemma sep_apart lo l1 r l2 a :
  sep lo (l1 ++ r :: l2) → r.(start) ≤ a ≤ rend r → ¬ is_free l1 a ∧ ¬ is_free l2 a.
Proof.
  intros Hl Ha. revert lo Hl. induction l1 as [|x l1 IH]; intros lo; cbn.
  - intros (_ & _ & Hl). split; [apply is_free_nil|].
    intros Hf%(sep_free _ _ _ Hl). lia.
  - intros (_ & Hx & Hl). destruct (IH _ Hl) as [H1 H2]. split; [|done].
    rewrite is_free_cons. intros [Hin|]; [|done].
    destruct (sep_wf _ _ r Hl) as [_ Hs]; [apply elem_of_app; right; by left|].
    unfold in_region in Hin. lia.
Qed.

(** A contiguous free range lies in one node. *)
Lemma free_range lo l x y :
  sep lo l → x < y → (∀ a, x ≤ a < y → is_free l a) →
  ∃ r, r ∈ l ∧ r.(start) ≤ x ∧ y ≤ rend r.
Proof.
  intros Hl Hxy Hf. destruct (Hf x) as (r & Hr & Hin); [lia|]. exists r.
  split; [done|]. split; [apply Hin|].
  destruct (decide (y ≤ rend r)) as [|Hy]; [done|]. exfalso.
  apply list_elem_of_split in Hr as (l1 & l2 & ->).
  destruct (sep_apart _ _ _ _ (rend r) Hl) as [H1 H2]; [unfold in_region in Hin; lia|].
  specialize (Hf (rend r) ltac:(unfold in_region in Hin; lia)).
  apply is_free_app in Hf as [|[Hf|]%is_free_cons]; [done| |done].
  unfold in_region in Hf. lia.
Qed.

(** The first nodes of lists with the same free addresses. *)
Lemma fl_first_start lo lo' (r r' : Region) l l' :
  sep lo (r :: l) → sep lo' (r' :: l') → (∀ a, is_free (r :: l) a → is_free (r' :: l') a) →
  r'.(start) ≤ r.(start).
Proof.
  intros (_ & (? & ? & ?) & _) (_ & (? & ? & ?) & Hl') Heq.
  destruct (Heq r.(start)) as (x & Hx & Hin);
    [apply is_free_cons; left; unfold in_region, rend; lia|].
  apply elem_of_cons in Hx as [->|Hx]; [unfold in_region in Hin; lia|].
  destruct (sep_wf _ _ _ Hl' Hx) as [_ ?]. unfold in_region, rend in *. lia.
Qed.

Lemma fl_first_end lo lo' (r r' : Region) l l' :
  sep lo (r :: l) → sep lo' (r' :: l') → r.(start) = r'.(start) →
  (∀ a, is_free (r :: l) a → is_free (r' :: l') a) → rend r ≤ rend r'.
Proof.
  intros (_ & (? & ? & ?) & _) Hl' Hst Heq.
  destruct (decide (rend r ≤ rend r')) as [|Hlt]; [done|]. exfalso.
  pose proof Hl' as (_ & (? & ? & ?) & _).
  destruct (sep_apart lo' [] r' l' (rend r') Hl') as [_ Hno]; [unfold rend in *; lia|].
  assert (is_free (r' :: l') (rend r')) as [Hin|]%is_free_cons; [|unfold in_region in Hin; lia|done].
  apply Heq, is_free_cons. left. unfold in_region, rend in *. lia.
Qed.

(** Two lists with the same free addresses are equal. *)
Lemma fl_unique lo lo' l l' :
  sep lo l → sep lo' l' → (∀ a, is_free l a ↔ is_free l' a) → l = l'.
Proof.
  revert lo lo' l'. induction l as [|r l IH]; intros lo lo' [|r' l'] Hl Hl' Heq.
  - done.
  - exfalso. destruct Hl' as (_ & (? & ? & ?) & _). apply (is_free_nil r'.(start)), Heq.
    apply is_free_cons. left. unfold in_region, rend. lia.
  - exfalso. destruct Hl as (_ & (? & ? & ?) & _). apply (is_free_nil r.(start)), Heq.
    apply is_free_cons. left. unfold in_region, rend. lia.
  - assert (Hst : r.(start) = r'.(start)).
    { apply Z.le_antisymm; eapply fl_first_start; eauto; intros; by apply Heq. }
    assert (He : rend r = rend r').
    { apply Z.le_antisymm; eapply fl_first_end; eauto; intros; by apply Heq. }
    assert (r = r') as <-.
    { destruct r, r'; unfold rend in He; cbn in *. f_equal; lia. }
    f_equal. destruct Hl as (_ & ? & Hl), Hl' as (_ & ? & Hl'). eapply IH; [done..|].
    intros a. specialize (Heq a). rewrite !is_free_cons in Heq.
    assert (∀ l, sep (rend r + 1) l → is_free l a → ¬ in_region r a) as Hno.
    { intros k Hk Hf%(sep_free _ _ _ Hk) Hin. unfold in_region in Hin. lia. }
    specialize (Hno l Hl) as H1. specialize (Hno l' Hl') as H2. naive_solver.
Qed.

(** *** Taking a region out *)

Section Carve.
Context (r q : Region) (Hr : region_wf r) (Hq : region_wf q).
Context (Hlo : r.(start) ≤ q.(start)) (Hhi : rend q ≤ rend r) (Hns : ¬ starts r q).

Lemma carved_free a : is_free (carved r q) a ↔ in_region r a ∧ ¬ in_region q a.
Proof using Hr Hq Hlo Hhi Hns.
  unfold carved. rewrite decide_False by done. rewrite is_free_app.
  unfold left_part, right_part, in_region.
  destruct (Z.ltb_spec r.(start) q.(start)), (Z.ltb_spec (rend q) (rend r));
    rewrite ?is_free_cons; unfold in_region, rend in *; cbn [start size];
    pose proof (is_free_nil a); pose proof Hr as (? & ? & ?); pose proof Hq as (? & ? & ?);
    split; intros; intuition lia.
Qed.

Lemma carved_sep lo l : lo ≤ r.(start) → sep (rend r + 1) l → sep lo (carved r q ++ l).
Proof using Hr Hq Hlo Hhi Hns.
  intros Hl Hs. unfold carved. rewrite decide_False by done.
  unfold left_part, right_part. pose proof Hr as (? & ? & ?). pose proof Hq as (? & ? & ?).
  destruct (Z.ltb_spec r.(start) q.(start)), (Z.ltb_spec (rend q) (rend r)); cbn [app sep];
    unfold region_wf, rend in *; cbn [start size]; split_and?;
    try lia; (eapply sep_mono; [|exact Hs]); lia.
Qed.
End Carve.

(** The region of a request. *)
Definition request (start pageSize pageCount : Z) : Region :=
  mkRegion start (pageSize *u pageCount).

Section AllocRun.
Context {A : Type} `{HeapLaws A}.
Implicit Types (s : machine A).

Lemma run_allocat_loop l lo q s :
  sep lo l → noncritical s → region_wf q →
  ∃ r s', allocat_loop l q s = Ok (r, s') ∧ heap_step s s' ∧
    match r with
    | None => ∀ reg, reg ∈ l → Contains reg q = false
    | Some l' => ∃ l1 reg l2, l = l1 ++ reg :: l2 ∧ Contains reg q = true
        ∧ l' = l1 ++ carved reg q ++ l2
    end.
Proof.
  intros Hl Hn Hq. revert lo Hl. induction l as [|reg l IH]; intros lo Hl; cbn [allocat_loop].
  { exists None, s. split_and!; [done|reflexivity|]. by intros reg ?%not_elem_of_nil. }
  destruct Hl as (_ & Hreg & Hl). destruct (Contains reg q) eqn:Hc; cbn [negb].
  - destruct (run_AllocInRegion reg q s Hn Hreg Hq Hc) as (s' & Hr & Hs).
    eexists _, s'. split; [by run Hr|]. split; [done|]. exists [], reg, l. done.
  - destruct (IH _ Hl) as (r & s' & Hr & Hs & Hpost).
    eexists _, s'. split; [by run Hr|]. split; [done|]. destruct r as [l'|].
    + destruct Hpost as (l1 & x & l2 & -> & Hx & ->). exists (reg :: l1), x, l2. done.
    + intros x [->|Hx]%elem_of_cons; auto.
Qed.

Lemma run_alloc_loop l lo ps n s :
  sep lo l → noncritical s → 0 < ps → 0 < ps * n → ps + ps * n < 2 ^ 64 →
  ∃ r s', alloc_loop l ps n s = Ok (r, s') ∧ heap_step s s' ∧
    match r with
    | None => ∀ reg, reg ∈ l → rend reg < reg.(start) + chop reg ps + ps * n
    | Some (a, l') => ∃ l1 reg l2, l = l1 ++ reg :: l2
        ∧ (∀ x, x ∈ l1 → rend x < x.(start) + chop x ps + ps * n)
        ∧ a = reg.(start) + chop reg ps ∧ a + ps * n ≤ rend reg
        ∧ l' = l1 ++ carved reg (mkRegion a (ps * n)) ++ l2
    end.
Proof.
  intros Hl Hn Hps Hpn Hb. revert lo Hl.
  induction l as [|reg l IH]; intros lo Hl; cbn [alloc_loop].
  { exists None, s. split_and!; [done|reflexivity|]. by intros reg ?%not_elem_of_nil. }
  destruct Hl as (_ & Hreg & Hl). pose proof Hreg as (? & ? & ?).
  assert (Hch : 0 ≤ chop reg ps < ps).
  { unfold chop. pose proof (Z.mod_pos_bound reg.(start) ps Hps).
    destruct (truthy _) eqn:E; [apply truthy_true in E|]; lia. }
  assert (Hcan : CanHold reg ps n = (reg.(start) + chop reg ps + ps * n <=? rend reg)).
  { unfold CanHold. rewrite (u64_small (ps * n)) by (unfold is_u64; lia).
    rewrite u64_small by (unfold is_u64; lia). unfold rend.
    destruct (Z.leb_spec (chop reg ps + ps * n) reg.(size)); symmetry;
      [apply Z.leb_le|apply Z.leb_gt]; lia. }
  rewrite Hcan. destruct (Z.leb_spec (reg.(start) + chop reg ps + ps * n) (rend reg)); cbn [negb].
  - rewrite (u64_small (ps * n)) by (unfold is_u64; lia).
    rewrite u64_small by (unfold is_u64, rend in *; lia).
    set (q := mkRegion (reg.(start) + chop reg ps) (ps * n)).
    assert (Hq : region_wf q) by (unfold region_wf, rend in *; cbn; lia).
    assert (Hc : Contains reg q = true).
    { rewrite contains_eq by done. unfold rend in *. cbn.
      apply andb_true_iff. rewrite !Z.leb_le. lia. }
    destruct (run_AllocInRegion reg q s Hn Hreg Hq Hc) as (s' & Hr & Hs).
    eexists _, s'. split; [run_assert ltac:(by apply region_ok_wf); by run Hr|]. split; [done|].
    exists [], reg, l. split_and!; [done|by intros x ?%not_elem_of_nil|done|cbn; lia|done].
  - destruct (IH _ Hl) as (r & s' & Hr & Hs & Hpost).
    eexists _, s'. split; [by run Hr|]. split; [done|]. destruct r as [[a l']|].
    + destruct Hpost as (l1 & x & l2 & -> & Hx & ? & ? & ->). exists (reg :: l1), x, l2.
      split_and!; [done| |done..]. intros y [->|Hy]%elem_of_cons; [lia|auto].
    + intros x [->|Hx]%elem_of_cons; [lia|auto].
Qed.
End AllocRun.

(** *** Giving a region back *)

Definition disjoint_from (q : Region) (l : list Region) : Prop :=
  ∀ a, in_region q a → ¬ is_free l a.

Lemma sep_after lo q l :
  sep lo l → region_wf q → q.(start) ≤ lo → disjoint_from q l → sep (rend q) l.
Proof.
  destruct l as [|r l]; cbn; [done|]. intros (? & Hr & ?) Hq Hlo Hd. split; [|done].
  destruct (decide (rend q ≤ r.(start))) as [|Hlt]; [done|]. exfalso.
  apply (Hd r.(start)); [unfold in_region; lia|]. apply is_free_cons. left.
  destruct Hr as (? & ? & ?). unfold in_region, rend. lia.
Qed.

Section FreeRun.
Context {A : Type} `{HeapLaws A}.
Implicit Types (s : machine A).

Lemma run_absorb l lo reg s :
  1 ≤ lo ≤ reg.(start) → region_wf reg → sep (rend reg) l → noncritical s →
  ∃ l' s', absorb reg l s = Ok (l', s') ∧ heap_step s s' ∧ sep lo l'
    ∧ ∀ a, is_free l' a ↔ is_free (reg :: l) a.
Proof.
  revert reg s. induction l as [|n l IH]; intros reg s Hlo Hreg Hl Hn; cbn [absorb].
  { exists [reg], s. split_and!; try done. cbn. split; [lia|done]. }
  destruct Hl as (Hle & Hw & Hl). pose proof Hw as (? & ? & ?). pose proof Hreg as (? & ? & ?).
  rewrite adjacent_eq by (done || unfold rend in *; lia).
  destruct (Z.eqb_spec (rend reg) n.(start)) as [He|He]; cbn [negb].
  - destruct (run_FreeRegion s Hn) as (s1 & Hf & Hs). run Hf.
    rewrite u64_small by (unfold is_u64, rend in *; lia).
    set (reg2 := mkRegion reg.(start) (reg.(size) + n.(size))).
    assert (He2 : rend reg2 = rend n) by (unfold rend in *; cbn; lia).
    destruct (IH reg2 s1) as (l' & s' & Hr & Hs' & Hsep & Hfree); [done| | |by eapply heap_noncritical|].
    { unfold region_wf. rewrite He2. unfold rend in *. cbn. lia. }
    { rewrite He2. eapply sep_mono; [|done]. lia. }
    exists l', s'. split; [done|]. split; [by etrans|]. split; [done|].
    intros a. rewrite Hfree, !is_free_cons.
    assert (in_region reg2 a ↔ in_region reg a ∨ in_region n a); [|tauto].
    unfold in_region. rewrite He2. unfold rend in *. cbn [start size reg2]. lia.
  - exists (reg :: n :: l), s. split_and!; try done. cbn. split_and!; try done; lia.
Qed.

Lemma run_free_loop l lo q s :
  1 ≤ lo ≤ q.(start) → region_wf q → sep lo l → disjoint_from q l → noncritical s →
  ∃ l' s', free_loop l q s = Ok (l', s') ∧ heap_step s s' ∧ sep lo l'
    ∧ ∀ a, is_free l' a ↔ is_free l a ∨ in_region q a.
Proof.
  intros Hlo Hq Hl Hd Hn. revert lo Hlo Hl. pose proof Hq as (? & ? & ?).
  induction l as [|reg l IH]; intros lo Hlo Hl; cbn [free_loop].
  { destruct (run_AllocRegion q.(start) q.(size) s Hn) as (s' & Hr & Hs); [done|].
    exists [q], s'. split; [run Hr; by destruct q|]. split; [done|]. split.
    - cbn. split_and!; [lia|done|done].
    - intros a. rewrite is_free_cons. tauto. }
  destruct Hl as (Hle & Hreg & Hl). pose proof Hreg as (? & ? & ?).
  assert (Hd1 : disjoint_from q l) by (intros a Ha Hx; apply (Hd a Ha), is_free_cons; auto).
  assert (Hd2 : ¬ (q.(start) < rend reg ∧ reg.(start) < rend q)).
  { intros [? ?]. apply (Hd (Z.max q.(start) reg.(start))); [unfold in_region, rend in *; lia|].
    apply is_free_cons. left. unfold in_region, rend in *. lia. }
  rewrite !adjacent_eq, behind_eq by (done || unfold rend in *; lia).
  destruct (Z.eqb_spec (rend reg) q.(start)) as [He|He].
  { rewrite u64_small by (unfold is_u64, rend in *; lia).
    set (reg2 := mkRegion reg.(start) (reg.(size) + q.(size))).
    assert (He2 : rend reg2 = rend q) by (unfold rend in *; cbn; lia).
    destruct (run_absorb l lo reg2 s) as (l' & s' & Hr & Hs & Hsep & Hf);
      [cbn; lia|unfold region_wf; rewrite He2; unfold rend in *; cbn; lia| |done|].
    { rewrite He2. eapply sep_after; [done..| |done]. lia. }
    exists l', s'. split; [done|]. split; [done|]. split; [done|].
    intros a. rewrite Hf, !is_free_cons.
    assert (in_region reg2 a ↔ in_region reg a ∨ in_region q a); [|tauto].
    unfold in_region. rewrite He2. unfold rend in *. cbn [start size reg2]. lia. }
  destruct (Z.eqb_spec (rend q) reg.(start)) as [Hb|Hb].
  { rewrite !u64_small by (unfold is_u64, rend in *; lia).
    eexists _, s. split; [done|]. split; [reflexivity|]. cbn [sep].
    assert (He2 : rend (mkRegion (reg.(start) - q.(size)) (reg.(size) + q.(size))) = rend reg)
      by (unfold rend in *; cbn; lia).
    split; [unfold region_wf; rewrite He2; unfold rend in *; cbn; split_and!; done || lia|].
    intros a. rewrite !is_free_cons. unfold in_region. rewrite He2. cbn [start].
    unfold rend in *. assert (reg.(start) - q.(size) ≤ a < reg.(start) + reg.(size)
      ↔ reg.(start) ≤ a < reg.(start) + reg.(size) ∨ q.(start) ≤ a < q.(start) + q.(size)); [lia|tauto]. }
  destruct (Z.leb_spec (rend q) reg.(start)).
  { destruct (run_AllocRegion q.(start) q.(size) s Hn) as (s' & Hr & Hs); [by destruct q|].
    exists (q :: reg :: l), s'. split; [run Hr; by destruct q|]. split; [done|]. split.
    - cbn. split_and!; done || lia.
    - intros a. rewrite !is_free_cons. tauto. }
  destruct (IH Hd1 (rend reg + 1)) as (l' & s' & Hr & Hs & Hsep & Hf); [unfold rend in *; lia|done|].
  exists (reg :: l'), s'. split; [by run Hr|]. split; [done|]. split; [done|].
  intros a. rewrite !is_free_cons, Hf. tauto.
Qed.
End FreeRun.

(** ** Properties *)

Lemma request_wf start ps n :
  0 ≤ start → 0 < ps * n < 2 ^ 64 → start + ps * n ≤ 2 ^ 64 →
  request start ps n = mkRegion start (ps * n) ∧ region_wf (mkRegion start (ps * n)).
Proof.
  intros. unfold request, region_wf, rend. cbn. rewrite u64_small by (unfold is_u64; lia).
  split; [done|lia].
Qed.

Lemma chop_spec r ps :
  0 < ps → 0 ≤ chop r ps < ps ∧ (r.(start) + chop r ps) mod ps = 0
  ∧ ∀ b, b mod ps = 0 → r.(start) ≤ b → r.(start) + chop r ps ≤ b.
Proof.
  intros Hps. unfold chop. pose proof (Z.mod_pos_bound r.(start) ps Hps) as Hm.
  pose proof (Z.div_mod r.(start) ps ltac:(lia)) as Hd.
  destruct (truthy _) eqn:E; [apply truthy_true in E|apply truthy_false in E].
  - split; [lia|].
    assert (Heq : r.(start) + (ps - r.(start) mod ps) = (r.(start) / ps + 1) * ps) by lia.
    split; [rewrite Heq; by apply Z_mod_mult|]. intros b Hb Hle.
    pose proof (Z.div_mod b ps ltac:(lia)). rewrite Heq.
    assert (r.(start) / ps < b / ps) by (apply (Z.mul_lt_mono_pos_l ps); lia). nia.
  - split; [lia|]. by rewrite Z.add_0_r.
Qed.

(** The whole range [[x, y)] is free. *)
Definition range_free (l : list Region) (x y : Z) : Prop := ∀ a, x ≤ a < y → is_free l a.

Section Props.
Context {A : Type} `{HeapLaws A}.
Implicit Types (s : machine A).

(** Allocation of [q] out of the node [reg]. *)
Lemma carve_list l1 reg l2 q :
  fl_inv (l1 ++ reg :: l2) → region_wf q → Contains reg q = true →
  (∀ a, in_region q a → is_free (l1 ++ reg :: l2) a ∧ ¬ is_free (l1 ++ carved reg q ++ l2) a)
  ∧ (¬ starts reg q → fl_inv (l1 ++ carved reg q ++ l2)
     ∧ ∀ a, is_free (l1 ++ carved reg q ++ l2) a ↔ is_free (l1 ++ reg :: l2) a ∧ ¬ in_region q a).
Proof using.
  intros Hinv Hq Hc. assert (Hreg : region_wf reg).
  { eapply sep_wf; [exact Hinv|]. apply elem_of_app. right. by left. }
  rewrite contains_eq in Hc by done. apply andb_true_iff in Hc as [Hlo%Z.leb_le Hhi%Z.leb_le].
  assert (Happ : ∀ a, in_region q a → ¬ is_free l1 a ∧ ¬ is_free l2 a).
  { intros a Ha. apply (sep_apart _ _ _ _ a Hinv). unfold in_region in Ha. lia. }
  split.
  - intros a Ha. split.
    + apply is_free_app. right. apply is_free_cons. left. unfold in_region in *. lia.
    + destruct (Happ a Ha). rewrite !is_free_app. intros [|[Hx|]]; [done| |done].
      destruct (decide (starts reg q)) as [Hs|Hs].
      * unfold carved in Hx. rewrite decide_True in Hx by done.
        apply is_free_cons in Hx as [Hx|Hx%is_free_nil]; [|done].
        unfold in_region in *. cbn in Hx. lia.
      * apply carved_free in Hx as [_ ?]; done.
  - intros Hs. split.
    + eapply sep_replace; [exact Hinv|]. intros lo' ? ?. by apply carved_sep.
    + intros a. rewrite !is_free_app, is_free_cons, carved_free by done.
      specialize (Happ a). tauto.
Qed.

(** What the list becomes when [q] is carved out of it: every address keeps
    its state but those of [q]; or, when [q] is a proper prefix of its region,
    the node has moved without shrinking, and as many addresses after its end
    are free as well. *)
Definition taken (l l' : list Region) (q : Region) : Prop :=
  ∃ reg, reg ∈ l ∧ Contains reg q = true ∧
    ((¬ starts reg q ∧ fl_inv l' ∧ ∀ x, is_free l' x ↔ is_free l x ∧ ¬ in_region q x)
     ∨ (starts reg q ∧ ∀ x, is_free l' x ↔
          (is_free l x ∧ ¬ in_region q x) ∨ rend reg ≤ x < rend reg + q.(size))).

Lemma carve_taken l1 reg l2 q :
  fl_inv (l1 ++ reg :: l2) → region_wf q → Contains reg q = true →
  taken (l1 ++ reg :: l2) (l1 ++ carved reg q ++ l2) q.
Proof using.
  intros Hinv Hq Hc. assert (Hin : reg ∈ l1 ++ reg :: l2) by (apply elem_of_app; right; by left).
  exists reg. split; [done|]. split; [done|].
  destruct (decide (starts reg q)) as [Hs|Hs]; [right|left; split; [done|by apply carve_list]].
  split; [done|]. intros x. pose proof (sep_wf _ _ _ Hinv Hin) as [Hreg _].
  rewrite contains_eq in Hc by done. apply andb_true_iff in Hc as [Hlo%Z.leb_le Hhi%Z.leb_le].
  pose proof (sep_apart _ _ _ _ x Hinv) as Happ.
  unfold carved. rewrite decide_True by done. rewrite !is_free_app, !is_free_cons.
  pose proof (is_free_nil x). destruct Hs as [Hs1 Hs2]. destruct Hq as (_ & ? & _).
  unfold in_region, rend in *. cbn [start size] in *.
  destruct (decide (reg.(start) ≤ x < reg.(start) + reg.(size))); [|intuition lia].
  destruct Happ; [lia|]. intuition lia.
Qed.

(** A carved range is not free any more, and every address outside it that was
    free still is. *)
Lemma taken_free l l' q : fl_inv l → region_wf q → taken l l' q →
  (∀ x, in_region q x → ¬ is_free l' x)
  ∧ (∀ x, is_free l x → ¬ in_region q x → is_free l' x).
Proof using.
  intros Hl Hq (reg & Hin & Hc & [(_ & _ & Hx)|(Hs & Hx)]);
    (split; intros x; rewrite Hx; [|tauto]).
  - tauto.
  - pose proof (sep_wf _ _ _ Hl Hin) as [Hreg _].
    rewrite contains_eq in Hc by done. apply andb_true_iff in Hc as [Hlo%Z.leb_le Hhi%Z.leb_le].
    unfold in_region. intros ? [[]|]; [done|lia].
Qed.

Lemma run_AllocAt l st ps n s :
  fl_inv l → noncritical s → 0 < ps → 0 ≤ st → 0 < ps * n < 2 ^ 64 → st + ps * n ≤ 2 ^ 64 →
  ∃ b l' s', AllocAt l st ps n s = Ok ((b, l'), s') ∧ heap_step s s' ∧
    if (b : bool) then st mod ps = 0 ∧ ∃ l1 reg l2, l = l1 ++ reg :: l2
        ∧ Contains reg (mkRegion st (ps * n)) = true
        ∧ l' = l1 ++ carved reg (mkRegion st (ps * n)) ++ l2
    else l' = l ∧ (st mod ps = 0 → ∀ reg, reg ∈ l → Contains reg (mkRegion st (ps * n)) = false).
Proof.
  intros Hl Hn Hps Hst Hpn Hb.
  destruct (request_wf st ps n) as [Hq Hw]; [done..|]. unfold request in Hq.
  unfold AllocAt. destruct (truthy (st mod ps)) eqn:E.
  { apply truthy_true in E. exists false, l, s. split_and!; done || reflexivity. }
  apply truthy_false in E. cbn zeta. rewrite Hq.
  destruct (run_allocat_loop l 1 _ s Hl Hn Hw) as (r & s' & Hr & Hs & Hpost).
  eexists _, _, s'. split; [|split; [exact Hs|]].
  - run_assert ltac:(by apply region_ok_wf). run Hr.
    instantiate (1 := match r with Some l' => l' | None => l end).
    instantiate (1 := match r with Some l' => true | None => false end). by destruct r.
  - destruct r; [|done]. split; [done|]. naive_solver.
Qed.

(** C6. [AllocAt] succeeds exactly when the address is aligned and the whole
    range is free; on failure the list is unchanged; on success no address of
    the range is free any more, and, unless the range is a proper prefix of a
    free region, the list stays sorted and coalesced and every other address
    keeps its state. *)
Theorem AllocAt_correct l st ps n s :
  fl_inv l → noncritical s → 0 < ps → 0 ≤ st → 0 < ps * n < 2 ^ 64 → st + ps * n ≤ 2 ^ 64 →
  ∃ b l' s', AllocAt l st ps n s = Ok ((b, l'), s')
    ∧ (b = true ↔ st mod ps = 0 ∧ range_free l st (st + ps * n))
    ∧ (b = false → l' = l)
    ∧ (b = true → ∀ a, st ≤ a < st + ps * n → ¬ is_free l' a)
    ∧ (b = true → (∀ r, r ∈ l → ¬ starts r (mkRegion st (ps * n))) →
         fl_inv l' ∧ ∀ a, is_free l' a ↔ is_free l a ∧ ¬ st ≤ a < st + ps * n).
Proof.
  intros Hl Hn Hps Hst Hpn Hb.
  destruct (run_AllocAt l st ps n s) as (b & l' & s' & Hr & _ & Hpost); [done..|].
  destruct (request_wf st ps n) as [_ Hw]; [done..|].
  exists b, l', s'. split; [done|]. destruct b.
  - destruct Hpost as (Hal & l1 & reg & l2 & -> & Hc & ->).
    destruct (carve_list _ _ _ _ Hl Hw Hc) as [Hin Hns].
    split; [split; [intros _|done]; split; [done|]; intros a Ha; by apply Hin|].
    split; [done|]. split; [intros _ a Ha; by apply Hin|].
    intros _ Hs. apply Hns, Hs, elem_of_app. right. by left.
  - destruct Hpost as [-> Hno]. split_and!; try done. split; [done|].
    intros [Hal Hf]. exfalso.
    destruct (free_range 1 l st (st + ps * n) Hl ltac:(lia) Hf) as (r & Hin & ? & ?).
    specialize (Hno Hal r Hin). destruct (sep_wf _ _ _ Hl Hin) as [Hwr _].
    rewrite contains_eq in Hno by done. unfold rend at 1 in Hno. cbn in Hno.
    apply andb_false_iff in Hno as [?%Z.leb_gt|?%Z.leb_gt]; lia.
Qed.

(** [AllocAt] of a proper prefix of a free region moves the start of the
    node without shrinking it: the address just after the region, which was
    not free, is free afterwards. *)
Lemma AllocAt_prefix_grows l r ps n s :
  fl_inv l → noncritical s → r ∈ l → 0 < ps → r.(start) mod ps = 0 →
  0 < ps * n < r.(size) →
  ∃ l' s', AllocAt l r.(start) ps n s = Ok ((true, l'), s')
    ∧ ¬ is_free l (rend r) ∧ is_free l' (rend r).
Proof.
  intros Hl Hn Hr Hps Hal Hpn. destruct (sep_wf _ _ _ Hl Hr) as [Hwr _].
  pose proof Hwr as (? & ? & ?).
  destruct (run_AllocAt l r.(start) ps n s) as (b & l' & s' & Hrun & _ & Hpost);
    [done..|unfold rend in *; lia|unfold rend in *; lia|].
  set (q := mkRegion r.(start) (ps * n)) in *.
  destruct (request_wf r.(start) ps n) as [_ Hw]; [lia|unfold rend in *; lia|unfold rend in *; lia|].
  assert (Hcr : Contains r q = true).
  { rewrite contains_eq by done. apply andb_true_iff. rewrite !Z.leb_le.
    unfold rend, q. cbn. lia. }
  assert (Hout : ¬ is_free l (rend r)).
  { apply list_elem_of_split in Hr as (k1 & k2 & ->).
    destruct (sep_apart _ _ _ _ (rend r) Hl) as [Hno1 Hno2]; [unfold rend; lia|].
    rewrite is_free_app, is_free_cons. unfold in_region. intros [|[|]]; [done|lia|done]. }
  destruct b; [|destruct Hpost as [_ Hno]; by rewrite Hno in Hcr].
  exists l', s'. split; [done|]. split; [done|].
  destruct Hpost as (_ & l1 & reg & l2 & -> & Hc & ->).
  assert (reg = r) as ->.
  { rewrite contains_eq in Hc; [|eapply sep_wf; [exact Hl|]; set_solver|done].
    apply andb_true_iff in Hc as [Hlo%Z.leb_le Hhi%Z.leb_le]. unfold q in Hlo, Hhi.
    cbn in Hlo. apply elem_of_app in Hr as [Hr|[->|Hr]%elem_of_cons]; [|done|]; exfalso;
      destruct (sep_apart _ _ _ _ r.(start) Hl) as [Hno1 Hno2];
      try (unfold rend in *; cbn in Hhi; lia); [apply Hno1|apply Hno2]; exists r;
      (split; [done|unfold in_region, rend; lia]). }
  apply is_free_app. right. apply is_free_app. left. unfold carved, q.
  rewrite decide_True by (split; [done|unfold rend; cbn; lia]).
  apply is_free_cons. left. unfold in_region, rend. cbn. lia.
Qed.

(** What [Alloc] returns, and that only the heap was touched. *)
Lemma run_Alloc l ps n s :
  fl_inv l → noncritical s → 0 < ps → 0 < ps * n → ps + ps * n < 2 ^ 64 →
  ∃ a l' s', Alloc l ps n s = Ok ((a, l'), s') ∧ heap_step s s'
    ∧ (a = 0 → l' = l ∧ ∀ b, b mod ps = 0 → ¬ range_free l b (b + ps * n))
    ∧ (a ≠ 0 → a mod ps = 0 ∧ range_free l a (a + ps * n)
         ∧ (∀ b, b mod ps = 0 → range_free l b (b + ps * n) → a ≤ b)
         ∧ taken l l' (mkRegion a (ps * n))).
Proof.
  intros Hl Hn Hps Hpn Hb.
  destruct (run_alloc_loop l 1 ps n s Hl Hn Hps Hpn Hb) as (r & s' & Hr & Hs & Hpost).
  assert (Hfit : ∀ b, b mod ps = 0 → range_free l b (b + ps * n) →
    ∃ reg, reg ∈ l ∧ reg.(start) + chop reg ps ≤ b ∧ b + ps * n ≤ rend reg).
  { intros b Hbm Hf. destruct (free_range 1 l b (b + ps * n) Hl ltac:(lia) Hf) as (reg & Hin & ? & ?).
    exists reg. split_and!; [done| |done]. by apply chop_spec. }
  eexists _, _, s'. split.
  { unfold Alloc. run run_AssertNoncritical; [|done]. run Hr.
    instantiate (1 := match r with Some (a, l') => l' | None => l end).
    instantiate (1 := match r with Some (a, l') => a | None => 0 end). by destruct r as [[]|]. }
  split; [exact Hs|].
  destruct r as [[a l']|].
  2:{ split; [|done]. intros _. split; [done|]. intros b Hbm Hf.
      destruct (Hfit b Hbm Hf) as (reg & Hin & ? & ?). specialize (Hpost reg Hin). lia. }
  destruct Hpost as (l1 & reg & l2 & -> & Hno & -> & Hle & ->).
  destruct (sep_wf _ _ reg Hl) as [Hwr Hs1]; [apply elem_of_app; right; by left|].
  pose proof Hwr as (? & ? & ?). destruct (chop_spec reg ps Hps) as (Hch & Hmod & Hleast).
  assert (Hw : region_wf (mkRegion (reg.(start) + chop reg ps) (ps * n)))
    by (unfold region_wf, rend in *; cbn; lia).
  assert (Hc : Contains reg (mkRegion (reg.(start) + chop reg ps) (ps * n)) = true).
  { rewrite contains_eq by done. apply andb_true_iff. rewrite !Z.leb_le.
    unfold rend at 1. cbn. lia. }
  destruct (carve_list _ _ _ _ Hl Hw Hc) as [Hin _].
  split; [lia|]. intros _. split; [done|]. split; [intros x Hx; by apply Hin|].
  split; [|by apply carve_taken].
  intros b Hbm Hf. destruct (Hfit b Hbm Hf) as (x & Hx & ? & ?).
  apply elem_of_app in Hx as [Hx|[->|Hx]%elem_of_cons]; [specialize (Hno x Hx); lia|lia|].
  assert (rend reg < x.(start)); [|pose proof (chop_spec x ps Hps); lia].
  clear -Hl Hx. revert Hl. unfold fl_inv. generalize 1. induction l1 as [|y l1 IH]; intros lo; cbn.
  - intros (_ & _ & Hl). destruct (sep_wf _ _ _ Hl Hx). lia.
  - intros (_ & _ & Hl). by eapply IH.
Qed.

(** [Alloc] returns the lowest aligned address from which the whole request
    is free and takes it out of the list, and 0, leaving the list alone, when
    there is none. *)
Lemma Alloc_first_fit l ps n s :
  fl_inv l → noncritical s → 0 < ps → 0 < ps * n → ps + ps * n < 2 ^ 64 →
  ∃ a l' s', Alloc l ps n s = Ok ((a, l'), s')
    ∧ (a = 0 → l' = l ∧ ∀ b, b mod ps = 0 → ¬ range_free l b (b + ps * n))
    ∧ (a ≠ 0 → a mod ps = 0 ∧ range_free l a (a + ps * n)
         ∧ (∀ b, b mod ps = 0 → range_free l b (b + ps * n) → a ≤ b)
         ∧ taken l l' (mkRegion a (ps * n))).
Proof.
  intros Hl Hn Hps Hpn Hb.
  destruct (run_Alloc l ps n s Hl Hn Hps Hpn Hb) as (a & l' & s' & ? & _ & ?).
  by exists a, l', s'.
Qed.

(** C7. [Free] of a range that is not free makes exactly that range free, and
    the list stays sorted and coalesced. *)
Theorem Free_correct l st ps n s :
  fl_inv l → noncritical s → 1 ≤ st → 0 < ps * n < 2 ^ 64 → st + ps * n ≤ 2 ^ 64 →
  (∀ a, st ≤ a < st + ps * n → ¬ is_free l a) →
  ∃ l' s', Free l st ps n s = Ok (l', s') ∧ fl_inv l'
    ∧ ∀ a, is_free l' a ↔ is_free l a ∨ st ≤ a < st + ps * n.
Proof.
  intros Hl Hn Hst Hpn Hb Hd. destruct (request_wf st ps n) as [Hq Hw]; [lia|done..|].
  unfold request in Hq.
  destruct (run_free_loop l 1 (mkRegion st (ps * n)) s) as (l' & s' & Hr & _ & Hsep & Hf);
    [cbn; lia|done..|].
  exists l', s'. split; [|done]. unfold Free. run run_AssertNoncritical; [|done].
  cbn zeta. rewrite Hq. by run_assert ltac:(by apply region_ok_wf).
Qed.

(** Giving back a range that [AllocAt] took out of the middle or the end of
    a region, or that was a whole region, restores the very list. *)
Lemma AllocAt_Free_roundtrip l st ps n s l' s' :
  fl_inv l → noncritical s → 0 < ps → 0 ≤ st → 0 < ps * n < 2 ^ 64 → st + ps * n ≤ 2 ^ 64 →
  (∀ r, r ∈ l → ¬ starts r (mkRegion st (ps * n))) →
  AllocAt l st ps n s = Ok ((true, l'), s') →
  ∃ s'', Free l' st ps n s' = Ok (l, s'').
Proof.
  intros Hl Hn Hps Hst Hpn Hb Hns Hr.
  destruct (run_AllocAt l st ps n s) as (b & l2 & s2 & Hr2 & Hs & Hpost); [done..|].
  rewrite Hr in Hr2. injection Hr2 as <- <- <-.
  destruct Hpost as (_ & l1 & reg & l2 & -> & Hc & ->).
  destruct (request_wf st ps n) as [Hq Hw]; [done..|]. unfold request in Hq.
  destruct (carve_list _ _ _ _ Hl Hw Hc) as [Hin Hcut].
  destruct Hcut as [Hinv Hfree]; [apply Hns, elem_of_app; right; by left|].
  assert (Hst1 : 1 ≤ st).
  { destruct (Hin st) as [Hf _]; [unfold in_region, rend; cbn; lia|].
    apply (sep_free _ _ _ Hl) in Hf. lia. }
  destruct (run_free_loop (l1 ++ carved reg (mkRegion st (ps * n)) ++ l2) 1
    (mkRegion st (ps * n)) s') as (l' & s'' & Hrun & _ & Hsep & Hf).
  { cbn. lia. }
  { done. }
  { done. }
  { intros a Ha. by apply Hin. }
  { exact (heap_noncritical _ _ Hs Hn). }
  exists s''. unfold Free.
  run run_AssertNoncritical; [|exact (heap_noncritical _ _ Hs Hn)]. cbn zeta. rewrite Hq.
  run_assert ltac:(by apply region_ok_wf). rewrite Hrun. do 2 f_equal.
  eapply fl_unique; [exact Hsep|exact Hl|]. intros a. rewrite Hf, Hfree.
  destruct (decide (in_region (mkRegion st (ps * n)) a)) as [Ha|Ha]; [|tauto].
  specialize (Hin a Ha). tauto.
Qed.
End Props.

(** ** Examples *)

(** A heap that always has memory and keeps no other state. *)
Definition ample_heap (A : Type) : DomainHeap A :=
  {| NewObject := mret true; DeleteObject := mret tt |}.

Program Definition ample_heap_laws (A : Type) : @HeapLaws A (ample_heap A) :=
  {| heap_step := eq |}.
Next Obligation. by intros A s s' ->. Qed.
Next Obligation. intros A s _. by exists s. Qed.
Next Obligation. intros A s _. by exists s. Qed.

Section Witness.
#[local] Existing Instance ample_heap.
#[local] Existing Instance ample_heap_laws.

Definition idle : machine unit := Machine _ ∅ 0 true true ∅ [] [] tt.
Definition two_regions : list Region := [mkRegion 0x8000 0x3000; mkRegion 0x10000 0x4000].

Lemma two_regions_inv : fl_inv two_regions.
Proof. unfold fl_inv, two_regions. cbn [sep]. unfold region_wf, rend. cbn. lia. Qed.

Lemma idle_noncritical : noncritical idle.
Proof. by right. Qed.

Lemma AllocAt_correct_witness :
  ∃ l' s', AllocAt two_regions 0x11000 0x1000 2 idle = Ok ((true, l'), s')
    ∧ l' = [mkRegion 0x8000 0x3000; mkRegion 0x10000 0x1000; mkRegion 0x13000 0x1000].
Proof.
  destruct (AllocAt_correct two_regions 0x11000 0x1000 2 idle two_regions_inv idle_noncritical
    ltac:(lia) ltac:(lia) ltac:(lia) ltac:(lia)) as (b & l' & s' & Hr & _).
  vm_compute in Hr. injection Hr as <- <- <-. eexists _, _. split; [vm_compute; reflexivity|reflexivity].
Defined.

Lemma AllocAt_prefix_grows_witness :
  ∃ l' s', AllocAt two_regions 0x8000 0x1000 1 idle = Ok ((true, l'), s') ∧ is_free l' 0xb000.
Proof.
  destruct (AllocAt_prefix_grows two_regions (mkRegion 0x8000 0x3000) 0x1000 1 idle
    two_regions_inv idle_noncritical ltac:(by left) ltac:(lia) eq_refl ltac:(cbn; lia))
    as (l' & s' & Hr & _ & Hf).
  exists l', s'. split; [exact Hr|exact Hf].
Defined.

Lemma Alloc_first_fit_witness :
  ∃ l' s', Alloc two_regions 0x4000 1 idle = Ok ((0x10000, l'), s').
Proof.
  destruct (Alloc_first_fit two_regions 0x4000 1 idle two_regions_inv idle_noncritical
    ltac:(lia) ltac:(lia) ltac:(lia)) as (a & l' & s' & Hr & _).
  vm_compute in Hr. injection Hr as <- <- <-. eexists _, _. vm_compute. reflexivity.
Defined.

Lemma Free_correct_witness :
  ∃ l' s', Free two_regions 0xb000 0x1000 5 idle = Ok (l', s') ∧ l' = [mkRegion 0x8000 0xc000].
Proof.
  destruct (Free_correct two_regions 0xb000 0x1000 5 idle two_regions_inv idle_noncritical
    ltac:(lia) ltac:(lia) ltac:(lia)) as (l' & s' & Hr & _).
  - intros a Ha (r & Hin & Hr). unfold in_region, rend in Hr.
    apply elem_of_cons in Hin as [->|[->|Hin%not_elem_of_nil]%elem_of_cons]; cbn in Hr; lia || done.
  - vm_compute in Hr. injection Hr as <- <-. eexists _, _. split; [vm_compute; reflexivity|reflexivity].
Defined.

Lemma AllocAt_Free_roundtrip_witness :
  ∃ l' s' s'', AllocAt two_regions 0x12000 0x1000 2 idle = Ok ((true, l'), s')
    ∧ Free l' 0x12000 0x1000 2 s' = Ok (two_regions, s'').
Proof.
  destruct (AllocAt_Free_roundtrip two_regions 0x12000 0x1000 2 idle
    [mkRegion 0x8000 0x3000; mkRegion 0x10000 0x2000] idle two_regions_inv idle_noncritical
    ltac:(lia) ltac:(lia) ltac:(lia) ltac:(lia)) as (s'' & Hr).
  - intros r Hin [Hs _]. cbn in Hs.
    apply elem_of_cons in Hin as [->|[->|Hin%not_elem_of_nil]%elem_of_cons]; cbn in Hs; lia || done.
  - vm_compute. reflexivity.
  - eexists _, _, s''. split; [vm_compute; reflexivity|exact Hr].
Defined.
End Witness.
