(* ===== verification/GlobalMap.v ===== *)
(** * The kernel half of the address space

    [FreeFinder] (src/arch/x64/vmm/global/free-finder.cpp) hunts for free
    virtual addresses by walking the page table; [GlobalMap]
    (src/arch/x64/vmm/global/global-map.cpp) maps, unmaps and reserves kernel
    addresses through it.  The FreeFinder's two fields are passed along as a
    record; the page table is the one loaded in CR3. *)

From stdpp Require Import base numbers list gmap strings.
From Stdlib Require Import ZArith Lia.
From S2P Require Import Prelude Machine Mmu PageTable.
#[local] Open Scope Z_scope.

(** [Tlb::WillSetAddressSpace] (src/arch/x64/vmm/tlb.cpp) before the [Tlb] is
    initialized, which is when the kernel's map is loaded at boot and on a new
    processor; Shootdown.v has the whole method. *)
Definition WillSet_uninitialized {A : Type} (map : Z) : M (machine A) unit := AssertCritical.

Module FreeFinder.

Record state : Type := mkState { freeStart : Z; freeSize : Z }.

Definition CanAllocate (f : state) (size align : Z) : bool :=
  if size =? 0 then true
  else
    let slice := if truthy (f.(freeStart) mod align)
                 then align - f.(freeStart) mod align else 0 in
    if f.(freeSize) <=? slice then false
    else size <=? f.(freeSize) -u slice.

(** The allocation itself, once [CanAllocate] holds. *)
Definition take (f : state) (size align : Z) : Z * state :=
  let skip := if truthy (f.(freeStart) mod align)
              then align - f.(freeStart) mod align else 0 in
  let start := f.(freeStart) +u skip in
  let rest := f.(freeSize) -u skip in
  (start, mkState (start +u size) (rest -u size)).

Definition Free (f : state) (addr size : Z) : state :=
  if addr =? f.(freeStart) +u f.(freeSize) then
    mkState f.(freeStart) (f.(freeSize) +u size)
  else if addr +u size =? f.(freeStart) then
    mkState (f.(freeStart) -u size) (f.(freeSize) +u size)
  else f.

Definition Reserve (f : state) (addr size : Z) : state :=
  if (f.(freeStart) +u f.(freeSize) <? addr) || (addr +u size <=? f.(freeStart)) then f
  else
    let leftSize := if f.(freeStart) <? addr then addr -u f.(freeStart) else 0 in
    let rightSize := if addr +u size <? f.(freeStart) +u f.(freeSize)
                     then f.(freeStart) +u f.(freeSize) -u (addr +u size) else 0 in
    if negb (truthy leftSize) && negb (truthy rightSize) then mkState f.(freeStart) 0
    else if rightSize <? leftSize then mkState f.(freeStart) leftSize
    else mkState (f.(freeStart) +u (f.(freeSize) -u rightSize)) rightSize.

Section Ops.
Context {A : Type} `{PhysAllocator A, AnsaBzero A}.

(** The inner loop of [UpdateFreeRegion], one walk per unit of fuel: the gap's
    size and the address the scan has reached. *)
Fixpoint gap_loop (fuel : nat) (pml4 nextStart nextSize addr : Z) : M (machine A) (Z * Z) :=
  match fuel with
  | O => stop OutOfFuel
  | Datatypes.S fuel' =>
      '(result, entry, pageSize) ← PageTable.Walk pml4 (nextStart +u nextSize);
      let addr := addr +u pageSize in
      if (0 <=? result) && truthy entry then mret (nextSize, addr)
      else
        let nextSize := nextSize +u pageSize in
        if PageTable.KernelEnd <=? nextStart +u nextSize
        then mret (PageTable.KernelEnd -u nextStart, addr)
        else gap_loop fuel' pml4 nextStart nextSize addr
  end.

Fixpoint update_loop (fuel : nat) (pml4 : Z) (f : state) (addr : Z) : M (machine A) state :=
  if addr <? PageTable.KernelEnd then
    match fuel with
    | O => stop OutOfFuel
    | Datatypes.S fuel' =>
        '(nextSize, addr') ← gap_loop fuel pml4 addr 0 addr;
        let f := if f.(freeSize) <? nextSize then mkState addr nextSize else f in
        update_loop fuel' pml4 f addr'
    end
  else mret f.

(** Every walk advances by 4 KiB at least. *)
Definition scan_fuel : nat := Z.to_nat (PageTable.KernelEnd / 0x1000).

#[global] Arguments scan_fuel : simpl never.

Definition UpdateFreeRegion (pml4 : Z) (f : state) : M (machine A) state :=
  update_loop scan_fuel pml4 f 0.

(** [None]: returned false. *)
Definition Alloc (pml4 : Z) (f : state) (size align : Z) : M (machine A) (option Z * state) :=
  _ ← (if align =? 0 then stop (Undefined "% 0") else mret tt);
  f ← (if CanAllocate f size align then mret f else UpdateFreeRegion pml4 f);
  if CanAllocate f size align then
    let '(addr, f') := take f size align in mret (Some addr, f')
  else mret (None, f).
End Ops.

End FreeFinder.

Module GlobalMap.

Definition GetPageSizeCount : Z := 2.

Definition GetPageSize {S} (idx : Z) : M S Z :=
  _ ← assert ((0 <=? idx) && (idx <? 2)) "idx >= 0 && idx < 2";
  mret (if idx =? 0 then 0x1000 else 0x200000).

Definition GetPageSizeAlign {S} (idx : Z) : M S Z := GetPageSize idx.

Definition GetCapabilities : Capabilities.t := Capabilities.mk true true true true false.

(** The entry that reserves a page without mapping it. *)
Definition reserve_entry (pageSize : Z) : Z :=
  pageSize .| (if pageSize =? 0x1000 then 0 else 0x80).

Section Ops.
Context {A : Type} `{PhysAllocator A, AnsaBzero A, AnsaLock A}.
Implicit Types (f : FreeFinder.state).

(** [Set]: tells the [Tlb], which calls the global map [NULL], and loads CR3. *)
Definition Set_ (WillSetAddressSpace : Z → M (machine A) unit) (pml4 : Z) : M (machine A) unit :=
  _ ← AssertCritical;
  _ ← WillSetAddressSpace 0;
  _ ← emit (EvLoadCr3 pml4);
  modify (set_cr3 pml4).

Definition Read (pml4 addr : Z) : M (machine A) (option (Z * Attributes * Z)) :=
  _ ← AssertNoncritical;
  ScopedLock GlobalMapLock (PageTable.Read pml4 addr).

(** The loop that unsets the pages of a range. *)
Fixpoint unset_loop (n : nat) (pml4 next pageSize : Z) (msg : string) : M (machine A) unit :=
  match n with
  | O => mret tt
  | Datatypes.S n' =>
      ok ← PageTable.Unset pml4 next;
      if negb ok then panic msg else unset_loop n' pml4 (next +u pageSize) pageSize msg
  end.

Definition unset_pages (pml4 addr : Z) (size : Size) : M (machine A) unit :=
  unset_loop (Z.to_nat size.(pageCount)) pml4 addr size.(pageSize)
    "GlobalMap::Unmap() - Unset() failed".

Definition Map (pml4 : Z) f (phys : Z) (size : Size) (attributes : Attributes)
  : M (machine A) (option Z * FreeFinder.state) :=
  _ ← AssertNoncritical;
  ScopedLock GlobalMapLock (
    '(r, f) ← FreeFinder.Alloc pml4 f (Bytes size) size.(pageCount);
    match r with
    | None => mret (None, f)
    | Some addr =>
        let mask := PageTable.CalcMask size.(pageSize) true attributes in
        _ ← PageTable.SetList pml4 addr (phys .| mask) size 3 false;
        mret (Some addr, f)
    end).

Definition MapAt (pml4 addr phys : Z) (size : Size) (attributes : Attributes)
  : M (machine A) unit :=
  _ ← AssertNoncritical;
  ScopedLock GlobalMapLock (
    let mask := PageTable.CalcMask size.(pageSize) true attributes in
    _ ← PageTable.SetList pml4 addr (phys .| mask) size 3 false;
    emit (EvInvlpg addr (Bytes size))).

Definition Unmap (pml4 : Z) f (addr : Z) (size : Size) : M (machine A) FreeFinder.state :=
  _ ← AssertNoncritical;
  ScopedLock GlobalMapLock (
    _ ← unset_pages pml4 addr size;
    let f := FreeFinder.Free f addr (Bytes size) in
    _ ← emit (EvInvlpg addr (Bytes size));
    mret f).

Definition UnmapAndReserve (pml4 addr : Z) (size : Size) : M (machine A) unit :=
  _ ← AssertNoncritical;
  ScopedLock GlobalMapLock (
    _ ← unset_pages pml4 addr size;
    _ ← PageTable.SetList pml4 addr (reserve_entry size.(pageSize)) size 3 false;
    emit (EvInvlpg addr (Bytes size))).

Definition Reserve (pml4 : Z) f (size : Size) : M (machine A) (option Z * FreeFinder.state) :=
  _ ← AssertNoncritical;
  ScopedLock GlobalMapLock (
    '(r, f) ← FreeFinder.Alloc pml4 f (Bytes size) size.(pageSize);
    match r with
    | None => mret (None, f)
    | Some addr =>
        _ ← PageTable.SetList pml4 addr (reserve_entry size.(pageSize)) size 3 false;
        mret (Some addr, f)
    end).

Definition ReserveAt (pml4 : Z) f (addr : Z) (size : Size) : M (machine A) FreeFinder.state :=
  _ ← AssertNoncritical;
  ScopedLock GlobalMapLock (
    let f := FreeFinder.Reserve f addr (Bytes size) in
    _ ← PageTable.SetList pml4 addr (reserve_entry size.(pageSize)) size 3 false;
    mret f).

Definition Unreserve (pml4 : Z) f (addr : Z) (size : Size) : M (machine A) FreeFinder.state :=
  _ ← AssertNoncritical; Unmap pml4 f addr size.

Definition Rereserve (pml4 addr : Z) (size : Size) (newPageSize : Z) : M (machine A) unit :=
  _ ← AssertNoncritical;
  _ ← assert (Bytes size mod newPageSize =? 0) "size.Bytes() % newPageSize == 0";
  _ ← assert (addr mod newPageSize =? 0) "addr % newPageSize == 0";
  ScopedLock GlobalMapLock (
    _ ← unset_pages pml4 addr size;
    let pageCount := Bytes size / newPageSize in
    _ ← PageTable.SetList pml4 addr (reserve_entry newPageSize)
          (mkSize newPageSize pageCount) 3 false;
    emit (EvInvlpg addr (Bytes size))).
End Ops.

End GlobalMap.
