(* ===== verification/GlobalMapProofs.v ===== *)
(** * The kernel map: proofs and properties

    The scan of [FreeFinder] finds the largest unmapped range; its allocations
    stay in the region it keeps; [GlobalMap::Map] maps what it returns.  Last,
    what happens when the alignment it passes on yields an unaligned page. *)

From stdpp Require Import base numbers list gmap strings.
From Stdlib Require Import ZArith Lia.
From S2P Require Import Prelude Machine Mmu PageTable PageTree PageTableProofs PageTableList Concrete PageTableProps GlobalMap.
#[local] Open Scope Z_scope.

(** ** Blocks *)

(** [Walk] reports no page for [v]. *)
Definition walks_free (m : gmap Z Z) (root v : Z) : Prop :=
  present (leaf4 m root v).2 || huge (leaf4 m root v).2 = false.

(** [v] is the first address its walk's leaf covers. *)
Definition block_start (m : gmap Z Z) (root v : Z) : Prop :=
  v mod span (leaf4 m root v).1 = 0.

Definition block_size (m : gmap Z Z) (root v : Z) : Z := span (leaf4 m root v).1.

Lemma idx0_kernel v : 0 ≤ v < PageTable.KernelEnd → idx v 0 ≠ 511.
Proof. unfold PageTable.KernelEnd, idx, span. intros. eval_pow. zlia. Qed.

(** Two multiples of [w] are not less than [w] apart. *)
Lemma no_multiple_between x y w : x mod w = 0 → y mod w = 0 → 0 < y - x < w → False.
Proof.
  intros Hx Hy Hlt. pose proof (Z.div_mod x w ltac:(lia)). pose proof (Z.div_mod y w ltac:(lia)).
  rewrite Hx in *. rewrite Hy in *. generalize dependent (y / w). generalize dependent (x / w).
  clear -Hlt. intros a Ha b Hb. assert (0 < w) by lia.
  destruct (Z.lt_ge_cases a b); nia.
Qed.

Section Blocks.
Context {m : gmap Z Z} {root : Z} {T : gmap (list Z) Z} (HT : tree_ok m root T).

(** A block is walked the same way at each of its addresses. *)
Lemma block_leaf x y :
  0 ≤ x < PageTable.KernelEnd → block_start m root x →
  x ≤ y < x + block_size m root x → leaf4 m root y = leaf4 m root x.
Proof using HT.
  unfold block_start, block_size. intros Hx Hb Hy.
  destruct (leaf4 m root x) as [d e] eqn:Hl. cbn [fst] in *.
  destruct (leaf4_props _ _ _ _ _ Hl) as [Hd _].
  apply (leaf_prefix _ _ _ x y d d e HT); [by apply idx0_kernel|done| |done|lia].
  apply covers_div; [done|]. f_equal. pose proof (span_pos d ltac:(lia)).
  symmetry. apply Z.div_unique with (y - x); [left; lia|].
  pose proof (Z.div_mod x (span d) ltac:(lia)). lia.
Qed.

Lemma span_div d d' : 0 ≤ d' ≤ d → d ≤ 3 → span d' = span d * 2 ^ (9 * (d - d')).
Proof using.
  intros. unfold span. rewrite <-Z.pow_add_r by lia. f_equal. lia.
Qed.

(** The block after a block. *)
Lemma next_block x :
  0 ≤ x → x + block_size m root x < PageTable.KernelEnd → block_start m root x →
  block_start m root (x + block_size m root x).
Proof using HT.
  unfold block_start, block_size. intros Hx Hlt Hb.
  destruct (leaf4 m root x) as [d e] eqn:Hl. cbn [fst] in *.
  destruct (leaf4_props _ _ _ _ _ Hl) as [Hd _]. pose proof (span_pos d ltac:(lia)) as Hsp.
  set (w := x + span d) in *. destruct (leaf4 m root w) as [d' e'] eqn:Hl'. cbn [fst].
  destruct (leaf4_props _ _ _ _ _ Hl') as [Hd' _]. pose proof (span_pos d' ltac:(lia)).
  assert (Hxd : x = x / span d * span d) by (pose proof (Z.div_mod x (span d)); lia).
  destruct (decide (d ≤ d')) as [Hle|Hgt].
  - unfold w. rewrite (span_div d' d) in * by lia.
    set (k := 2 ^ (9 * (d' - d))) in *. rewrite Hxd.
    replace (x / (span d' * k) * (span d' * k) + span d' * k)
      with ((x / (span d' * k) * k + k) * span d') by lia.
    by apply Z_mod_mult.
  - destruct (decide (w mod span d' = 0)) as [|Hne]; [done|]. exfalso.
    assert (Hc : leaf4 m root x = (d', e')).
    { apply (leaf_prefix _ _ _ w x d' d' e' HT); [apply idx0_kernel; lia|done| |done|lia].
      apply covers_div; [done|]. f_equal. rewrite (span_div d d') in * by lia.
      set (k := 2 ^ (9 * (d - d'))) in *.
      assert (Hk : 0 < k) by (apply Z.pow_pos_nonneg; lia).
      unfold w in *. rewrite Hxd in *. set (q := x / span d) in *.
      replace (q * span d + span d) with ((q + 1) * span d) in * by lia.
      rewrite !(Z.mul_comm _ (span d)), !Z.div_mul_cancel_l by lia.
      rewrite (Z.mul_comm (q + 1)), Z.mul_mod_distr_l in Hne by lia.
      assert ((q + 1) mod k ≠ 0) as Hnk by nia.
      pose proof (Z.mod_pos_bound (q + 1) k Hk).
      symmetry. apply Z.div_unique with ((q + 1) mod k - 1); [left; lia|].
      pose proof (Z.div_mod (q + 1) k ltac:(lia)). lia. }
    rewrite Hl in Hc. injection Hc as -> _. lia.
Qed.

Lemma block_bound x :
  0 ≤ x < PageTable.KernelEnd → block_start m root x →
  4096 ≤ block_size m root x ∧ x + block_size m root x ≤ PageTable.KernelEnd.
Proof using HT.
  unfold block_start, block_size, PageTable.KernelEnd. intros Hx Hb.
  destruct (leaf4 m root x) as [d e] eqn:Hl. cbn [fst] in *.
  destruct (leaf4_props _ _ _ _ _ Hl) as [Hd _]. unfold span in *.
  assert (d = 0 ∨ d = 1 ∨ d = 2 ∨ d = 3) as [->|[->|[->| ->]]] by lia; eval_pow; zlia.
Qed.
End Blocks.

(** ** The scan *)

Section Scan.
Context {A : Type} `{AllocLaws A, BzeroLaws A}.
Context (s : machine A) (root : Z) (T : gmap (list Z) Z) (Hps : pt_state s root T).
Abbreviation mem_ := s.(mem).
Abbreviation KE := PageTable.KernelEnd.

(** The range [[x, y)] has no page. *)
Definition free_gap (x y : Z) : Prop := ∀ a, x ≤ a < y → walks_free mem_ root a.

(** Where the scan may stand: at the end, or at the start of a block. *)
Definition scan_at (x : Z) : Prop := x = KE ∨ 0 ≤ x < KE ∧ block_start mem_ root x.

Lemma scan_next x : 0 ≤ x < KE → block_start mem_ root x → scan_at (x + block_size mem_ root x).
Proof using Hps.
  intros Hx Hb. pose proof (ps_tree _ _ _ Hps) as HT.
  destruct (block_bound HT x Hx Hb) as [Hs He]. unfold scan_at.
  destruct (decide (x + block_size mem_ root x = KE)) as [|Hne]; [by left|right].
  split; [lia|]. apply (next_block HT); done || lia.
Qed.

Lemma gap_block x y :
  0 ≤ x < KE → block_start mem_ root x → x ≤ y < x + block_size mem_ root x →
  walks_free mem_ root y ↔ walks_free mem_ root x.
Proof using Hps.
  intros Hx Hb Hy. unfold walks_free.
  by rewrite (block_leaf (ps_tree _ _ _ Hps) x y) by done.
Qed.

(** The result of the inner loop: the gap that starts at [ns] ends at [e], and
    no page follows it up to the address reached. *)
Definition gap_post (ns : Z) (r : Z * Z) : Prop :=
  let '(sz, reached) := r in
  0 ≤ sz ∧ ns + sz ≤ reached ∧ free_gap ns (ns + sz) ∧ scan_at reached
  ∧ (ns + sz < reached → ¬ walks_free mem_ root (ns + sz))
  ∧ (∀ a, ns + sz ≤ a < reached → ¬ walks_free mem_ root a)
  ∧ (ns + sz = reached → reached = KE).

Lemma run_gap_loop fuel ns sz :
  0 ≤ ns → 0 ≤ sz → ns + sz < KE → block_start mem_ root (ns + sz) → free_gap ns (ns + sz) →
  KE - (ns + sz) ≤ 4096 * Z.of_nat fuel →
  ∃ sz' reached, FreeFinder.gap_loop fuel root ns sz (ns + sz) s = Ok ((sz', reached), s)
    ∧ gap_post ns (sz', reached) ∧ ns + sz < reached.
Proof using Hps.
  revert sz. induction fuel as [|fuel IH]; intros sz Hns Hsz Hlt Hbs Hfree Hfuel; [lia|].
  cbn [FreeFinder.gap_loop]. set (x := ns + sz) in *.
  destruct (block_bound (ps_tree _ _ _ Hps) x ltac:(lia) Hbs) as [Hmin Hmax].
  assert (HKE : KE < 2 ^ 64) by done.
  rewrite (u64_small x) by (unfold is_u64, x; lia).
  pose proof (run_Walk x s) as Hw. rewrite (ps_cr3 _ _ _ Hps) in Hw.
  specialize (Hw (tree_self (ps_tree _ _ _ Hps)) (ps_noncritical _ _ _ Hps)).
  unfold block_size in *. unfold walk_report in Hw.
  pose proof (gap_block x) as Hgb. pose proof (scan_next x) as Hsn.
  unfold block_size in Hgb, Hsn. unfold walks_free in Hgb at 2.
  destruct (leaf4 mem_ root x) as [d e] eqn:Hl. cbn [fst snd] in *. run Hw.
  destruct (leaf4_props _ _ _ _ _ Hl) as [Hd _].
  rewrite (u64_small (x + span d)) by (unfold is_u64; lia).
  assert (Hcond : (0 <=? (if present e || huge e then d else -1)) && truthy e = present e || huge e).
  { destruct (present e || huge e) eqn:Hph; [|done]. apply andb_true_iff.
    split; [apply Z.leb_le; lia|]. apply truthy_true. intros ->. by vm_compute in Hph. }
  rewrite Hcond. destruct (present e || huge e) eqn:Hph.
  - exists sz, (x + span d). split; [done|]. split; [|lia].
    assert (Hnf : ∀ a, x ≤ a < x + span d → ¬ walks_free mem_ root a).
    { intros a Ha. rewrite Hgb by (done || lia). done. }
    split_and!; [done|fold x; lia|done|apply Hsn; [lia|done]|intros _; apply Hnf; fold x; lia
      |exact Hnf|fold x; lia].
  - rewrite (u64_small (sz + span d)) by (unfold is_u64, x in *; lia).
    rewrite (u64_small (ns + (sz + span d))) by (unfold is_u64, x in *; lia).
    assert (Hfree' : free_gap ns (ns + (sz + span d))).
    { intros a Ha. destruct (decide (a < x)); [apply Hfree; unfold x in *; lia|].
      apply Hgb; [lia|done|unfold x in *; lia|done]. }
    destruct (Z.leb_spec KE (ns + (sz + span d))).
    + exists (KE - ns), (x + span d). rewrite u64_small by (unfold is_u64; lia).
      split; [done|]. split; [|lia].
      assert (x + span d = KE) as -> by (unfold x in *; lia).
      split_and!; [lia|lia|intros a Ha; apply Hfree'; unfold x in *; lia|by left|lia|lia|done].
    + replace (x + span d) with (ns + (sz + span d)) by (unfold x; lia).
      destruct (IH (sz + span d)) as (sz' & reached & -> & Hpost & ?); [lia|lia|lia| |done|lia|].
      { destruct (Hsn ltac:(lia) Hbs) as [Heq|[_ Hb']]; [unfold x in *; lia|].
        by replace (ns + (sz + span d)) with (x + span d) by (unfold x; lia). }
      exists sz', reached. split; [done|]. split; [done|unfold x; lia].
Qed.

(** What the scan keeps: the region is the caller's or a gap, and no gap that
    starts below [x] is larger. *)
Definition scan_inv (f0 f : FreeFinder.state) (x : Z) : Prop :=
  (f = f0 ∨ 0 ≤ f.(FreeFinder.freeStart) ∧ 0 < f.(FreeFinder.freeSize)
     ∧ f.(FreeFinder.freeStart) + f.(FreeFinder.freeSize) ≤ KE
     ∧ free_gap f.(FreeFinder.freeStart) (f.(FreeFinder.freeStart) + f.(FreeFinder.freeSize)))
  ∧ f0.(FreeFinder.freeSize) ≤ f.(FreeFinder.freeSize)
  ∧ ∀ a b, 0 ≤ a < x → a < b ≤ KE → free_gap a b → b - a ≤ f.(FreeFinder.freeSize).

Lemma scan_step f0 f ns sz reached :
  0 ≤ f0.(FreeFinder.freeSize) → 0 ≤ ns → reached ≤ KE → scan_inv f0 f ns → gap_post ns (sz, reached) →
  scan_inv f0 (if f.(FreeFinder.freeSize) <? sz then FreeFinder.mkState ns sz else f) reached.
Proof using.
  intros Hf0 Hns Hre (Hreg & Hge & Hmax) (Hsz & Hle & Hgap & _ & Hstop & Hpage & Hend).
  assert (Hnew : ∀ a b, 0 ≤ a < reached → a < b ≤ KE → free_gap a b → a < ns ∨ b - a ≤ sz).
  { intros a b Ha Hb Hf. destruct (decide (a < ns)); [by left|right].
    destruct (decide (a < ns + sz)).
    - destruct (decide (b ≤ ns + sz)); [lia|]. exfalso.
      destruct (decide (ns + sz = reached)) as [He|]; [specialize (Hend He); lia|].
      apply Hstop; [lia|]. apply Hf. lia.
    - exfalso. apply (Hpage a); [lia|]. apply Hf. lia. }
  destruct (Z.ltb_spec f.(FreeFinder.freeSize) sz); split_and!;
    cbn [FreeFinder.freeStart FreeFinder.freeSize]; try done; try lia.
  - right. split_and!; [lia|lia|lia|done].
  - intros a b Ha Hb Hf. destruct (Hnew a b Ha Hb Hf) as [Hlt|]; [|lia].
    specialize (Hmax a b ltac:(lia) Hb Hf). lia.
  - intros a b Ha Hb Hf. destruct (Hnew a b Ha Hb Hf) as [Hlt|]; [|lia].
    by apply Hmax; [lia|..].
Qed.

Lemma run_update_loop fuel f0 f x :
  0 ≤ f0.(FreeFinder.freeSize) → 0 ≤ x → scan_at x → scan_inv f0 f x →
  KE - x ≤ 4096 * Z.of_nat fuel →
  ∃ f', FreeFinder.update_loop fuel root f x s = Ok (f', s) ∧ scan_inv f0 f' KE.
Proof using Hps.
  revert f x. induction fuel as [|fuel IH]; intros f x Hf0 Hx Hat Hinv Hfuel;
    cbn [FreeFinder.update_loop].
  - destruct (Z.ltb_spec x KE); [lia|]. exists f. split; [done|].
    destruct Hat as [->|]; [done|lia].
  - destruct (Z.ltb_spec x KE).
    2:{ exists f. split; [done|]. destruct Hat as [->|]; [done|lia]. }
    destruct Hat as [|[Hx2 Hb]]; [lia|].
    destruct (run_gap_loop (Datatypes.S fuel) x 0) as (sz & reached & Hr & Hpost & Hlt);
      rewrite ?Z.add_0_r; try done; try lia.
    { intros a Ha. lia. }
    rewrite Z.add_0_r in Hr, Hlt. run Hr.
    assert (Hre : scan_at reached) by apply Hpost.
    assert (reached ≤ KE) by (destruct Hre as [->|[? _]]; lia).
    assert (4096 ≤ reached - x).
    { destruct Hpost as (? & ? & _ & Hr' & _ & Hpage & ?).
      destruct (block_bound (ps_tree _ _ _ Hps) x Hx2 Hb) as [? ?].
      destruct (decide (reached - x < 4096)) as [Hsm|]; [|lia]. exfalso.
      destruct Hr' as [->|[Hb1 Hb2]]; [lia|].
      (* the next block cannot start inside the first *)
      unfold block_start in Hb2. rewrite (block_leaf (ps_tree _ _ _ Hps) x reached) in Hb2
        by (done || lia).
      unfold block_start in Hb. unfold block_size in *.
      apply (no_multiple_between x reached (span (leaf4 mem_ root x).1)); [done|done|lia]. }
    apply IH; [done|lia|done| |lia]. by apply scan_step.
Qed.
End Scan.

(** ** Properties *)

Section Props.
Context {A : Type} `{AllocLaws A, BzeroLaws A}.
Implicit Types (s : machine A) (f : FreeFinder.state).

Lemma scan_inv_start s root f : 0 ≤ f.(FreeFinder.freeSize) → scan_inv s root f f 0.
Proof using. intros Hf. split; [by left|]. split; [lia|]. intros a b Ha. lia. Qed.

Lemma run_UpdateFreeRegion s root T f :
  pt_state s root T → 0 ≤ f.(FreeFinder.freeSize) →
  ∃ f', FreeFinder.UpdateFreeRegion root f s = Ok (f', s)
    ∧ scan_inv s root f f' PageTable.KernelEnd.
Proof.
  intros Hps Hf. unfold FreeFinder.UpdateFreeRegion.
  apply (run_update_loop s root T Hps FreeFinder.scan_fuel); [done|lia| |by apply scan_inv_start|].
  - right. split; [done|]. unfold block_start. apply Z.mod_0_l.
    destruct (leaf4 s.(mem) root 0) as [d e] eqn:Hl.
    destruct (leaf4_props _ _ _ _ _ Hl). pose proof (span_pos d). cbn. lia.
  - unfold FreeFinder.scan_fuel. rewrite Z2Nat.id by done. done.
Qed.

(** C8. The scan of the kernel half ends within one walk per 4 KiB page, changes
    nothing but the finder's region, and leaves either the old region or a
    range of addresses without a page; no range without a page is larger than
    the region it leaves. *)
Theorem UpdateFreeRegion_finds s root T f :
  pt_state s root T → 0 ≤ f.(FreeFinder.freeSize) →
  ∃ f', FreeFinder.UpdateFreeRegion root f s = Ok (f', s)
    ∧ (f' = f ∨
       0 ≤ f'.(FreeFinder.freeStart)
       ∧ f'.(FreeFinder.freeStart) + f'.(FreeFinder.freeSize) ≤ PageTable.KernelEnd
       ∧ ∀ a, f'.(FreeFinder.freeStart) ≤ a
              < f'.(FreeFinder.freeStart) + f'.(FreeFinder.freeSize) →
           translate s.(mem) root a = None)
    ∧ ∀ x y, 0 ≤ x < y → y ≤ PageTable.KernelEnd →
        (∀ a, x ≤ a < y → walks_free s.(mem) root a) → y - x ≤ f'.(FreeFinder.freeSize).
Proof.
  intros Hps Hf. destruct (run_UpdateFreeRegion s root T f Hps Hf) as (f' & Hr & Hreg & _ & Hmax).
  exists f'. split; [done|]. split.
  - destruct Hreg as [|(? & ? & ? & Hgap)]; [by left|right]. split_and!; [done..|].
    intros a Ha. eapply unmapped_translate; [exact Hps|done|].
    specialize (Hgap a Ha). unfold walks_free in Hgap. by apply orb_false_iff in Hgap as [? _].
  - intros x y Hxy Hy Hgap. apply Hmax; [lia|lia|done].
Qed.

(** A region the finder may keep. *)
Definition region_in_range f : Prop :=
  0 ≤ f.(FreeFinder.freeStart) ∧ 0 ≤ f.(FreeFinder.freeSize)
  ∧ f.(FreeFinder.freeStart) + f.(FreeFinder.freeSize) ≤ PageTable.KernelEnd.

Definition fend f : Z := f.(FreeFinder.freeStart) + f.(FreeFinder.freeSize).

(** What [CanAllocate] and the allocation agree on. *)
Lemma take_spec f size align :
  region_in_range f → 0 < size → 0 < align →
  FreeFinder.CanAllocate f size align = true →
  let '(a, f') := FreeFinder.take f size align in
  a mod align = 0 ∧ f.(FreeFinder.freeStart) ≤ a < f.(FreeFinder.freeStart) + align
  ∧ f'.(FreeFinder.freeStart) = a + size ∧ fend f' = fend f ∧ region_in_range f'.
Proof using.
  destruct f as [fs fz]. unfold region_in_range, FreeFinder.CanAllocate, FreeFinder.take, fend.
  cbn [FreeFinder.freeStart FreeFinder.freeSize]. intros (Hs & Hz & He) Hsz Hal.
  assert (HKE : PageTable.KernelEnd < 2 ^ 64) by done.
  destruct (Z.eqb_spec size 0); [lia|].
  set (skip := if truthy (fs mod align) then align - fs mod align else 0).
  assert (Hskip : 0 ≤ skip < align ∧ (fs + skip) mod align = 0).
  { pose proof (Z.mod_pos_bound fs align Hal). pose proof (Z.div_mod fs align ltac:(lia)).
    unfold skip. destruct (truthy _) eqn:E; [apply truthy_true in E|apply truthy_false in E].
    - split; [lia|]. replace (fs + (align - fs mod align)) with ((fs / align + 1) * align) by lia.
      apply Z_mod_mult.
    - rewrite Z.add_0_r. split; [lia|done]. }
  destruct Hskip as [Hsk Hmod]. destruct (Z.leb_spec fz skip); [done|].
  rewrite (u64_small (fz - skip)) by (unfold is_u64; lia). intros Hle%Z.leb_le.
  rewrite (u64_small (fs + skip)) by (unfold is_u64; lia).
  rewrite !u64_small by (unfold is_u64; lia). split_and!; lia || done.
Qed.

Lemma cannot_allocate f size align :
  region_in_range f → 0 < size → 0 < align →
  FreeFinder.CanAllocate f size align = false →
  f.(FreeFinder.freeSize) < size + align.
Proof using.
  destruct f as [fs fz]. unfold region_in_range, FreeFinder.CanAllocate.
  cbn [FreeFinder.freeStart FreeFinder.freeSize]. intros (Hs & Hz & He) Hsz Hal.
  assert (HKE : PageTable.KernelEnd < 2 ^ 64) by done.
  destruct (Z.eqb_spec size 0); [lia|].
  pose proof (Z.mod_pos_bound fs align Hal).
  destruct (truthy (fs mod align)) eqn:E; [apply truthy_true in E|apply truthy_false in E].
  - destruct (Z.leb_spec fz (align - fs mod align)); [intros _; lia|].
    rewrite u64_small by (unfold is_u64; lia). intros Hle%Z.leb_gt. lia.
  - destruct (Z.leb_spec fz 0); [intros _; lia|].
    rewrite u64_small by (unfold is_u64; lia). intros Hle%Z.leb_gt. lia.
Qed.

(** Room for [n] bytes: in the region the finder keeps, or, when that is empty,
    in a range without a page. *)
Definition has_room s root f (n : Z) : Prop :=
  n ≤ f.(FreeFinder.freeSize)
  ∨ f.(FreeFinder.freeSize) = 0 ∧ ∃ x, 0 ≤ x ∧ x + n ≤ PageTable.KernelEnd ∧ free_gap s root x (x + n).

(** The finder keeps a range without a page. *)
Definition finder_ok s root f : Prop :=
  region_in_range f ∧ free_gap s root f.(FreeFinder.freeStart) (fend f).

(** With room for the request and the slack of its alignment, an allocation
    takes a range without a page and leaves the rest. *)
Lemma run_finder_Alloc s root T f size align n :
  pt_state s root T → finder_ok s root f → has_room s root f n → 0 < size → 0 < align →
  size + align ≤ n →
  ∃ a f', FreeFinder.Alloc root f size align s = Ok ((Some a, f'), s) ∧ finder_ok s root f'
    ∧ a mod align = 0 ∧ 0 ≤ a ∧ a + size ≤ f'.(FreeFinder.freeStart)
    ∧ free_gap s root a (a + size) ∧ n - size - align ≤ f'.(FreeFinder.freeSize).
Proof.
  intros Hps [Hf Hgap] Hroom Hsz Hal Hn. unfold FreeFinder.Alloc. destruct (Z.eqb_spec align 0); [lia|].
  erewrite run_bind; [cbn beta|reflexivity].
  assert (Htake : ∀ g, region_in_range g → free_gap s root g.(FreeFinder.freeStart) (fend g) →
    n ≤ g.(FreeFinder.freeSize) ∨ FreeFinder.CanAllocate g size align = true ∧ n ≤ g.(FreeFinder.freeSize) →
    FreeFinder.CanAllocate g size align = true ∧
    let '(a, f') := FreeFinder.take g size align in finder_ok s root f'
      ∧ a mod align = 0 ∧ 0 ≤ a ∧ a + size ≤ f'.(FreeFinder.freeStart)
      ∧ free_gap s root a (a + size) ∧ n - size - align ≤ f'.(FreeFinder.freeSize)).
  { intros g Hg Hgg Hng. assert (Hc : FreeFinder.CanAllocate g size align = true).
    { destruct (FreeFinder.CanAllocate g size align) eqn:E; [done|].
      pose proof (cannot_allocate g size align Hg Hsz Hal E). lia. }
    split; [done|]. pose proof (take_spec g size align Hg Hsz Hal Hc) as Ht.
    destruct (FreeFinder.take g size align) as [a f']. destruct Ht as (? & ? & ? & ? & Hr').
    unfold finder_ok, fend, region_in_range in *.
    split_and!; try done; try lia; intros v Hv; apply Hgg; lia. }
  destruct Hroom as [Hle|(Hz & x & Hx & Hxe & Hxg)].
  - destruct (Htake f Hf Hgap) as [Hc Ht]; [by left|].
    rewrite Hc. erewrite run_bind; [cbn beta|reflexivity]. rewrite Hc.
    destruct (FreeFinder.take f size align) as [a f'].
    exists a, f'. split; [reflexivity|exact Ht].
  - destruct (FreeFinder.CanAllocate f size align) eqn:Hc.
    { pose proof (take_spec f size align Hf Hsz Hal Hc) as Ht.
      destruct (FreeFinder.take f size align) as [a f']. destruct Ht as (_ & ? & ? & ? & Hr').
      unfold fend, region_in_range in *. lia. }
    destruct (run_UpdateFreeRegion s root T f Hps) as (g & Hr & Hreg & _ & Hmax); [apply Hf|].
    erewrite run_bind; [cbn beta|exact Hr].
    specialize (Hmax x (x + n) ltac:(lia) ltac:(lia) Hxg).
    assert (region_in_range g ∧ free_gap s root g.(FreeFinder.freeStart) (fend g)) as [Hg Hgg].
    { destruct Hreg as [->|(? & ? & ? & Hgg)]; [by split; [|exact Hgap]|].
      unfold region_in_range. split; [lia|exact Hgg]. }
    destruct (Htake g Hg Hgg) as [Hc2 Ht]; [left; lia|]. rewrite Hc2.
    destruct (FreeFinder.take g size align) as [a f'].
    exists a, f'. split; [reflexivity|exact Ht].
Qed.

(** [FreeFinder::Alloc] returns an aligned range at the bottom of a region
    it keeps and leaves the rest of that region; when it returns false, no
    range without a page can hold the request with its alignment slack. *)
Lemma FreeFinder_Alloc_correct s root T f size align :
  pt_state s root T → region_in_range f → 0 < size → 0 < align →
  ∃ r f', FreeFinder.Alloc root f size align s = Ok ((r, f'), s) ∧ region_in_range f' ∧
    match r with
    | Some a => a mod align = 0 ∧ ∃ g, region_in_range g
        ∧ (g = f ∨ ∀ v, g.(FreeFinder.freeStart) ≤ v < fend g → walks_free s.(mem) root v)
        ∧ g.(FreeFinder.freeStart) ≤ a ∧ f'.(FreeFinder.freeStart) = a + size ∧ fend f' = fend g
    | None => ∀ x y, 0 ≤ x < y → y ≤ PageTable.KernelEnd →
        (∀ v, x ≤ v < y → walks_free s.(mem) root v) → y - x < size + align
    end.
Proof.
  intros Hps Hf Hsz Hal. unfold FreeFinder.Alloc. destruct (Z.eqb_spec align 0); [lia|].
  erewrite run_bind; [cbn beta|reflexivity].
  destruct (FreeFinder.CanAllocate f size align) eqn:Hc.
  - erewrite run_bind; [cbn beta|reflexivity]. rewrite Hc.
    pose proof (take_spec f size align Hf Hsz Hal Hc) as Ht.
    destruct (FreeFinder.take f size align) as [a f']. destruct Ht as (? & ? & ? & ? & ?).
    exists (Some a), f'. split_and!; [done..|]. exists f. split_and!; [done|by left|lia|done..].
  - destruct (run_UpdateFreeRegion s root T f Hps) as (g & Hr & Hreg & _ & Hmax); [apply Hf|].
    erewrite run_bind; [cbn beta|exact Hr].
    assert (Hg : region_in_range g).
    { destruct Hreg as [->|(? & ? & ? & _)]; [done|]. unfold region_in_range. lia. }
    destruct (FreeFinder.CanAllocate g size align) eqn:Hc2.
    + pose proof (take_spec g size align Hg Hsz Hal Hc2) as Ht.
      destruct (FreeFinder.take g size align) as [a f']. destruct Ht as (? & ? & ? & ? & ?).
      exists (Some a), f'. split_and!; [done..|]. exists g. split_and!; [done| |lia|done..].
      destruct Hreg as [->|(_ & _ & _ & Hgap)]; [by left|right; exact Hgap].
    + exists None, g. split_and!; [done..|]. intros x y Hxy Hy Hgap.
      pose proof (cannot_allocate g size align Hg Hsz Hal Hc2).
      specialize (Hmax x y ltac:(lia) ltac:(lia) Hgap). lia.
Qed.
End Props.

(** ** GlobalMap::Map *)

(** The tables do not depend on the locks held. *)
Lemma pt_state_held {A} `{AllocLaws A} (s : machine A) l root T :
  pt_state (set_held l s) root T ↔ pt_state s root T.
Proof. split; intros [? ? ? ?]; split; done. Qed.

Section MapProps.
Context {A : Type} `{AllocLaws A, BzeroLaws A, LockLaws A}.
Implicit Types (s : machine A) (f : FreeFinder.state).

(** Running a block under a lock. *)
Lemma locked_run {B} lk root T s (body : M (machine A) B) b s' T' :
  pt_state s root T → lk ∉ s.(held) →
  body (set_held (lk :: s.(held)) s) = Ok (b, s') →
  pt_state s' root T' → same_cpu (set_held (lk :: s.(held)) s) s' →
  ScopedLock lk body s = Ok (b, set_held s.(held) s')
  ∧ pt_state (set_held s.(held) s') root T' ∧ same_cpu s (set_held s.(held) s').
Proof.
  intros Hps Hl Hb Hps' Hcpu. split_and!.
  - apply run_ScopedLock; [done|done|by apply (sc_held _ _ Hcpu)].
  - by apply pt_state_held.
  - destruct Hcpu as [Hc1 Hc2 Hc3 Hc4 _]. split; cbn in *; done.
Qed.

(** [Map] in terms of the walks: what it maps, what it leaves alone. *)
Lemma run_Map s root T f phys d n attr :
  let size := mkSize (span d) (Z.of_nat n) in
  let entry := phys .| PageTable.CalcMask (span d) true attr in
  pt_state s root T → GlobalMapLock ∉ s.(held) → 1 ≤ d ≤ 3 → (0 < n)%nat →
  FreeFinder.CanAllocate f (Bytes size) (Z.of_nat n) = true →
  let '(a, f') := FreeFinder.take f (Bytes size) (Z.of_nat n) in
  good_range d n a entry → (n * 3 ≤ avail s.(alloc))%nat →
  (∀ i, 0 ≤ i < Z.of_nat n → ¬ blocked s.(mem) root (a + i * span d) d) →
  ∃ s' T', GlobalMap.Map root f phys size attr s = Ok ((Some a, f'), s')
    ∧ pt_state s' root T' ∧ same_cpu s s' ∧ spared s s' T T'
    ∧ (∀ q g, (length q ≤ Z.to_nat d)%nat → T !! q = Some g → T' !! q = Some g)
    ∧ (∀ w i, 0 ≤ i < Z.of_nat n → covers (a + i * span d) d w →
         leaf4 s'.(mem) root w = (d, entry + i * span d))
    ∧ (∀ w, idx w 0 ≠ 511 → (∀ i, 0 ≤ i < Z.of_nat n → ¬ covers (a + i * span d) d w) →
         leaf_keep d s.(mem) s'.(mem) root w).
Proof.
  intros size entry Hps Hlock Hd Hn Hcan.
  destruct (FreeFinder.take f (Bytes size) (Z.of_nat n)) as [a f'] eqn:Htake.
  intros Hgr Hav Hnb. set (s1 := set_held (GlobalMapLock :: s.(held)) s).
  assert (Hps1 : pt_state s1 root T) by (by apply pt_state_held).
  pose proof (run_SetList 3 flags_3 root d ltac:(lia) n a entry size false s1 T Hps1
    ltac:(lia) eq_refl Hgr) as Hpost.
  destruct (PageTable.SetList root a entry size 3 false s1) as [[c s2]|fl] eqn:Hrun; cbn in Hpost.
  2:{ exfalso. destruct Hpost as [[_ Hx]|(_ & i & Hi & Hx)]; [|by destruct (Hnb i Hi)].
      assert (Z.to_nat d ≤ 3)%nat by lia. cbn in Hx. nia. }
  destruct Hpost as [[T' [Hps' Hcpu _ Hh He Hsp Hsub]] _].
  assert (Hbody : (
    '(r, f) ← FreeFinder.Alloc root f (Bytes size) size.(pageCount);
    match r with
    | None => mret (None, f)
    | Some addr =>
        let mask := PageTable.CalcMask size.(pageSize) true attr in
        _ ← PageTable.SetList root addr (phys .| mask) size 3 false;
        mret (Some addr, f)
    end) s1 = Ok ((Some a, f'), s2)).
  { erewrite run_bind; [cbn beta iota|].
    2:{ unfold FreeFinder.Alloc. cbn [pageCount size].
        destruct (Z.eqb_spec (Z.of_nat n) 0); [lia|].
        erewrite run_bind; [cbn beta|reflexivity]. rewrite Hcan.
        erewrite run_bind; [cbn beta|reflexivity]. by rewrite Hcan, Htake. }
    cbn beta iota zeta. by run Hrun. }
  destruct (locked_run _ root T s _ _ _ T' Hps Hlock Hbody Hps' Hcpu) as (Hr & Hps2 & Hcpu2).
  exists (set_held s.(held) s2), T'. split_and!; try done.
  unfold GlobalMap.Map. run run_AssertNoncritical; [exact Hr|apply (ps_noncritical _ _ _ Hps)].
Qed.

(** C9. With free kernel addresses and enough pages, [GlobalMap::Map] takes the
    range the finder hands out and maps every page of it to the physical
    range, with the kernel flags of the attributes; no other address changes
    translation, and the lock is free again. *)
Theorem Map_correct s root T f phys d n attr :
  let size := mkSize (span d) (Z.of_nat n) in
  let entry := phys .| PageTable.CalcMask (span d) true attr in
  pt_state s root T → GlobalMapLock ∉ s.(held) → 1 ≤ d ≤ 3 → (0 < n)%nat →
  FreeFinder.CanAllocate f (Bytes size) (Z.of_nat n) = true →
  let '(a, f') := FreeFinder.take f (Bytes size) (Z.of_nat n) in
  good_range d n a entry → (n * 3 ≤ avail s.(alloc))%nat →
  (∀ i, 0 ≤ i < Z.of_nat n → ¬ blocked s.(mem) root (a + i * span d) d) →
  ∃ s' T', GlobalMap.Map root f phys size attr s = Ok ((Some a, f'), s')
    ∧ pt_state s' root T' ∧ same_cpu s s'
    ∧ (∀ w i, 0 ≤ i < Z.of_nat n → covers (a + i * span d) d w →
         translate s'.(mem) root w =
         if canonical w then leaf_frame (d, entry + i * span d) w else None)
    ∧ (∀ w, idx w 0 ≠ 511 →
         (∀ i, 0 ≤ i < Z.of_nat n → ¬ covers (a + i * span d) d w) →
         translate s'.(mem) root w = translate s.(mem) root w).
Proof.
  intros size entry Hps Hlock Hd Hn Hcan.
  pose proof (run_Map s root T f phys d n attr Hps Hlock Hd Hn Hcan) as Hmap.
  fold size entry in Hmap. destruct (FreeFinder.take _ _ _) as [a f'].
  intros Hgr Hav Hnb. destruct (Hmap Hgr Hav Hnb) as (s' & T' & Hr & Hps' & Hcpu & _ & _ & Hh & He).
  exists s', T'. split_and!; [done..| |].
  - intros w i Hi Hc. by rewrite (pt_translate _ _ _ _ Hps'), (Hh w i).
  - intros w Hw Hc. by apply (keep_translate d s s' root T T' w Hps Hps'), He.
Qed.

(** [Map] asks the finder for an address aligned to the number of pages, not
    to their size: when the address handed out is not a multiple of the page
    size, the assertion in [PageTable::Set] stops the machine. *)
Lemma Map_alignment_stops s root T f phys d n attr :
  let size := mkSize (span d) (Z.of_nat n) in
  pt_state s root T → GlobalMapLock ∉ s.(held) → 1 ≤ d ≤ 3 → (0 < n)%nat →
  FreeFinder.CanAllocate f (Bytes size) (Z.of_nat n) = true →
  (FreeFinder.take f (Bytes size) (Z.of_nat n)).1 mod span d ≠ 0 →
  GlobalMap.Map root f phys size attr s
    = Stop (AssertFail "!(addr % (0x1000L << (27 - 9 * theDepth)))").
Proof.
  intros size Hps Hlock Hd Hn Hcan Hmod.
  destruct (FreeFinder.take f (Bytes size) (Z.of_nat n)) as [a f'] eqn:Htake. cbn [fst] in Hmod.
  set (s1 := set_held (GlobalMapLock :: s.(held)) s).
  assert (Hps1 : pt_state s1 root T) by (by apply pt_state_held).
  unfold GlobalMap.Map. run run_AssertNoncritical; [|apply (ps_noncritical _ _ _ Hps)].
  unfold ScopedLock. run seize_free; [|done]. fold s1. apply run_bind_stop.
  erewrite run_bind; [cbn beta iota|].
  2:{ unfold FreeFinder.Alloc. cbn [pageCount size].
      destruct (Z.eqb_spec (Z.of_nat n) 0); [lia|].
      erewrite run_bind; [cbn beta|reflexivity]. rewrite Hcan.
      erewrite run_bind; [cbn beta|reflexivity]. by rewrite Hcan, Htake. }
  cbn beta iota zeta. apply run_bind_stop. unfold PageTable.SetList.
  run run_AssertNoncritical; [|apply (ps_noncritical _ _ _ Hps1)].
  run run_assert_set; [|apply (ps_cr3 _ _ _ Hps1)].
  run (run_CalcDepth d); [|lia|lia]. cbn [pageCount size]. rewrite Nat2Z.id.
  destruct n as [|n]; [lia|]. cbn [PageTable.setlist_loop]. apply run_bind_stop.
  unfold PageTable.Set_. run run_AssertNoncritical; [|apply (ps_noncritical _ _ _ Hps1)].
  run run_assert_set; [|apply (ps_cr3 _ _ _ Hps1)]. run_assert lia. apply run_bind_stop.
  apply run_assert_fail. apply negb_false_iff, truthy_true.
  by assert (d = 1 ∨ d = 2 ∨ d = 3) as [->|[->| ->]] by lia.
Qed.
End MapProps.

(** ** Examples *)

Lemma boot_lock : GlobalMapLock ∉ boot_machine.(held).
Proof. apply not_elem_of_nil. Qed.

Lemma UpdateFreeRegion_finds_witness :
  ∃ f', FreeFinder.UpdateFreeRegion 0x1000 (FreeFinder.mkState 0 0) boot_machine
      = Ok (f', boot_machine).
Proof.
  destruct (UpdateFreeRegion_finds boot_machine 0x1000 _ (FreeFinder.mkState 0 0) boot_state
    ltac:(cbn; lia)) as (f' & Hr & _).
  exists f'. exact Hr.
Defined.

Lemma FreeFinder_Alloc_correct_witness :
  ∃ a f', FreeFinder.Alloc 0x1000 (FreeFinder.mkState 0x5000 0x8000) 0x3000 0x2000 boot_machine
      = Ok ((Some a, f'), boot_machine) ∧ a = 0x6000.
Proof.
  destruct (FreeFinder_Alloc_correct boot_machine 0x1000 _ (FreeFinder.mkState 0x5000 0x8000)
    0x3000 0x2000 boot_state) as (r & f' & Hr & _); [by vm_compute|lia|lia|].
  assert (Hv : FreeFinder.Alloc 0x1000 (FreeFinder.mkState 0x5000 0x8000) 0x3000 0x2000 boot_machine
    = Ok ((Some 0x6000, FreeFinder.mkState 0x9000 0x4000), boot_machine)) by reflexivity.
  rewrite Hv in Hr. injection Hr as <- <-. eexists _, _. split; [exact Hv|reflexivity].
Defined.

Lemma Map_correct_witness :
  ∃ a f' s', GlobalMap.Map 0x1000 (FreeFinder.mkState 0x5000 0x8000) 0x70000 (mkSize 0x1000 2)
      default_attributes boot_machine = Ok ((Some a, f'), s')
    ∧ translate s'.(mem) 0x1000 0x6234 = Some 0x71234.
Proof.
  destruct (Map_correct boot_machine 0x1000 _ (FreeFinder.mkState 0x5000 0x8000) 0x70000 3 2
    default_attributes boot_state boot_lock ltac:(lia) ltac:(lia) eq_refl)
    as (s' & T' & Hr & _ & _ & Hh & _).
  - split; [reflexivity|vm_compute; intuition discriminate..| |by left].
    intros i Hi. assert (i = 0 ∨ i = 1) as [->| ->] by lia; by vm_compute.
  - vm_compute. lia.
  - intros i Hi. assert (i = 0 ∨ i = 1) as [->| ->] by lia; intros (_ & Hp & _);
      vm_compute in Hp; discriminate.
  - eexists _, _, s'. split; [exact Hr|]. rewrite (Hh _ 1); [vm_compute; reflexivity|lia|reflexivity].
Defined.

Lemma Map_alignment_stops_witness :
  GlobalMap.Map 0x1000 (FreeFinder.mkState 0x5000 0x8000) 0x70000 (mkSize 0x1000 3)
      default_attributes boot_machine
    = Stop (AssertFail "!(addr % (0x1000L << (27 - 9 * theDepth)))").
Proof.
  apply (Map_alignment_stops boot_machine 0x1000 _ (FreeFinder.mkState 0x5000 0x8000) 0x70000 3 3
    default_attributes boot_state boot_lock); [lia|lia|reflexivity|].
  vm_compute. discriminate.
Defined.
