(* ===== verification/UserMap.v ===== *)
(** * User address spaces

    [EasyMap] and [PhysCopy] (src/memory/easy-map.cpp, phys-copy.cpp), which
    give the kernel a window on physical memory, and [UserMap]
    (src/arch/x64/vmm/user/user-map.cpp): a page table, a free list and a
    lock.  A map's fields are its PML4 and its free list; the free list is
    passed along. *)

From stdpp Require Import base numbers list gmap strings.
From Stdlib Require Import ZArith Lia.
From S2P Require Import Prelude Machine Mmu PageTable GlobalMap FreeList.
#[local] Open Scope Z_scope.

(** [ansa::Memcpy(dest, source, size)]. *)
Class AnsaMemcpy (A : Type) := { Memcpy : Z → Z → Z → M (machine A) unit }.

Module EasyMap.

Record t : Type := mk { mapStart : Z; start : Z; pageSize_ : Z; pageCount_ : Z }.

Section Ops.
Context {A : Type} `{PhysAllocator A, AnsaBzero A, AnsaLock A, AnsaMemcpy A}.

(** The constructor; [pml4] and [f] are the global map's. *)
Definition new (pml4 : Z) (f : FreeFinder.state) (start size : Z)
  : M (machine A) (t * FreeFinder.state) :=
  _ ← AssertNoncritical;
  pageAlign ← GlobalMap.GetPageSizeAlign 0;
  pageSize ← GlobalMap.GetPageSize 0;
  let off := start mod pageAlign in
  let alignOffset := if truthy off then off else 0 in
  let aligned := if truthy off then start -u off else start in
  let endSize := if truthy off then size +u off else size in
  let pageCount := endSize / pageSize +u (if truthy (endSize mod pageSize) then 1 else 0) in
  '(r, f) ← GlobalMap.Map pml4 f aligned (mkSize pageSize pageCount) default_attributes;
  match r with
  | None => panic "EasyMap() - failed to map memory"
  | Some mapStart => mret (mk mapStart (mapStart +u alignOffset) pageSize pageCount, f)
  end.

(** The destructor. *)
Definition delete (pml4 : Z) (f : FreeFinder.state) (m : t) : M (machine A) FreeFinder.state :=
  _ ← AssertNoncritical;
  GlobalMap.Unmap pml4 f m.(mapStart) (mkSize m.(pageSize_) m.(pageCount_)).

Definition PhysCopy (pml4 : Z) (f : FreeFinder.state) (dest source size : Z)
  : M (machine A) FreeFinder.state :=
  '(m, f) ← new pml4 f source size;
  _ ← Memcpy dest m.(start) size;
  delete pml4 f m.
End Ops.

End EasyMap.

Module UserMap.

Definition GetPageSizeCount : Z := 2.

Definition GetPageSize {S} (idx : Z) : M S Z :=
  _ ← assert ((0 <=? idx) && (idx <? 3)) "idx >= 0 && idx < 3";
  mret (if idx =? 0 then 0x1000 else 0x200000).

Definition GetPageSizeAlign {S} (idx : Z) : M S Z := GetPageSize idx.

Definition GetCapabilities : Capabilities.t := Capabilities.mk true true true true false.

Section Ops.
Context {A : Type} `{PhysAllocator A, AnsaBzero A, AnsaLock A, AnsaMemcpy A, DomainHeap A}.
Implicit Types (l : list FreeList.Region).

(** [for (i = 1; i < 0x1ff; ++i) mapData[i] = 0] *)
Fixpoint clear_slots (n : nat) (mapData i : Z) : M (machine A) unit :=
  match n with
  | O => mret tt
  | Datatypes.S n' => _ ← store64 (mapData + 8 * i) 0; clear_slots n' mapData (i + 1)
  end.

(** The two regions the constructor gives to the free list. *)
Definition initial_free : M (machine A) (list FreeList.Region) :=
  l ← FreeList.Free [] PageTable.KernelEnd 0x8000000000 0xff;
  FreeList.Free l 0xFFFF800000000000 0x800000000 0xff.

(** The constructor: the PML4 of the new map, and its free list; [gpml4] and
    [gf] belong to the global map, [pdpt] is [GlobalMap::GetPdpt()]. *)
Definition new_pml4 (gpml4 : Z) (gf : FreeFinder.state) (pdpt : Z)
  : M (machine A) (Z * FreeFinder.state) :=
  r ← PageTable.alloc_op (Alloc 0x1000 0x1000);
  match r with
  | None => panic "UserMap::UserMap() - failed to allocate PML4"
  | Some pml4 =>
      '(map, gf) ← EasyMap.new gpml4 gf pml4 0x1000;
      let mapData := map.(EasyMap.start) in
      _ ← store64 mapData (pdpt .| 3);
      _ ← store64 (mapData + 8 * 0x1ff) (pml4 .| 3);
      _ ← clear_slots 0x1fe mapData 1;
      gf ← EasyMap.delete gpml4 gf map;
      mret (pml4, gf)
  end.

Definition new (gpml4 : Z) (gf : FreeFinder.state) (pdpt : Z)
  : M (machine A) (Z * list FreeList.Region * FreeFinder.state) :=
  '(pml4, gf) ← new_pml4 gpml4 gf pdpt;
  l ← initial_free;
  mret (pml4, l, gf).

(** [Set]: tells the [Tlb] which map it is, [this], and loads CR3. *)
Definition Set_ (WillSetAddressSpace : Z → M (machine A) unit) (this pml4 : Z)
  : M (machine A) unit :=
  _ ← AssertCritical;
  _ ← WillSetAddressSpace this;
  _ ← emit (EvLoadCr3 pml4);
  modify (set_cr3 pml4).

Definition DistInvlpg (start size : Z) : M (machine A) unit := emit (EvInvlpg start size).

Definition Read (pml4 addr : Z) : M (machine A) (option (Z * Attributes * Z)) :=
  _ ← AssertNoncritical;
  ScopedLock UserMapLock (PageTable.Read pml4 addr).

Definition Map (pml4 : Z) l (phys : Z) (size : Size) (attributes : Attributes)
  : M (machine A) (option Z * list FreeList.Region) :=
  _ ← AssertNoncritical;
  ScopedLock UserMapLock (
    '(addr, l) ← FreeList.Alloc l size.(pageSize) size.(pageCount);
    if addr =? 0 then mret (None, l)
    else
      _ ← assert (PageTable.KernelEnd <=? addr) "addr >= PageTable::KernelEnd";
      let mask := PageTable.CalcMask size.(pageSize) false attributes in
      _ ← PageTable.SetList pml4 addr (phys .| mask) size 7 false;
      mret (Some addr, l)).

Definition MapAt (pml4 addr phys : Z) (size : Size) (attributes : Attributes)
  : M (machine A) unit :=
  _ ← AssertNoncritical;
  ScopedLock UserMapLock (
    _ ← assert ((PageTable.KernelEnd <=? addr) && (PageTable.KernelEnd <=? addr +u Bytes size))
          "addr >= PageTable::KernelEnd && addr + size.Bytes() >= PageTable::KernelEnd";
    let mask := PageTable.CalcMask size.(pageSize) false attributes in
    overwrote ← PageTable.SetList pml4 addr (phys .| mask) size 7 true;
    match overwrote with
    | None => stop (Undefined "overwrote is not initialised")
    | Some true => DistInvlpg addr (Bytes size)
    | Some false => mret tt
    end).

Definition unset_pages (pml4 addr : Z) (size : Size) : M (machine A) unit :=
  GlobalMap.unset_loop (Z.to_nat size.(pageCount)) pml4 addr size.(pageSize)
    "UserMap::Unmap() - Unset() failed".

Definition Unmap (pml4 : Z) l (addr : Z) (size : Size) : M (machine A) (list FreeList.Region) :=
  _ ← AssertNoncritical;
  ScopedLock UserMapLock (
    _ ← unset_pages pml4 addr size;
    l ← FreeList.Free l addr size.(pageSize) size.(pageCount);
    _ ← DistInvlpg addr (Bytes size);
    mret l).

Definition UnmapAndReserve (pml4 addr : Z) (size : Size) : M (machine A) unit :=
  _ ← AssertNoncritical;
  ScopedLock UserMapLock (
    _ ← unset_pages pml4 addr size;
    DistInvlpg addr (Bytes size)).

Definition Reserve l (size : Size) : M (machine A) (option Z * list FreeList.Region) :=
  _ ← AssertNoncritical;
  ScopedLock UserMapLock (
    '(addr, l) ← FreeList.Alloc l size.(pageSize) size.(pageCount);
    mret (if addr =? 0 then None else Some addr, l)).

Definition ReserveAt l (addr : Z) (size : Size) : M (machine A) (list FreeList.Region) :=
  _ ← assert (PageTable.KernelEnd <=? addr) "addr >= PageTable::KernelEnd";
  _ ← assert (PageTable.KernelEnd <=? addr +u Bytes size)
        "addr + size.Bytes() >= PageTable::KernelEnd";
  ScopedLock UserMapLock (
    '(ok, l) ← FreeList.AllocAt l addr size.(pageSize) size.(pageCount);
    if negb ok then panic "UserMap::ReserveAt() - failed" else mret l).

Definition Unreserve l (addr : Z) (size : Size) : M (machine A) (list FreeList.Region) :=
  _ ← AssertNoncritical;
  ScopedLock UserMapLock (FreeList.Free l addr size.(pageSize) size.(pageCount)).

Definition Rereserve (addr : Z) (oldSize : Size) (newPageSize : Z) : M (machine A) unit :=
  _ ← AssertNoncritical;
  _ ← assert (Bytes oldSize mod newPageSize =? 0) "oldSize.Bytes() % newPageSize == 0";
  assert (addr mod newPageSize =? 0) "addr % newPageSize == 0".

(** [GetGlobalPageDelegate()]: [None] when no delegate is set. *)
Context (delegate : option (Z → bool → M (machine A) unit)).

Definition CopyToKernel (dest start size : Z) : M (machine A) unit :=
  if (start +u size <? start) || (start <? PageTable.KernelEnd) then
    match delegate with
    | None => panic "UserMap::CopyToKernel() - page fault with no delegate"
    | Some fault => fault start false
    end
  else Memcpy dest start size.

Definition CopyFromKernel (dest start size : Z) : M (machine A) unit :=
  if (dest +u size <? dest) || (dest <? PageTable.KernelEnd) then
    match delegate with
    | None => panic "UserMap::CopyFromKernel() - page fault with no delegate"
    | Some fault => fault dest true
    end
  else Memcpy dest start size.
End Ops.

End UserMap.
