(* ===== verification/UserMapProofs.v ===== *)
(** * User address spaces: properties

    [UserMap::Map] composes the free list, the page table and the lock; the
    heap the free list allocates its nodes from is only assumed to leave the
    user half of the address space alone. *)

From stdpp Require Import base numbers list gmap strings.
From Stdlib Require Import ZArith Lia.
From S2P Require Import Prelude Machine Mmu PageTable PageTree PageTableProofs PageTableList Concrete PageTableProps FreeList GlobalMap GlobalMapProofs UserMap.
#[local] Open Scope Z_scope.

(** What the heap promises the user maps: it may map memory in the kernel half
    of the current address space, and nowhere else. *)
Class HeapTables (A : Type) `{AllocLaws A, HeapLaws A} := {
  heap_tables : ∀ (s s' : machine A) root T, heap_step s s' → pt_state s root T →
    ∃ T', pt_state s' root T' ∧ same_cpu s s'
      ∧ ∀ w, idx w 0 ≠ 0 → idx w 0 ≠ 511 → leaf4 s'.(mem) root w = leaf4 s.(mem) root w;
}.

(** Addresses a user map hands out. *)
Definition user_addr (a : Z) : Prop :=
  PageTable.KernelEnd ≤ a ∧ idx a 0 ≠ 0 ∧ idx a 0 ≠ 511.

Section Props.
Context {A : Type} `{AllocLaws A, BzeroLaws A, LockLaws A, HeapLaws A}.
Context `{!HeapTables A}.
Implicit Types (s : machine A) (l : list FreeList.Region).

(** A new user map's free list holds the lower half of the address space
    above the kernel's part, and of the upper half only the first 0x7F800000000
    bytes. *)
Theorem UserMap_initial_free s :
  noncritical s →
  ∃ l s', UserMap.initial_free s = Ok (l, s') ∧ heap_step s s' ∧ fl_inv l
    ∧ ∀ a, is_free l a ↔ PageTable.KernelEnd ≤ a < 2 ^ 47
        ∨ 0xFFFF800000000000 ≤ a < 0xFFFF800000000000 + 0x7F800000000.
Proof.
  intros Hn. unfold UserMap.initial_free.
  destruct (run_free_loop [] 1 (FreeList.mkRegion PageTable.KernelEnd (0x8000000000 * 0xff)) s)
    as (l1 & s1 & Hr1 & Hs1 & Hsep1 & Hf1); [by cbn|done|done|by intros a _ ?%is_free_nil|done|].
  assert (Hn1 : noncritical s1) by exact (heap_noncritical _ _ Hs1 Hn).
  assert (Hrun1 : FreeList.Free [] PageTable.KernelEnd 0x8000000000 0xff s = Ok (l1, s1)).
  { unfold FreeList.Free. run run_AssertNoncritical; [|done]. exact Hr1. }
  run Hrun1.
  destruct (run_free_loop l1 1 (FreeList.mkRegion 0xFFFF800000000000 (0x800000000 * 0xff)) s1)
    as (l2 & s2 & Hr2 & Hs2 & Hsep2 & Hf2); [by cbn|done|done| |done|].
  { intros a Ha Hx%Hf1. destruct Hx as [Hx%is_free_nil|Hx]; [done|].
    unfold in_region, rend, PageTable.KernelEnd in *. cbn in Ha, Hx. lia. }
  exists l2, s2. split; [|split; [by etrans|split; [exact Hsep2|]]].
  - unfold FreeList.Free. run run_AssertNoncritical; [|done]. exact Hr2.
  - intros a. rewrite Hf2, Hf1. unfold in_region, rend, PageTable.KernelEnd. cbn.
    pose proof (is_free_nil a). eval_pow. intuition lia.
Qed.

(** [Map] around the allocation of the range and [SetList]. *)
Lemma run_user_Map root T T' l phys size attr s a l' s2 s' :
  pt_state s root T → UserMapLock ∉ s.(held) →
  FreeList.Alloc l (pageSize size) (pageCount size) (set_held (UserMapLock :: s.(held)) s)
    = Ok ((a, l'), s2) →
  (if a =? 0 then s' = s2 else PageTable.KernelEnd ≤ a ∧ ∃ c,
     PageTable.SetList root a (phys .| PageTable.CalcMask (pageSize size) false attr) size 7 false s2
     = Ok (c, s')) →
  pt_state s' root T' → same_cpu (set_held (UserMapLock :: s.(held)) s) s' →
  UserMap.Map root l phys size attr s
    = Ok ((if a =? 0 then None else Some a, l'), set_held s.(held) s')
  ∧ pt_state (set_held s.(held) s') root T' ∧ same_cpu s (set_held s.(held) s').
Proof.
  intros Hps Hlock Hr Hcase Hps' Hcpu.
  assert (Hbody : (
    '(addr, l) ← FreeList.Alloc l (pageSize size) (pageCount size);
    if addr =? 0 then mret (None, l)
    else
      _ ← assert (PageTable.KernelEnd <=? addr) "addr >= PageTable::KernelEnd";
      let mask := PageTable.CalcMask (pageSize size) false attr in
      _ ← PageTable.SetList root addr (phys .| mask) size 7 false;
      mret (Some addr, l)) (set_held (UserMapLock :: s.(held)) s)
    = Ok ((if a =? 0 then None else Some a, l'), s')).
  { run Hr. cbn beta iota. destruct (a =? 0); [by subst s'|]. destruct Hcase as (Hke & c & Hset).
    run_assert ltac:(by apply Z.leb_le). cbn zeta. by run Hset. }
  destruct (locked_run _ root T s _ _ _ T' Hps Hlock Hbody Hps' Hcpu) as (Hrun & ? & ?).
  split_and!; [|done..]. unfold UserMap.Map.
  run run_AssertNoncritical; [exact Hrun|apply (ps_noncritical _ _ _ Hps)].
Qed.

(** [SetList] succeeds on pages of the user half that hold nothing. *)
Lemma run_user_SetList root d n a entry s T :
  pt_state s root T → 1 ≤ d ≤ 3 → good_range d n a entry → (n * 3 ≤ avail s.(alloc))%nat →
  (∀ i, 0 ≤ i < Z.of_nat n → present (leaf4 s.(mem) root (a + i * span d)).2 = false) →
  ∃ c s' T', PageTable.SetList root a entry (mkSize (span d) (Z.of_nat n)) 7 false s = Ok (c, s')
    ∧ list_edited root d s s' T T' n a entry.
Proof.
  intros Hps Hd Hgr Hav Hnp. assert (Hflags : parent_flags 7) by (split; [lia|reflexivity]).
  pose proof (run_SetList 7 Hflags root d ltac:(lia) n a entry _ false s T Hps
    ltac:(lia) eq_refl Hgr) as Hpost.
  destruct (PageTable.SetList _ _ _ _ _ _ _) as [[c s']|fl]; cbn in Hpost.
  - destruct Hpost as [[T' He] _]. by exists c, s', T'.
  - exfalso. destruct Hpost as [[_ Hx]|(_ & i & Hi & _ & Hx & _)].
    + assert (Z.to_nat d ≤ 3)%nat by lia. nia.
    + specialize (Hnp i Hi). congruence.
Qed.

(** C11. [UserMap::Map] returns false exactly when no aligned range is free;
    otherwise it takes the lowest one, maps each of its pages to the physical
    range with user permissions, and leaves the rest of the user half alone.
    No address of the range is free afterwards and every other free address
    still is; what else the list then holds is [taken]: nothing, and the list
    keeps its invariant, unless the range was a proper prefix of its region,
    whose node moves without shrinking. *)
Theorem UserMap_Map_correct s root T l phys d n attr :
  let size := mkSize (span d) (Z.of_nat n) in
  let entry := phys .| PageTable.CalcMask (span d) false attr in
  pt_state s root T → UserMapLock ∉ s.(held) → fl_inv l → 1 ≤ d ≤ 3 → (0 < n)%nat →
  0 ≤ entry → entry + Z.of_nat n * span d < 2 ^ 64 → (d = 3 ∨ huge entry = true) →
  Z.of_nat n * span d ≤ 2 ^ 47 →
  (∀ a, is_free l a → user_addr a ∧ a + 1 < 2 ^ 64 ∧ present (leaf4 s.(mem) root a).2 = false) →
  (∀ s', heap_step (set_held (UserMapLock :: s.(held)) s) s' →
     (n * 3 ≤ avail s'.(alloc))%nat) →
  ∃ r l' s' T', UserMap.Map root l phys size attr s = Ok ((r, l'), s')
    ∧ pt_state s' root T' ∧ same_cpu s s' ∧
    match r with
    | None => l' = l ∧ ∀ b, b mod span d = 0 → ¬ range_free l b (b + span d * Z.of_nat n)
    | Some a => a mod span d = 0 ∧ range_free l a (a + span d * Z.of_nat n)
        ∧ (∀ b, b mod span d = 0 → range_free l b (b + span d * Z.of_nat n) → a ≤ b)
        ∧ (∀ x, a ≤ x < a + span d * Z.of_nat n → ¬ is_free l' x)
        ∧ (∀ x, is_free l x → ¬ a ≤ x < a + span d * Z.of_nat n → is_free l' x)
        ∧ taken l l' (FreeList.mkRegion a (span d * Z.of_nat n))
        ∧ (∀ w i, 0 ≤ i < Z.of_nat n → covers (a + i * span d) d w →
             translate s'.(mem) root w =
             if canonical w then leaf_frame (d, entry + i * span d) w else None)
        ∧ (∀ w, user_addr w → (∀ i, 0 ≤ i < Z.of_nat n → ¬ covers (a + i * span d) d w) →
             translate s'.(mem) root w = translate s.(mem) root w)
    end.
Proof.
  intros size entry Hps Hlock Hl Hd Hn He0 He1 Hhuge Hlen Hfree Hav.
  set (s1 := set_held (UserMapLock :: s.(held)) s).
  assert (Hps1 : pt_state s1 root T) by (by apply pt_state_held).
  pose proof (span_pos d ltac:(lia)) as Hsp.
  assert (span d ≤ 2 ^ 30) as Hsp2 by (unfold span; apply Z.pow_le_mono_r; lia).
  destruct (run_Alloc l (span d) (Z.of_nat n) s1 Hl (ps_noncritical _ _ _ Hps1))
    as (a & l' & s2 & Hr & Hs & Hz & Hnz); [lia|nia|nia|].
  destruct (heap_tables s1 s2 root T Hs Hps1) as (T2 & Hps2 & Hcpu2 & Hleaf).
  pose proof (λ T' s', run_user_Map root T T' l phys size attr s a l' s2 s' Hps Hlock Hr) as Hrun.
  destruct (Z.eqb_spec a 0) as [->|Ha].
  { destruct (Hrun T2 s2 eq_refl Hps2 Hcpu2) as (? & ? & ?). destruct (Hz eq_refl) as [-> Hno].
    by exists None, l, (set_held s.(held) s2), T2. }
  destruct (Hnz Ha) as (Hmod & Hrange & Hleast & Htaken).
  assert (Hpage : ∀ i, 0 ≤ i < Z.of_nat n → is_free l (a + i * span d)) by (intros i Hi; apply Hrange; nia).
  assert (Hlast : is_free l (a + span d * Z.of_nat n - 1)) by (apply Hrange; nia).
  destruct (Hfree a) as ((Hke & _ & _) & _ & _); [apply Hrange; nia|].
  pose proof Hke as Hke'. unfold PageTable.KernelEnd in Hke'. apply Hfree in Hlast as (_ & ? & _).
  destruct (taken_free l l' (FreeList.mkRegion a (span d * Z.of_nat n)) Hl) as [Hgone Hrest];
    [unfold region_wf, rend; cbn; nia|done|].
  destruct (run_user_SetList root d n a entry s2 T2 Hps2 Hd) as (c & s3 & T' & Hset & [Hps' Hcpu' _ Hh He _ _]).
  { split; [done|lia|lia|lia| |done]. intros i Hi. by apply (Hfree _ (Hpage i Hi)). }
  { by apply Hav. }
  { intros i Hi. destruct (Hfree _ (Hpage i Hi)) as ((_ & ? & ?) & _ & Hnp). by rewrite Hleaf. }
  destruct (Hrun T' s3) as (Hmap & Hps3 & Hcpu3); [by eauto|done|by etrans|].
  exists (Some a), l', (set_held s.(held) s3), T'.
  split_and!; [done|done|done|done|done|done|exact Hgone|exact Hrest|done| |].
  - intros w i Hi Hc. cbn [mem set_held]. by rewrite (pt_translate _ _ _ _ Hps'), (Hh w i).
  - intros w Hw Hc. cbn [mem set_held]. transitivity (translate s2.(mem) root w).
    + apply (keep_translate d s2 s3 root T2 T' w Hps2 Hps'). apply He; [apply Hw|done].
    + destruct Hw as (_ & ? & ?).
      by rewrite (pt_translate _ _ _ _ Hps2), (pt_translate _ _ _ _ Hps), Hleaf.
Qed.
End Props.

(** ** Access from the kernel *)

Section Copy.
Context {A : Type} `{AnsaMemcpy A}.

(** The copy routines reach [Memcpy] only for a range that lies above the
    kernel's part and does not wrap around; any other range goes to the page
    fault delegate, or panics without one. *)
Lemma UserMap_copy_guard delegate dest start size (s : machine A) :
  is_u64 start → is_u64 size →
  UserMap.CopyToKernel delegate dest start size s =
    (if (PageTable.KernelEnd <=? start) && (start + size <? 2 ^ 64)
     then Memcpy dest start size s
     else match delegate with
          | None => Stop (Panic "UserMap::CopyToKernel() - page fault with no delegate")
          | Some fault => fault start false s
          end)
  ∧ UserMap.CopyFromKernel delegate start dest size s =
    (if (PageTable.KernelEnd <=? start) && (start + size <? 2 ^ 64)
     then Memcpy start dest size s
     else match delegate with
          | None => Stop (Panic "UserMap::CopyFromKernel() - page fault with no delegate")
          | Some fault => fault start true s
          end).
Proof.
  unfold is_u64. intros Hs Hz. unfold UserMap.CopyToKernel, UserMap.CopyFromKernel.
  assert (Hc : (start +u size <? start) || (start <? PageTable.KernelEnd)
    = negb ((PageTable.KernelEnd <=? start) && (start + size <? 2 ^ 64))).
  { rewrite negb_andb, <-Z.ltb_antisym, <-Z.leb_antisym, orb_comm. f_equal.
    destruct (Z.leb_spec (2 ^ 64) (start + size)).
    - rewrite u64_wrap by lia. apply Z.ltb_lt. lia.
    - rewrite u64_small by (unfold is_u64; lia). apply Z.ltb_ge. lia. }
  rewrite Hc. destruct ((_ <=? start) && _); cbn [negb]; by destruct delegate.
Qed.
End Copy.

(** ** Examples *)

Section Witness.
#[local] Existing Instance ample_heap.
#[local] Existing Instance ample_heap_laws.

#[local] Instance ample_heap_tables : HeapTables PageSet.
Proof. constructor. intros s s' root T <- Hps. by exists T. Qed.

Lemma boot_leaf a : idx a 0 ≠ 511 → leaf4 boot_machine.(mem) 0x1000 a = (0, 0).
Proof.
  intros Ha. unfold leaf4. rewrite leaf_unfold. cbn zeta.
  assert (read64 boot_machine.(mem) (0x1000 + 8 * idx a 0) = 0) as ->; [|done].
  unfold read64, boot_machine. cbn [mem].
  rewrite lookup_singleton_ne; [done|]. pose proof (idx_range a 0). lia.
Qed.

Definition user_list : list FreeList.Region := [FreeList.mkRegion 0x8000000000 0x10000].

Lemma UserMap_initial_free_witness :
  ∃ l s', UserMap.initial_free boot_machine = Ok (l, s')
    ∧ l = [FreeList.mkRegion 0x8000000000 0x7F8000000000;
           FreeList.mkRegion 0xFFFF800000000000 0x7F800000000].
Proof.
  destruct (UserMap_initial_free boot_machine) as (l & s' & Hr & _); [by right|].
  vm_compute in Hr. injection Hr as <- <-. eexists _, _. split; [vm_compute; reflexivity|reflexivity].
Defined.

Lemma UserMap_Map_correct_witness :
  ∃ l' s', UserMap.Map 0x1000 user_list 0x70000 (mkSize 0x1000 2) default_attributes boot_machine
      = Ok ((Some 0x8000000000, l'), s')
    ∧ ¬ is_free l' 0x8000000000 ∧ ¬ is_free l' 0x8000001fff ∧ is_free l' 0x8000002000
    ∧ translate s'.(mem) 0x1000 0x8000001234 = Some 0x71234.
Proof.
  destruct (UserMap_Map_correct boot_machine 0x1000 _ user_list 0x70000 3 2 default_attributes
    boot_state) as (r & l' & s' & T' & Hr & _ & _ & Hpost).
  - apply not_elem_of_nil.
  - unfold fl_inv, user_list. cbn [sep]. unfold region_wf, rend. cbn. lia.
  - lia.
  - lia.
  - vm_compute. discriminate.
  - vm_compute. reflexivity.
  - by left.
  - vm_compute. discriminate.
  - intros a (x & Hx & Ha). apply list_elem_of_singleton in Hx as ->.
    unfold in_region, rend in Ha. cbn in Ha.
    assert (idx a 0 = 1) as Hi by (unfold idx, span; eval_pow; zlia).
    rewrite boot_leaf by lia. unfold user_addr, PageTable.KernelEnd. rewrite Hi.
    split_and!; lia || done.
  - intros s' <-. vm_compute. lia.
  - assert (r = Some 0x8000000000) as -> by (vm_compute in Hr; congruence).
    destruct Hpost as (_ & _ & _ & Hgone & Hrest & _ & Hmap & _).
    exists l', s'. split; [exact Hr|].
    split; [apply Hgone; split; [lia|by vm_compute]|].
    split; [apply Hgone; split; [lia|by vm_compute]|].
    split.
    { apply Hrest; [exists (FreeList.mkRegion 0x8000000000 0x10000); split; [by left|]|].
      - unfold in_region, rend. cbn. lia.
      - intros [_ Hlt]. vm_compute in Hlt. discriminate. }
    rewrite (Hmap 0x8000001234 1); [by vm_compute|lia|].
    unfold covers. vm_compute. intuition discriminate.
Defined.

#[local] Instance fill_memcpy : AnsaMemcpy unit := {| Memcpy _ _ _ := mret tt |}.

Lemma UserMap_copy_guard_witness :
  UserMap.CopyToKernel None 0x1000 0x7fffffffff 0x10 idle
    = Stop (Panic "UserMap::CopyToKernel() - page fault with no delegate").
Proof.
  destruct (UserMap_copy_guard None 0x1000 0x7fffffffff 0x10 idle) as [Hc _];
    [by vm_compute|by vm_compute|].
  exact Hc.
Defined.
End Witness.
