(* ===== verification/Regions.v ===== *)
(** * Physical memory regions and the boot-time allocator

    [RegionList] (src/arch/x64/public/region-list.cpp), the reading of the
    Multiboot memory map (multiboot-region-list.cpp) and [StepAllocator]
    (src/arch/x64/pmm/step-allocator.cpp).  [ANAlloc::Region] and
    [ANAlloc::FixedRegionList] belong to another library: they are
    interfaces. *)

From stdpp Require Import base numbers list gmap strings sorting.
From Stdlib Require Import ZArith Lia.
From S2P Require Import Prelude.
#[local] Open Scope Z_scope.

(** ** analloc2 *)

Class AnallocRegion (R : Type) := {
  RegionNew : Z → Z → R;       (* start, size *)
  GetStart : R → Z;
  GetSize : R → Z;
  GetEnd : R → Z;
  RegionContains : R → Z → bool;
}.

Class RegionLaws (R : Type) `{AnallocRegion R} := {
  start_new : ∀ a n, GetStart (RegionNew a n) = a;
  size_new : ∀ a n, GetSize (RegionNew a n) = n;
  end_eq : ∀ r, GetEnd r = GetStart r + GetSize r;
  contains_iff : ∀ r a, RegionContains r a = true ↔ GetStart r ≤ a < GetEnd r;
}.

(** [ANAlloc::FixedRegionList<8>]; [Insert] fails on a full list. *)
Class AnallocRegionList (L R : Type) := {
  ListNew : L;
  GetCount : L → Z;
  At : L → Z → R;
  Insert : L → R → Z → option L;
}.

Class RegionListLaws (L R : Type) `{AnallocRegionList L R} := {
  items : L → list R;
  items_new : items ListNew = [];
  count_items : ∀ l, GetCount l = Z.of_nat (length (items l));
  at_items : ∀ l (i : nat) r, items l !! i = Some r → At l (Z.of_nat i) = r;
  insert_full : ∀ l r i, (8 ≤ length (items l))%nat → Insert l r i = None;
  insert_items : ∀ l r (i : nat), (length (items l) < 8)%nat → (i ≤ length (items l))%nat →
    ∃ l', Insert l r (Z.of_nat i) = Some l' ∧ items l' = take i (items l) ++ r :: drop i (items l);
}.

(** ** RegionList *)

Module RegionList.
Section Ops.
Context {L R : Type} `{AnallocRegion R, AnallocRegionList L R}.

(** [for (i = 0; i < l.GetCount(); i++) if (test(l[i])) return &l[i];] *)
Fixpoint search (n : nat) (l : L) (i : Z) (test : R → bool) : option R :=
  match n with
  | O => None
  | S n' => if test (At l i) then Some (At l i) else search n' l (i + 1) test
  end.

Definition search_both (lower upper : L) (test : R → bool) : option R :=
  match search (Z.to_nat (GetCount lower)) lower 0 test with
  | Some r => Some r
  | None => search (Z.to_nat (GetCount upper)) upper 0 test
  end.

Definition FindRegion (lower upper : L) (addr : Z) : option R :=
  search_both lower upper (λ r, RegionContains r addr).

Definition NextRegion (lower upper : L) (reg : R) : option R :=
  search_both lower upper (λ r, GetStart reg <? GetStart r).
End Ops.
End RegionList.

(** ** MultibootRegionList *)

Module Multiboot.
Section Ops.
Context {L R : Type} `{AnallocRegion R, AnallocRegionList L R}.

Record lists : Type := mkLists { lowerRegions : L; upperRegions : L }.

(** The loop that looks for the insertion index. *)
Fixpoint insert_index (n : nat) (l : L) (i : Z) (start : Z) : Z :=
  match n with
  | O => GetCount l
  | S n' => if start <? GetStart (At l i) then i else insert_index n' l (i + 1) start
  end.

Definition insert_in (l : L) (region : R) : outcome L :=
  match Insert l region (insert_index (Z.to_nat (GetCount l)) l 0 (GetStart region)) with
  | Some l' => Ok l'
  | None => Stop (Panic "MultibootRegionList::AddRegion() - region overflow")
  end.

Definition AddRegion (ls : lists) (region : R) : outcome lists :=
  if GetStart region <? 0x100000000 then
    match insert_in ls.(lowerRegions) region with
    | Ok l => Ok (mkLists l ls.(upperRegions))
    | Stop f => Stop f
    end
  else
    match insert_in ls.(upperRegions) region with
    | Ok l => Ok (mkLists ls.(lowerRegions) l)
    | Stop f => Stop f
    end.

(** The body of the loop for an entry of the map. *)
Definition add_entry (ls : lists) (base_addr length type : Z) : outcome lists :=
  if negb (type =? 1) then Ok ls
  else if base_addr +u length <=? 0x100000 then Ok ls
  else
    let start := if base_addr <=? 0x100000 then 0 else base_addr in
    let len := if base_addr <=? 0x100000 then length +u base_addr else length in
    if (start <? 0x100000000) && (0x100000000 <? start +u len) then
      let lowSize := 0x100000000 - start in
      match AddRegion ls (RegionNew start lowSize) with
      | Ok ls => AddRegion ls (RegionNew 0x100000000 (len -u lowSize))
      | Stop f => Stop f
      end
    else AddRegion ls (RegionNew start len).

(** Little-endian loads from the memory the boot loader left. *)
Context (byte : Z → Z).
Fixpoint load (n : nat) (a : Z) : Z :=
  match n with O => 0 | S n' => byte a + 256 * load n' (a + 1) end.

(** The loop over the entries, packed as size (4 bytes), base (8), length (8),
    type (4); one entry per unit of fuel. *)
Fixpoint mmap_loop (fuel : nat) (info mmapLen : Z) (ls : lists) : outcome lists :=
  if 0 <? mmapLen then
    match fuel with
    | O => Stop OutOfFuel
    | S fuel' =>
        let size := load 4 info in
        match add_entry ls (load 8 (info + 4)) (load 8 (info + 12)) (load 4 (info + 20)) with
        | Ok ls => mmap_loop fuel' (info +u size +u 4) (u32 (mmapLen - u32 (size + 4))) ls
        | Stop f => Stop f
        end
    end
  else Ok ls.

(** The constructor; offsets of [mmap_length] and [mmap_addr] in the packed
    [MultibootBootInfo]. *)
Definition new (mbootPtr : Z) : outcome lists :=
  let mmapLen := load 4 (mbootPtr + 44) in
  let mmapAddr := load 4 (mbootPtr + 48) in
  if 0x100000 <? u32 (mmapAddr + mmapLen) then
    Stop (Panic "GRUB memory map is placed beyond 1MB -- might be destroyed!")
  else
    match mmap_loop (Z.to_nat mmapLen) mmapAddr mmapLen (mkLists ListNew ListNew) with
    | Ok ls =>
        if GetCount ls.(lowerRegions) =? 0 then
          Stop (Panic "MultibootRegionList::Initialize() - no lower regions found")
        else Ok ls
    | Stop f => Stop f
    end.
End Ops.
Arguments lists : clear implicits.
End Multiboot.

(** ** StepAllocator *)

Module StepAllocator.
Section Ops.
Context {L R : Type} `{AnallocRegion R, AnallocRegionList L R}.
Context (lower upper : L).

(** Round [lastAddr] up to [align], then clamp it into the region. *)
Definition place (lastAddr align : Z) (reg : R) : Z :=
  let lastAddr := if truthy (lastAddr mod align)
                  then lastAddr +u (align - lastAddr mod align) else lastAddr in
  if GetEnd reg <? lastAddr then GetEnd reg -u 1 else lastAddr.

(** The loop of [Alloc]: moves on while the request does not fit. *)
Fixpoint step_loop (fuel : nat) (reg : R) (lastAddr size align : Z) : outcome (option Z * Z) :=
  if GetEnd reg <? lastAddr +u size then
    match RegionList.NextRegion lower upper reg with
    | None => Ok (None, lastAddr)
    | Some reg' =>
        match fuel with
        | O => Stop OutOfFuel
        | S fuel' => step_loop fuel' reg' (place (GetStart reg') align reg') size align
        end
    end
  else Ok (Some lastAddr, lastAddr +u size).

(** One unit of fuel per region. *)
Definition region_fuel : nat := Z.to_nat (GetCount lower) + Z.to_nat (GetCount upper).

(** The result ([None]: false) and the new [lastAddr]. *)
Definition Alloc (size align : Z) : M Z (option Z) := λ lastAddr,
  let reg := match RegionList.FindRegion lower upper lastAddr with
             | Some r => Some r
             | None => RegionList.FindRegion lower upper (lastAddr -u 1)
             end in
  match reg with
  | None => Ok (None, lastAddr)
  | Some reg => step_loop region_fuel reg (place lastAddr align reg) size align
  end.

Definition GetLastAddress : M Z Z := get.
Definition Free (address : Z) : M Z unit := panic "StepAllocator::Free() - unsupported".
Definition Owns (address : Z) : M Z bool := panic "StepAllocator::Owns() - unsupported".
Definition Used : M Z Z := panic "StepAllocator::Used() - unsupported".
Definition Available : M Z Z := panic "StepAllocator::Available() - unsupported".
Definition Total : M Z Z := panic "StepAllocator::Total() - unsupported".
End Ops.
End StepAllocator.

(** ** Searching *)

Section Search.
Context {L R : Type} `{RegionLaws R, RegionListLaws L R}.

Lemma search_find (n : nat) l (i : nat) test :
  (i + n = length (items (R:=R) l))%nat →
  RegionList.search n l (Z.of_nat i) test = List.find test (drop i (items l)).
Proof.
  revert i. induction n as [|n IH]; intros i Hi; cbn [RegionList.search].
  { rewrite drop_ge by lia. done. }
  destruct (lookup_lt_is_Some_2 (items l) i) as [r Hr]; [lia|].
  rewrite (drop_S _ r) by done. cbn [List.find].
  rewrite (at_items l i r Hr). destruct (test r); [done|].
  replace (Z.of_nat i + 1) with (Z.of_nat (S i)) by lia. apply IH. lia.
Qed.

Lemma search_all l test :
  RegionList.search (Z.to_nat (GetCount l)) l 0 test = List.find test (items l).
Proof.
  rewrite count_items, Nat2Z.id. change 0 with (Z.of_nat 0). by apply search_find.
Qed.

(** Both searches visit the lower regions, then the upper ones. *)
Lemma search_both_find lower upper test :
  RegionList.search_both lower upper test = List.find test (items lower ++ items upper).
Proof. unfold RegionList.search_both. by rewrite !search_all, find_app. Qed.
End Search.

(** ** The Multiboot lists *)

Section MultibootProps.
Context {L R : Type} `{RegionLaws R, RegionListLaws L R}.
Abbreviation lists := (Multiboot.lists L).

Definition ascending : list R → Prop := StronglySorted (λ a b, GetStart a ≤ GetStart b).

(** Lower regions end by 4 GiB and upper ones start there; both ascend. *)
Record lists_inv (ls : lists) : Prop := {
  li_lower : ∀ r, r ∈ items ls.(Multiboot.lowerRegions) → 0 ≤ GetStart r ∧ GetEnd r ≤ 2 ^ 32;
  li_upper : ∀ r, r ∈ items ls.(Multiboot.upperRegions) → 2 ^ 32 ≤ GetStart r;
  li_lower_asc : ascending (items ls.(Multiboot.lowerRegions));
  li_upper_asc : ascending (items ls.(Multiboot.upperRegions));
}.

Lemma insert_index_spec n l (i : nat) st :
  (i + n = length (items (R:=R) l))%nat →
  (∀ j r, (j < i)%nat → items l !! j = Some r → GetStart r ≤ st) →
  ∃ k : nat, Multiboot.insert_index n l (Z.of_nat i) st = Z.of_nat k
    ∧ (k ≤ length (items l))%nat
    ∧ (∀ j r, (j < k)%nat → items l !! j = Some r → GetStart r ≤ st)
    ∧ (∀ r, items l !! k = Some r → st < GetStart r).
Proof.
  revert i. induction n as [|n IH]; intros i Hi Hbelow; cbn [Multiboot.insert_index].
  { exists (length (items l)). rewrite count_items. split_and!; [done|lia| |].
    - intros j r Hj. apply Hbelow. lia.
    - intros r Hr%lookup_lt_Some. lia. }
  destruct (lookup_lt_is_Some_2 (items l) i) as [r Hr]; [lia|].
  rewrite (at_items l i r Hr). destruct (Z.ltb_spec st (GetStart r)).
  - exists i. split_and!; [done|lia|done|]. intros r' Hr'. congruence.
  - replace (Z.of_nat i + 1) with (Z.of_nat (S i)) by lia. apply IH; [lia|].
    intros j r' Hj Hr'. destruct (decide (j = i)) as [->|]; [congruence|].
    apply (Hbelow j); [lia|done].
Qed.

Lemma insert_in_spec l r l' :
  ascending (items l) → Multiboot.insert_in l r = Ok l' →
  ascending (items l') ∧ (∀ x, x ∈ items l' ↔ x = r ∨ x ∈ items l)
  ∧ (length (items (R:=R) l) < 8)%nat.
Proof.
  intros Hs. unfold Multiboot.insert_in. rewrite count_items, Nat2Z.id.
  destruct (insert_index_spec (length (items l)) l 0 (GetStart r)) as (k & Hk & Hle & Hlo & Hhi);
    [done|intros; lia|]. change (Z.of_nat 0) with 0 in Hk. rewrite Hk.
  destruct (decide (length (items l) < 8)%nat) as [Hlt|Hge].
  2:{ rewrite insert_full by lia. done. }
  destruct (insert_items l r k Hlt Hle) as (l2 & -> & Hitems). intros [= <-]. rewrite Hitems.
  split_and!; [| |done].
  - rewrite <-(take_drop k (items l)) in Hs. apply StronglySorted_app in Hs as (Hc & Hs1 & Hs2).
    apply StronglySorted_app_2; [|done|].
    + intros x y Hx [->|Hy]%elem_of_cons; [|by apply Hc].
      apply list_elem_of_lookup in Hx as [j Hj]. apply lookup_take_Some in Hj as [Hj ?].
      by eapply Hlo.
    + constructor; [done|]. apply Forall_forall. intros y Hy.
      apply list_elem_of_lookup in Hy as [j Hj]. rewrite lookup_drop in Hj.
      destruct (items l !! k) as [z|] eqn:Hz.
      2:{ apply lookup_ge_None in Hz. apply lookup_lt_Some in Hj. lia. }
      pose proof (Hhi z eq_refl). transitivity (GetStart z); [lia|].
      rewrite (drop_S _ z) in Hs2 by done. apply StronglySorted_inv in Hs2 as [_ Hall].
      destruct j as [|j]; [rewrite Nat.add_0_r in Hj; by simplify_eq|].
      rewrite Forall_forall in Hall. apply Hall.
      apply list_elem_of_lookup. exists j. rewrite lookup_drop, <-Hj. f_equal. lia.
  - intros x. rewrite <-(take_drop k (items l)) at 3. rewrite !elem_of_app, elem_of_cons. tauto.
Qed.

Lemma AddRegion_inv ls r ls' :
  lists_inv ls → (GetStart r < 2 ^ 32 → 0 ≤ GetStart r ∧ GetEnd r ≤ 2 ^ 32) →
  Multiboot.AddRegion ls r = Ok ls' → lists_inv ls'.
Proof.
  intros [Hl Hu Hal Hau] Hr. unfold Multiboot.AddRegion.
  destruct (Z.ltb_spec (GetStart r) 0x100000000).
  - destruct (Multiboot.insert_in _ r) as [l|] eqn:E; [|done]. intros [= <-].
    destruct (insert_in_spec _ _ _ Hal E) as (Ha & Hm & _). split; cbn; try done.
    intros x [->|Hx]%Hm; [apply Hr; lia|by apply Hl].
  - destruct (Multiboot.insert_in _ r) as [l|] eqn:E; [|done]. intros [= <-].
    destruct (insert_in_spec _ _ _ Hau E) as (Ha & Hm & _). split; cbn; try done.
    intros x [->|Hx]%Hm; [lia|by apply Hu].
Qed.

Lemma add_entry_inv ls base len ty ls' :
  lists_inv ls → 0 ≤ base → 0 ≤ len → base + len < 2 ^ 64 →
  Multiboot.add_entry ls base len ty = Ok ls' → lists_inv ls'.
Proof.
  intros Hi Hb Hl Hlt. unfold Multiboot.add_entry.
  destruct (negb (ty =? 1)); [by intros [= <-]|].
  rewrite (u64_small (base + len)) by (unfold is_u64; lia).
  destruct (Z.leb_spec (base + len) 0x100000); [by intros [= <-]|].
  set (start := if base <=? 0x100000 then 0 else base).
  set (n := if base <=? 0x100000 then len +u base else len).
  assert (Hsn : 0 ≤ start ∧ 0 ≤ n ∧ start + n = base + len).
  { unfold start, n. destruct (Z.leb_spec base 0x100000); [|lia].
    rewrite u64_small by (unfold is_u64; lia). lia. }
  rewrite (u64_small (start + n)) by (unfold is_u64; lia).
  destruct (Z.ltb_spec start 0x100000000), (Z.ltb_spec 0x100000000 (start + n)); cbn [andb];
    try (apply AddRegion_inv; [done|]; rewrite end_eq, start_new, size_new; lia).
  destruct (Multiboot.AddRegion ls _) as [ls1|] eqn:E; [|done].
  apply AddRegion_inv.
  - eapply AddRegion_inv; [exact Hi| |exact E]. rewrite end_eq, start_new, size_new. lia.
  - rewrite start_new. lia.
Qed.

Lemma add_entry_stops ls base len ty f :
  Multiboot.add_entry ls base len ty = Stop f → ∃ msg, f = Panic msg.
Proof.
  assert (Ha : ∀ ls r f, Multiboot.AddRegion (L:=L) (R:=R) ls r = Stop f → ∃ msg, f = Panic msg).
  { intros l r g. unfold Multiboot.AddRegion, Multiboot.insert_in. repeat case_match; intros; simplify_eq; eauto. }
  unfold Multiboot.add_entry. repeat case_match; intros; simplify_eq; eauto.
Qed.

(** The entry the loop stands at, with the bytes left, from the first one. *)
Inductive map_entry (byte : Z → Z) (info len : Z) : Z → Z → Prop :=
  | map_first : map_entry byte info len info len
  | map_next a n : map_entry byte info len a n → 0 < n →
      map_entry byte info len (a +u Multiboot.load byte 4 a +u 4)
        (u32 (n - u32 (Multiboot.load byte 4 a + 4))).

(** A map as the boot loader writes it: every entry fits in the bytes left and
    describes a range that does not wrap around. *)
Definition good_map (byte : Z → Z) (info len : Z) : Prop :=
  ∀ a n, map_entry byte info len a n → 0 < n →
    Multiboot.load byte 4 a + 4 ≤ n
    ∧ Multiboot.load byte 8 (a + 4) + Multiboot.load byte 8 (a + 12) < 2 ^ 64.

Lemma run_mmap_loop byte info len :
  (∀ a n, 0 ≤ Multiboot.load byte n a) → good_map byte info len → len < 2 ^ 32 →
  ∀ fuel a n ls, map_entry byte info len a n → n ≤ Z.of_nat fuel → n ≤ len → lists_inv ls →
    match Multiboot.mmap_loop byte fuel a n ls with
    | Ok ls' => lists_inv ls'
    | Stop f => ∃ msg, f = Panic msg
    end.
Proof.
  intros Hpos Hgood Hlen. induction fuel as [|fuel IH]; intros a n ls Ha Hf Hn Hi;
    cbn [Multiboot.mmap_loop]; (destruct (Z.ltb_spec 0 n); [|done]); [lia|].
  destruct (Hgood a n Ha ltac:(done)) as [Hfit Hent].
  destruct (Multiboot.add_entry _ _ _ _) as [l2|f] eqn:E; [|by eapply add_entry_stops].
  pose proof (Hpos a 4%nat).
  apply IH; [by apply map_next| | |].
  1,2: unfold u32; rewrite !(Z.mod_small _ (2 ^ 32)); rewrite ?(Z.mod_small (_ + 4)); lia.
  eapply add_entry_inv; [exact Hi|apply Hpos|apply Hpos|exact Hent|exact E].
Qed.

(** From a memory map that the boot loader filled in, the constructor ends:
    either it panics, or the region lists come out in ascending order, every
    lower region ends by 4 GiB and every upper region starts at or above it,
    however the map's entries lie across that border; and there is a lower
    region. *)
Lemma Multiboot_lists_correct byte ptr :
  (∀ a n, 0 ≤ Multiboot.load byte n a) →
  Multiboot.load byte 4 (ptr + 44) < 2 ^ 32 →
  good_map byte (Multiboot.load byte 4 (ptr + 48)) (Multiboot.load byte 4 (ptr + 44)) →
  match Multiboot.new (L:=L) (R:=R) byte ptr with
  | Ok ls => lists_inv ls ∧ items ls.(Multiboot.lowerRegions) ≠ []
  | Stop f => ∃ msg, f = Panic msg
  end.
Proof.
  intros Hpos Hlen Hgood. unfold Multiboot.new. destruct (_ <? _); [by eexists|].
  assert (Hinit : lists_inv (Multiboot.mkLists (ListNew : L) ListNew))
    by (split; cbn; rewrite items_new; try (by intros r ?%not_elem_of_nil); constructor).
  pose proof (run_mmap_loop byte _ _ Hpos Hgood Hlen (Z.to_nat (Multiboot.load byte 4 (ptr + 44)))
    _ _ _ (map_first _ _ _) ltac:(specialize (Hpos (ptr + 44) 4%nat); lia) ltac:(lia) Hinit) as Hrun.
  destruct (Multiboot.mmap_loop _ _ _ _ _) as [l|f] eqn:E; [|done].
  destruct (Z.eqb_spec (GetCount (Multiboot.lowerRegions l)) 0) as [|Hne]; [by eexists|].
  split; [done|]. intros Hnil. rewrite count_items, Hnil in Hne. done.
Qed.
End MultibootProps.

(** ** The step allocator *)

Section StepProps.
Context {L R : Type} `{RegionLaws R, RegionListLaws L R}.
Context (lower upper : L).

Definition all_regions : list R := items lower ++ items upper.

(** Regions in ascending order that do not overlap, with room above the last
    one for a request of [slack] bytes. *)
Record good_regions (slack : Z) : Prop := {
  rg_pos : ∀ r, r ∈ all_regions → 0 ≤ GetStart r < GetEnd r ∧ GetEnd r + slack < 2 ^ 64;
  rg_apart : StronglySorted (λ a b, GetEnd a ≤ GetStart b) all_regions;
}.

Lemma ascending_starts slack l1 r l2 x :
  good_regions slack → all_regions = l1 ++ r :: l2 →
  (x ∈ l1 → GetStart x < GetStart r) ∧ (x ∈ l2 → GetEnd r ≤ GetStart x).
Proof.
  intros [Hpos Hs] Hall. rewrite Hall in Hs, Hpos.
  apply StronglySorted_app in Hs as (Hc & _ & Hr).
  apply StronglySorted_inv in Hr as [_ Hr]. rewrite Forall_forall in Hr. split.
  - intros Hx. assert (GetEnd x ≤ GetStart r) by (apply Hc; [done|by left]).
    destruct (Hpos x); [apply elem_of_app; by left|lia].
  - by apply Hr.
Qed.

Lemma NextRegion_spec slack l1 r l2 :
  good_regions slack → all_regions = l1 ++ r :: l2 →
  RegionList.NextRegion lower upper r = head l2.
Proof.
  intros Hg Hall. unfold RegionList.NextRegion. rewrite search_both_find.
  change (items lower ++ items upper) with all_regions. rewrite Hall, find_app.
  assert (Hl1 : List.find (λ x, GetStart r <? GetStart x) l1 = None).
  { destruct (List.find _ l1) as [x|] eqn:E; [|done].
    apply List.find_some in E as [Hx Hlt%Z.ltb_lt]. apply list_elem_of_In in Hx.
    pose proof (proj1 (ascending_starts _ _ _ _ x Hg Hall) Hx). lia. }
  rewrite Hl1. cbn [List.find]. rewrite Z.ltb_irrefl.
  destruct l2 as [|y l2]; [done|]. cbn [List.find head].
  assert (GetEnd r ≤ GetStart y) by (apply (ascending_starts _ _ _ _ y Hg Hall); by left).
  destruct (rg_pos _ Hg r) as [? _]; [rewrite Hall; apply elem_of_app; right; by left|].
  destruct (Z.ltb_spec (GetStart r) (GetStart y)); [done|lia].
Qed.

(** Where [place] puts the next address of a region. *)
Lemma place_spec slack r x align :
  good_regions slack → r ∈ all_regions → 0 < align ≤ slack → 0 ≤ x ≤ GetEnd r →
  let y := StepAllocator.place x align r in
  (x ≤ y < 2 ^ 64 - 1 ∧ y ≤ GetEnd r ∧ y mod align = 0 ∨ y = GetEnd r - 1)
  ∧ ∀ a, a mod align = 0 → x ≤ a ≤ GetEnd r → y ≤ a.
Proof.
  intros Hg Hr Hal Hx. destruct (rg_pos _ Hg r Hr) as [? ?].
  pose proof (Z.mod_pos_bound x align ltac:(lia)). pose proof (Z.div_mod x align ltac:(lia)) as Hd.
  unfold StepAllocator.place.
  set (z := if truthy (x mod align) then x +u (align - x mod align) else x).
  assert (Hz : x ≤ z ≤ x + align ∧ z mod align = 0).
  { unfold z. destruct (truthy _) eqn:E; [apply truthy_true in E|apply truthy_false in E].
    - rewrite u64_small by (unfold is_u64; lia). split; [lia|].
      replace (x + (align - x mod align)) with ((x / align + 1) * align) by lia.
      by apply Z_mod_mult.
    - split; [lia|done]. }
  assert (Hmin : ∀ a, a mod align = 0 → x ≤ a → z ≤ a).
  { intros a Ha Hxa. pose proof (Z.div_mod a align ltac:(lia)).
    pose proof (Z.div_mod z align ltac:(lia)). destruct Hz as [_ Hz].
    assert (z - align < x); [|assert (z / align ≤ a / align) by nia; nia].
    unfold z. destruct (truthy _) eqn:E; [apply truthy_true in E|lia].
    rewrite u64_small by (unfold is_u64; lia). lia. }
  destruct (Z.ltb_spec (GetEnd r) z); (split; [|intros a Ha Hxa; specialize (Hmin a Ha); lia]).
  - right. rewrite u64_small by (unfold is_u64; lia). done.
  - left. split_and!; lia || apply Hz.
Qed.

(** No aligned range of [size] bytes of [r] starts at or above [lo]. *)
Definition no_room (lo size align : Z) (r : R) : Prop :=
  ∀ a, a mod align = 0 → lo ≤ a → GetStart r ≤ a → GetEnd r < a + size.

(** What a call answers for a request at or above [lo]. *)
Definition step_post (lo size align : Z) (r : outcome (option Z * Z)) : Prop :=
  ∃ res last', r = Ok (res, last') ∧
    match res with
    | Some a => a mod align = 0 ∧ lo ≤ a ∧ last' = a + size
        ∧ ∃ reg, reg ∈ all_regions ∧ GetStart reg ≤ a ∧ a + size ≤ GetEnd reg
    | None => (∃ r, r ∈ all_regions ∧ GetStart r ≤ lo ≤ GetEnd r) →
        ∀ r, r ∈ all_regions → no_room lo size align r
    end.

Lemma run_step_loop fuel slack lo l1 reg l2 x size align :
  good_regions slack → all_regions = l1 ++ reg :: l2 → (length l2 ≤ fuel)%nat →
  0 < align ≤ slack → 2 ≤ size ≤ slack → lo ≤ GetEnd reg →
  (Z.max lo (GetStart reg) ≤ x < 2 ^ 64 - 1 ∧ x ≤ GetEnd reg ∧ x mod align = 0
   ∨ x = GetEnd reg - 1) →
  (∀ a, a mod align = 0 → Z.max lo (GetStart reg) ≤ a ≤ GetEnd reg → x ≤ a) →
  (∀ r, r ∈ l1 → no_room lo size align r) →
  step_post lo size align (StepAllocator.step_loop lower upper fuel reg x size align).
Proof.
  revert l1 reg l2 x. induction fuel as [|fuel IH];
    intros l1 reg l2 x Hg Hall Hfuel Hal Hsz Hlo Hx Hmin Hprev; cbn [StepAllocator.step_loop];
    (assert (Hreg : reg ∈ all_regions) by (rewrite Hall; apply elem_of_app; right; by left));
    destruct (rg_pos _ Hg reg Hreg) as [? ?];
    rewrite u64_small by (unfold is_u64; lia);
    (destruct (Z.ltb_spec (GetEnd reg) (x + size));
     [|destruct Hx as [(? & ? & ?)|Hx]; [|lia];
       exists (Some x), (x + size); split; [done|]; split_and!; [done|lia|done|];
       exists reg; split_and!; [done|lia|lia]]);
    rewrite (NextRegion_spec _ _ _ _ Hg Hall);
    (assert (Hfull : ∀ r, r ∈ l1 ++ [reg] → no_room lo size align r)
      by (intros r [?| ->%list_elem_of_singleton]%elem_of_app; [by apply Hprev|];
          intros a Ha Hla Hsa; specialize (Hmin a Ha); lia));
    (destruct l2 as [|reg' l2]; cbn [head];
     [by exists None, x; split; [|intros _; rewrite Hall]|]); [cbn in Hfuel; lia|].
  assert (Hle : GetEnd reg ≤ GetStart reg') by (apply (ascending_starts _ _ _ _ _ Hg Hall); by left).
  assert (Hreg' : reg' ∈ all_regions)
    by (rewrite Hall; apply elem_of_app; right; right; by left).
  destruct (rg_pos _ Hg reg' Hreg') as [? ?].
  destruct (place_spec slack reg' (GetStart reg') align) as [Hy Hmin']; try done; try lia.
  apply (IH (l1 ++ [reg]) reg' l2); try done; [by rewrite <-app_assoc|cbn in Hfuel; lia|lia| |].
  - destruct Hy as [(? & ? & ?)|]; [left; lia|by right].
  - intros a Ha ?. apply Hmin'; [done|lia].
Qed.

Lemma FindRegion_some a r :
  RegionList.FindRegion lower upper a = Some r → r ∈ all_regions ∧ GetStart r ≤ a < GetEnd r.
Proof.
  unfold RegionList.FindRegion. rewrite search_both_find.
  intros [Hin Hc%contains_iff]%List.find_some. by apply list_elem_of_In in Hin.
Qed.

Lemma FindRegion_none a r :
  RegionList.FindRegion lower upper a = None → r ∈ all_regions → ¬ GetStart r ≤ a < GetEnd r.
Proof.
  unfold RegionList.FindRegion. rewrite search_both_find. intros Hf Hin%list_elem_of_In Hc.
  eapply List.find_none in Hf; [|exact Hin]. cbn in Hf. by rewrite (proj2 (contains_iff r a) Hc) in Hf.
Qed.

(** C12. [StepAllocator::Alloc] always ends; when it succeeds the range is
    aligned, lies in one region at or above the last address, and the last
    address moves to its end, so no two allocations overlap; when it fails from
    a last address in some region, no region has room for the request. *)
Theorem StepAllocator_Alloc_correct slack last size align :
  good_regions slack → 0 < align ≤ slack → 2 ≤ size ≤ slack → 1 ≤ last < 2 ^ 64 →
  step_post last size align (StepAllocator.Alloc lower upper size align last).
Proof.
  intros Hg Hal Hsz Hlast. unfold StepAllocator.Alloc.
  set (reg := match RegionList.FindRegion lower upper last with Some r => Some r | None => _ end).
  assert (Hfound : match reg with
    | Some r => r ∈ all_regions ∧ GetStart r ≤ last ≤ GetEnd r
    | None => ∀ r, r ∈ all_regions → ¬ GetStart r ≤ last ≤ GetEnd r end).
  { unfold reg. rewrite u64_small by (unfold is_u64; lia).
    destruct (RegionList.FindRegion lower upper last) as [r|] eqn:E.
    - apply FindRegion_some in E as [? ?]. split; [done|lia].
    - destruct (RegionList.FindRegion lower upper (last - 1)) as [r|] eqn:E'.
      + apply FindRegion_some in E' as [? ?]. split; [done|lia].
      + intros r Hr. pose proof (FindRegion_none _ r E Hr). pose proof (FindRegion_none _ r E' Hr).
        destruct (rg_pos _ Hg r Hr). lia. }
  destruct reg as [r|]; [|exists None, last; split; [done|]; intros (r & Hr & ?); by destruct (Hfound r)].
  destruct Hfound as [Hr Hin]. apply list_elem_of_split in Hr as Hsplit.
  destruct Hsplit as (l1 & l2 & Hall).
  destruct (place_spec slack r last align Hg Hr ltac:(lia) ltac:(lia)) as [Hy Hmin].
  eapply run_step_loop; [exact Hg|exact Hall| |done|done|lia| | |].
  - assert (length all_regions = length (items lower) + length (items upper))%nat as Hlen
      by apply length_app.
    rewrite Hall, length_app in Hlen. cbn in Hlen.
    unfold StepAllocator.region_fuel. rewrite !count_items, !Nat2Z.id. lia.
  - destruct Hy as [(? & ? & ?)|?]; [left; split_and!; [lia|lia|lia|done]|by right].
  - intros a Ha ?. apply Hmin; [done|lia].
  - intros r' Hr' a Ha Hla Hsa. destruct Hg as [Hpos Hs]. rewrite Hall in Hs.
    apply StronglySorted_app in Hs as (Hc & _ & _).
    assert (GetEnd r' ≤ GetStart r) by (apply Hc; [done|by left]). lia.
Qed.
End StepProps.

(** ** Examples *)

(** Regions as pairs and lists as lists. *)
Module Pairs.
#[export] Instance pair_region : AnallocRegion (Z * Z) := {
  RegionNew a n := (a, n); GetStart := fst; GetSize := snd;
  GetEnd r := r.1 + r.2; RegionContains r a := (r.1 <=? a) && (a <? r.1 + r.2);
}.
#[export] Instance pair_region_laws : RegionLaws (Z * Z).
Proof. split; try done. intros [a n] x. cbn. rewrite andb_true_iff, Z.leb_le, Z.ltb_lt. done. Qed.

#[export] Instance list_regions : AnallocRegionList (list (Z * Z)) (Z * Z) := {
  ListNew := []; GetCount l := Z.of_nat (length l);
  At l i := nth (Z.to_nat i) l (0, 0);
  Insert l r i := if decide (length l < 8)%nat
                  then Some (take (Z.to_nat i) l ++ r :: drop (Z.to_nat i) l) else None;
}.
#[export] Instance list_regions_laws : RegionListLaws (list (Z * Z)) (Z * Z).
Proof.
  refine {| items := λ l : list (Z * Z), l |}; try done; cbn.
  - intros l i r Hr. rewrite Nat2Z.id. by apply nth_lookup_Some.
  - intros l r i Hl. rewrite decide_False; [done|lia].
  - intros l r i Hl Hi. rewrite decide_True by done. rewrite Nat2Z.id. by eexists.
Defined.
End Pairs.

Section Witness.
Import Pairs.

(** A map of one entry: 0x200000 bytes of memory at address 0. *)
Definition boot_bytes (a : Z) : Z :=
  if a =? 44 then 24 else if a =? 49 then 0x10 else if a =? 0x1000 then 20
  else if a =? 0x100c + 2 then 0x20 else if a =? 0x1014 then 1 else 0.

Lemma boot_bytes_range a : 0 ≤ boot_bytes a ≤ 127.
Proof. unfold boot_bytes. repeat case_test; lia. Qed.

Lemma load_nonneg a n : 0 ≤ Multiboot.load boot_bytes n a.
Proof.
  revert a. induction n as [|n IH]; intros a; cbn [Multiboot.load]; [lia|].
  pose proof (boot_bytes_range a). specialize (IH (a + 1)). lia.
Qed.

Lemma Multiboot_lists_correct_witness :
  lists_inv (L:=list (Z * Z)) (Multiboot.mkLists [(0, 0x200000)] []).
Proof.
  pose proof (Multiboot_lists_correct (L:=list (Z * Z)) (R:=Z * Z) boot_bytes 0) as Hc.
  assert (Hr : Multiboot.new (L:=list (Z * Z)) (R:=Z * Z) boot_bytes 0
    = Ok (Multiboot.mkLists [(0, 0x200000)] [])) by (vm_compute; reflexivity).
  rewrite Hr in Hc. apply Hc.
  - intros a n. apply load_nonneg.
  - vm_compute. reflexivity.
  - intros a n Hm Hn.
    assert (a = 0x1000 ∧ n = 24 ∨ n = 0) as [[-> ->]|]; [|by vm_compute|lia].
    clear Hn. induction Hm as [|a n Hm [[-> ->]|] ?]; [by left|by right|lia].
Defined.

Definition two_banks : list (Z * Z) := [(0, 0x9000); (0x10000, 0x8000)].

Lemma StepAllocator_Alloc_correct_witness :
  StepAllocator.Alloc two_banks (@nil (Z * Z)) 0x2000 0x1000 0x7800 = Ok (Some 0x10000, 0x12000).
Proof.
  destruct (StepAllocator_Alloc_correct two_banks [] 0x10000 0x7800 0x2000 0x1000)
    as (res & last' & Hr & _); [|lia|lia|lia|].
  - split.
    + intros r Hr. unfold all_regions, two_banks in Hr. cbn in Hr.
      apply elem_of_cons in Hr as [->|[->|Hr%not_elem_of_nil]%elem_of_cons]; cbn; lia || done.
    + repeat constructor. cbn. lia.
  - vm_compute in Hr. injection Hr as <- <-. vm_compute. reflexivity.
Defined.
End Witness.
