(* ===== verification/Buddy.v ===== *)
(** * The buddy allocator

    BuddyAllocator (src/arch/x64/pmm/buddy-allocator.cpp), the physical
    allocator the kernel runs on: one ANAlloc cluster for memory below 4 GiB and
    one for memory above, each behind its lock.  ANAlloc's clusters and their
    builder are interfaces; the theorems show that the two clusters behind the
    4 GiB border implement one allocator of disjoint blocks. *)

From stdpp Require Import base numbers list gmap strings.
From Stdlib Require Import ZArith Lia.
From S2P Require Import Prelude Machine Concrete Regions.
#[local] Open Scope Z_scope.

(** ** ANAlloc clusters *)

(** [ANAlloc::FixedCluster<0x10>]. *)
Class AnallocCluster (C : Type) := {
  ClusterNew : C;
  Align : C → Z → Z → option (Z * C);
  ClusterFree : C → Z → C;
  ClusterReserve : C → Z → Z → C;
  OwnsAddress : C → Z → bool;
  GetFreeSize : C → Z;
}.

(** [ANAlloc::Layout] and [ANAlloc::ClusterBuilder<ANAlloc::BBTree>]: the
    descriptions of a region list, the space their trees need, and the cluster
    built in that space. *)
Class AnallocBuilder (C L D : Type) := {
  LayoutRun : L → D;
  RequiredSpace : D → Z;
  CreateAllocators : D → Z → C;
}.

Definition disjoint_from (a n : Z) (m : gmap Z Z) : Prop :=
  map_Forall (λ b k, a + n ≤ b ∨ b + k ≤ a) m.

(** What a cluster promises: [Align] returns an aligned block of addresses it
    owns, apart from every block in use; [Free] gives a block back. *)
Class ClusterLaws (C : Type) `{AnallocCluster C} := {
  cluster_ok : C → Prop;
  blocks : C → gmap Z Z;
  align_block c size align a c' : cluster_ok c → 0 < size → 0 < align →
    Align c size align = Some (a, c') →
    cluster_ok c' ∧ a mod align = 0 ∧ blocks c !! a = None
    ∧ blocks c' = <[a := size]> (blocks c) ∧ disjoint_from a size (blocks c)
    ∧ (∀ x, a ≤ x < a + size → OwnsAddress c x = true)
    ∧ (∀ x, OwnsAddress c' x = OwnsAddress c x);
  free_block c a : cluster_ok c → is_Some (blocks c !! a) →
    cluster_ok (ClusterFree c a) ∧ blocks (ClusterFree c a) = delete a (blocks c)
    ∧ (∀ x, OwnsAddress (ClusterFree c a) x = OwnsAddress c x);
}.

(** What [Reserve] of the addresses below [n] promises: no block below [n] is
    handed out any more. *)
Class ReserveLaws (C : Type) `{ClusterLaws C} := {
  starts_at : C → Z → Prop;
  reserve_block c n : cluster_ok c → 0 ≤ n →
    cluster_ok (ClusterReserve c 0 n) ∧ blocks (ClusterReserve c 0 n) = blocks c
    ∧ (∀ x, OwnsAddress (ClusterReserve c 0 n) x = OwnsAddress c x)
    ∧ starts_at (ClusterReserve c 0 n) n;
  starts_align c n size align a c' : starts_at c n → 0 < size → 0 < align →
    Align c size align = Some (a, c') → n ≤ a ∧ starts_at c' n;
  starts_free c n a : starts_at c n → starts_at (ClusterFree c a) n;
}.

(** A new cluster has no block in use and owns addresses of its regions only. *)
Class BuilderLaws (C L D R : Type) `{AnallocBuilder C L D, ClusterLaws C, RegionListLaws L R,
    !AnallocRegion R} := {
  create_ok l a : cluster_ok (CreateAllocators (LayoutRun l : D) a);
  create_empty l a : blocks (CreateAllocators (LayoutRun l : D) a) = ∅;
  create_owns l a x : OwnsAddress (CreateAllocators (LayoutRun l : D) a) x = true →
    ∃ r, r ∈ items l ∧ GetStart r ≤ x < GetEnd r;
}.

(** ** BuddyAllocator *)

Module BuddyAllocator.
Section Ops.
Context {C : Type} `{AnallocCluster C}.

Record buddy : Type := mkBuddy {
  lower : C;
  upper : C;
  hasUpper : bool;
  hasLower : bool;
  totalSpace : Z;
}.

Definition set_lower (c : C) (b : buddy) : buddy :=
  mkBuddy c b.(upper) b.(hasUpper) b.(hasLower) b.(totalSpace).
Definition set_upper (c : C) (b : buddy) : buddy :=
  mkBuddy b.(lower) c b.(hasUpper) b.(hasLower) b.(totalSpace).

Section Methods.
Context `{AnsaLock buddy}.
Abbreviation method := (M (machine buddy)).

Definition this : method buddy := gets alloc.
Definition update (f : buddy → buddy) : method unit := modify (λ s, set_alloc (f s.(alloc)) s).

Definition Reserve (lastAddr : Z) : method unit :=
  b ← this;
  _ ← (if b.(hasLower) then update (set_lower (ClusterReserve b.(lower) 0 lastAddr)) else mret tt);
  if b.(hasUpper) then update (set_upper (ClusterReserve b.(upper) 0 lastAddr)) else mret tt.

Definition AllocLower (size align : Z) : method (option Z) :=
  _ ← AssertNoncritical;
  b ← this;
  if negb b.(hasLower) then mret None
  else
    ScopedLock LowerLock (
      b ← this;
      match Align b.(lower) size align with
      | None => mret None
      | Some (result, c) => _ ← update (set_lower c); mret (Some result)
      end).

Definition Alloc (size align : Z) : method (option Z) :=
  _ ← AssertNoncritical;
  b ← this;
  r ← (if b.(hasUpper) then
         ScopedLock UpperLock (
           b ← this;
           match Align b.(upper) size align with
           | None => mret None
           | Some (result, c) => _ ← update (set_upper c); mret (Some result)
           end)
       else mret None);
  match r with
  | Some result => mret (Some result)
  | None => AllocLower size align
  end.

Definition Free (address : Z) : method unit :=
  _ ← AssertNoncritical;
  if 0x100000000 <=? address then
    ScopedLock UpperLock (
      b ← this; update (set_upper (ClusterFree b.(upper) address)))
  else
    ScopedLock LowerLock (
      b ← this; update (set_lower (ClusterFree b.(lower) address))).

Definition Owns (address : Z) : method bool :=
  b ← this;
  if b.(hasUpper) && OwnsAddress b.(upper) address then mret true
  else if b.(hasLower) then mret (OwnsAddress b.(lower) address)
  else mret false.

Definition Available : method Z :=
  _ ← AssertNoncritical;
  b ← this;
  available ← (if b.(hasUpper) then
                 ScopedLock UpperLock (b ← this; mret (0 +u GetFreeSize b.(upper)))
               else mret 0);
  if b.(hasLower) then
    ScopedLock LowerLock (b ← this; mret (available +u GetFreeSize b.(lower)))
  else mret available.

Definition Used : method Z :=
  _ ← AssertNoncritical;
  b ← this;
  available ← Available;
  mret (b.(totalSpace) -u available).

Definition Total : method Z :=
  _ ← AssertNoncritical;
  b ← this;
  mret b.(totalSpace).
End Methods.

(** The constructor, over the state of the temporary allocator. *)
Section Construction.
Context {L R D S : Type} `{AnallocRegion R, AnallocRegionList L R, AnallocBuilder C L D}.
Context (tempAllocAndMap : Z → M S (option Z)).

(** The sum of the sizes of a region list. *)
Fixpoint sum_sizes (n : nat) (l : L) (i totalSpace : Z) : Z :=
  match n with
  | O => totalSpace
  | Datatypes.S n' => sum_sizes n' l (i + 1) (totalSpace +u GetSize (At l i))
  end.

Definition InitializeCluster (regs : L) : M S C :=
  let descs : D := LayoutRun regs in
  newAddress ← tempAllocAndMap (RequiredSpace descs);
  match newAddress with
  | None => panic "BuddyAllocator::InitializeCluster() - allocation failed"
  | Some newAddress => mret (CreateAllocators descs newAddress)
  end.

Definition new (lowerRegions upperRegions : L) : M S buddy :=
  let total := sum_sizes (Z.to_nat (GetCount lowerRegions)) lowerRegions 0 0 in
  let total := sum_sizes (Z.to_nat (GetCount upperRegions)) upperRegions 0 total in
  b ← (if truthy (GetCount lowerRegions)
       then c ← InitializeCluster lowerRegions; mret (mkBuddy c ClusterNew false true total)
       else mret (mkBuddy ClusterNew ClusterNew false false total));
  if truthy (GetCount upperRegions)
  then c ← InitializeCluster upperRegions;
       mret (mkBuddy b.(lower) c true b.(hasLower) b.(totalSpace))
  else mret b.
End Construction.
End Ops.
Arguments buddy : clear implicits.
End BuddyAllocator.

(** ** One allocator of disjoint blocks *)

(** The abstract allocator: the blocks in use, by address. *)
Inductive op : Type :=
  | OpAlloc (size align : Z)
  | OpAllocLower (size align : Z)
  | OpFree (address : Z).

Inductive spec_step (used : gmap Z Z) : op → option Z → gmap Z Z → Prop :=
  | spec_alloc size align a :
      a mod align = 0 → used !! a = None → disjoint_from a size used →
      spec_step used (OpAlloc size align) (Some a) (<[a := size]> used)
  | spec_alloc_fail size align :
      spec_step used (OpAlloc size align) None used
  | spec_lower size align a :
      a mod align = 0 → used !! a = None → disjoint_from a size used →
      a + size ≤ 0x100000000 →
      spec_step used (OpAllocLower size align) (Some a) (<[a := size]> used)
  | spec_lower_fail size align :
      spec_step used (OpAllocLower size align) None used
  | spec_free a :
      spec_step used (OpFree a) None (delete a used).

Section Refinement.
Context {C : Type} `{ClusterLaws C, !AnsaLock (BuddyAllocator.buddy C),
  !LockLaws (BuddyAllocator.buddy C)}.
Import BuddyAllocator.

Definition exec (o : op) : M (machine (buddy C)) (option Z) :=
  match o with
  | OpAlloc size align => Alloc size align
  | OpAllocLower size align => AllocLower size align
  | OpFree a => _ ← Free a; mret None
  end.

(** The blocks in use of both clusters. *)
Definition used (b : buddy C) : gmap Z Z :=
  (if b.(hasLower) then blocks b.(lower) else ∅) ∪ (if b.(hasUpper) then blocks b.(upper) else ∅).

(** A cluster whose addresses, and so its blocks, satisfy [P]. *)
Record part_inv (has : bool) (c : C) (P : Z → Prop) : Prop := {
  part_ok : has = true → cluster_ok c;
  part_owns : has = true → ∀ x, OwnsAddress c x = true → P x;
  part_blocks : has = true → map_Forall (λ a n, 0 < n ∧ P a ∧ P (a + n - 1)) (blocks c);
}.

Record buddy_inv (b : buddy C) : Prop := {
  inv_lower : part_inv b.(hasLower) b.(lower) (λ x, x < 0x100000000);
  inv_upper : part_inv b.(hasUpper) b.(upper) (λ x, 0x100000000 ≤ x);
}.

(** What the caller of an operation must see to. *)
Definition op_ok (b : buddy C) (o : op) : Prop :=
  match o with
  | OpAlloc size align | OpAllocLower size align => 0 < size ∧ 0 < align
  | OpFree a => is_Some (used b !! a)
  end.

(** *** One cluster *)

Lemma align_part c P size align a c' :
  part_inv true c P → 0 < size → 0 < align → Align c size align = Some (a, c') →
  part_inv true c' P ∧ a mod align = 0 ∧ blocks c !! a = None
  ∧ blocks c' = <[a := size]> (blocks c) ∧ disjoint_from a size (blocks c)
  ∧ P a ∧ P (a + size - 1).
Proof.
  intros [Hok Hown Hb] Hs Ha E.
  destruct (align_block c size align a c' (Hok eq_refl) Hs Ha E) as (Hok' & ? & ? & Hbl & ? & Hin & Heq).
  assert (P a ∧ P (a + size - 1)) as [? ?]
    by (split; apply (Hown eq_refl), Hin; lia).
  split_and!; try done. split; intros _; [done|..].
  - intros x. rewrite Heq. by apply Hown.
  - rewrite Hbl. apply map_Forall_insert_2; [done|by apply Hb].
Qed.

Lemma free_part c P a :
  part_inv true c P → is_Some (blocks c !! a) →
  part_inv true (ClusterFree c a) P ∧ blocks (ClusterFree c a) = delete a (blocks c).
Proof.
  intros [Hok Hown Hb] Ha. destruct (free_block c a (Hok eq_refl) Ha) as (? & Hbl & Heq).
  split; [|done]. split; intros _; [done|..].
  - intros x. rewrite Heq. by apply Hown.
  - rewrite Hbl. by apply map_Forall_delete, Hb.
Qed.

(** *** Both clusters *)

Lemma lower_above b a : buddy_inv b → 0x100000000 ≤ a →
  (if b.(hasLower) then blocks b.(lower) else ∅) !! a = None.
Proof.
  intros [Hl _] Ha. destruct (hasLower b) eqn:E; [|done].
  destruct (blocks _ !! a) as [n|] eqn:El; [|done].
  apply (part_blocks _ _ _ Hl eq_refl) in El. lia.
Qed.

Lemma upper_below b a : buddy_inv b → a < 0x100000000 →
  (if b.(hasUpper) then blocks b.(upper) else ∅) !! a = None.
Proof.
  intros [_ Hu] Ha. destruct (hasUpper b) eqn:E; [|done].
  destruct (blocks _ !! a) as [n|] eqn:El; [|done].
  apply (part_blocks _ _ _ Hu eq_refl) in El. lia.
Qed.

(** The state after an operation that changes only the allocator. *)
Definition next (s : machine (buddy C)) (b : buddy C) : machine (buddy C) := set_alloc b s.

Lemma next_self s : next s s.(alloc) = s.
Proof. by destruct s. Qed.

Lemma run_align l (pick : buddy C → C) (setc : C → buddy C → buddy C) size align s :
  l ∉ s.(held) →
  ScopedLock l (
    b ← this;
    match Align (pick b) size align with
    | None => mret None
    | Some (result, c) => _ ← update (setc c); mret (Some result)
    end) s
  = Ok (fst <$> Align (pick s.(alloc)) size align,
        match Align (pick s.(alloc)) size align with
        | None => s
        | Some (a, c) => next s (setc c s.(alloc))
        end).
Proof.
  intros Hl. destruct (Align (pick (alloc s)) size align) as [[a c]|] eqn:E.
  - erewrite run_ScopedLock;
      [|exact Hl|unfold this; run run_gets; cbn; rewrite E; unfold update; run run_modify; done|done].
    by destruct s.
  - erewrite run_ScopedLock;
      [|exact Hl|unfold this; run run_gets; cbn; rewrite E; done|done].
    by destruct s.
Qed.

Lemma spec_lower_part b size align a c :
  buddy_inv b → b.(hasLower) = true → 0 < size → 0 < align →
  Align b.(lower) size align = Some (a, c) →
  buddy_inv (set_lower c b) ∧ a + size ≤ 0x100000000 ∧ a mod align = 0
  ∧ used b !! a = None ∧ disjoint_from a size (used b)
  ∧ used (set_lower c b) = <[a := size]> (used b).
Proof.
  intros Hi Hl Hs Ha E. pose proof Hi as [Hil Hiu]. rewrite Hl in Hil.
  destruct (align_part _ _ _ _ _ _ Hil Hs Ha E) as (Hc & ? & Hn & Hb & Hd & ? & ?).
  pose proof (upper_below b a Hi ltac:(lia)) as Hu.
  split_and!; [split; cbn; [by rewrite Hl|done]|lia|done| | |].
  - unfold used. rewrite Hl. by apply lookup_union_None.
  - unfold used. rewrite Hl. apply map_Forall_union_2; [done|].
    intros x n Hx. left. destruct (hasUpper b); [|done].
    apply (part_blocks _ _ _ Hiu eq_refl) in Hx. lia.
  - unfold used. cbn. rewrite Hl, Hb. by rewrite insert_union_l.
Qed.

Lemma spec_upper_part b size align a c :
  buddy_inv b → b.(hasUpper) = true → 0 < size → 0 < align →
  Align b.(upper) size align = Some (a, c) →
  buddy_inv (set_upper c b) ∧ a mod align = 0
  ∧ used b !! a = None ∧ disjoint_from a size (used b)
  ∧ used (set_upper c b) = <[a := size]> (used b).
Proof.
  intros Hi Hl Hs Ha E. pose proof Hi as [Hil Hiu]. rewrite Hl in Hiu.
  destruct (align_part _ _ _ _ _ _ Hiu Hs Ha E) as (Hc & ? & Hn & Hb & Hd & ? & ?).
  pose proof (lower_above b a Hi ltac:(lia)) as Hu.
  split_and!; [split; cbn; [done|by rewrite Hl]|done| | |].
  - unfold used. rewrite Hl. by apply lookup_union_None.
  - unfold used. rewrite Hl. apply map_Forall_union_2; [|done].
    intros x n Hx. right. destruct (hasLower b); [|done].
    apply (part_blocks _ _ _ Hil eq_refl) in Hx. lia.
  - unfold used. cbn. rewrite Hl, Hb. by rewrite insert_union_r.
Qed.

(** The result of [o] from the state [s], as the specification has it. *)
Definition implements (s : machine (buddy C)) (o : op) (r : outcome (option Z * machine (buddy C))) :=
  ∃ res s', r = Ok (res, s') ∧ spec_step (used s.(alloc)) o res (used s'.(alloc))
    ∧ buddy_inv s'.(alloc) ∧ s' = next s s'.(alloc).

Lemma run_buddy_AllocLower s size align :
  buddy_inv s.(alloc) → noncritical s → LowerLock ∉ s.(held) → 0 < size → 0 < align →
  implements s (OpAllocLower size align) (AllocLower size align s).
Proof.
  intros Hi Hn Hl Hs Ha. unfold implements, AllocLower.
  run run_AssertNoncritical; [|done]. unfold this at 1. run run_gets. cbn beta.
  destruct (hasLower (alloc s)) eqn:El; cbn [negb].
  - rewrite run_align by done. destruct (Align _ _ _) as [[a c]|] eqn:E.
    + destruct (spec_lower_part _ _ _ _ _ Hi El Hs Ha E) as (? & ? & ? & ? & ? & Hu).
      exists (Some a), (next s (set_lower c (alloc s))). split_and!; try done. cbn.
      rewrite Hu. by constructor.
    + exists None, s. split_and!; try done; [constructor|by rewrite next_self].
  - exists None, s. split_and!; try done; [constructor|by rewrite next_self].
Qed.

Lemma run_buddy_Alloc s size align :
  buddy_inv s.(alloc) → noncritical s → s.(held) = [] → 0 < size → 0 < align →
  implements s (OpAlloc size align) (Alloc size align s).
Proof.
  intros Hi Hn Hl Hs Ha.
  assert (Hlow : implements s (OpAlloc size align) (AllocLower size align s)).
  { destruct (run_buddy_AllocLower s size align) as (r & s' & -> & Hstep & ?); try done.
    { rewrite Hl. apply not_elem_of_nil. }
    exists r, s'. split; [done|]. split; [|done]. inversion Hstep; subst; by constructor. }
  unfold implements, Alloc. run run_AssertNoncritical; [|done]. unfold this at 1. run run_gets. cbn beta.
  destruct (hasUpper (alloc s)) eqn:El; [|by run run_ret].
  erewrite run_bind; [|apply (run_align UpperLock upper set_upper); rewrite Hl; apply not_elem_of_nil].
  destruct (Align _ _ _) as [[a c]|] eqn:E; [|exact Hlow].
  destruct (spec_upper_part _ _ _ _ _ Hi El Hs Ha E) as (? & ? & ? & ? & Hu).
  exists (Some a), (next s (set_upper c (alloc s))). split_and!; try done. cbn.
  rewrite Hu. by constructor.
Qed.

Lemma run_buddy_Free s a :
  buddy_inv s.(alloc) → noncritical s → s.(held) = [] → is_Some (used s.(alloc) !! a) →
  implements s (OpFree a) (exec (OpFree a) s).
Proof.
  intros Hi Hn Hl [n Ha]. pose proof Hi as [Hil Hiu].
  assert (Hrun : ∀ l f, ScopedLock l (b ← this; update (f b)) s
    = Ok (tt, next s (f s.(alloc) s.(alloc)))).
  { intros l f. erewrite run_ScopedLock; [|rewrite Hl; apply not_elem_of_nil|done|done]. by destruct s. }
  assert (Hres : ∀ b', Free a s = Ok (tt, next s b') → buddy_inv b' →
    used b' = delete a (used s.(alloc)) → implements s (OpFree a) (exec (OpFree a) s)).
  { intros b' Hr Hb Hu. exists None, (next s b'). cbn [exec]. run Hr.
    split_and!; try done. cbn. rewrite Hu. constructor. }
  destruct (Z.leb_spec 0x100000000 a) as [Hge|Hlt].
  - pose proof (lower_above _ a Hi Hge) as Hno. unfold used in Ha.
    rewrite lookup_union_r in Ha by done.
    destruct (hasUpper (alloc s)) eqn:El; [|done].
    destruct (free_part _ _ a Hiu) as [Hc Hb]; [by eexists|].
    eapply Hres; [unfold Free; run run_AssertNoncritical; [|done];
      rewrite (proj2 (Z.leb_le _ _)) by done; apply Hrun| |].
    + split; cbn; [done|by rewrite El].
    + unfold used. cbn. rewrite El, Hb, delete_union. f_equal. by rewrite delete_id.
  - pose proof (upper_below _ a Hi Hlt) as Hno. unfold used in Ha.
    rewrite lookup_union_l in Ha by done.
    destruct (hasLower (alloc s)) eqn:El; [|done].
    destruct (free_part _ _ a Hil) as [Hc Hb]; [by eexists|].
    eapply Hres; [unfold Free; run run_AssertNoncritical; [|done];
      rewrite (proj2 (Z.leb_gt _ _)) by done; apply Hrun| |].
    + split; cbn; [by rewrite El|done].
    + unfold used. cbn. rewrite El, Hb, delete_union. f_equal. by rewrite delete_id.
Qed.

(** C13. The buddy allocator implements one allocator: [Alloc] and [AllocLower]
    return an aligned block that overlaps no block in use, [AllocLower] one
    below 4 GiB, and [Free] returns exactly the block to the cluster that handed
    it out; no operation stops, and each leaves the rest of the machine as it
    was and the clusters on their sides of the 4 GiB border. *)
Theorem BuddyAllocator_refines s o :
  buddy_inv s.(alloc) → noncritical s → s.(held) = [] → op_ok s.(alloc) o →
  implements s o (exec o s).
Proof.
  intros Hi Hn Hl Ho. destruct o; cbn in Ho.
  - apply run_buddy_Alloc; tauto.
  - apply run_buddy_AllocLower; try tauto. rewrite Hl. apply not_elem_of_nil.
  - by apply run_buddy_Free.
Qed.
End Refinement.

(** *** Reserved memory *)

Section Reserved.
Context {C : Type} `{ReserveLaws C}.
Context `{!AnsaLock (BuddyAllocator.buddy C), !LockLaws (BuddyAllocator.buddy C)}.
Import BuddyAllocator.

(** No block below [n] will be handed out. *)
Definition buddy_starts_at (b : buddy C) (n : Z) : Prop :=
  (b.(hasLower) = true → starts_at b.(lower) n) ∧ (b.(hasUpper) = true → starts_at b.(upper) n).

(** [Reserve] makes it so and takes no block. *)
Lemma run_buddy_Reserve (s : machine (buddy C)) n :
  buddy_inv s.(alloc) → 0 ≤ n →
  ∃ b, Reserve n s = Ok (tt, set_alloc b s)
    ∧ buddy_inv b ∧ used b = used s.(alloc) ∧ buddy_starts_at b n.
Proof.
  intros [Hl Hu] Hn. destruct s as [m c i cl ms h t [lo up hu hl tot]].
  unfold buddy_starts_at, used, Reserve, this, update. unfold_m. cbn in *.
  assert (Hpart : ∀ c P, part_inv true c P → part_inv true (ClusterReserve c 0 n) P
    ∧ blocks (ClusterReserve c 0 n) = blocks c ∧ starts_at (ClusterReserve c 0 n) n).
  { intros c0 P [Hok Hown Hb]. destruct (reserve_block c0 n (Hok eq_refl) Hn) as (? & Hbl & Ho & ?).
    split; [|done]. split; intros _; [done| |by rewrite Hbl; apply Hb].
    intros x. rewrite Ho. by apply Hown. }
  destruct hl; [destruct (Hpart _ _ Hl) as (? & Hbl & ?)|]; destruct hu;
    try (destruct (Hpart _ _ Hu) as (? & Hbu & ?)); cbn; unfold set_alloc; cbn;
    (eexists; split; [reflexivity|]; cbn; rewrite ?Hbl, ?Hbu; split; [by split|by auto]).
Qed.

(** Every block handed out from then on lies above. *)
Lemma starts_AllocLower s n size align r s' :
  noncritical s → LowerLock ∉ s.(held) → 0 < size → 0 < align → buddy_starts_at s.(alloc) n →
  AllocLower size align s = Ok (r, s') →
  buddy_starts_at s'.(alloc) n ∧ ∀ a, r = Some a → n ≤ a.
Proof.
  intros Hn Hl Hsz Ha [Hlo Hup]. unfold AllocLower. run run_AssertNoncritical; [|done].
  unfold this at 1. run run_gets. destruct (hasLower s.(alloc)) eqn:E; cbn [negb].
  - change (gets alloc) with (this (C:=C)). rewrite run_align by done. intros [= <- <-].
    destruct (Align _ _ _) as [[a c]|] eqn:EA; cbn [fmap option_fmap option_map fst];
      [|split; [split; auto|done]].
    destruct (starts_align _ n _ _ _ _ (Hlo eq_refl) Hsz Ha EA) as [? ?].
    split; [by split; auto|]. by intros a' [= ->].
  - intros [= <- <-]. split; [split; [by rewrite E|done]|done].
Qed.

Lemma starts_exec s o n r s' : noncritical s → s.(held) = [] →
  op_ok s.(alloc) o → buddy_starts_at s.(alloc) n → exec o s = Ok (r, s') →
  buddy_starts_at s'.(alloc) n ∧ ∀ a, r = Some a → n ≤ a.
Proof.
  intros Hn Hh Ho Hst. destruct o as [size align|size align|a]; cbn [op_ok exec] in *.
  - unfold Alloc. run run_AssertNoncritical; [|done]. unfold this at 1. run run_gets.
    assert (Hlow : ∀ r s', AllocLower size align s = Ok (r, s') →
      buddy_starts_at s'.(alloc) n ∧ ∀ a, r = Some a → n ≤ a).
    { intros ??. apply starts_AllocLower; [done|by rewrite Hh; apply not_elem_of_nil|apply Ho|apply Ho|done]. }
    destruct (hasUpper s.(alloc)) eqn:E; [|by run run_ret; apply Hlow].
    erewrite run_bind; [|apply (run_align UpperLock upper set_upper); rewrite Hh; apply not_elem_of_nil].
    destruct (Align _ _ _) as [[a c]|] eqn:EA; cbn; [|by apply Hlow].
    intros [= <- <-]. destruct Hst as [Hlo Hup].
    destruct (starts_align _ n _ _ _ _ (Hup E) (proj1 Ho) (proj2 Ho) EA) as [? ?].
    split; [by split|]. by intros a' [= ->].
  - apply starts_AllocLower; [done|by rewrite Hh; apply not_elem_of_nil|apply Ho|apply Ho|done].
  - destruct Hst as [Hlo Hup]. intros (u & s1 & Hr & [= <- <-])%bind_ok_inv. unfold Free in Hr.
    apply bind_ok_inv in Hr as (u' & s2 & Hr0 & Hr).
    rewrite run_AssertNoncritical in Hr0 by done. injection Hr0 as _ <-.
    assert (Hfree : ∀ l f s3 u, ScopedLock l (b ← this; update (f b)) s = Ok (u, s3) →
      s3.(alloc) = f s.(alloc) s.(alloc)).
    { intros l f s3 u3. erewrite run_ScopedLock;
        [|rewrite Hh; apply not_elem_of_nil|done|done]. by intros [= _ <-]. }
    split; [|done]. destruct (0x100000000 <=? a);
      match goal with Hx : ScopedLock _ _ _ = _ |- _ => rewrite (Hfree _ _ _ _ Hx) end;
      split; cbn; intros ?; auto using starts_free.
Qed.
End Reserved.

(** *** Construction *)

Section NewInv.
Context {C L R D S : Type}.
Context `{HB : BuilderLaws C L D R}.
Import BuddyAllocator.

(** From region lists on their sides of 4 GiB (as
    [Regions.Multiboot_lists_correct] gives them), with space from the temporary
    allocator, the constructor ends with no block in use.  [I n] says what the
    temporary allocator needs to hand out as much as [need] says [n] stands
    for. *)
Lemma new_inv (tempAllocAndMap : Z → M S (option Z)) (ls : Multiboot.lists L)
    (I : nat → S → Prop) (need : L → nat) (st : S) :
  lists_inv ls →
  (∀ l n st, l = ls.(Multiboot.lowerRegions) ∨ l = ls.(Multiboot.upperRegions) → I (need l + n)%nat st →
    ∃ a st', tempAllocAndMap (RequiredSpace (LayoutRun l : D)) st = Ok (Some a, st') ∧ I n st') →
  I (need ls.(Multiboot.lowerRegions) + need ls.(Multiboot.upperRegions))%nat st →
  ∃ b st' n, new (D:=D) tempAllocAndMap ls.(Multiboot.lowerRegions) ls.(Multiboot.upperRegions) st
    = Ok (b, st') ∧ I n st' ∧ buddy_inv b ∧ used b = ∅.
Proof.
  intros [Hlo Hup _ _] Htemp HI.
  assert (Hinit : ∀ l n st, l = ls.(Multiboot.lowerRegions) ∨ l = ls.(Multiboot.upperRegions) →
    I (need l + n)%nat st → ∃ a st', InitializeCluster (D:=D) tempAllocAndMap l st
    = Ok (CreateAllocators (LayoutRun l : D) a, st') ∧ I n st').
  { intros l n st0 Hl Hn. unfold InitializeCluster.
    destruct (Htemp l n st0 Hl Hn) as (a & st' & Hr & ?).
    exists a, st'. split; [by run Hr|done]. }
  assert (Hemp : ∀ l a, blocks (CreateAllocators (LayoutRun l : D) a) = ∅)
    by (intros; apply create_empty).
  assert (Hpart : ∀ l a P, (∀ r x, r ∈ items l → GetStart r ≤ x < GetEnd r → P x) →
    part_inv true (CreateAllocators (LayoutRun l : D) a) P).
  { intros l a P HP. split; intros _; [apply create_ok| |].
    - intros x Hx. apply create_owns in Hx as (r & ? & ?). by eapply HP.
    - rewrite Hemp. apply map_Forall_empty. }
  assert (Hnone : ∀ c P, part_inv false c P) by (intros; by split).
  assert (Hl : ∀ a, part_inv true (CreateAllocators (LayoutRun ls.(Multiboot.lowerRegions) : D) a)
    (λ x, x < 0x100000000)).
  { intros a. apply Hpart. intros r x Hr ?. apply Hlo in Hr. lia. }
  assert (Hu : ∀ a, part_inv true (CreateAllocators (LayoutRun ls.(Multiboot.upperRegions) : D) a)
    (λ x, 0x100000000 ≤ x)).
  { intros a. apply Hpart. intros r x Hr ?. apply Hup in Hr. lia. }
  unfold new. set (t := sum_sizes _ _ _ _).
  destruct (truthy (GetCount (Multiboot.lowerRegions ls))).
  - destruct (Hinit _ _ st (or_introl eq_refl) HI) as (a & st1 & Hr & HI1).
    erewrite run_bind; [|run Hr; done]. destruct (truthy _).
    + destruct (Hinit _ 0%nat st1 (or_intror eq_refl)) as (a' & st2 & Hr' & HI2); [by rewrite Nat.add_0_r|].
      run Hr'. eexists _, _, _. split; [done|]. split; [exact HI2|]. split; [split; cbn; auto|].
      unfold used. cbn. by rewrite !Hemp, (left_id_L ∅ (∪)).
    + eexists _, _, _. split; [done|]. split; [exact HI1|]. split; [split; cbn; auto|].
      unfold used. cbn. by rewrite Hemp, (left_id_L ∅ (∪)).
  - run run_ret. destruct (truthy _).
    + rewrite Nat.add_comm in HI. destruct (Hinit _ _ st (or_intror eq_refl) HI) as (a' & st2 & Hr' & HI2).
      run Hr'. eexists _, _, _. split; [done|]. split; [exact HI2|]. split; [split; cbn; auto|].
      unfold used. cbn. by rewrite Hemp, (left_id_L ∅ (∪)).
    + eexists _, _, _. split; [done|]. split; [exact HI|]. split; [split; cbn; auto|]. done.
Qed.
End NewInv.

(** ** Examples *)

(** A cluster over one range that hands out ever higher addresses. *)
Module Bump.
Record bump : Type := mkBump { lo : Z; hi : Z; nxt : Z; blk : gmap Z Z }.

Definition align_up (x align : Z) : Z := (x + align - 1) / align * align.

#[export] Instance bump_cluster : AnallocCluster bump := {
  ClusterNew := mkBump 0 0 0 ∅;
  Align c size align :=
    let a := align_up c.(nxt) align in
    if a + size <=? c.(hi) then Some (a, mkBump c.(lo) c.(hi) (a + size) (<[a := size]> c.(blk)))
    else None;
  ClusterFree c a := mkBump c.(lo) c.(hi) c.(nxt) (delete a c.(blk));
  ClusterReserve c a n := mkBump c.(lo) c.(hi) (Z.max c.(nxt) (a + n)) c.(blk);
  OwnsAddress c x := (c.(lo) <=? x) && (x <? c.(hi));
  GetFreeSize c := c.(hi) - c.(nxt);
}.

Lemma bump_up_spec x align : 0 < align → x ≤ align_up x align ∧ align_up x align mod align = 0.
Proof. intros. unfold align_up. split; [zlia|]. apply Z_mod_mult. Qed.

#[export] Instance bump_laws : ClusterLaws bump.
Proof.
  refine {| cluster_ok c := c.(lo) ≤ c.(nxt) ∧ map_Forall (λ a n, 0 < n ∧ a + n ≤ c.(nxt)) c.(blk);
            blocks := blk |}.
  - intros c size align a c' [Hn Hb] Hs Ha. cbn.
    destruct (bump_up_spec (nxt c) align Ha) as [Hup Hal].
    destruct (Z.leb_spec (align_up (nxt c) align + size) (hi c)); [|done].
    intros [= <- <-]. cbn. split_and!; try done.
    + lia.
    + apply map_Forall_insert_2; [lia|]. intros x n Hx. apply Hb in Hx. lia.
    + destruct (blk c !! _) as [n|] eqn:E; [|done]. apply Hb in E. lia.
    + intros x n Hx. apply Hb in Hx. lia.
    + intros x ?. apply andb_true_iff. rewrite Z.leb_le, Z.ltb_lt. lia.
  - intros c a [Hn Hb] _. cbn. split_and!; try done. by apply map_Forall_delete.
Defined.
#[export] Instance bump_reserve : ReserveLaws bump.
Proof.
  refine {| starts_at c n := n ≤ c.(nxt) |}; cbn.
  - intros c n [Hn Hb] H0. split_and!; [lia| |done|done|lia].
    intros x k Hx. apply Hb in Hx. lia.
  - intros c n size align a c' Hn Hs Ha. destruct (bump_up_spec (nxt c) align Ha) as [Hup _].
    destruct (Z.leb_spec (align_up (nxt c) align + size) (hi c)); [|done]. intros [= <- <-]. cbn. lia.
  - done.
Defined.
End Bump.

Section Witness.
Import Bump BuddyAllocator.

Definition two_clusters : buddy bump :=
  mkBuddy (mkBump 0x100000 0x200000 0x100000 ∅)
    (mkBump 0x100000000 0x100003000 0x100002800 ∅) true true 0x103000.

(** The upper cluster is too small for the request, which goes to the lower one. *)
Lemma BuddyAllocator_refines_witness :
  fst <$> (match Alloc (C:=bump) 0x1000 0x1000 (idle_machine two_clusters) with
           | Ok r => Some r | Stop _ => None end) = Some (Some 0x100000)
  ∧ implements (idle_machine two_clusters) (OpAlloc 0x1000 0x1000)
      (exec (OpAlloc 0x1000 0x1000) (idle_machine two_clusters)).
Proof.
  split; [reflexivity|].
  apply (BuddyAllocator_refines (idle_machine two_clusters) (OpAlloc 0x1000 0x1000));
    [|by right|reflexivity|cbn; lia].
  split; split; intros _; cbn; try apply map_Forall_empty; try (split; [lia|apply map_Forall_empty]).
  - intros x. rewrite andb_true_iff, Z.ltb_lt. lia.
  - intros x. rewrite andb_true_iff, Z.leb_le. lia.
Defined.
End Witness.
