(* ===== verification/Allocator.v ===== *)
(** * Allocation of mapped memory

    The methods that [Allocator] (src/arch/api/allocator.cpp) implements for
    every physical allocator, on top of its virtual [Alloc] and [Free] and of the
    global map: [AllocAndMap], [FreeAndUnmap] and their contiguous variants.  Both
    dependencies are interfaces (src/arch/api/allocator.hpp and
    memory-map.hpp): the theorems hold for every implementation that keeps their
    contracts. *)

From stdpp Require Import base numbers list gmap strings.
From Stdlib Require Import ZArith Lia.
From S2P Require Import Prelude Machine PageTable.
#[local] Open Scope Z_scope.

(** ** Interfaces *)

(** The virtual methods of [anarch::Allocator]. *)
Class PhysAllocator (S : Type) := {
  PhysAlloc : Z → Z → M S (option Z);
  PhysFree : Z → M S unit;
}.

(** The methods of [anarch::GlobalMap] the allocator calls. *)
Class MemoryMap (S : Type) := {
  placementMap : bool;
  MapPageSizeCount : Z;
  MapPageSize : Z → Z;
  MapPageSizeAlign : Z → Z;
  MapRead : Z → M S (option (Z * Attributes * Z));
  MapMap : Z → Size → Attributes → M S (option Z);
  MapMapAt : Z → Z → Size → Attributes → M S unit;
  MapUnmap : Z → Size → M S unit;
  MapReserve : Size → M S (option Z);
}.

(** ** Allocator *)

Module Allocator.
Section Ops.
Context {S : Type} `{PhysAllocator S, MemoryMap S}.

(** Pages of [pageSize] bytes that hold [size] bytes. *)
Definition page_count (size pageSize : Z) : Z :=
  if truthy (size mod pageSize) then size / pageSize +u 1 else size / pageSize.

(** The loop of [FreeAndUnmap]; every iteration takes at least a byte off
    [remaining]. *)
Fixpoint free_loop (fuel : nat) (source remaining : Z) : M S unit :=
  if truthy remaining then
    match fuel with
    | O => stop OutOfFuel
    | Datatypes.S fuel' =>
        r ← MapRead source;
        match r with
        | None => panic "Allocator::FreeAndUnmap() - map.Read() failed"
        | Some (pageAddr, _, pageSize) =>
            _ ← MapUnmap source (mkSize pageSize 1);
            _ ← PhysFree source;
            if remaining <=? pageSize then mret tt
            else free_loop fuel' (source +u pageSize) (remaining - pageSize)
        end
    end
  else mret tt.

Definition FreeAndUnmapContiguous (addr size : Z) : M S unit :=
  r ← MapRead addr;
  match r with
  | None => panic "Allocator::FreeAndUnmapContiguous() - GlobalMap::Read() failed"
  | Some (physAddr, _, pageSize) =>
      _ ← MapUnmap addr (mkSize pageSize (page_count size pageSize));
      PhysFree physAddr
  end.

Definition FreeAndUnmap (addr size : Z) : M S unit :=
  if negb placementMap then FreeAndUnmapContiguous addr size
  else free_loop (Z.to_nat size) addr size.

(** The loop over page sizes of [AllocAndMapContiguous], from index [n - 1]
    down. *)
Fixpoint contiguous_loop (n : nat) (size : Z) : M S (option Z) :=
  match n with
  | O => mret None
  | Datatypes.S n' =>
      let i := Z.of_nat n' in
      let pageSize := MapPageSize i in
      if truthy i && truthy (size mod pageSize) then contiguous_loop n' size
      else
        let pageCount := page_count size pageSize in
        physBase ← PhysAlloc (pageCount *u pageSize) (MapPageSizeAlign i);
        match physBase with
        | None => contiguous_loop n' size
        | Some physBase =>
            res ← MapMap physBase (mkSize pageSize pageCount) default_attributes;
            match res with
            | None => _ ← PhysFree physBase; contiguous_loop n' size
            | Some res => mret (Some res)
            end
        end
  end.

Definition page_size_count (bigPages : bool) : Z := if bigPages then MapPageSizeCount else 1.

Definition AllocAndMapContiguous (size : Z) (bigPages : bool) : M S (option Z) :=
  contiguous_loop (Z.to_nat (page_size_count bigPages)) size.

(** [while (pageCount--)]: whether every page was allocated. *)
Fixpoint page_loop (n : nat) (res dest pageSize pageAlign : Z) : M S bool :=
  match n with
  | O => mret true
  | Datatypes.S n' =>
      phys ← PhysAlloc pageSize pageAlign;
      match phys with
      | None => _ ← FreeAndUnmap res (dest -u res); mret false
      | Some phys =>
          _ ← MapMapAt dest phys (mkSize pageSize 1) default_attributes;
          page_loop n' res (dest +u pageSize) pageSize pageAlign
      end
  end.

(** The loop over page sizes of [AllocAndMap]. *)
Fixpoint size_loop (n : nat) (size : Z) : M S (option Z) :=
  match n with
  | O => mret None
  | Datatypes.S n' =>
      let i := Z.of_nat n' in
      let pageSize := MapPageSize i in
      if truthy i && truthy (size mod pageSize) then size_loop n' size
      else
        let pageAlign := MapPageSizeAlign i in
        let pageCount := page_count size pageSize in
        res ← MapReserve (mkSize pageSize pageCount);
        match res with
        | None => size_loop n' size
        | Some res =>
            done ← page_loop (Z.to_nat pageCount) res res pageSize pageAlign;
            if (done : bool) then mret (Some res) else size_loop n' size
        end
  end.

Definition AllocAndMap (size : Z) (bigPages : bool) : M S (option Z) :=
  if negb placementMap then AllocAndMapContiguous size bigPages
  else size_loop (Z.to_nat (page_size_count bigPages)) size.
End Ops.
End Allocator.

(** ** Contracts *)

(** Pages by address: the frame and the page size.  A run of pages maps the
    frames [ps] one after the other. *)
Fixpoint map_run (v sz : Z) (ps : list Z) (m : gmap Z (Z * Z)) : gmap Z (Z * Z) :=
  match ps with
  | [] => m
  | p :: ps => map_run (v + sz) sz ps (<[v := (p, sz)]> m)
  end.

Fixpoint unmap_run (v sz : Z) (n : nat) (m : gmap Z (Z * Z)) : gmap Z (Z * Z) :=
  match n with
  | O => m
  | S n' => unmap_run (v + sz) sz n' (delete v m)
  end.

Fixpoint contiguous (p sz : Z) (n : nat) : list Z :=
  match n with O => [] | S n' => p :: contiguous (p + sz) sz n' end.

(** Reserved pages by address: the page size. *)
Fixpoint reserve_run (v sz : Z) (n : nat) (m : gmap Z Z) : gmap Z Z :=
  match n with
  | O => m
  | S n' => reserve_run (v + sz) sz n' (<[v := sz]> m)
  end.

(** No page overlaps [v, v + n). *)
Definition range_free (m : gmap Z (Z * Z)) (v n : Z) : Prop :=
  map_Forall (λ a q, a + q.2 ≤ v ∨ v + n ≤ a) m.

(** No reserved page overlaps [v, v + n). *)
Definition unreserved (m : gmap Z Z) (v n : Z) : Prop :=
  map_Forall (λ a k, a + k ≤ v ∨ v + n ≤ a) m.

Class MemoryLaws (S : Type) `{PhysAllocator S, MemoryMap S} := {
  memory_ok : S → Prop;
  (** The mapped pages, the reserved ones, and the frames that are in use, the
      map's own tables apart. *)
  pages : S → gmap Z (Z * Z);
  reserved : S → gmap Z Z;
  frames : S → gmap Z Z;
  (** Where the map takes a run of pages: elsewhere it may stop the machine.
      [GlobalMap] stops when it has no memory for a table, and in [Map] when
      the address it comes upon, aligned to the number of pages, is not
      aligned to their size. *)
  can_map : S → Z → Z → Prop;
  can_reserve : S → Z → Z → Prop;
  can_place : S → Z → Z → Prop;
  page_size_range i : 0 ≤ i < MapPageSizeCount →
    0 < MapPageSize i ≤ 2 ^ 32 ∧ 0 < MapPageSizeAlign i;
  page_size_some : 0 < MapPageSizeCount;
  pages_pos s : memory_ok s → map_Forall (λ _ q, 0 < q.2) (pages s);
  reserved_pos s : memory_ok s → map_Forall (λ _ k, 0 < k) (reserved s);
  (** An allocation is a new aligned frame. *)
  phys_alloc s size align : memory_ok s → 0 < size → 0 < align →
    ∃ r s', PhysAlloc size align s = Ok (r, s') ∧ memory_ok s'
      ∧ pages s' = pages s ∧ reserved s' = reserved s ∧
      match r with
      | Some a => a mod align = 0 ∧ frames s !! a = None ∧ frames s' = <[a := size]> (frames s)
      | None => frames s' = frames s
      end;
  phys_free s a : memory_ok s → is_Some (frames s !! a) →
    ∃ s', PhysFree a s = Ok (tt, s') ∧ memory_ok s'
      ∧ pages s' = pages s ∧ reserved s' = reserved s ∧ frames s' = delete a (frames s);
  (** Freeing an address that is not a frame may stop the machine or spoil the
      allocator, but does not touch the map. *)
  phys_free_any s a : memory_ok s →
    match PhysFree a s with
    | Ok (_, s') => memory_ok s' ∧ pages s' = pages s ∧ reserved s' = reserved s
    | Stop _ => True
    end;
  map_read s v p k : memory_ok s → pages s !! v = Some (p, k) →
    ∃ attr, MapRead v s = Ok (Some (p, attr, k), s);
  map_map s i phys n attr : memory_ok s → 0 ≤ i < MapPageSizeCount → 0 < n →
    phys mod MapPageSizeAlign i = 0 →
    match MapMap phys (mkSize (MapPageSize i) n) attr s with
    | Ok (r, s') => memory_ok s' ∧ frames s' = frames s ∧ reserved s' = reserved s ∧
        match r with
        | Some v => range_free (pages s) v (MapPageSize i * n)
            ∧ unreserved (reserved s) v (MapPageSize i * n)
            ∧ 0 ≤ v ∧ v + MapPageSize i * n ≤ 2 ^ 64
            ∧ pages s' = map_run v (MapPageSize i)
                           (contiguous phys (MapPageSize i) (Z.to_nat n)) (pages s)
        | None => pages s' = pages s
        end
    | Stop _ => ¬ can_map s i n
    end;
  map_reserve s i n : memory_ok s → 0 ≤ i < MapPageSizeCount → 0 < n →
    match MapReserve (mkSize (MapPageSize i) n) s with
    | Ok (r, s') => memory_ok s' ∧ frames s' = frames s ∧ pages s' = pages s ∧
        match r with
        | Some v => range_free (pages s) v (MapPageSize i * n)
            ∧ unreserved (reserved s) v (MapPageSize i * n)
            ∧ 0 ≤ v ∧ v + MapPageSize i * n < 2 ^ 64
            ∧ reserved s' = reserve_run v (MapPageSize i) (Z.to_nat n) (reserved s)
        | None => reserved s' = reserved s
        end
    | Stop _ => ¬ can_reserve s i n
    end;
  (** A reserved page is mapped. *)
  map_map_at s v phys sz attr : memory_ok s → 0 < sz → range_free (pages s) v sz →
    reserved s !! v = Some sz →
    match MapMapAt v phys (mkSize sz 1) attr s with
    | Ok (_, s') => memory_ok s' ∧ frames s' = frames s
        ∧ pages s' = <[v := (phys, sz)]> (pages s) ∧ reserved s' = delete v (reserved s)
    | Stop _ => ¬ can_place s v sz
    end;
  map_unmap s v sz n : memory_ok s → 0 < sz → 0 < n →
    (∀ k, 0 ≤ k < n → ∃ p, pages s !! (v + k * sz) = Some (p, sz)) →
    ∃ s', MapUnmap v (mkSize sz n) s = Ok (tt, s') ∧ memory_ok s'
      ∧ frames s' = frames s ∧ reserved s' = reserved s
      ∧ pages s' = unmap_run v sz (Z.to_nat n) (pages s);
}.

(** ** Runs of pages *)

Lemma range_free_none m v n : 0 < n → range_free m v n →
  map_Forall (λ _ q, 0 < q.2) m → m !! v = None.
Proof.
  intros Hn Hr Hpos. destruct (m !! v) as [[p k]|] eqn:E; [|done].
  pose proof (Hr _ _ E). pose proof (Hpos _ _ E). cbn in *. lia.
Qed.

Lemma range_free_sub m v n v' n' :
  range_free m v n → v ≤ v' → v' + n' ≤ v + n → range_free m v' n'.
Proof. intros Hr ? ? a q Ha. destruct (Hr a q Ha); [left|right]; lia. Qed.

Lemma map_run_below v sz ps m a : 0 < sz → a < v → map_run v sz ps m !! a = m !! a.
Proof.
  intros Hsz. revert v m. induction ps as [|p ps IH]; intros v m Ha; cbn; [done|].
  rewrite IH by lia. apply lookup_insert_ne. lia.
Qed.

Lemma range_free_run v sz ps m n : 0 < sz →
  range_free m (v + sz * Z.of_nat (length ps)) n →
  range_free (map_run v sz ps m) (v + sz * Z.of_nat (length ps)) n.
Proof.
  intros Hsz. revert v m. induction ps as [|p ps IH]; intros v m Hr; cbn [map_run length] in *; [done|].
  replace (v + sz * Z.of_nat (S (length ps))) with (v + sz + sz * Z.of_nat (length ps)) in * by lia.
  apply IH. apply map_Forall_insert_2; [left; cbn; nia|done].
Qed.

Lemma map_run_snoc v sz ps p m :
  map_run v sz (ps ++ [p]) m = <[v + sz * Z.of_nat (length ps) := (p, sz)]> (map_run v sz ps m).
Proof.
  revert v m. induction ps as [|q ps IH]; intros v m; cbn [map_run length app].
  - by rewrite Z.mul_0_r, Z.add_0_r.
  - rewrite IH. by replace (v + sz + _) with (v + sz * Z.of_nat (S (length ps))) by lia.
Qed.

Lemma map_run_lookup v sz ps m (k : nat) p : 0 < sz →
  ps !! k = Some p → map_run v sz ps m !! (v + Z.of_nat k * sz) = Some (p, sz).
Proof.
  intros Hsz. revert v m ps. induction k as [|k IH]; intros v m [|q ps] Hk; try done.
  - injection Hk as ->. replace (v + Z.of_nat 0 * sz) with v by lia. cbn.
    rewrite map_run_below by lia. apply lookup_insert_eq.
  - cbn. replace (v + Z.of_nat (S k) * sz) with (v + sz + Z.of_nat k * sz) by lia. by apply IH.
Qed.

Lemma delete_map_run v sz ps m a : 0 < sz → a < v →
  delete a (map_run v sz ps m) = map_run v sz ps (delete a m).
Proof.
  intros Hsz. revert v m. induction ps as [|p ps IH]; intros v m Ha; cbn; [done|].
  rewrite IH by lia. by rewrite delete_insert_ne by lia.
Qed.

Lemma unmap_map_run v sz ps m : 0 < sz → range_free m v (sz * Z.of_nat (length ps)) →
  map_Forall (λ _ q, 0 < q.2) m → unmap_run v sz (length ps) (map_run v sz ps m) = m.
Proof.
  intros Hsz. revert v m. induction ps as [|p ps IH]; intros v m Hr Hpos; [done|].
  cbn [map_run length unmap_run].
  assert (m !! v = None) as Hv by (eapply range_free_none; [|exact Hr|done]; cbn [length]; lia).
  rewrite delete_map_run by lia. rewrite delete_insert_id by done.
  apply IH; [|done]. intros a q Ha. specialize (Hr a q Ha). cbn [length] in Hr.
  destruct Hr; [left; lia|right; lia].
Qed.

Lemma length_contiguous p sz n : length (contiguous p sz n) = n.
Proof. revert p. induction n as [|n IH]; intros p; cbn; [done|by rewrite IH]. Qed.

Lemma contiguous_lookup p sz n (k : nat) : (k < n)%nat →
  contiguous p sz n !! k = Some (p + Z.of_nat k * sz).
Proof.
  revert p k. induction n as [|n IH]; intros p [|k] Hk; [lia..| |].
  - cbn. f_equal. lia.
  - cbn. rewrite IH by lia. f_equal. lia.
Qed.

Lemma reserve_run_below v sz n m a : 0 < sz → a < v → reserve_run v sz n m !! a = m !! a.
Proof.
  intros Hsz. revert v m. induction n as [|n IH]; intros v m Ha; cbn; [done|].
  rewrite IH by lia. apply lookup_insert_ne. lia.
Qed.

Lemma reserve_run_head v sz n m : 0 < sz → reserve_run v sz (S n) m !! v = Some sz.
Proof. intros Hsz. cbn. rewrite reserve_run_below by lia. apply lookup_insert_eq. Qed.

Lemma delete_reserve_run v sz n m : 0 < sz → m !! v = None →
  delete v (reserve_run v sz (S n) m) = reserve_run (v + sz) sz n m.
Proof.
  intros Hsz Hv. cbn. assert (Hgen : ∀ n a u (m : gmap Z Z), a < u →
    delete a (reserve_run u sz n m) = reserve_run u sz n (delete a m)).
  { intros k. induction k as [|k IH]; intros a u mm Ha; cbn; [done|].
    rewrite IH by lia. by rewrite delete_insert_ne by lia. }
  rewrite Hgen by lia. by rewrite delete_insert_id.
Qed.

Lemma unreserved_none m v n : 0 < n → unreserved m v n →
  map_Forall (λ _ k, 0 < k) m → m !! v = None.
Proof.
  intros Hn Hr Hpos. destruct (m !! v) as [k|] eqn:E; [|done].
  pose proof (Hr _ _ E). pose proof (Hpos _ _ E). cbn in *. lia.
Qed.

Lemma unreserved_sub m v n v' n' :
  unreserved m v n → v ≤ v' → v' + n' ≤ v + n → unreserved m v' n'.
Proof. intros Hr ? ? a q Ha. destruct (Hr a q Ha); [left|right]; lia. Qed.

(** The number of pages covers the size without wrapping. *)
Lemma page_count_spec size sz : 0 < size < 2 ^ 63 → 0 < sz ≤ 2 ^ 32 →
  let n := Allocator.page_count size sz in
  0 < n ∧ size ≤ n * sz < size + sz ∧ n *u sz = n * sz.
Proof.
  intros Hs Hz n. pose proof (Z.mod_pos_bound size sz ltac:(lia)).
  pose proof (Z.div_mod size sz ltac:(lia)).
  assert (Hn : 0 < n ∧ size ≤ n * sz < size + sz).
  { unfold n, Allocator.page_count. assert (0 ≤ size / sz ≤ size) by nia.
    destruct (truthy (size mod sz)) eqn:E; [apply truthy_true in E|apply truthy_false in E].
    - rewrite u64_small by (unfold is_u64; lia). nia.
    - nia. }
  split_and!; try lia. apply u64_small. unfold is_u64. nia.
Qed.

(** ** Contiguous allocation *)

Section Contiguous.
Context {S : Type} `{MemoryLaws S}.
Import Allocator.
Implicit Types (s : S).

(** What [AllocAndMapContiguous] leaves: nothing, or one new frame that covers
    the size, mapped page by page at addresses that were free. *)
Definition contiguous_post s size (r : option Z) s' : Prop :=
  memory_ok s' ∧ reserved s' = reserved s ∧
  match r with
  | None => pages s' = pages s ∧ frames s' = frames s
  | Some v => ∃ sz p, let n := page_count size sz in
      0 < sz ≤ 2 ^ 32 ∧ range_free (pages s) v (sz * n) ∧ unreserved (reserved s) v (sz * n)
      ∧ 0 ≤ v ∧ v + sz * n ≤ 2 ^ 64
      ∧ pages s' = map_run v sz (contiguous p sz (Z.to_nat n)) (pages s)
      ∧ frames s !! p = None ∧ frames s' = <[p := n * sz]> (frames s)
  end.

(** The machine stopped in [Map], which could not take the pages of one of the
    first [count] sizes; by then only the new frame had been allocated. *)
Definition map_refused s size count f : Prop :=
  ∃ i p s', let n := page_count size (MapPageSize i) in
    0 ≤ i < count ∧ memory_ok s' ∧ pages s' = pages s ∧ reserved s' = reserved s
    ∧ frames s !! p = None ∧ frames s' = <[p := n * MapPageSize i]> (frames s)
    ∧ ¬ can_map s' i n
    ∧ MapMap p (mkSize (MapPageSize i) n) default_attributes s' = Stop f.

(** Of the state they start from the two only see the contents. *)
Lemma contiguous_post_of s s1 size r s' :
  pages s1 = pages s → reserved s1 = reserved s → frames s1 = frames s →
  contiguous_post s1 size r s' → contiguous_post s size r s'.
Proof. unfold contiguous_post. by intros -> -> ->. Qed.

Lemma map_refused_of s s1 size count count' f :
  pages s1 = pages s → reserved s1 = reserved s → frames s1 = frames s → count ≤ count' →
  map_refused s1 size count f → map_refused s size count' f.
Proof.
  unfold map_refused. intros -> -> -> Hc (i & p & s' & Hi & Hr). exists i, p, s'.
  split; [lia|done].
Qed.

Lemma run_contiguous_loop n s size :
  memory_ok s → 0 < size < 2 ^ 63 → Z.of_nat n ≤ MapPageSizeCount →
  match contiguous_loop n size s with
  | Ok (r, s') => contiguous_post s size r s'
  | Stop f => map_refused s size (Z.of_nat n) f
  end.
Proof.
  revert s. induction n as [|n IH]; intros s Hok Hsize Hn; cbn [contiguous_loop]; [by split|].
  assert (Hi : 0 ≤ Z.of_nat n < MapPageSizeCount) by lia.
  destruct (page_size_range _ Hi) as [Hsz Hal].
  assert (Hnext : ∀ s1, memory_ok s1 → pages s1 = pages s → reserved s1 = reserved s →
    frames s1 = frames s → match contiguous_loop n size s1 with
    | Ok (r, s') => contiguous_post s size r s'
    | Stop f => map_refused s size (Z.of_nat (Datatypes.S n)) f
    end).
  { intros s1 Hok1 Hp Hre Hf. specialize (IH s1 Hok1 Hsize ltac:(lia)).
    destruct (contiguous_loop n size s1) as [[r s']|f].
    - by apply (contiguous_post_of s s1).
    - eapply map_refused_of; [done..| |exact IH]. lia. }
  destruct (_ && _); [by apply Hnext|].
  destruct (page_count_spec size _ Hsize Hsz) as (Hpos & Hcov & Hmul). cbv zeta. rewrite Hmul.
  set (sz := MapPageSize (Z.of_nat n)) in *. set (k := page_count size sz) in *.
  destruct (phys_alloc s (k * sz) (MapPageSizeAlign (Z.of_nat n)) Hok) as
    (r & s1 & Hr & Hok1 & Hp1 & Hre1 & Hf1); [nia|done|]. run Hr.
  destruct r as [p|]; [|by apply Hnext].
  destruct Hf1 as (Hpal & Hnew & Hf1).
  pose proof (map_map s1 (Z.of_nat n) p k default_attributes Hok1 Hi Hpos Hpal) as Hmap. fold sz in Hmap.
  destruct (MapMap p _ _ s1) as [[r s2]|f] eqn:E.
  2:{ erewrite run_bind_stop by exact E. exists (Z.of_nat n), p, s1. fold sz. fold k.
      split_and!; done || lia. }
  run E. destruct Hmap as (Hok2 & Hf2 & Hre2 & Hp2). rewrite Hp1, Hre1 in Hp2. destruct r as [v|].
  - split; [done|]. split; [by rewrite Hre2|]. exists sz, p. cbv zeta. fold k.
    destruct Hp2 as (? & ? & ? & ? & ?). split_and!; try done; try lia. by rewrite Hf2.
  - destruct (phys_free s2 p Hok2) as (s3 & Hr3 & Hok3 & Hp3 & Hre3 & Hf3).
    { rewrite Hf2, Hf1, lookup_insert_eq. by eexists. }
    run Hr3. apply Hnext; [done|by rewrite Hp3|by rewrite Hre3, Hre2|].
    by rewrite Hf3, Hf2, Hf1, delete_insert_id.
Qed.

Lemma run_FreeAndUnmapContiguous s s' size v :
  memory_ok s → 0 < size < 2 ^ 63 → contiguous_post s size (Some v) s' →
  ∃ s'', FreeAndUnmapContiguous v size s' = Ok (tt, s'') ∧ memory_ok s''
    ∧ pages s'' = pages s ∧ reserved s'' = reserved s ∧ frames s'' = frames s.
Proof.
  intros Hok Hsize (Hok' & Hre & sz & p & Hsz & Hfree & _ & ? & ? & Hp & Hnew & Hf).
  destruct (page_count_spec size _ Hsize Hsz) as (Hpos & Hcov & Hmul).
  set (n := page_count size sz) in *.
  assert (Hrun : ∀ k, 0 ≤ k < n → pages s' !! (v + k * sz) = Some (p + k * sz, sz)).
  { intros k Hk. rewrite Hp. replace k with (Z.of_nat (Z.to_nat k)) at 1 by lia.
    rewrite (map_run_lookup _ _ _ _ _ (p + k * sz)); [done|lia|].
    rewrite contiguous_lookup by lia. do 2 f_equal. lia. }
  unfold FreeAndUnmapContiguous.
  destruct (map_read s' v p sz Hok') as [attr Hr].
  { specialize (Hrun 0 ltac:(lia)). by rewrite Z.mul_0_l, !Z.add_0_r in Hrun. }
  run Hr. fold n.
  destruct (map_unmap s' v sz n Hok') as (s1 & Hr1 & Hok1 & Hf1 & Hre1 & Hp1); [lia|done|eauto|].
  run Hr1.
  destruct (phys_free s1 p Hok1) as (s2 & Hr2 & Hok2 & Hp2 & Hre2 & Hf2).
  { rewrite Hf1, Hf, lookup_insert_eq. by eexists. }
  exists s2. split_and!; try done.
  - rewrite Hp2, Hp1, Hp. rewrite <-(length_contiguous p sz (Z.to_nat n)) at 1.
    apply unmap_map_run; [lia|rewrite length_contiguous, Z2Nat.id by lia; done|by apply pages_pos].
  - by rewrite Hre2, Hre1.
  - by rewrite Hf2, Hf1, Hf, delete_insert_id.
Qed.

End Contiguous.

(** ** Page by page allocation *)

Section PageByPage.
Context {S : Type} `{MemoryLaws S}.
Import Allocator.
Implicit Types (s : S).

(** The machine stopped in the physical allocator, which was asked to free the
    virtual address of a page that had just been unmapped, where no frame in
    use is. *)
Definition stray_free (f : fault) : Prop :=
  ∃ s s' v p sz, memory_ok s ∧ pages s !! v = Some (p, sz)
    ∧ MapUnmap v (mkSize sz 1) s = Ok (tt, s') ∧ frames s' !! v = None ∧ PhysFree v s' = Stop f.

Lemma run_stray s s' v p sz :
  memory_ok s → pages s !! v = Some (p, sz) → MapUnmap v (mkSize sz 1) s = Ok (tt, s') →
  memory_ok s' →
  match PhysFree v s' with
  | Ok (_, s2) => memory_ok s2 ∧ pages s2 = pages s' ∧ reserved s2 = reserved s'
  | Stop f => stray_free f
  end.
Proof.
  intros Hok Hp Hun Hok'. destruct (frames s' !! v) as [n|] eqn:E.
  - destruct (phys_free s' v Hok') as (s2 & -> & ? & ? & ? & ?); [by eexists|done].
  - pose proof (phys_free_any s' v Hok'). destruct (PhysFree v s') as [[[] s2]|f] eqn:Ef; [done|].
    by exists s, s', v, p, sz.
Qed.

(** The machine stopped in the map, which could not reserve a range or take a
    page. *)
Definition refused (f : fault) : Prop :=
  ∃ s, memory_ok s ∧
    ((∃ i n, ¬ can_reserve s i n ∧ MapReserve (mkSize (MapPageSize i) n) s = Stop f)
     ∨ ∃ v p sz, ¬ can_place s v sz ∧ MapMapAt v p (mkSize sz 1) default_attributes s = Stop f).

(** [FreeAndUnmap] on a run of pages. *)
Lemma run_unmap_loop fuel s v sz ps m :
  memory_ok s → 0 < sz → pages s = map_run v sz ps m → range_free m v (sz * Z.of_nat (length ps)) →
  map_Forall (λ _ q, 0 < q.2) m → 0 ≤ v → v + sz * Z.of_nat (length ps) < 2 ^ 64 →
  sz * Z.of_nat (length ps) ≤ Z.of_nat fuel →
  match free_loop fuel v (sz * Z.of_nat (length ps)) s with
  | Ok (_, s') => memory_ok s' ∧ pages s' = m ∧ reserved s' = reserved s ∧ (ps = [] → s' = s)
  | Stop f => stray_free f
  end.
Proof.
  revert s v ps. induction fuel as [|fuel IH]; intros s v [|p ps] Hok Hsz Hp Hr Hpos Hv Hend Hf;
    cbn [length] in *; try (rewrite Z.mul_0_r; done); [lia|].
  assert (Hnv : m !! v = None) by (eapply range_free_none; [|exact Hr|done]; lia).
  assert (Hpv : pages s !! v = Some (p, sz)).
  { rewrite Hp. cbn. rewrite map_run_below by lia. apply lookup_insert_eq. }
  destruct (map_read s v p sz Hok Hpv) as [attr Hread].
  destruct (map_unmap s v sz 1 Hok) as (s1 & Hun & Hok1 & Hf1 & Hre1 & Hp1); [lia|lia| |].
  { intros k Hk. replace (v + k * sz) with v by lia. by exists p. }
  change (Z.to_nat 1) with 1%nat in Hp1. cbn [unmap_run] in Hp1.
  rewrite Hp in Hp1. cbn [map_run] in Hp1.
  rewrite delete_map_run, delete_insert_id in Hp1 by (done || lia).
  cbn [free_loop]. rewrite (proj2 (truthy_true _)) by lia.
  run Hread. cbn beta iota. run Hun.
  pose proof (run_stray s s1 v p sz Hok Hpv Hun Hok1) as Hstray.
  destruct (PhysFree v s1) as [[[] s2]|f] eqn:Efree; [|by erewrite run_bind_stop].
  destruct Hstray as (Hok2 & Hp2 & Hre2). run Efree. rewrite Hp1 in Hp2. rewrite Hre1 in Hre2.
  destruct (Z.leb_spec (sz * Z.of_nat (Datatypes.S (length ps))) sz).
  - assert (Hle : Z.of_nat (Datatypes.S (length ps)) ≤ 1)
      by (apply (Z.mul_le_mono_pos_l _ _ sz); lia).
    assert (ps = []) as -> by (destruct ps; [done|cbn [length] in Hle; lia]). by split.
  - replace (sz * _ - sz) with (sz * Z.of_nat (length ps)) by lia.
    rewrite u64_small by (unfold is_u64; nia).
    specialize (IH s2 (v + sz) ps Hok2 Hsz Hp2). destruct (free_loop _ _ _ s2) as [[[] s3]|f].
    + destruct IH as (? & ? & Hre & _); try done; try lia; [eapply range_free_sub; [exact Hr|nia|nia]|].
      split_and!; [done|done|by rewrite Hre|done].
    + apply IH; try done; try lia. eapply range_free_sub; [exact Hr|nia|nia].
Qed.

(** The loop over the pages of one reservation; [qs] are the frames of the pages
    mapped so far.  When it gives up the pages it mapped are neither mapped nor
    reserved any more, the others are still reserved. *)
Lemma run_page_loop n s res sz al qs m R :
  placementMap = true → memory_ok s → 0 < sz → 0 < al →
  pages s = map_run res sz qs m → range_free m res (sz * Z.of_nat (length qs + n)) →
  reserved s = reserve_run (res + sz * Z.of_nat (length qs)) sz n R →
  unreserved R res (sz * Z.of_nat (length qs + n)) → map_Forall (λ _ k, 0 < k) R →
  map_Forall (λ _ q, 0 < q.2) m → 0 ≤ res → res + sz * Z.of_nat (length qs + n) < 2 ^ 64 →
  match page_loop n res (res + sz * Z.of_nat (length qs)) sz al s with
  | Ok (true, s') => memory_ok s' ∧ reserved s' = R ∧ ∃ ps, length ps = n
      ∧ pages s' = map_run res sz (qs ++ ps) m ∧ NoDup ps
      ∧ (∀ p, p ∈ ps → frames s !! p = None ∧ frames s' !! p = Some sz)
      ∧ (∀ a, a ∉ ps → frames s' !! a = frames s !! a)
  | Ok (false, s') => memory_ok s' ∧ pages s' = m ∧ ∃ j, (length qs ≤ j < length qs + n)%nat
      ∧ reserved s' = reserve_run (res + sz * Z.of_nat j) sz (length qs + n - j) R
      ∧ (j = 0%nat → frames s' = frames s)
  | Stop f => stray_free f ∨ refused f
  end.
Proof.
  intros Hpl. revert s qs. induction n as [|n IH]; intros s qs Hok Hsz Hal Hp Hr Hre Hun HposR Hpos Hv Hend;
    cbn [page_loop].
  { cbn. split; [done|]. split; [done|]. exists []. rewrite app_nil_r. split_and!; try done; [constructor|].
    by intros p ?%not_elem_of_nil. }
  destruct (phys_alloc s sz al Hok) as (r & s1 & Hrun & Hok1 & Hp1 & Hre1 & Hf1); [done|done|]. run Hrun.
  destruct r as [p|]; cycle 1.
  { unfold FreeAndUnmap. rewrite Hpl. cbn [negb].
    rewrite u64_small by (unfold is_u64; nia). replace (res + _ - res) with (sz * Z.of_nat (length qs)) by lia.
    pose proof (run_unmap_loop (Z.to_nat (sz * Z.of_nat (length qs))) s1 res sz qs m) as Hfree.
    destruct (free_loop _ _ _ _) as [[[] s2]|f] eqn:E.
    - destruct Hfree as (Hok2 & Hp2 & Hre2 & Hs2); try done; try nia; [by rewrite Hp1| |].
      { eapply range_free_sub; [exact Hr|nia|nia]. }
      run E. split; [done|]. split; [done|]. exists (length qs). split; [lia|]. split.
      + rewrite Hre2, Hre1, Hre. f_equal. lia.
      + intros Hq%length_zero_iff_nil. by rewrite (Hs2 Hq).
    - erewrite run_bind_stop by exact E. left. apply Hfree; try done; try nia; [by rewrite Hp1|].
      eapply range_free_sub; [exact Hr|nia|nia]. }
  destruct Hf1 as (Hpal & Hnew & Hf1).
  set (dest := res + sz * Z.of_nat (length qs)) in *.
  assert (HR : R !! dest = None).
  { eapply (unreserved_none _ _ sz); [lia| |done]. eapply unreserved_sub; [exact Hun|lia|nia]. }
  assert (Hres : reserved s1 !! dest = Some sz) by (rewrite Hre1, Hre; by apply reserve_run_head).
  assert (Hdest : range_free (pages s1) dest sz).
  { rewrite Hp1, Hp. apply range_free_run; [lia|]. eapply range_free_sub; [exact Hr|lia|nia]. }
  pose proof (map_map_at s1 dest p sz default_attributes Hok1 Hsz Hdest Hres) as Hat.
  destruct (MapMapAt dest p _ _ s1) as [[[] s2]|f] eqn:E.
  2:{ erewrite run_bind_stop by exact E. right. exists s1. split; [done|]. right. by exists dest, p, sz. }
  destruct Hat as (Hok2 & Hf2 & Hp2 & Hre2).
  run E. rewrite u64_small by (unfold is_u64; nia).
  assert (Hmap : pages s2 = map_run res sz (qs ++ [p]) m) by (rewrite Hp2, Hp1, Hp; by rewrite map_run_snoc).
  rewrite Hre1, Hre in Hre2. rewrite delete_reserve_run in Hre2 by done.
  specialize (IH s2 (qs ++ [p]) Hok2 Hsz Hal Hmap). rewrite length_app in IH. cbn [length] in IH.
  replace (res + sz * Z.of_nat (length qs + 1)) with (dest + sz) in IH by (subst dest; lia).
  replace (length qs + 1 + n)%nat with (length qs + Datatypes.S n)%nat in IH by lia.
  specialize (IH Hr Hre2 Hun HposR Hpos Hv Hend).
  destruct (page_loop _ _ _ _ _ _) as [[[] s3]|f]; [| |done].
  2:{ destruct IH as (Hok3 & Hp3 & k & Hk & Hre3 & _). split; [done|]. split; [done|].
      exists k. split; [lia|]. split; [done|]. lia. }
  destruct IH as (Hok3 & Hre3 & ps & Hlen & Hp3 & Hnd & Hfr & Hmono).
  split; [done|]. split; [done|]. exists (p :: ps). rewrite <-app_assoc in Hp3.
  rewrite Hf2, Hf1 in Hfr, Hmono.
  assert (Hpn : p ∉ ps) by (intros Hin; apply Hfr in Hin as [Hin _]; by rewrite lookup_insert_eq in Hin).
  split_and!; [by cbn; rewrite Hlen|done|by constructor| |].
  - intros q [->|Hq]%elem_of_cons.
    + split; [done|]. rewrite Hmono by done. apply lookup_insert_eq.
    + destruct (Hfr q Hq) as [Hn ?]. by apply lookup_insert_None in Hn as [? _].
  - intros a [Ha Hb]%not_elem_of_cons. by rewrite Hmono, lookup_insert_ne.
Qed.

(** What a failed attempt with the page size of index [i] leaves: the pages are
    as they were, but of the range it had reserved the pages from the one on
    that found no frame stay reserved.  Which frames are in use is only known
    when there was none for the first page: any other attempt hands the virtual
    addresses of its pages to the physical allocator. *)
Definition failed_attempt size i s s' : Prop :=
  let sz := MapPageSize i in
  let n := Z.to_nat (page_count size sz) in
  memory_ok s' ∧ pages s' = pages s ∧ ∃ v j, (j < n)%nat
    ∧ range_free (pages s) v (sz * Z.of_nat n) ∧ unreserved (reserved s) v (sz * Z.of_nat n)
    ∧ reserved s' = reserve_run (v + sz * Z.of_nat j) sz (n - j) (reserved s)
    ∧ (j = 0%nat → frames s' = frames s).

Definition same s s' : Prop :=
  memory_ok s' ∧ pages s' = pages s ∧ reserved s' = reserved s ∧ frames s' = frames s.

(** Failed attempts with some of the sizes below [hi], down to [lo], largest
    first. *)
Inductive tried (size lo : Z) : Z → S → S → Prop :=
  | tried_none hi s s' : same s s' → tried size lo hi s s'
  | tried_failed hi i s s1 s' : lo ≤ i < hi → failed_attempt size i s s1 →
      tried size lo i s1 s' → tried size lo hi s s'.

Lemma tried_pages size lo hi s s' : tried size lo hi s s' → memory_ok s' ∧ pages s' = pages s.
Proof.
  induction 1 as [hi s s' (? & ? & _)|hi i s s1 s' _ (_ & Hp & _) _ [? IH]]; [done|].
  split; [done|]. by rewrite IH.
Qed.

Lemma tried_weaken size lo hi hi' s s1 s' :
  memory_ok s → pages s1 = pages s → reserved s1 = reserved s → frames s1 = frames s → hi ≤ hi' →
  tried size lo hi s1 s' → tried size lo hi' s s'.
Proof.
  intros Hok Hp Hre Hf Hhi. inversion 1 as [hi0 s0 s0' (? & ? & ? & ?)|hi0 i s0 s2 s0' Hi Hfail Ht]; subst.
  - apply tried_none. split_and!; [done|congruence..].
  - apply (tried_failed _ _ _ i s s2); [lia| |done].
    unfold failed_attempt in *. by rewrite <-Hp, <-Hre, <-Hf.
Qed.

(** What [AllocAndMap] leaves, when it may try the first [count] page sizes:
    after some failed attempts, from [s1] on, one that succeeded, with as many
    new frames as pages; or failed attempts only; or a stop. *)
Definition alloc_post s size count (r : outcome (option Z * S)) : Prop :=
  match r with
  | Ok (Some v, s') => memory_ok s' ∧ ∃ i s1 ps,
      let sz := MapPageSize i in let n := page_count size sz in
      0 ≤ i < count ∧ tried size (i + 1) count s s1
      ∧ length ps = Z.to_nat n ∧ size ≤ sz * n
      ∧ range_free (pages s) v (sz * n) ∧ unreserved (reserved s1) v (sz * n)
      ∧ pages s' = map_run v sz ps (pages s) ∧ reserved s' = reserved s1
      ∧ NoDup ps ∧ (∀ p, p ∈ ps → frames s1 !! p = None ∧ frames s' !! p = Some sz)
      ∧ (∀ a, a ∉ ps → frames s' !! a = frames s1 !! a)
  | Ok (None, s') => memory_ok s' ∧ pages s' = pages s ∧ tried size 0 count s s'
  | Stop f => stray_free f ∨ refused f
  end.

Lemma alloc_post_of s s1 size count count' r :
  memory_ok s → pages s1 = pages s → reserved s1 = reserved s → frames s1 = frames s →
  count ≤ count' → alloc_post s1 size count r → alloc_post s size count' r.
Proof.
  intros Hok Hp Hre Hf Hc. destruct r as [[[v|] s']|f]; [| |done].
  - intros (Hok' & i & s2 & ps & Hi & Ht & Hrest). split; [done|]. exists i, s2, ps.
    split; [lia|]. split; [by eapply tried_weaken|]. by rewrite <-Hp.
  - intros (Hok' & Hp' & Ht). split; [done|]. split; [congruence|]. by eapply tried_weaken.
Qed.

Lemma alloc_post_failed s s1 size count r :
  0 ≤ count → failed_attempt size count s s1 →
  alloc_post s1 size count r → alloc_post s size (count + 1) r.
Proof.
  intros Hc Hfail. pose proof Hfail as (_ & Hp & _). destruct r as [[[v|] s']|f]; [| |done].
  - intros (Hok' & i & s2 & ps & Hi & Ht & Hrest). split; [done|]. exists i, s2, ps.
    split; [lia|]. split; [by apply (tried_failed _ _ _ count s s1); [lia|..]|]. by rewrite <-Hp.
  - intros (Hok' & Hp' & Ht). split; [done|]. split; [congruence|].
    by apply (tried_failed _ _ _ count s s1); [lia|..].
Qed.

Lemma run_size_loop n s size :
  placementMap = true → memory_ok s → 0 < size < 2 ^ 63 → Z.of_nat n ≤ MapPageSizeCount →
  alloc_post s size (Z.of_nat n) (size_loop n size s).
Proof.
  intros Hpl. revert s. induction n as [|n IH]; intros s Hok Hsize Hn; cbn [size_loop].
  { split; [done|]. split; [done|]. by apply tried_none. }
  assert (Hi : 0 ≤ Z.of_nat n < MapPageSizeCount) by lia.
  destruct (page_size_range _ Hi) as [Hsz Hal].
  assert (Hnext : ∀ s1, same s s1 → alloc_post s size (Z.of_nat (Datatypes.S n)) (size_loop n size s1)).
  { intros s1 (Hok1 & Hp & Hre & Hf). eapply (alloc_post_of s s1); [done..| |by apply IH; [|lia..]]. lia. }
  destruct (_ && _); [by apply Hnext|].
  destruct (page_count_spec size _ Hsize Hsz) as (Hpos & Hcov & _). cbv zeta.
  set (sz := MapPageSize (Z.of_nat n)) in *. set (k := page_count size sz) in *.
  pose proof (map_reserve s (Z.of_nat n) k Hok Hi Hpos) as Hres. fold sz in Hres.
  destruct (MapReserve _ s) as [[r s1]|f] eqn:Hr.
  2:{ erewrite run_bind_stop by exact Hr. right. exists s. split; [done|]. left.
      by exists (Z.of_nat n), k. }
  run Hr. destruct Hres as (Hok1 & Hf1 & Hp1 & Hres). destruct r as [v|]; [|by apply Hnext].
  destruct Hres as (Hfree & Hun & Hv & Hend & Hre1).
  pose proof (run_page_loop (Z.to_nat k) s1 v sz (MapPageSizeAlign (Z.of_nat n)) [] (pages s)
    (reserved s) Hpl Hok1 ltac:(lia) ltac:(done) Hp1) as Hloop.
  cbn [length] in Hloop. rewrite Nat.add_0_l, Z2Nat.id, Z.mul_0_r, Z.add_0_r in Hloop by lia.
  specialize (Hloop Hfree Hre1 Hun (reserved_pos s Hok) (pages_pos s Hok) Hv Hend).
  destruct (page_loop _ _ _ _ _ _) as [[[] s2]|f] eqn:E; [| |by erewrite run_bind_stop].
  - run E. destruct Hloop as (Hok2 & Hre2 & ps & Hlen & Hp2 & Hnd & Hfr & Hout).
    split; [done|]. exists (Z.of_nat n), s, ps. fold sz. fold k.
    rewrite Hf1 in Hfr, Hout. split_and!; try done; try lia. by apply tried_none.
  - run E. destruct Hloop as (Hok2 & Hp2 & j & Hj & Hre2 & Hf2).
    replace (Z.of_nat (Datatypes.S n)) with (Z.of_nat n + 1) by lia.
    apply (alloc_post_failed s s2); [lia| |by apply IH; [|lia..]].
    split; [done|]. split; [done|]. exists v, j. fold sz. fold k. rewrite Z2Nat.id by lia.
    split_and!; try done; [lia|]. intros Hj0. by rewrite Hf2, Hf1.
Qed.


(** [FreeAndUnmap] hands the virtual address of each page, not its frame, to the
    physical allocator: where that is no frame in use, an allocator that stops
    on it stops [FreeAndUnmap] on the first page, unmapped by then. *)
Lemma FreeAndUnmap_frees_virtual s v p sz size f :
  placementMap = true → memory_ok s → pages s !! v = Some (p, sz) → 0 < size →
  (∀ s', memory_ok s' → frames s' !! v = None → PhysFree v s' = Stop f) →
  frames s !! v = None → FreeAndUnmap v size s = Stop f.
Proof.
  intros Hpl Hok Hp Hsize Hstop Hnone. unfold FreeAndUnmap. rewrite Hpl. cbn [negb].
  pose proof (pages_pos s Hok v (p, sz) Hp) as Hsz. cbn in Hsz.
  destruct (Z.to_nat size) as [|k] eqn:Ek; [lia|]. cbn [free_loop].
  rewrite (proj2 (truthy_true _)) by lia.
  destruct (map_read s v p sz Hok Hp) as [attr Hread]. run Hread. cbn beta iota.
  destruct (map_unmap s v sz 1 Hok) as (s1 & Hun & Hok1 & Hf1 & _ & Hp1); [lia|lia| |].
  { intros j Hj. replace (v + j * sz) with v by lia. by exists p. }
  run Hun. apply run_bind_stop, Hstop; [done|by rewrite Hf1].
Qed.
End PageByPage.

(** ** Examples *)

(** A map whose addresses only grow, over an allocator whose frames only grow;
    both with pages of 0x1000 and 0x200000 bytes.  Like [GlobalMap::Map], [MapMap]
    aligns the address to the number of pages and stops when that does not
    align it to their size. *)
Module Growing.
Record memory : Type := mkMemory {
  m_pages : gmap Z (Z * Z);
  m_reserved : gmap Z Z;
  m_frames : gmap Z Z;
  m_next : Z;       (* the next virtual address, aligned to the larger page *)
  m_frame : Z;      (* the next frame *)
  m_limit : Z;      (* the end of physical memory *)
}.

Definition big : Z := 0x200000.
Definition sizes (i : Z) : Z := if i =? 0 then 0x1000 else big.
Definition align_up (x align : Z) : Z := (x + align - 1) / align * align.

Definition set_pages ps (s : memory) : memory :=
  mkMemory ps s.(m_reserved) s.(m_frames) s.(m_next) s.(m_frame) s.(m_limit).
Definition set_reserved rs (s : memory) : memory :=
  mkMemory s.(m_pages) rs s.(m_frames) s.(m_next) s.(m_frame) s.(m_limit).
Definition set_next v (s : memory) : memory :=
  mkMemory s.(m_pages) s.(m_reserved) s.(m_frames) v s.(m_frame) s.(m_limit).
Definition set_frames fs (s : memory) : memory :=
  mkMemory s.(m_pages) s.(m_reserved) fs s.(m_next) s.(m_frame) s.(m_limit).

#[export] Instance growing_alloc : PhysAllocator memory := {
  PhysAlloc size align s :=
    let a := align_up s.(m_frame) align in
    if a + size <=? s.(m_limit) then
      Ok (Some a, mkMemory s.(m_pages) s.(m_reserved) (<[a := size]> s.(m_frames)) s.(m_next)
                    (a + size) s.(m_limit))
    else Ok (None, s);
  PhysFree a s :=
    if decide (is_Some (s.(m_frames) !! a)) then Ok (tt, set_frames (delete a s.(m_frames)) s)
    else Stop (Panic "not a frame");
}.

(** [n] bytes at the next multiple of [align]. *)
Definition take_range (n align : Z) (s : memory) : option Z :=
  let a := align_up s.(m_next) align in
  if align_up (a + n) big <? 2 ^ 63 then Some a else None.

#[export] Instance growing_map : MemoryMap memory := {
  placementMap := true;
  MapPageSizeCount := 2;
  MapPageSize := sizes;
  MapPageSizeAlign := sizes;
  MapRead v s := match s.(m_pages) !! v with
                 | Some (p, k) => Ok (Some (p, default_attributes, k), s)
                 | None => Ok (None, s)
                 end;
  MapMap phys size _ s :=
    let n := size.(pageSize) * size.(pageCount) in
    match take_range n size.(pageCount) s with
    | Some v =>
        if v mod size.(pageSize) =? 0 then
          Ok (Some v, set_next (align_up (v + n) big)
            (set_pages (map_run v size.(pageSize)
              (contiguous phys size.(pageSize) (Z.to_nat size.(pageCount))) s.(m_pages)) s))
        else Stop (AssertFail "misaligned")
    | None => Ok (None, s)
    end;
  MapMapAt v phys size _ s :=
    Ok (tt, set_next (align_up (Z.max s.(m_next) (v + size.(pageSize))) big)
      (set_reserved (delete v s.(m_reserved))
        (set_pages (<[v := (phys, size.(pageSize))]> s.(m_pages)) s)));
  MapUnmap v size s :=
    Ok (tt, set_pages (unmap_run v size.(pageSize) (Z.to_nat size.(pageCount)) s.(m_pages)) s);
  MapReserve size s :=
    let n := size.(pageSize) * size.(pageCount) in
    match take_range n size.(pageSize) s with
    | Some v => Ok (Some v, set_next (align_up (v + n) big)
        (set_reserved (reserve_run v size.(pageSize) (Z.to_nat size.(pageCount)) s.(m_reserved)) s))
    | None => Ok (None, s)
    end;
}.

(** Pages, reservations and frames end by the next address. *)
Record growing_ok (s : memory) : Prop := {
  go_next : 0 ≤ s.(m_next);
  go_pages : map_Forall (λ v q, 0 < q.2 ∧ v + q.2 ≤ s.(m_next)) s.(m_pages);
  go_reserved : map_Forall (λ v k, 0 < k ∧ v + k ≤ s.(m_next)) s.(m_reserved);
  go_frames : map_Forall (λ a n, 0 < n ∧ a + n ≤ s.(m_frame)) s.(m_frames);
}.

Lemma align_up_spec x align : 0 < align → x ≤ align_up x align ∧ align_up x align mod align = 0.
Proof. intros. unfold align_up. split; [zlia|apply Z_mod_mult]. Qed.

Lemma sizes_range i : 0 < sizes i ≤ big.
Proof. unfold sizes, big. case_test; lia. Qed.

Lemma pages_weaken (m : gmap Z (Z * Z)) (e e' : Z) : e ≤ e' →
  map_Forall (λ v (q : Z * Z), 0 < q.2 ∧ v + q.2 ≤ e) m →
  map_Forall (λ v (q : Z * Z), 0 < q.2 ∧ v + q.2 ≤ e') m.
Proof. intros He Hm. eapply map_Forall_impl; [exact Hm|]. intros v q. cbn. lia. Qed.

Lemma reserved_weaken (m : gmap Z Z) (e e' : Z) : e ≤ e' →
  map_Forall (λ v k, 0 < k ∧ v + k ≤ e) m → map_Forall (λ v k, 0 < k ∧ v + k ≤ e') m.
Proof. intros He Hm. eapply map_Forall_impl; [exact Hm|]. intros v q. cbn. lia. Qed.

Lemma run_pages_ok v sz ps (m : gmap Z (Z * Z)) e : 0 < sz → v + sz * Z.of_nat (length ps) ≤ e →
  map_Forall (λ v (q : Z * Z), 0 < q.2 ∧ v + q.2 ≤ e) m →
  map_Forall (λ v (q : Z * Z), 0 < q.2 ∧ v + q.2 ≤ e) (map_run v sz ps m).
Proof.
  intros Hsz. revert v m. induction ps as [|p ps IH]; intros v m He Hm; cbn [map_run]; [done|].
  cbn [length] in He. apply IH; [lia|]. apply map_Forall_insert_2; [cbn; nia|done].
Qed.

Lemma reserve_run_ok v sz n (m : gmap Z Z) e : 0 < sz → v + sz * Z.of_nat n ≤ e →
  map_Forall (λ v k, 0 < k ∧ v + k ≤ e) m →
  map_Forall (λ v k, 0 < k ∧ v + k ≤ e) (reserve_run v sz n m).
Proof.
  intros Hsz. revert v m. induction n as [|n IH]; intros v m He Hm; cbn [reserve_run]; [done|].
  apply IH; [lia|]. apply map_Forall_insert_2; [nia|done].
Qed.

Lemma unmap_pages_ok v sz n (m : gmap Z (Z * Z)) (P : Z → Z * Z → Prop) :
  map_Forall P m → map_Forall P (unmap_run v sz n m).
Proof.
  revert v m. induction n as [|n IH]; intros v m Hm; cbn; [done|]. by apply IH, map_Forall_delete.
Qed.

(** The range is above everything mapped or reserved. *)
Lemma take_range_spec s n align v : growing_ok s → 0 < align → 0 < n →
  take_range n align s = Some v →
  0 ≤ v ∧ m_next s ≤ v ∧ v + n ≤ align_up (v + n) big < 2 ^ 63
  ∧ range_free (m_pages s) v n ∧ unreserved (m_reserved s) v n.
Proof.
  intros [Hnx Hp Hr _] Ha Hn. unfold take_range. cbv zeta.
  destruct (align_up_spec (m_next s) align Ha) as [Hup _].
  destruct (align_up_spec (align_up (m_next s) align + n) big) as [Hup2 _]; [done|].
  destruct (Z.ltb_spec (align_up (align_up (m_next s) align + n) big) (2 ^ 63)); [|done].
  intros [= <-]. split_and!; try lia; intros a q Hq; [apply Hp in Hq|apply Hr in Hq]; left; lia.
Qed.

#[export] Instance growing_laws : MemoryLaws memory.
Proof.
  refine {| memory_ok := growing_ok; pages := m_pages; reserved := m_reserved; frames := m_frames;
    can_map s i n := match take_range (sizes i * n) n s with
                     | Some v => v mod sizes i = 0 | None => True end;
    can_reserve _ _ _ := True; can_place _ _ _ := True |}.
  - intros i _. cbn. pose proof (sizes_range i). unfold big in *. lia.
  - done.
  - intros s [_ Hp _ _]. eapply map_Forall_impl; [exact Hp|]. cbn. tauto.
  - intros s [_ _ Hr _]. eapply map_Forall_impl; [exact Hr|]. cbn. tauto.
  - intros s size align [? Hp Hr Hf] Hs Ha. cbn.
    destruct (align_up_spec (m_frame s) align Ha) as [Hup Hal].
    destruct (Z.leb_spec (align_up (m_frame s) align + size) (m_limit s));
      eexists _, _; (split; [done|]); [|by split].
    split; [split; cbn; try done|split_and!; try done].
    + apply map_Forall_insert_2; [lia|]. eapply map_Forall_impl; [exact Hf|]. cbn. lia.
    + cbn. destruct (m_frames s !! _) as [n|] eqn:E; [|done]. apply Hf in E. lia.
  - intros s a [? Hp Hr Hf] Ha. cbn. rewrite decide_True by done. eexists. split; [done|].
    split; [split; cbn; try done; by apply map_Forall_delete|done].
  - intros s a [? Hp Hr Hf]. cbn. destruct (decide _); [|done].
    split; [split; cbn; try done; by apply map_Forall_delete|done].
  - intros s v p k _ Hv. cbn. rewrite Hv. by eexists.
  - intros s i phys n attr Hok Hi Hn _. cbn. pose proof (sizes_range i).
    destruct (take_range (sizes i * n) n s) as [v|] eqn:E; [|by split].
    destruct (take_range_spec s (sizes i * n) n v Hok Hn ltac:(nia) E) as (? & ? & ? & ? & ?).
    destruct Hok as [? Hp Hr Hf]. destruct (Z.eqb_spec (v mod sizes i) 0); [|done].
    split; [split; cbn; [lia| | |done]|split_and!; done || lia].
    + apply run_pages_ok; [lia|rewrite length_contiguous; lia|].
      eapply pages_weaken; [|exact Hp]. lia.
    + eapply reserved_weaken; [|exact Hr]. lia.
  - intros s i n Hok Hi Hn. cbn. pose proof (sizes_range i).
    destruct (take_range (sizes i * n) (sizes i) s) as [v|] eqn:E; [|by split].
    destruct (take_range_spec s (sizes i * n) (sizes i) v Hok ltac:(lia) ltac:(nia) E) as (? & ? & ? & ? & ?).
    destruct Hok as [? Hp Hr Hf].
    split; [split; cbn; [lia| | |done]|split_and!; done || lia].
    + eapply pages_weaken; [|exact Hp]. lia.
    + apply reserve_run_ok; [lia|lia|]. eapply reserved_weaken; [|exact Hr]. lia.
  - intros s v phys sz attr [? Hp Hr Hf] Hsz _ _. cbn.
    destruct (align_up_spec (Z.max (m_next s) (v + sz)) big) as [Hup _]; [done|].
    split; [split; cbn; [lia| | |done]|done].
    + apply map_Forall_insert_2; [cbn; lia|]. eapply pages_weaken; [|exact Hp]. lia.
    + apply map_Forall_delete. eapply reserved_weaken; [|exact Hr]. lia.
  - intros s v sz n [? Hp Hr Hf] Hsz Hn _. cbn. eexists. split; [done|].
    split; [split; cbn; try done; by apply unmap_pages_ok|done].
Defined.

(** A machine with [n] bytes of physical memory from 1 MiB up, nothing mapped. *)
Definition fresh_memory (n : Z) : memory := mkMemory ∅ ∅ ∅ 0x40000000 0x100000 (0x100000 + n).

Lemma fresh_ok n : memory_ok (fresh_memory n).
Proof. split; cbn; [lia|apply map_Forall_empty..]. Qed.
End Growing.

Section Witness.
Import Growing Allocator.


End Witness.
