(* ===== verification/Malloc.v ===== *)
(** * The kernel heap

    Malloc (src/memory/malloc.cpp): a list of segments, each a pool of kernel
    memory under an ANAlloc allocator of its own.  The segments are linked in the
    memory they manage, so reading a segment is a memory access that can fault;
    ANAlloc's allocator and the physical allocator below are interfaces. *)

From stdpp Require Import base numbers list gmap strings.
From Stdlib Require Import ZArith Lia.
From S2P Require Import Prelude Machine Concrete.
#[local] Open Scope Z_scope.

(** [ANAlloc::Malloc]; [MallocAlloc] answers [NULL] when it is full. *)
Class AnallocMalloc (H : Type) := {
  WrapRegion : Z → Z → Z → Z → H;
  MallocAlloc : H → Z → Z * H;
  MallocFree : H → Z → H;
  OwnsPointer : H → Z → bool;
}.

(** What the allocator of a segment promises, in terms of the pointers in use. *)
Class MallocLaws (H : Type) `{AnallocMalloc H} := {
  in_use : H → gset Z;
  malloc_some a n p a' : 0 ≤ n → MallocAlloc a n = (p, a') → p ≠ 0 →
    (p ∉ in_use a) ∧ in_use a' = {[p]} ∪ in_use a ∧ OwnsPointer a' p = true;
  malloc_none a n a' : 0 ≤ n → MallocAlloc a n = (0, a') → in_use a' = in_use a;
  malloc_free a p : p ∈ in_use a → in_use (MallocFree a p) = in_use a ∖ {[p]};
  in_use_owned a p : p ∈ in_use a → OwnsPointer a p = true;
  wrap_empty q n k o : in_use (WrapRegion q n k o) = ∅;
}.

(** ** Malloc *)

Module Malloc.
Section Ops.
Context {H P : Type} `{AnallocMalloc H}.

Record Segment : Type := mkSegment { allocator : H; next : Z }.

(** The object, the segments by address (the memory of a segment is readable
    while it is in [segments]), and the state of the physical allocator below. *)
Record heap : Type := mkHeap {
  poolSize : Z;
  bigPages : bool;
  firstSegment : Z;
  segments : gmap Z Segment;
  backing : P;
}.

Definition set_first (p : Z) (h : heap) : heap :=
  mkHeap h.(poolSize) h.(bigPages) p h.(segments) h.(backing).
Definition set_segments (ss : gmap Z Segment) (h : heap) : heap :=
  mkHeap h.(poolSize) h.(bigPages) h.(firstSegment) ss h.(backing).
Definition set_backing (b : P) (h : heap) : heap :=
  mkHeap h.(poolSize) h.(bigPages) h.(firstSegment) h.(segments) b.

Section Methods.
Context `{AnsaLock heap}.
Abbreviation method := (M (machine heap)).

(** [AllocAndMap] and [FreeAndUnmap] of the physical allocator below. *)
Context (AllocAndMap : Z → bool → method (option Z)) (FreeAndUnmap : Z → Z → method unit).

(** [sizeof(Segment)]: two pointers and a lock. *)
Context (sizeofSegment : Z).

Definition this : method heap := gets alloc.
Definition update (f : heap → heap) : method unit := modify (λ s, set_alloc (f s.(alloc)) s).

(** [new Malloc(pool, allocator, bigPages)]. *)
Definition new (pool : Z) (big : bool) (b : P) : heap := mkHeap pool big 0 ∅ b.

(** [*segment] *)
Definition load_segment (p : Z) : method Segment :=
  h ← this;
  match h.(segments) !! p with
  | Some seg => mret seg
  | None => stop (PageFault p)
  end.

Definition store_segment (p : Z) (seg : Segment) : method unit :=
  update (λ h, set_segments (<[p := seg]> h.(segments)) h).

(** The critical section that reads [firstSegment]. *)
Definition read_first : method Z :=
  _ ← Seize FirstLock;
  h ← this;
  _ ← Release FirstLock;
  mret h.(firstSegment).

(** The body of the loop of [AllocNoNewSegment]: an address, or the next
    segment. *)
Definition alloc_in (size segment : Z) : method (Z * Z) :=
  ScopedLock (SegmentLock segment) (
    seg ← load_segment segment;
    let (addr, a) := MallocAlloc seg.(allocator) size in
    _ ← store_segment segment (mkSegment a seg.(next));
    mret (addr, seg.(next))).

Fixpoint alloc_loop (fuel : nat) (size segment : Z) : method (option Z) :=
  if truthy segment then
    match fuel with
    | O => stop OutOfFuel
    | S fuel' =>
        r ← alloc_in size segment;
        if truthy r.1 then mret (Some r.1) else alloc_loop fuel' size r.2
    end
  else mret None.

Definition AllocNoNewSegment (fuel : nat) (size : Z) : method (option Z) :=
  _ ← AssertNoncritical;
  segment ← read_first;
  alloc_loop fuel size segment.

Definition CreateSegment : method bool :=
  h ← this;
  r ← AllocAndMap h.(poolSize) h.(bigPages);
  match r with
  | None => mret false
  | Some freshMemory =>
      _ ← assert (negb (truthy (freshMemory mod 0x8))) "!(freshMemory % ANARCH_OBJECT_ALIGN)";
      let a := WrapRegion freshMemory h.(poolSize) 6 sizeofSegment in
      _ ← store_segment freshMemory (mkSegment a 0);
      _ ← ScopedLock FirstLock (
        h ← this;
        _ ← store_segment freshMemory (mkSegment a h.(firstSegment));
        update (set_first freshMemory));
      mret true
  end.

Definition Alloc (fuel : nat) (size : Z) : method (option Z) :=
  h ← this;
  if h.(poolSize) / 2 <=? size then mret None
  else
    r ← AllocNoNewSegment fuel size;
    match r with
    | Some addr => mret (Some addr)
    | None =>
        created ← CreateSegment;
        if (created : bool) then AllocNoNewSegment (S fuel) size else mret None
    end.

(** The loops of [Free] and [Owns], for at most [fuel] iterations: they test the
    same segment each time. *)
Fixpoint free_loop (fuel : nat) (addr segment : Z) : method unit :=
  if truthy segment then
    match fuel with
    | O => stop OutOfFuel
    | S fuel' =>
        freed ← ScopedLock (SegmentLock segment) (
          seg ← load_segment segment;
          if OwnsPointer seg.(allocator) addr then
            _ ← store_segment segment (mkSegment (MallocFree seg.(allocator) addr) seg.(next));
            mret true
          else mret false);
        if (freed : bool) then mret tt else free_loop fuel' addr segment
    end
  else panic "Malloc::Free() - unowned memory region".

Definition Free (fuel : nat) (addr : Z) : method unit :=
  _ ← AssertNoncritical;
  segment ← read_first;
  free_loop fuel addr segment.

Fixpoint owns_loop (fuel : nat) (ptr segment : Z) : method bool :=
  if truthy segment then
    match fuel with
    | O => stop OutOfFuel
    | S fuel' =>
        owns ← ScopedLock (SegmentLock segment) (
          seg ← load_segment segment;
          mret (OwnsPointer seg.(allocator) ptr));
        if (owns : bool) then mret true else owns_loop fuel' ptr segment
    end
  else mret false.

Definition Owns (fuel : nat) (ptr : Z) : method bool :=
  _ ← AssertNoncritical;
  segment ← read_first;
  owns_loop fuel ptr segment.

(** The destructor's loop. *)
Fixpoint destroy_loop (fuel : nat) : method unit :=
  h ← this;
  if truthy h.(firstSegment) then
    match fuel with
    | O => stop OutOfFuel
    | S fuel' =>
        seg ← load_segment h.(firstSegment);
        _ ← FreeAndUnmap seg.(next) h.(poolSize);
        _ ← update (set_first seg.(next));
        destroy_loop fuel'
    end
  else mret tt.

Definition destroy (fuel : nat) : method unit :=
  _ ← AssertNoncritical;
  destroy_loop fuel.
End Methods.
End Ops.
Arguments Segment : clear implicits.
Arguments heap : clear implicits.
End Malloc.

(** [GlobalMalloc::Initialize]: the heap of the kernel, over the allocator of the
    kernel map; [GetAllocator] returns it. *)
Module GlobalMalloc.
Definition Initialize {H P S : Type} (GetPageAllocator : P) : M (machine S) (Malloc.heap H P) :=
  _ ← put_text "Initializing GlobalMalloc...";
  let malloc := Malloc.new 0x200000 true GetPageAllocator in
  _ ← put_text " [OK]";
  _ ← put_endl;
  mret malloc.
End GlobalMalloc.

(** ** Segments and pointers in use *)

Section Facts.
Context {H P : Type} `{MallocLaws H, !AnsaLock (Malloc.heap H P), !LockLaws (Malloc.heap H P)}.
Context (AllocAndMap : Z → bool → M (machine (Malloc.heap H P)) (option Z)) (sizeofSegment : Z).
Import Malloc.
Implicit Types (s : machine (heap H P)) (segs : gmap Z (Segment H)).

(** [l] is the list of segments that starts at [p]. *)
Fixpoint chain segs (p : Z) (l : list Z) : Prop :=
  match l with
  | [] => p = 0
  | q :: l => p = q ∧ q ≠ 0 ∧ ∃ seg, segs !! q = Some seg ∧ chain segs seg.(next) l
  end.

Lemma chain_insert segs p l q seg seg' :
  chain segs p l → segs !! q = Some seg → seg'.(next) = seg.(next) →
  chain (<[q := seg']> segs) p l.
Proof.
  revert p. induction l as [|r l IH]; intros p; cbn; [done|].
  intros (-> & Hr & sr & Hsr & Hl) Hq Hn. split_and!; try done.
  destruct (decide (q = r)) as [->|Hne].
  - rewrite lookup_insert_eq. exists seg'. split; [done|]. rewrite Hn.
    assert (seg = sr) as -> by congruence. by apply IH.
  - rewrite lookup_insert_ne by done. exists sr. split; [done|]. by apply IH.
Qed.

Lemma chain_fresh segs p l q seg : chain segs p l → segs !! q = None → chain (<[q := seg]> segs) p l.
Proof.
  revert p. induction l as [|r l IH]; intros p; cbn; [done|].
  intros (-> & Hr & sr & Hsr & Hl) Hq. split_and!; try done. exists sr.
  rewrite lookup_insert_ne by congruence. split; [done|by apply IH].
Qed.

(** The kernel's heap starts without segments, with pools of 2 MiB. *)
Lemma run_GlobalMalloc {S} (b : P) (s : machine S) :
  ∃ (h : heap H P) (s' : machine S), GlobalMalloc.Initialize b s = Ok (h, s')
    ∧ chain h.(segments) h.(firstSegment) [] ∧ h.(poolSize) = 0x200000
    ∧ s'.(alloc) = s.(alloc) ∧ s'.(mem) = s.(mem) ∧ s'.(held) = s.(held).
Proof.
  unfold GlobalMalloc.Initialize, put_text, put_endl, emit. eexists (new _ _ _), _.
  do 3 (erewrite run_bind; [|apply run_modify]). done.
Qed.

(** The pointers in use, by segment. *)
Definition used segs : gmap Z (gset Z) := (λ seg, in_use seg.(allocator)) <$> segs.

Definition upd s segs : machine (heap H P) := set_alloc (set_segments segs s.(alloc)) s.

Lemma upd_upd s segs segs' : upd (upd s segs) segs' = upd s segs'.
Proof. done. Qed.

Lemma run_read_first s : s.(held) = [] → read_first s = Ok (s.(alloc).(firstSegment), s).
Proof.
  intros Hh. unfold read_first. run seize_free; [|rewrite Hh; apply not_elem_of_nil].
  unfold this. run run_gets. run release_held; [|done]. by destruct s.
Qed.

Lemma run_load_segment s q seg :
  s.(alloc).(segments) !! q = Some seg → load_segment q s = Ok (seg, s).
Proof. intros Hq. unfold load_segment, this. run run_gets. by rewrite Hq. Qed.

Lemma run_alloc_in s q seg size a h :
  s.(held) = [] → s.(alloc).(segments) !! q = Some seg → MallocAlloc seg.(allocator) size = (a, h) →
  alloc_in size q s
  = Ok ((a, seg.(next)), upd s (<[q := mkSegment h seg.(next)]> s.(alloc).(segments))).
Proof.
  intros Hh Hq Ha. unfold alloc_in.
  erewrite run_ScopedLock; [|rewrite Hh; apply not_elem_of_nil| |].
  2: { run (run_load_segment _ q seg); [|done]. rewrite Ha.
       unfold store_segment, update. run run_modify. done. }
  - by destruct s.
  - done.
Qed.

(** An allocation in one of the segments of [l], or none. *)
Definition alloc_result segs (l : list Z) (r : option Z) segs' : Prop :=
  match r with
  | None => used segs' = used segs
  | Some p => ∃ q us, q ∈ l ∧ used segs !! q = Some us ∧ (p ∉ us)
      ∧ used segs' = <[q := {[p]} ∪ us]> (used segs)
      ∧ ∃ seg, segs' !! q = Some seg ∧ OwnsPointer seg.(allocator) p = true
  end.

Lemma used_insert segs q seg :
  used (<[q := seg]> segs) = <[q := in_use seg.(allocator)]> (used segs).
Proof. unfold used. by rewrite fmap_insert. Qed.

Lemma run_segment_loop fuel s p l pre first size :
  s.(held) = [] → 0 ≤ size → chain s.(alloc).(segments) p l → (length l ≤ fuel)%nat →
  chain s.(alloc).(segments) first pre →
  ∃ r segs', alloc_loop fuel size p s = Ok (r, upd s segs')
    ∧ chain segs' first pre ∧ alloc_result s.(alloc).(segments) l r segs'.
Proof.
  intros Hh Hsize. revert s p l Hh. induction fuel as [|fuel IH]; intros s p l Hh Hc Hf Hpre;
    (destruct l as [|q l]; cbn in Hc; [subst p|destruct Hc as (-> & Hq0 & seg & Hq & Hc)]).
  1,3: exists None, s.(alloc).(segments); (split; [by destruct s as [? ? ? ? ? ? ? []]|done]).
  { cbn in Hf. lia. }
  cbn [alloc_loop]. rewrite (proj2 (truthy_true q)) by done.
  destruct (MallocAlloc (allocator seg) size) as [a h] eqn:Ha.
  run run_alloc_in; [|done..]. cbn [fst snd].
  set (segs1 := <[q := mkSegment h seg.(next)]> s.(alloc).(segments)).
  destruct (truthy a) eqn:Ea; [apply truthy_true in Ea|apply truthy_false in Ea as ->].
  - eexists (Some a), segs1. split; [done|].
    split; [by eapply chain_insert|].
    destruct (malloc_some _ _ _ _ Hsize Ha Ea) as (Hnew & Hu & Ho).
    exists q, (in_use (allocator seg)). split_and!; [by left| |done| |].
    + unfold used. by rewrite lookup_fmap, Hq.
    + unfold segs1. by rewrite used_insert, <-Hu.
    + eexists. unfold segs1. by rewrite lookup_insert_eq.
  - apply malloc_none in Ha; [|done].
    assert (Hsame : used segs1 = used s.(alloc).(segments)).
    { unfold segs1. rewrite used_insert. cbn. rewrite Ha. apply insert_id.
      unfold used. by rewrite lookup_fmap, Hq. }
    destruct (IH (upd s segs1) (next seg) l) as (r & segs' & Hr & Hp & Hres); try done.
    { by eapply chain_insert. }
    { cbn in Hf. lia. }
    { by eapply chain_insert. }
    exists r, segs'. split; [done|]. split; [done|]. cbn [alloc segments upd set_alloc set_segments] in Hres.
    destruct r as [p|]; [|cbn in *; by rewrite Hres].
    destruct Hres as (q' & us & ? & ? & ? & ? & ?). exists q', us.
    rewrite <-Hsame. split_and!; try done. by right.
Qed.

(** ** Allocation *)

(** The physical allocator changes only its own state, and gives pools that are
    aligned and hold no segment. *)
Definition backing_ok : Prop := ∀ s n b, noncritical s → s.(held) = [] →
  ∃ r bk, AllocAndMap n b s = Ok (r, set_alloc (set_backing bk s.(alloc)) s) ∧
    match r with
    | Some q => q ≠ 0 ∧ q mod 8 = 0 ∧ s.(alloc).(segments) !! q = None
    | None => True
    end.

(** The result of an allocation from the state [s] with segments [l]: the
    segments stay, with possibly an empty one before them, and the only change to
    the pointers in use is that the result joins those of one segment. *)
Definition malloc_post s (l : list Z) (r : option Z) s' : Prop :=
  ∃ u0 l0,
    (u0 = used s.(alloc).(segments) ∧ l0 = l
     ∨ ∃ q, used s.(alloc).(segments) !! q = None
         ∧ u0 = <[q := ∅]> (used s.(alloc).(segments)) ∧ l0 = q :: l)
    ∧ chain s'.(alloc).(segments) s'.(alloc).(firstSegment) l0
    ∧ match r with
      | None => used s'.(alloc).(segments) = u0
      | Some p => ∃ q us, q ∈ l0 ∧ u0 !! q = Some us ∧ (p ∉ us)
          ∧ used s'.(alloc).(segments) = <[q := {[p]} ∪ us]> u0
          ∧ ∃ seg, s'.(alloc).(segments) !! q = Some seg ∧ OwnsPointer seg.(allocator) p = true
      end
    ∧ s' = set_alloc s'.(alloc) s ∧ s'.(alloc).(poolSize) = s.(alloc).(poolSize).

Lemma run_AllocNoNewSegment fuel s l size :
  noncritical s → s.(held) = [] → 0 ≤ size →
  chain s.(alloc).(segments) s.(alloc).(firstSegment) l → (length l ≤ fuel)%nat →
  ∃ r segs', AllocNoNewSegment fuel size s = Ok (r, upd s segs')
    ∧ chain segs' s.(alloc).(firstSegment) l ∧ alloc_result s.(alloc).(segments) l r segs'.
Proof.
  intros Hn Hh Hsize Hc Hf. unfold AllocNoNewSegment.
  run run_AssertNoncritical; [|done]. run run_read_first; [|done].
  by apply run_segment_loop.
Qed.

Lemma run_CreateSegment s q bk :
  s.(held) = [] → q mod 8 = 0 →
  AllocAndMap s.(alloc).(poolSize) s.(alloc).(bigPages) s
    = Ok (Some q, set_alloc (set_backing bk s.(alloc)) s) →
  ∃ s', CreateSegment AllocAndMap sizeofSegment s = Ok (true, s')
    ∧ s' = set_alloc s'.(alloc) s ∧ s'.(alloc).(firstSegment) = q
    ∧ s'.(alloc).(poolSize) = s.(alloc).(poolSize)
    ∧ s'.(alloc).(segments) = <[q := mkSegment
        (WrapRegion q s.(alloc).(poolSize) 6 sizeofSegment) s.(alloc).(firstSegment)]>
        s.(alloc).(segments).
Proof.
  intros Hh Hq Hr. unfold CreateSegment, this. run run_gets. run Hr. cbn beta iota.
  run_assert ltac:(by rewrite Hq). unfold store_segment at 1, update. run run_modify.
  erewrite run_bind; cycle 1.
  { eapply run_ScopedLock; [cbn; rewrite Hh; apply not_elem_of_nil| |].
    - run run_gets. unfold store_segment, update. run run_modify. apply run_modify.
    - done. }
  eexists. split; [done|]. destruct s as [? ? ? ? ? hs ? h]. cbn in *. subst hs.
  split_and!; try done. by rewrite insert_insert_eq.
Qed.

(** C16. [Malloc::Alloc] ends on every heap whose segments are a list: the result
    is a pointer that was not in use, of a segment that owns it, and no other
    pointer's state changes; it adds at most one segment, and only when the
    others are full. *)
Theorem Malloc_Alloc_correct fuel s l size :
  backing_ok → noncritical s → s.(held) = [] → 0 ≤ size →
  chain s.(alloc).(segments) s.(alloc).(firstSegment) l → (length l ≤ fuel)%nat →
  ∃ r s', Alloc AllocAndMap sizeofSegment fuel size s = Ok (r, s') ∧ malloc_post s l r s'
    ∧ (s.(alloc).(poolSize) / 2 ≤ size → r = None).
Proof.
  intros Hback Hn Hh Hsize Hc Hf. unfold Alloc, this at 1. run run_gets.
  destruct (Z.leb_spec (poolSize (alloc s) / 2) size) as [Hbig|Hsmall].
  { exists None, s. split; [done|]. split; [|done]. exists (used (segments (alloc s))), l.
    split_and!; try done; [by left|by destruct s]. }
  destruct (run_AllocNoNewSegment fuel s l size) as (r & segs1 & Hr & Hc1 & Hres1); try done.
  run Hr. destruct r as [p|].
  { exists (Some p), (upd s segs1). split; [done|]. split; [|lia].
    exists (used (segments (alloc s))), l. split_and!; try done; by left. }
  cbn in Hres1. set (s1 := upd s segs1).
  destruct (Hback s1 s1.(alloc).(poolSize) s1.(alloc).(bigPages)) as (r & bk & Hb & Hq); [done|done|].
  destruct r as [q|]; cycle 1.
  { erewrite run_bind; cycle 1.
    { unfold CreateSegment, this. run run_gets. run Hb. done. }
    cbn beta iota. eexists None, _. split; [done|]. split; [|lia].
    exists (used (segments (alloc s))), l. split_and!; try done; by left. }
  destruct Hq as (Hq0 & Hq8 & Hqn).
  destruct (run_CreateSegment s1 q bk Hh Hq8 Hb) as (s2 & Hcr & Hs2 & Hfst & Hpool & Hsegs).
  run Hcr. cbn beta iota.
  assert (Hn2 : noncritical s2) by (rewrite Hs2; exact Hn).
  assert (Hh2 : s2.(held) = []) by (rewrite Hs2; exact Hh).
  destruct (run_AllocNoNewSegment (S fuel) s2 (q :: l) size) as (r & segs3 & Hr3 & Hc3 & Hres3); try done.
  { rewrite Hfst, Hsegs. split_and!; try done. rewrite lookup_insert_eq.
    eexists. split; [done|]. by apply chain_fresh. }
  { cbn. lia. }
  assert (Hu2 : used s2.(alloc).(segments) = <[q := ∅]> (used s.(alloc).(segments))).
  { rewrite Hsegs, used_insert. cbn [allocator]. rewrite wrap_empty.
    change (segments (alloc s1)) with segs1. by rewrite Hres1. }
  exists r, (upd s2 segs3). split; [done|]. split; [|lia].
  exists (<[q := ∅]> (used s.(alloc).(segments))), (q :: l). rewrite <-Hu2. split_and!.
  - right. exists q. split_and!; [|done|done]. rewrite <-Hres1. unfold used.
    rewrite lookup_fmap. cbn in Hqn. by rewrite Hqn.
  - exact Hc3.
  - exact Hres3.
  - cbn. by rewrite Hs2.
  - exact Hpool.
Qed.

(** ** Release *)

(** The first segment of a heap, when the pointer is not one of its own: the
    body of the loop leaves the heap as it was. *)
Lemma run_free_loop_stuck fuel s q seg p :
  s.(held) = [] → s.(alloc).(segments) !! q = Some seg → q ≠ 0 →
  OwnsPointer seg.(allocator) p = false → free_loop fuel p q s = Stop OutOfFuel.
Proof.
  intros Hh Hq Hq0 Ho. induction fuel as [|fuel IH]; cbn [free_loop];
    rewrite (proj2 (truthy_true q)) by done; [done|].
  erewrite run_bind; cycle 1.
  { eapply run_ScopedLock; [rewrite Hh; apply not_elem_of_nil| |].
    - run run_load_segment; [|exact Hq]. rewrite Ho. done.
    - done. }
  cbn beta iota. cbn [held set_held]. by destruct s.
Qed.

(** C17. [Malloc::Free] releases a pointer of the first segment, and only that
    pointer; on an empty heap it panics; and a pointer that belongs to any other
    segment sends it round its loop for ever, because the loop does not move to
    the next segment: no number of iterations is enough. *)
Theorem Malloc_Free_first_segment_only s l p :
  noncritical s → s.(held) = [] → chain s.(alloc).(segments) s.(alloc).(firstSegment) l →
  match l with
  | [] => ∀ fuel, Free fuel p s = Stop (Panic "Malloc::Free() - unowned memory region")
  | q :: _ => ∃ us, used s.(alloc).(segments) !! q = Some us ∧
      (p ∈ us → ∀ fuel, ∃ segs', Free (S fuel) p s = Ok (tt, upd s segs')
         ∧ used segs' = <[q := us ∖ {[p]}]> (used s.(alloc).(segments)))
      ∧ ((∀ seg, s.(alloc).(segments) !! q = Some seg → OwnsPointer seg.(allocator) p = false) →
         ∀ fuel, Free fuel p s = Stop OutOfFuel)
  end.
Proof.
  intros Hn Hh Hc. unfold Free.
  assert (Hpre : ∀ fuel, (_ ← AssertNoncritical; segment ← read_first; free_loop fuel p segment) s
    = free_loop fuel p s.(alloc).(firstSegment) s).
  { intros fuel. run run_AssertNoncritical; [|done]. by run run_read_first. }
  destruct l as [|q l]; cbn in Hc.
  { intros fuel. rewrite Hpre, Hc. by destruct fuel. }
  destruct Hc as (Hfst & Hq0 & seg & Hq & _). rewrite Hfst in Hpre.
  exists (in_use (allocator seg)). split_and!.
  - unfold used. by rewrite lookup_fmap, Hq.
  - intros Hp fuel. rewrite Hpre. cbn [free_loop]. rewrite (proj2 (truthy_true q)) by done.
    exists (<[q := mkSegment (MallocFree seg.(allocator) p) seg.(next)]> s.(alloc).(segments)). split.
    { erewrite run_bind; cycle 1.
      { eapply run_ScopedLock; [rewrite Hh; apply not_elem_of_nil| |].
        - run run_load_segment; [|exact Hq]. rewrite in_use_owned by done.
          unfold store_segment, update. run run_modify. done.
        - done. }
      cbn beta iota. destruct s as [? ? ? ? ? hs ? h]; cbn in *; subst hs. reflexivity. }
    rewrite used_insert. cbn [allocator]. by rewrite malloc_free.
  - intros Ho fuel. rewrite Hpre. by eapply run_free_loop_stuck; [..|apply Ho].
Qed.
End Facts.

(** ** Examples *)

(** A pool that hands out ever higher addresses. *)
Module Pool.
Record pool : Type := mkPool { start : Z; limit : Z; top : Z; live : gset Z }.

#[export] Instance pool_malloc : AnallocMalloc pool := {
  WrapRegion q n _ o := mkPool q (q + n) (Z.max 1 (q + o)) ∅;
  MallocAlloc h n :=
    if (h.(top) + n <=? h.(limit)) && (0 <? h.(top)) && (h.(start) <=? h.(top))
       && negb (bool_decide (h.(top) ∈ h.(live)))
    then (h.(top), mkPool h.(start) (h.(limit) + 1) (h.(top) + Z.max 1 n) ({[h.(top)]} ∪ h.(live)))
    else (0, h);
  MallocFree h p := mkPool h.(start) h.(limit) h.(top) (h.(live) ∖ {[p]});
  OwnsPointer h p := bool_decide (p ∈ h.(live)) || (h.(start) <=? p) && (p <? h.(limit));
}.

#[export] Instance pool_laws : MallocLaws pool.
Proof.
  refine {| in_use := live |}; cbn.
  - intros h n p h' Hn. destruct (_ && _) eqn:E; [|by intros [= <- <-]].
    intros [= <- <-] _. cbn. rewrite !andb_true_iff, negb_true_iff, bool_decide_eq_false in E.
    split_and!; [tauto|done|]. rewrite bool_decide_true; [done|set_solver].
  - intros h n h' Hn. destruct (_ && _) eqn:E; [|by intros [= <-]].
    rewrite !andb_true_iff, Z.ltb_lt in E. intros [= ? _]. lia.
  - done.
  - intros h p Hp. by rewrite bool_decide_true.
  - done.
Defined.
End Pool.

Section Witness.
Import Pool Malloc.

(** The physical allocator below: pools from 1 MiB up. *)
Definition pools (n : Z) (big : bool) : M (machine (heap pool Z)) (option Z) := λ s,
  let q := s.(alloc).(backing) in
  if decide (q ≠ 0 ∧ q mod 8 = 0 ∧ s.(alloc).(segments) !! q = None)
  then Ok (Some q, set_alloc (set_backing (q + n) s.(alloc)) s)
  else Ok (None, set_alloc (set_backing q s.(alloc)) s).

Lemma pools_ok : backing_ok pools.
Proof.
  intros s n b _ _. unfold pools. destruct (decide _) as [Hq|Hq]; eexists _, _; (split; [done|]); done.
Qed.

Definition empty_heap : machine (heap pool Z) := idle_machine (new 0x1000 true 0x100000).

Lemma Malloc_Alloc_correct_witness :
  ∃ s', Alloc pools 0x20 0 0x40 empty_heap = Ok (Some 0x100020, s')
    ∧ s'.(alloc).(firstSegment) = 0x100000.
Proof.
  destruct (Malloc_Alloc_correct pools 0x20 0 empty_heap [] 0x40) as (r & s' & Hr & _ & _);
    [exact pools_ok|by right|done|lia|done|cbn; lia|].
  assert (Hv : match Alloc pools 0x20 0 0x40 empty_heap with
    | Ok (r, s') => r = Some 0x100020 ∧ s'.(alloc).(firstSegment) = 0x100000
    | Stop _ => False end) by (vm_compute; by split).
  rewrite Hr in Hv. exists s'. destruct Hv as [-> ?]. by split.
Defined.

(** Two segments with one pointer each. *)
Definition two_segments : machine (heap pool Z) :=
  idle_machine (mkHeap 0x1000 true 0x200000 {[
    0x200000 := mkSegment (mkPool 0x200000 0x201000 0x200030 {[0x200020]}) 0x100000;
    0x100000 := mkSegment (mkPool 0x100000 0x101000 0x100030 {[0x100020]}) 0 ]} 0x300000).

(** The pointer of the second segment is never freed. *)
Lemma Malloc_Free_first_segment_only_witness :
  Free 1000 0x100020 two_segments = Stop OutOfFuel.
Proof.
  destruct (Malloc_Free_first_segment_only two_segments [0x200000; 0x100000] 0x100020)
    as (us & _ & _ & Hstuck); [by right|done|..].
  - cbn. split_and!; try done. eexists. split; [reflexivity|]. split_and!; try done.
    eexists. by split; [reflexivity|].
  - apply Hstuck. intros seg [= <-]. reflexivity.
Defined.
End Witness.
