(* ===== verification/Tlb.v ===== *)
(** * TLB shootdown

    Tlb (src/arch/x64/vmm/tlb.cpp).  The part that runs on one processor is a
    computation over the contents of its translation cache; the distribution of
    an invalidation over processors, with the interrupt handlers it waits for, is
    a step relation in which every atomic access to the shared variables is a
    step of its own, so that all interleavings are covered. *)

From stdpp Require Import base numbers list gmap fin_sets functions strings.
From Stdlib Require Import ZArith Lia.
From S2P Require Import Prelude Machine PageTable Concrete.
#[local] Open Scope Z_scope.

(** ** The translation cache of a processor *)

(** A cached translation, at the granularity of 4 KiB pages; [stale] marks those
    made from page-table entries that have changed since. *)
Record entry : Type := mkEntry { page : Z; global : bool; stale : bool }.

Abbreviation tlb := (list entry).

Module Tlb.

(** [invlpg]: drops the translation of the page of [addr]. *)
Definition invlpg (addr : Z) : M (machine tlb) unit :=
  modify (λ s, set_alloc
    (List.filter (λ e, negb (e.(page) =? addr / 0x1000 * 0x1000)) s.(alloc)) s).

(** Clearing and setting CR4.PGE drops every translation. *)
Definition toggle_pge : M (machine tlb) unit := modify (set_alloc []).

(** Writing CR3 drops the translations that are not global. *)
Definition reload_cr3 : M (machine tlb) unit :=
  modify (λ s, set_alloc (List.filter (λ e, e.(global)) s.(alloc)) s).

Definition Invlpg (addr : Z) : M (machine tlb) unit :=
  _ ← AssertCritical;
  invlpg addr.

Fixpoint invlpg_loop (fuel : nat) (addr stop_ : Z) : M (machine tlb) unit :=
  if addr <? stop_ then
    match fuel with
    | O => stop OutOfFuel
    | S fuel' => _ ← invlpg addr; invlpg_loop fuel' (addr +u 0x1000) stop_
    end
  else mret tt.

(** The loop runs for ranges of at most 0x200000 bytes: 512 pages, and one more
    for a start that is not aligned. *)
Definition loop_fuel : nat := 513.

Definition Invlpgs (start size : Z) : M (machine tlb) unit :=
  _ ← AssertCritical;
  if 0x200000 <? size then
    if start +u size <? PageTable.KernelEnd then toggle_pge else reload_cr3
  else invlpg_loop loop_fuel start (start +u size).

(** [DistributeInvlpg] before the module is initialized: this processor only. *)
Definition DistributeInvlpg_early (start size : Z) : M (machine tlb) unit :=
  _ ← AssertNoncritical;
  ScopedCritical (Invlpgs start size).
End Tlb.

(** ** The processors *)

(** How far the handler of a processor is: between [Invlpgs] and the decrement,
    or between the decrement and the end of the interrupt. *)
Inductive handler_pc : Type := HIdle | HFlushed | HCounted.

(** The distribution that holds the lock: the processor it runs on, the range,
    the map to look for ([None]: [DistributeKernel]), the processors an IPI was
    sent to and counted, those the loop has still to look at, and whether the IPI
    of the first of them has been sent but not counted. *)
Record round : Type := mkRound {
  current : Z;
  start : Z;
  size : Z;
  map : option Z;
  sent : list Z;
  rest : list Z;
  mid : bool;
}.

Inductive phase : Type :=
  | Idle
  | Sending (r : round)
  | Waiting (r : round).

Record world : Type := mkWorld {
  cpus : list Z;             (* local APIC ids of the domain list *)
  tlbs : Z → tlb;
  currentMap : Z → Z;        (* Cpu::currentMap *)
  pending : gset Z;          (* processors with an Invlpg interrupt pending *)
  handler : Z → handler_pc;
  ph : phase;
  invlAddress : Z;
  invlSize : Z;
  ipiCount : Z;
  acked : gset Z;            (* processors that decremented in this round *)
}.

Definition set_tlbs f (w : world) : world :=
  mkWorld w.(cpus) f w.(currentMap) w.(pending) w.(handler) w.(ph) w.(invlAddress)
    w.(invlSize) w.(ipiCount) w.(acked).
Definition set_phase p (w : world) : world :=
  mkWorld w.(cpus) w.(tlbs) w.(currentMap) w.(pending) w.(handler) p w.(invlAddress)
    w.(invlSize) w.(ipiCount) w.(acked).
Definition set_pending p (w : world) : world :=
  mkWorld w.(cpus) w.(tlbs) w.(currentMap) p w.(handler) w.(ph) w.(invlAddress)
    w.(invlSize) w.(ipiCount) w.(acked).
Definition set_handler h (w : world) : world :=
  mkWorld w.(cpus) w.(tlbs) w.(currentMap) w.(pending) h w.(ph) w.(invlAddress)
    w.(invlSize) w.(ipiCount) w.(acked).
Definition set_count n a (w : world) : world :=
  mkWorld w.(cpus) w.(tlbs) w.(currentMap) w.(pending) w.(handler) w.(ph) w.(invlAddress)
    w.(invlSize) n a.
Definition set_maps f (w : world) : world :=
  mkWorld w.(cpus) w.(tlbs) f w.(pending) w.(handler) w.(ph) w.(invlAddress)
    w.(invlSize) w.(ipiCount) w.(acked).
Definition set_request a n (w : world) : world :=
  mkWorld w.(cpus) w.(tlbs) w.(currentMap) w.(pending) w.(handler) w.(ph) a n 0 ∅.

(** A processor in an interrupt handler or a critical section. *)
Definition on_cpu (t : tlb) : machine tlb := Machine _ ∅ 0x1000 false true ∅ [] [] t.

(** [WillSetAddressSpace] on processor [c]. *)
Definition WillSetAddressSpace (c m : Z) (w : world) : world :=
  set_maps (<[c := m]> w.(currentMap)) w.

(** The start of a distribution, with the lock: the page tables have changed, so
    every cached translation of the range is stale; the processor flushes its own
    and stores the request. *)
Definition in_range (st n : Z) (e : entry) : bool :=
  (st <=? e.(page)) && (e.(page) <? st + n).

Definition mark (st n : Z) (t : tlb) : tlb :=
  (λ e, if in_range st n e then mkEntry e.(page) e.(global) true else e) <$> t.

Definition begin_round (c st n : Z) (w : world) : round :=
  mkRound c st n
    (if st <? PageTable.KernelEnd then None else Some (w.(currentMap) c)) [] w.(cpus) false.

(** [cpu->currentMap != map || cpu == current], [cpu == current] *)
Definition skips (r : round) (maps : Z → Z) (c : Z) : bool :=
  (c =? r.(current)) || match r.(map) with Some m => negb (maps c =? m) | None => false end.

Inductive step (w : world) : world → Prop :=
  (** A processor caches a translation from the tables as they are now. *)
  | step_fill c e : e.(stale) = false → e.(page) mod 0x1000 = 0 →
      (e.(global) = true → e.(page) < PageTable.KernelEnd) →
      step w (set_tlbs (<[c := e :: w.(tlbs) c]> w.(tlbs)) w)
  (** A processor is about to load an address space. *)
  | step_map c m : step w (WillSetAddressSpace c m w)
  (** [DistributeInvlpg] seizes the lock. *)
  | step_begin c st n t s :
      w.(ph) = Idle → c ∈ w.(cpus) →
      Tlb.Invlpgs st n (on_cpu (mark st n (w.(tlbs) c))) = Ok (tt, s) → t = s.(alloc) →
      st mod 0x1000 = 0 → 0 ≤ st → 0 < n → st + n ≤ 2 ^ 64 - 0x1000 →
      (n ≤ 0x200000 ∨ st + n < PageTable.KernelEnd ∨ PageTable.KernelEnd ≤ st) →
      step w (set_phase (Sending (begin_round c st n w))
               (set_request st n (set_tlbs (<[c := t]> (λ c', mark st n (w.(tlbs) c'))) w)))
  (** The loop passes over a processor. *)
  | step_skip r c cs :
      w.(ph) = Sending r → r.(rest) = c :: cs → r.(mid) = false → skips r w.(currentMap) c = true →
      step w (set_phase (Sending (mkRound r.(current) r.(start) r.(size) r.(map) r.(sent) cs false)) w)
  (** [lapic.SendIpi(cpu->GetApicId(), IntVectors::Invlpg)] *)
  | step_send r c cs :
      w.(ph) = Sending r → r.(rest) = c :: cs → r.(mid) = false → skips r w.(currentMap) c = false →
      step w (set_phase (Sending (mkRound r.(current) r.(start) r.(size) r.(map) r.(sent) (c :: cs) true))
               (set_pending ({[c]} ∪ w.(pending)) w))
  (** [++ipiCount] *)
  | step_count r c cs :
      w.(ph) = Sending r → r.(rest) = c :: cs → r.(mid) = true →
      step w (set_phase (Sending (mkRound r.(current) r.(start) r.(size) r.(map) (c :: r.(sent)) cs false))
               (set_count (w.(ipiCount) + 1) w.(acked) w))
  (** The loop ends and the wait starts. *)
  | step_wait r :
      w.(ph) = Sending r → r.(rest) = [] → step w (set_phase (Waiting r) w)
  (** [while (ipiCount) {}] reads 0; the lock is released. *)
  | step_done r :
      w.(ph) = Waiting r → w.(ipiCount) = 0 → step w (set_phase Idle w)
  (** [HandleNotification] on processor [c]: the flush, the decrement, the end. *)
  | step_flush c t s :
      c ∈ w.(pending) → w.(handler) c = HIdle →
      Tlb.Invlpgs w.(invlAddress) w.(invlSize) (on_cpu (w.(tlbs) c)) = Ok (tt, s) → t = s.(alloc) →
      step w (set_handler (<[c := HFlushed]> w.(handler))
               (set_pending (w.(pending) ∖ {[c]}) (set_tlbs (<[c := t]> w.(tlbs)) w)))
  | step_decrement c :
      w.(handler) c = HFlushed →
      step w (set_handler (<[c := HCounted]> w.(handler))
               (set_count (w.(ipiCount) - 1) ({[c]} ∪ w.(acked)) w))
  | step_eoi c :
      w.(handler) c = HCounted → step w (set_handler (<[c := HIdle]> w.(handler)) w).

(** Before the first distribution. *)
Definition initial (w : world) : Prop :=
  NoDup w.(cpus) ∧ w.(ph) = Idle ∧ w.(pending) = ∅ ∧ (∀ c, w.(handler) c = HIdle)
  ∧ ∀ c e, e ∈ w.(tlbs) c →
      e.(page) mod 0x1000 = 0 ∧ (e.(global) = true → e.(page) < PageTable.KernelEnd).

Definition reachable (w : world) : Prop := ∃ w0, initial w0 ∧ rtc step w0 w.

(** ** What [Invlpgs] drops *)

Definition entry_ok (e : entry) : Prop :=
  e.(page) mod 0x1000 = 0 ∧ (e.(global) = true → e.(page) < PageTable.KernelEnd).

(** The ranges the code can flush: page aligned, not wrapping, and, when it is
    larger than 2 MiB and in the kernel half, not up to the half's very end. *)
Record range_ok (st n : Z) : Prop := {
  ro_align : st mod 0x1000 = 0;
  ro_pos : 0 ≤ st ∧ 0 < n;
  ro_end : st + n ≤ 2 ^ 64 - 0x1000;
  ro_kernel : n ≤ 0x200000 ∨ st + n < PageTable.KernelEnd ∨ PageTable.KernelEnd ≤ st;
}.

(** No stale translation of the range is left. *)
Definition clean (st n : Z) (t : tlb) : Prop :=
  ∀ e, e ∈ t → in_range st n e = true → e.(stale) = false.

(** The translations after [Invlpgs]: some of those before, none in the range. *)
Definition flushed (st n : Z) (t t' : tlb) : Prop :=
  ∀ e, e ∈ t' → e ∈ t ∧ (entry_ok e → in_range st n e = false).

Lemma in_range_false st n e : in_range st n e = false ↔ ¬ (st ≤ e.(page) < st + n).
Proof. unfold in_range. rewrite andb_false_iff, Z.leb_gt, Z.ltb_ge. lia. Qed.

Lemma elem_of_filter_bool (f : entry → bool) e t : e ∈ List.filter f t ↔ e ∈ t ∧ f e = true.
Proof. by rewrite !list_elem_of_In, filter_In. Qed.

Lemma run_invlpg_loop fuel a end_ t :
  a mod 0x1000 = 0 → 0 ≤ a → end_ ≤ 2 ^ 64 - 0x1000 → end_ - a ≤ Z.of_nat fuel * 0x1000 →
  ∃ t', Tlb.invlpg_loop fuel a end_ (on_cpu t) = Ok (tt, on_cpu t') ∧
    ∀ e, e ∈ t' → e ∈ t ∧ (e.(page) mod 0x1000 = 0 → ¬ (a ≤ e.(page) < end_)).
Proof.
  revert a t. induction fuel as [|fuel IH]; intros a t Ha Hpos Hend Hf; cbn [Tlb.invlpg_loop];
    (destruct (Z.ltb_spec a end_);
     [|exists t; split; [done|]; intros e He; split; [done|lia]]); [lia|].
  unfold Tlb.invlpg at 1. run run_modify. rewrite u64_small by (unfold is_u64; lia).
  destruct (IH (a + 0x1000) (List.filter (λ e, negb (page e =? a / 4096 * 4096)) t)) as (t' & Hr & Ht');
    [zlia|lia|done|lia|].
  exists t'. split; [exact Hr|]. intros e He. destruct (Ht' e He) as [Hin Hout].
  apply elem_of_filter_bool in Hin as [Hin Hne]. split; [done|]. intros Hal.
  specialize (Hout Hal). apply negb_true_iff, Z.eqb_neq in Hne. zlia.
Qed.

Lemma run_Invlpgs st n t : range_ok st n →
  ∃ t', Tlb.Invlpgs st n (on_cpu t) = Ok (tt, on_cpu t') ∧ flushed st n t t'.
Proof.
  intros [Ha [Hpos Hn] Hend Hk]. unfold Tlb.Invlpgs.
  run run_AssertCritical; [|by right]. rewrite u64_small by (unfold is_u64; lia).
  destruct (Z.ltb_spec 0x200000 n).
  - destruct (Z.ltb_spec (st + n) PageTable.KernelEnd).
    + exists []. split; [done|]. by intros e ?%not_elem_of_nil.
    + eexists. split; [unfold Tlb.reload_cr3; by rewrite run_modify|]. cbn.
      intros e [Hin Hg]%elem_of_filter_bool. split; [done|]. intros [_ He].
      apply in_range_false. specialize (He Hg). lia.
  - destruct (run_invlpg_loop Tlb.loop_fuel st (st + n) t) as (t' & Hr & Ht'); try done.
    { unfold Tlb.loop_fuel. lia. }
    exists t'. split; [done|]. intros e He. destruct (Ht' e He) as [Hin Hout]. split; [done|].
    intros [Hal _]. by apply in_range_false, Hout.
Qed.

Lemma flushed_clean st n t t' : (∀ e, e ∈ t → entry_ok e) → flushed st n t t' → clean st n t'.
Proof.
  intros Hok Hf e He Hr. destruct (Hf e He) as [Hin Hout]. rewrite Hout in Hr; [done|by apply Hok].
Qed.

Lemma flushed_ok st n t t' :
  (∀ e, e ∈ t → entry_ok e) → flushed st n t t' → ∀ e, e ∈ t' → entry_ok e.
Proof. intros Hok Hf e He. by apply Hok, Hf. Qed.

Lemma mark_ok st n t : (∀ e, e ∈ t → entry_ok e) → ∀ e, e ∈ mark st n t → entry_ok e.
Proof.
  intros Hok e (e' & -> & He')%list_elem_of_fmap. specialize (Hok e' He'). by case_match.
Qed.

(** ** The invariant *)

(** Where the request to a processor stands. *)
Inductive status : Type := SNone | SPending | SFlushed | SAcked.

Definition has_status (w : world) (c : Z) (st : status) : Prop :=
  match st with
  | SNone => (c ∉ w.(acked)) ∧ (c ∉ w.(pending)) ∧ w.(handler) c ≠ HFlushed
  | SPending => (c ∉ w.(acked)) ∧ (c ∈ w.(pending)) ∧ w.(handler) c ≠ HFlushed
  | SFlushed => (c ∉ w.(acked)) ∧ (c ∉ w.(pending)) ∧ w.(handler) c = HFlushed
  | SAcked => (c ∈ w.(acked)) ∧ (c ∉ w.(pending)) ∧ w.(handler) c ≠ HFlushed
  end.

(** The processors an IPI was sent to in this round. *)
Definition asked (r : round) : list Z := (if r.(mid) then take 1 r.(rest) else []) ++ r.(sent).

Record round_inv (w : world) (r : round) : Prop := {
  ri_request : w.(invlAddress) = r.(start) ∧ w.(invlSize) = r.(size);
  ri_range : range_ok r.(start) r.(size);
  ri_nodup : NoDup (r.(sent) ++ r.(rest));
  ri_mid : r.(mid) = true → r.(rest) ≠ [];
  ri_current : r.(current) ∉ asked r;
  ri_all : r.(map) = None → ∀ c, c ∈ w.(cpus) → c = r.(current) ∨ c ∈ r.(sent) ∨ c ∈ r.(rest);
  ri_count : w.(ipiCount) = Z.of_nat (length r.(sent)) - Z.of_nat (base.size w.(acked));
  ri_status : ∀ c, ∃ st, has_status w c st ∧ (st = SNone ↔ c ∉ asked r)
    ∧ (st = SFlushed ∨ st = SAcked → clean r.(start) r.(size) (w.(tlbs) c));
  ri_self : clean r.(start) r.(size) (w.(tlbs) r.(current));
}.

Record inv (w : world) : Prop := {
  in_nodup : NoDup w.(cpus);
  in_tlbs : ∀ c e, e ∈ w.(tlbs) c → entry_ok e;
  in_phase : match w.(ph) with
    | Idle => ∀ c, (c ∉ w.(pending)) ∧ w.(handler) c ≠ HFlushed
    | Sending r => round_inv w r
    | Waiting r => round_inv w r ∧ r.(rest) = [] ∧ r.(mid) = false
    end;
}.

Lemma initial_inv w : initial w → inv w.
Proof.
  intros (Hnd & Hph & Hp & Hh & Ht). split; [done|done|]. rewrite Hph. intros c.
  by rewrite Hp, Hh.
Qed.

(** The round of a phase. *)
Definition round_of (p : phase) : option round :=
  match p with Idle => None | Sending r | Waiting r => Some r end.

Lemma inv_round w r : inv w → round_of w.(ph) = Some r → round_inv w r.
Proof. intros [_ _ Hp] Hr. destruct (ph w); simplify_eq/=; by destruct Hp. Qed.

(** A change that concerns neither the phase nor the request keeps the invariant
    when it keeps the conditions on the handlers. *)
Lemma inv_keep w w' :
  inv w → w'.(cpus) = w.(cpus) → w'.(ph) = w.(ph) →
  (∀ c e, e ∈ w'.(tlbs) c → entry_ok e) →
  (w.(ph) = Idle → ∀ c, (c ∉ w'.(pending)) ∧ w'.(handler) c ≠ HFlushed) →
  (∀ r, round_of w.(ph) = Some r → round_inv w r → round_inv w' r) → inv w'.
Proof.
  intros [Hnd Ht Hp] Hc Hph Ht' Hidle Hround. split; [by rewrite Hc|done|].
  rewrite Hph. destruct (ph w) as [|r|r]; [by apply Hidle|by apply Hround|].
  destruct Hp as (? & ? & ?). split_and!; try done. by apply Hround.
Qed.

(** ** Every step keeps the invariant *)

Lemma has_status_fun w c st st' : has_status w c st → has_status w c st' → st = st'.
Proof. destruct st, st'; cbn; intuition congruence. Qed.

Lemma clean_fill st n t e : clean st n t → e.(stale) = false → clean st n (e :: t).
Proof. intros Hc He e' [->|Hin]%elem_of_cons; [done|by apply Hc]. Qed.

Lemma inv_fill w c e :
  inv w → e.(stale) = false → entry_ok e → inv (set_tlbs (<[c := e :: w.(tlbs) c]> w.(tlbs)) w).
Proof.
  intros Hi Hs He.
  assert (Hclean : ∀ st n c', clean st n (w.(tlbs) c') →
    clean st n ((<[c := e :: w.(tlbs) c]> w.(tlbs)) c')).
  { intros st n c' Hc. destruct (decide (c = c')) as [->|].
    - rewrite fn_lookup_insert. by apply clean_fill.
    - by rewrite fn_lookup_insert_ne. }
  eapply inv_keep; [exact Hi|done|done| | |]; cbn.
  - intros c' e'. destruct (decide (c = c')) as [->|].
    + rewrite fn_lookup_insert. intros [->|Hin]%elem_of_cons; [done|by eapply in_tlbs].
    + rewrite fn_lookup_insert_ne by done. by apply in_tlbs.
  - intros Hph. pose proof (in_phase _ Hi) as Hp. by rewrite Hph in Hp.
  - intros r _ []. split; try done; cbn.
    + intros c'. destruct (ri_status0 c') as (st & Hst & Hn & Hc). exists st. split_and!; try done.
      intros Hf. by apply Hclean, Hc.
    + by apply Hclean.
Qed.

Lemma inv_map w c m : inv w → inv (WillSetAddressSpace c m w).
Proof.
  intros Hi. pose proof Hi as [? ? Hp]. eapply inv_keep; [exact Hi|done|done|done| |].
  - intros Hph. by rewrite Hph in Hp.
  - intros r _ []. by split.
Qed.

Lemma inv_begin w c st n s :
  inv w → w.(ph) = Idle → c ∈ w.(cpus) →
  Tlb.Invlpgs st n (on_cpu (mark st n (w.(tlbs) c))) = Ok (tt, s) → range_ok st n →
  inv (set_phase (Sending (begin_round c st n w))
        (set_request st n (set_tlbs (<[c := s.(alloc)]> (λ c', mark st n (w.(tlbs) c'))) w))).
Proof.
  intros [Hnd Ht Hp] Hph Hc Hrun Hr. rewrite Hph in Hp.
  assert (Hmark : ∀ c e, e ∈ mark st n (w.(tlbs) c) → entry_ok e) by (intros c'; apply mark_ok, Ht).
  destruct (run_Invlpgs st n (mark st n (w.(tlbs) c)) Hr) as (t' & Hrun' & Hf).
  rewrite Hrun in Hrun'. injection Hrun' as ->. cbn [alloc on_cpu].
  split; cbn; [done| |].
  - intros c' e. destruct (decide (c = c')) as [->|].
    + rewrite fn_lookup_insert. eapply flushed_ok; [by apply Hmark|done].
    + rewrite fn_lookup_insert_ne by done. by apply Hmark.
  - split; cbn; try done.
    + by intros ?%not_elem_of_nil.
    + intros _ c' Hin. by right; right.
    + intros c'. exists SNone. destruct (Hp c') as [? ?]. split; [|split].
      * split; [apply not_elem_of_empty|done].
      * split; [intros _; apply not_elem_of_nil|done].
      * by intros [|].
    + rewrite fn_lookup_insert. eapply flushed_clean; [by apply Hmark|done].
Qed.

Lemma inv_skip w r c cs :
  inv w → w.(ph) = Sending r → r.(rest) = c :: cs → r.(mid) = false → skips r w.(currentMap) c = true →
  inv (set_phase (Sending (mkRound r.(current) r.(start) r.(size) r.(map) r.(sent) cs false)) w).
Proof.
  intros Hi Hph Hrest Hmid Hskip. pose proof (inv_round w r Hi) as Hr. rewrite Hph in Hr.
  specialize (Hr eq_refl). destruct Hi as [Hnd Ht Hp]. split; [done|done|]. cbn.
  destruct Hr. unfold asked in *. rewrite Hmid, Hrest in *. split; cbn; try done.
  - rewrite <-Permutation_middle in ri_nodup0. apply NoDup_cons in ri_nodup0. tauto.
  - intros Hm c' Hc'. destruct (ri_all0 Hm c' Hc') as [?|[?|[->|?]%elem_of_cons]]; auto.
    unfold skips in Hskip. rewrite Hm, orb_false_r in Hskip. apply Z.eqb_eq in Hskip. auto.
Qed.

Lemma inv_send w r c cs :
  inv w → w.(ph) = Sending r → r.(rest) = c :: cs → r.(mid) = false → skips r w.(currentMap) c = false →
  inv (set_phase (Sending (mkRound r.(current) r.(start) r.(size) r.(map) r.(sent) (c :: cs) true))
        (set_pending ({[c]} ∪ w.(pending)) w)).
Proof.
  intros Hi Hph Hrest Hmid Hskip. pose proof (inv_round w r Hi) as Hr. rewrite Hph in Hr.
  specialize (Hr eq_refl). destruct Hi as [Hnd Ht Hp]. split; [done|done|]. cbn.
  destruct Hr. unfold asked in *. rewrite Hmid, Hrest in *. cbn [app] in *.
  assert (Hc : c ∉ r.(sent)).
  { rewrite <-Permutation_middle in ri_nodup0. apply NoDup_cons in ri_nodup0 as [Hn _].
    intros Hin. apply Hn, elem_of_app. by left. }
  split; cbn; try done.
  - intros [Heq|?]%elem_of_cons; [|done]. unfold skips in Hskip.
    rewrite <-Heq, Z.eqb_refl in Hskip. done.
  - intros c'. destruct (ri_status0 c') as (st & Hst & Hn & Hcl).
    destruct (decide (c' = c)) as [->|Hne].
    + exists SPending. assert (st = SNone) as -> by tauto. destruct Hst as (? & ? & ?).
      split; [cbn; split_and!; [done|set_solver|done]|].
      split; [|by intros [|]]. split; [done|]. intros Hx. exfalso. apply Hx. by left.
    + exists st. split; [destruct st; cbn in *; set_solver|]. split; [|done].
      rewrite Hn, elem_of_cons. tauto.
Qed.

Lemma inv_count w r c cs :
  inv w → w.(ph) = Sending r → r.(rest) = c :: cs → r.(mid) = true →
  inv (set_phase (Sending (mkRound r.(current) r.(start) r.(size) r.(map) (c :: r.(sent)) cs false))
        (set_count (w.(ipiCount) + 1) w.(acked) w)).
Proof.
  intros Hi Hph Hrest Hmid. pose proof (inv_round w r Hi) as Hr. rewrite Hph in Hr.
  specialize (Hr eq_refl). destruct Hi as [Hnd Ht Hp]. split; [done|done|]. cbn.
  destruct Hr. unfold asked in *. rewrite Hmid, Hrest in *. cbn [take app] in *.
  split; cbn; try done.
  - rewrite <-Permutation_middle in ri_nodup0. done.
  - intros Hm c' Hc'. rewrite elem_of_cons.
    destruct (ri_all0 Hm c' Hc') as [?|[?|?%elem_of_cons]]; tauto.
  - lia.
Qed.

Lemma inv_wait w r :
  inv w → w.(ph) = Sending r → r.(rest) = [] → inv (set_phase (Waiting r) w).
Proof.
  intros Hi Hph Hrest. pose proof (inv_round w r Hi) as Hr. rewrite Hph in Hr.
  specialize (Hr eq_refl). destruct Hi as [Hnd Ht Hp]. split; [done|done|]. cbn.
  split_and!; [|done|].
  - destruct Hr. by split.
  - destruct (mid r) eqn:E; [|done]. by destruct (ri_mid _ _ Hr E).
Qed.

(** When the count is back at zero, every processor that was asked has answered. *)
Lemma all_acked w r : round_inv w r → r.(mid) = false → w.(ipiCount) = 0 →
  ∀ c, c ∈ r.(sent) → c ∈ w.(acked).
Proof.
  intros Hr Hmid Hcount c Hc. destruct Hr. unfold asked in *. rewrite Hmid in *. cbn [app] in *.
  apply NoDup_app in ri_nodup0 as (Hnd & _ & _).
  assert (Hsub : w.(acked) ⊆ list_to_set r.(sent)).
  { intros x Hx. apply elem_of_list_to_set. destruct (ri_status0 x) as (st & Hst & Hn & _).
    destruct (decide (x ∈ sent r)) as [|Hout]; [done|]. apply Hn in Hout as ->. by destruct Hst. }
  destruct (decide (c ∈ w.(acked))) as [|Hout]; [done|].
  assert (base.size w.(acked) < base.size (list_to_set r.(sent) : gset Z))%nat as Hlt.
  { apply subset_size. split; [done|]. intros Hs. apply Hout, Hs. by apply elem_of_list_to_set. }
  rewrite size_list_to_set in Hlt by done. lia.
Qed.

Lemma inv_done w r :
  inv w → w.(ph) = Waiting r → w.(ipiCount) = 0 → inv (set_phase Idle w).
Proof.
  intros [Hnd Ht Hp] Hph Hcount. split; [done|done|]. cbn. rewrite Hph in Hp.
  destruct Hp as (Hr & _ & Hmid). pose proof (all_acked w r Hr Hmid Hcount) as Hall.
  intros c. destruct (ri_status _ _ Hr c) as (st & Hst & Hn & _).
  unfold asked in Hn. rewrite Hmid in Hn. cbn [app] in Hn.
  destruct (decide (c ∈ r.(sent))) as [Hin|Hout].
  - apply Hall in Hin. destruct st; cbn in Hst; naive_solver.
  - apply Hn in Hout as ->. by destruct Hst as (? & ? & ?).
Qed.

(** *** The handler's steps *)

Lemma inv_flush w c s :
  inv w → c ∈ w.(pending) → w.(handler) c = HIdle →
  Tlb.Invlpgs w.(invlAddress) w.(invlSize) (on_cpu (w.(tlbs) c)) = Ok (tt, s) →
  inv (set_handler (<[c := HFlushed]> w.(handler))
        (set_pending (w.(pending) ∖ {[c]}) (set_tlbs (<[c := s.(alloc)]> w.(tlbs)) w))).
Proof.
  intros Hi Hc Hh Hrun.
  destruct (round_of w.(ph)) as [r|] eqn:Hro; cycle 1.
  { destruct Hi as [_ _ Hp]. destruct (ph w); [|done|done]. by destruct (Hp c). }
  pose proof (inv_round w r Hi Hro) as Hr. pose proof (ri_request _ _ Hr) as [Ha Hn].
  rewrite Ha, Hn in Hrun.
  destruct (run_Invlpgs r.(start) r.(size) (w.(tlbs) c) (ri_range _ _ Hr)) as (t' & Hrun' & Hf).
  rewrite Hrun in Hrun'. injection Hrun' as ->. cbn [alloc on_cpu].
  assert (Hcl' : ∀ c', clean r.(start) r.(size) (w.(tlbs) c') ∨ c' = c →
    clean r.(start) r.(size) ((<[c := t']> w.(tlbs)) c')).
  { intros c' Hcl. destruct (decide (c = c')) as [->|].
    - rewrite fn_lookup_insert. eapply flushed_clean; [by apply in_tlbs|done].
    - rewrite fn_lookup_insert_ne by done. by destruct Hcl. }
  eapply inv_keep; [exact Hi|done|done| | |]; cbn.
  - intros c' e. destruct (decide (c = c')) as [->|].
    + rewrite fn_lookup_insert. eapply flushed_ok; [by apply in_tlbs|done].
    + rewrite fn_lookup_insert_ne by done. by apply in_tlbs.
  - intros Hph. by rewrite Hph in Hro.
  - intros r' Hr' _. assert (r' = r) as -> by congruence. destruct Hr. split; cbn; try done.
    + intros c'. destruct (ri_status0 c') as (st & Hst & Hn' & Hcl).
      destruct (decide (c = c')) as [->|Hne].
      * exists SFlushed. assert (st = SPending) as -> by (destruct st; cbn in Hst; naive_solver).
        destruct Hst as (? & ? & ?).
        split; [cbn; rewrite fn_lookup_insert; split_and!; [done|set_solver|done]|].
        split; [rewrite <-Hn'; naive_solver|]. intros _. apply Hcl'. by right.
      * exists st. split; [|split; [done|intros Hs; apply Hcl'; left; by apply Hcl]].
        destruct st; cbn in *; rewrite fn_lookup_insert_ne by done; set_solver.
    + apply Hcl'. by left.
Qed.

Lemma inv_decrement w c :
  inv w → w.(handler) c = HFlushed →
  inv (set_handler (<[c := HCounted]> w.(handler))
        (set_count (w.(ipiCount) - 1) ({[c]} ∪ w.(acked)) w)).
Proof.
  intros Hi Hh. pose proof Hi as [Hnd Ht Hp].
  eapply inv_keep; [exact Hi|done|done|done| |]; cbn.
  - intros Hph. rewrite Hph in Hp. by destruct (Hp c).
  - intros r _ []. destruct (ri_status0 c) as (stc & Hstc & Hnc & Hclc).
    assert (stc = SFlushed) as -> by (destruct stc; cbn in Hstc; naive_solver).
    destruct Hstc as (Hca & Hcp & _). split; cbn; try done.
    + rewrite size_union by set_solver. rewrite size_singleton. lia.
    + intros c'. destruct (ri_status0 c') as (st & Hst & Hn & Hcl).
      destruct (decide (c = c')) as [->|Hne].
      * exists SAcked. split; [cbn; rewrite fn_lookup_insert; split_and!; [set_solver|done|done]|].
        split; [rewrite <-Hnc; naive_solver|]. intros _. apply Hclc. by left.
      * exists st. split; [|done].
        destruct st; cbn in *; rewrite fn_lookup_insert_ne by done; set_solver.
Qed.

Lemma inv_eoi w c :
  inv w → w.(handler) c = HCounted → inv (set_handler (<[c := HIdle]> w.(handler)) w).
Proof.
  intros Hi Hh. pose proof Hi as [Hnd Ht Hp].
  assert (Heq : ∀ c', (<[c := HIdle]> w.(handler)) c' = HFlushed ↔ w.(handler) c' = HFlushed).
  { intros c'. destruct (decide (c = c')) as [->|].
    - rewrite fn_lookup_insert, Hh. done.
    - by rewrite fn_lookup_insert_ne. }
  eapply inv_keep; [exact Hi|done|done|done| |]; cbn.
  - intros Hph c'. rewrite Hph in Hp. by rewrite Heq.
  - intros r _ []. split; cbn; try done. intros c'.
    destruct (ri_status0 c') as (st & Hst & Hn & Hcl). exists st. split; [|done].
    destruct st; cbn in *; by rewrite Heq.
Qed.

Lemma step_inv w w' : inv w → step w w' → inv w'.
Proof.
  intros Hi Hs. destruct Hs; subst.
  - by apply inv_fill.
  - by apply inv_map.
  - by apply inv_begin.
  - by eapply inv_skip.
  - by eapply inv_send.
  - by eapply inv_count.
  - by apply inv_wait.
  - by eapply inv_done.
  - by apply inv_flush.
  - by apply inv_decrement.
  - by apply inv_eoi.
Qed.

Lemma reachable_inv w : reachable w → inv w.
Proof.
  intros (w0 & Hinit & Hsteps). apply initial_inv in Hinit.
  induction Hsteps as [|w0 w1 w2 Hstep _ IH]; [done|]. by eapply IH, step_inv.
Qed.

(** ** The barrier *)

Lemma some_not_acked w r : round_inv w r → r.(mid) = false → w.(ipiCount) ≠ 0 →
  ∃ c, c ∈ r.(sent) ∧ c ∉ w.(acked).
Proof.
  intros Hr Hmid Hcount. destruct (decide (Forall (λ c, c ∈ w.(acked)) r.(sent))) as [Hall|Hn].
  - exfalso. apply Hcount. destruct Hr. unfold asked in *. rewrite Hmid in *. cbn [app] in *.
    apply NoDup_app in ri_nodup0 as (Hnd & _ & _). rewrite Forall_forall in Hall.
    assert (w.(acked) = list_to_set r.(sent)) as Heq.
    { apply set_eq. intros x. rewrite elem_of_list_to_set. split; [|apply Hall].
      intros Hx. destruct (ri_status0 x) as (st & Hst & Hn & _).
      destruct (decide (x ∈ sent r)) as [|Hout]; [done|]. apply Hn in Hout as ->. by destruct Hst. }
    rewrite ri_count0, Heq, size_list_to_set by done. lia.
  - apply not_Forall_Exists in Hn; [|intros x; apply _].
    by apply Exists_exists in Hn as (c & ? & ?); exists c.
Qed.

(** C18. However the processors interleave, when the wait of a distribution reads
    zero no processor that was asked, nor the one that asks, holds a stale
    translation of the range, and for a kernel range that is every processor; as
    long as it does not read zero, a handler of a processor that was asked can
    take a step. *)
Theorem Tlb_shootdown_barrier w r :
  reachable w → w.(ph) = Waiting r →
  (w.(ipiCount) = 0 →
     (∀ c, c = r.(current) ∨ c ∈ r.(sent) → clean r.(start) r.(size) (w.(tlbs) c))
     ∧ (r.(map) = None → ∀ c, c ∈ w.(cpus) → clean r.(start) r.(size) (w.(tlbs) c)))
  ∧ (w.(ipiCount) ≠ 0 → ∃ c w', c ∈ r.(sent) ∧ step w w' ∧ w'.(handler) c ≠ w.(handler) c).
Proof.
  intros Hreach Hph. apply reachable_inv in Hreach as Hi. pose proof (in_phase _ Hi) as Hp.
  rewrite Hph in Hp. destruct Hp as (Hr & Hrest & Hmid). split.
  - intros Hcount. pose proof (all_acked w r Hr Hmid Hcount) as Hall.
    assert (Hclean : ∀ c, c = r.(current) ∨ c ∈ r.(sent) → clean r.(start) r.(size) (w.(tlbs) c)).
    { intros c [->|Hc]; [by apply ri_self|].
      destruct (ri_status _ _ Hr c) as (st & Hst & _ & Hcl). apply Hcl.
      apply Hall in Hc. destruct st; cbn in Hst; naive_solver. }
    split; [done|]. intros Hm c Hc. apply Hclean.
    destruct (ri_all _ _ Hr Hm c Hc) as [?|[?|Hin]]; [by left|by right|].
    rewrite Hrest in Hin. by apply not_elem_of_nil in Hin.
  - intros Hcount. destruct (some_not_acked w r Hr Hmid Hcount) as (c & Hc & Hna).
    destruct (ri_status _ _ Hr c) as (st & Hst & Hn & _).
    unfold asked in Hn. rewrite Hmid in Hn. cbn [app] in Hn.
    destruct st; cbn in Hst; [naive_solver| | |naive_solver].
    + destruct Hst as (_ & Hpend & Hh). destruct (w.(handler) c) eqn:E; [| done|].
      * destruct (run_Invlpgs r.(start) r.(size) (w.(tlbs) c) (ri_range _ _ Hr)) as (t' & Hrun & _).
        pose proof (ri_request _ _ Hr) as [Ha Hsz]. rewrite <-Ha, <-Hsz in Hrun.
        eexists c, _. split; [done|]. split; [by eapply step_flush|].
        cbn. by rewrite fn_lookup_insert, E.
      * eexists c, _. split; [done|]. split; [by apply step_eoi|]. cbn. by rewrite fn_lookup_insert, E.
    + destruct Hst as (_ & _ & Hh).
      eexists c, _. split; [done|]. split; [by apply step_decrement|].
      cbn. by rewrite fn_lookup_insert, Hh.
Qed.

(** ** Example *)

(** Two processors; the second has a translation of the page 0x1000. *)
Definition two_cpus : world :=
  mkWorld [0; 1] (λ c, if c =? 1 then [mkEntry 0x1000 true false] else [])
    (λ _, 0) ∅ (λ _, HIdle) Idle 0 0 0 ∅.

Lemma two_cpus_initial : initial two_cpus.
Proof.
  split_and!; try done.
  - cbn. apply NoDup_cons_2; [set_solver|]. apply NoDup_singleton.
  - intros c e. cbn. case_match; [|by intros ?%not_elem_of_nil].
    intros ->%list_elem_of_singleton. by cbn.
Qed.

(** The first processor invalidates the page; the second flushes and answers. *)
Lemma Tlb_shootdown_barrier_witness :
  ∃ w r, reachable w ∧ w.(ph) = Waiting r ∧ w.(ipiCount) = 0
    ∧ r.(sent) = [1] ∧ clean 0x1000 0x1000 (w.(tlbs) 1).
Proof.
  assert (∃ w r, reachable w ∧ w.(ph) = Waiting r ∧ w.(ipiCount) = 0 ∧ r.(sent) = [1]
    ∧ r.(start) = 0x1000 ∧ r.(size) = 0x1000) as (w & r & Hw & Hph & Hc & Hs & Hst & Hsz).
  { eexists _, _. split.
    { exists two_cpus. split; [apply two_cpus_initial|].
      eapply rtc_l; [eapply (step_begin _ 0 0x1000 0x1000); try reflexivity; [set_solver|lia|lia|lia]|].
      eapply rtc_l; [eapply step_skip; reflexivity|].
      eapply rtc_l; [eapply step_send; reflexivity|].
      eapply rtc_l; [eapply step_count; reflexivity|].
      eapply rtc_l; [eapply step_wait; reflexivity|].
      eapply rtc_l; [eapply (step_flush _ 1); try reflexivity; cbn; set_solver|].
      eapply rtc_l; [eapply (step_decrement _ 1); reflexivity|].
      apply rtc_refl. }
    repeat split; reflexivity. }
  exists w, r. split_and!; try done.
  destruct (Tlb_shootdown_barrier w r Hw Hph) as [Hbar _].
  destruct (Hbar Hc) as [Hcl _]. rewrite Hst, Hsz in Hcl. apply Hcl. right. rewrite Hs. set_solver.
Defined.
