(* ===== verification/MapSetup.v ===== *)
(** * The first address space of the kernel

    MapSetup (src/arch/x64/vmm/global/map-setup.cpp) builds the tables of the
    global map while the boot loader's identity mapping is still loaded: physical
    addresses are used as pointers.  The boot information, [ansa::Align] and the
    sizes of the objects placed after the kernel are parameters. *)

From stdpp Require Import base numbers list gmap strings.
From Stdlib Require Import ZArith Lia.
From S2P Require Import Prelude Machine Mmu PageTable PageTree PageTableProofs Concrete.
#[local] Open Scope Z_scope.

Module MapSetup.

Record setup : Type := mkSetup {
  kernelEnd : Z;
  reservedEnd : Z;
  pdpt : Z;
  pml4 : Z;
  pdtOffset : Z;
  pdptOffset : Z;
  currentPDT : Z;
  firstUnmapped : Z;
}.

(** The constructor; [pdpt] and [pml4] are left uninitialised by the code and
    written before they are read. *)
Definition new (Align : Z → Z → Z) (bootKernelEnd sizeofBuddy sizeofTable sizeofFinder : Z) : setup :=
  let kernelEnd := Align bootKernelEnd 0x1000 in
  mkSetup kernelEnd (kernelEnd +u Align (sizeofBuddy +u sizeofTable +u sizeofFinder) 0x1000)
    0 0 0 0 0 0.

(** Where the objects are placed. *)
Definition GetPageTable (st : setup) : Z := st.(kernelEnd).
Definition GetFreeFinder (sizeofTable : Z) (st : setup) : Z := st.(kernelEnd) +u sizeofTable.
Definition GetBuddyAllocator (sizeofTable sizeofFinder : Z) (st : setup) : Z :=
  st.(kernelEnd) +u sizeofTable +u sizeofFinder.
Definition GetPdpt (st : setup) : Z := st.(pdpt).

Section Ops.
Context {A : Type} `{PhysAllocator A, AnsaBzero A}.

(** [stepAllocator.Alloc(p, 0x1000, 0x1000)] or panic, then [Bzero]. *)
Definition alloc_page (message : string) : M (machine A) Z :=
  p ← PageTable.alloc_op (Alloc 0x1000 0x1000);
  match p with
  | None => panic message
  | Some p => mret p
  end.

Definition MapNext (st : setup) (linearSize : Z) : M (machine A) (setup * Z) :=
  st ← (if st.(pdtOffset) =? 0x200 then
          p ← alloc_page "MapSetup::MapNext() - failed to allocate PDT";
          _ ← Bzero p 0x1000;
          let pdptOffset := st.(pdptOffset) + 1 in
          _ ← store64 (st.(pdpt) + 8 * pdptOffset) (p .| 3);
          mret (mkSetup st.(kernelEnd) st.(reservedEnd) st.(pdpt) st.(pml4) 0 pdptOffset p
                  st.(firstUnmapped))
        else mret st);
  _ ← store64 (st.(currentPDT) + 8 * st.(pdtOffset)) (st.(firstUnmapped) .| 0x183);
  mret (mkSetup st.(kernelEnd) st.(reservedEnd) st.(pdpt) st.(pml4) (st.(pdtOffset) + 1)
          st.(pdptOffset) st.(currentPDT) (st.(firstUnmapped) +u 0x200000),
        if linearSize <=? 0x200000 then 0 else linearSize - 0x200000).

(** [while (linearSize) MapNext(linearSize);] *)
Fixpoint map_loop (fuel : nat) (st : setup) (linearSize : Z) : M (machine A) setup :=
  if truthy linearSize then
    match fuel with
    | O => stop OutOfFuel
    | S fuel' => r ← MapNext st linearSize; map_loop fuel' r.1 r.2
    end
  else mret st.

(** One iteration per 2 MiB page. *)
Definition map_fuel (linearSize : Z) : nat := Z.to_nat ((linearSize + 0x1fffff) / 0x200000).

Definition GenerateMap (st : setup) : M (machine A) setup :=
  pml4 ← alloc_page "MapSetup::Run() - failed to allocate PML4";
  pdpt ← alloc_page "MapSetup::Run() - failed to allocate PDPT";
  _ ← Bzero pml4 0x1000;
  _ ← Bzero pdpt 0x1000;
  _ ← store64 (pml4 + 8 * 0) (pdpt .| 3);
  _ ← store64 (pml4 + 8 * 0x1ff) (pml4 .| 3);
  let st := mkSetup st.(kernelEnd) st.(reservedEnd) pdpt pml4 0x200 (-1) st.(currentPDT)
              st.(firstUnmapped) in
  map_loop (map_fuel st.(reservedEnd)) st st.(reservedEnd).
End Ops.
End MapSetup.

(** ** The tables *)

Section Correct.
Context {A : Type} `{AllocLaws A, !AnsaBzero A, !BzeroLaws A}.
Import MapSetup.
Implicit Types (s : machine A) (m : gmap Z Z).

(** The loader's tables, read from [m0]: whatever is written elsewhere, they map
    the addresses below [lim] to themselves.  The allocator hands out pages below
    [lim]. *)
Context (root lim : Z) (m0 : gmap Z Z) (boot : gset Z).

Definition boot_same m : Prop :=
  ∀ p i, p ∈ boot → 0 ≤ i < 512 → read64 m (slot p i) = read64 m0 (slot p i).

Record loader_ok : Prop := {
  lo_aligned : ∀ p, p ∈ boot → p mod 4096 = 0;
  lo_identity : ∀ m v, boot_same m → 0 ≤ v < lim → translate m root v = Some v;
  lo_low : ∀ (a a' : A) p, Alloc 0x1000 0x1000 a = Ok (Some p, a') → p + 0x1000 ≤ lim;
}.
Hypothesis Hloader : loader_ok.

(** A page handed out by the allocator. *)
Definition my_page s (p : Z) : Prop :=
  p mod 4096 = 0 ∧ 0 < p < 2 ^ 52 ∧ p + 0x1000 ≤ lim ∧ (p ∉ boot) ∧ p ∈ owned s.(alloc).

(** The machine between two operations. *)
Definition running s : Prop :=
  s.(cr3) = root ∧ boot_same s.(mem) ∧ boot ⊆ owned s.(alloc).

Lemma slot_distinct p q i j : p mod 4096 = 0 → q mod 4096 = 0 → p ≠ q →
  0 ≤ i < 512 → 0 ≤ j < 512 → slot p i ≠ slot q j.
Proof. unfold slot. intros. zlia. Qed.

Lemma boot_same_write m p i v : boot_same m → p mod 4096 = 0 → (p ∉ boot) → 0 ≤ i < 512 →
  boot_same (write64 m (slot p i) v).
Proof.
  intros Hm Hp Hb Hi q j Hq Hj. rewrite read_write_ne; [by apply Hm|].
  apply slot_distinct; try done; [by apply (lo_aligned Hloader)|congruence].
Qed.

Lemma run_store s p i v : running s → my_page s p → 0 ≤ i < 512 →
  store64 (p + 8 * i) v s = Ok (tt, set_mem (write64 s.(mem) (slot p i) v) s)
  ∧ running (set_mem (write64 s.(mem) (slot p i) v) s).
Proof.
  intros (Hc & Hb & Ho) (Hp & Hpos & Hlim & Hn & _) Hi. split.
  - apply run_store64. rewrite Hc. apply (lo_identity Hloader); [done|unfold slot; lia].
  - split_and!; [done|by apply boot_same_write|done].
Qed.

Lemma run_bzero s p : running s → my_page s p →
  ∃ m', Bzero p 0x1000 s = Ok (tt, set_mem m' s) ∧ running (set_mem m' s)
    ∧ (∀ i, 0 ≤ i < 512 → read64 m' (slot p i) = 0)
    ∧ (∀ q i, q mod 4096 = 0 → q ≠ p → 0 ≤ i < 512 → read64 m' (slot q i) = read64 s.(mem) (slot q i)).
Proof.
  intros (Hc & Hb & Ho) (Hp & Hpos & Hlim & Hn & _).
  destruct (run_zero_words (A:=A) boot_same root p p) with (k := 512%nat) (j := 0) (s := s)
    as (m' & Hr & Hb' & Hz & Hsame); try done; try lia.
  - intros m i Hm Hi. apply (lo_identity Hloader); [done|unfold slot; lia].
  - intros m i Hm Hi. by apply boot_same_write.
  - exists m'. rewrite Z.mul_0_r, Z.add_0_r in Hr. split_and!; try done.
    + by apply bzero_page.
    + intros q i Hq Hne Hi. apply Hsame. intros j Hj. by apply slot_distinct.
Qed.

(** An allocation takes one of the pages that are left. *)
Lemma run_alloc_page s msg : running s → (0 < avail s.(alloc))%nat →
  ∃ p a', alloc_page msg s = Ok (p, set_alloc a' s) ∧ running (set_alloc a' s)
    ∧ my_page (set_alloc a' s) p ∧ owned a' = {[p]} ∪ owned s.(alloc) ∧ (p ∉ owned s.(alloc))
    ∧ (avail s.(alloc) ≤ S (avail a'))%nat.
Proof.
  intros (Hc & Hb & Ho) Hav. destruct (alloc_avail _ Hav) as (p & a' & Hr & Hle). exists p, a'.
  destruct (alloc_some _ _ _ Hr) as (Hp & Hpos & Hnew & Hown).
  split; [unfold alloc_page, PageTable.alloc_op; unfold_m; by rewrite Hr|].
  pose proof (lo_low Hloader _ _ _ Hr).
  assert (Hin : p ∈ owned a') by (rewrite Hown; set_solver).
  split; [split_and!; [done|done|cbn; rewrite Hown; set_solver]|].
  split; [split_and!; try done; try lia; set_solver|]. split_and!; done.
Qed.

(** Without a page the code panics. *)
Lemma alloc_page_panics s msg a' : Alloc 0x1000 0x1000 s.(alloc) = Ok (None, a') →
  alloc_page msg s = Stop (Panic msg).
Proof. intros Hr. unfold alloc_page, PageTable.alloc_op. unfold_m. by rewrite Hr. Qed.

Lemma read_slot m p q i j v : p mod 4096 = 0 → q mod 4096 = 0 → 0 ≤ i < 512 → 0 ≤ j < 512 →
  read64 (write64 m (slot q j) v) (slot p i)
  = if decide (p = q ∧ i = j) then v else read64 m (slot p i).
Proof.
  intros. destruct (decide _) as [[-> ->]|Hne]; [apply read_write_eq|].
  apply read_write_ne. intros Heq. apply Hne. destruct (decide (p = q)) as [->|Hpq].
  - split; [done|]. unfold slot in Heq. lia.
  - by destruct (slot_distinct q p j i).
Qed.

(** Entry [j] of the page directory [n], when [k] pages of 2 MiB are mapped. *)
Definition pdt_entry (k : Z) (n : nat) (j : Z) : Z :=
  if 512 * Z.of_nat n + j <? k then (512 * Z.of_nat n + j) * 0x200000 .| 0x183 else 0.

(** [k] pages are mapped, in the page directories [ds]. *)
Record tables s (st : setup) (ds : list Z) (k : Z) : Prop := {
  tb_running : running s;
  tb_pages : ∀ p, p ∈ st.(pml4) :: st.(pdpt) :: ds → my_page s p;
  tb_distinct : NoDup (st.(pml4) :: st.(pdpt) :: ds);
  tb_pml4 : ∀ i, 0 ≤ i < 512 → read64 s.(mem) (slot st.(pml4) i)
    = if i =? 0 then st.(pdpt) .| 3 else if i =? 511 then st.(pml4) .| 3 else 0;
  tb_pdpt : ∀ i, 0 ≤ i < 512 → read64 s.(mem) (slot st.(pdpt) i)
    = match ds !! Z.to_nat i with Some d => d .| 3 | None => 0 end;
  tb_pdt : ∀ n d j, ds !! n = Some d → 0 ≤ j < 512 →
    read64 s.(mem) (slot d j) = pdt_entry k n j;
  tb_len : 512 * (Z.of_nat (length ds) - 1) ≤ k ≤ 512 * Z.of_nat (length ds) ∧ 0 ≤ k;
  tb_offset : st.(pdptOffset) = Z.of_nat (length ds) - 1
    ∧ st.(pdtOffset) = k - 512 * (Z.of_nat (length ds) - 1);
  tb_current : ∀ d, last ds = Some d → st.(currentPDT) = d;
  tb_first : st.(firstUnmapped) = k * 0x200000;
}.

Lemma my_page_alloc s s' p : my_page s p → owned s.(alloc) ⊆ owned s'.(alloc) → my_page s' p.
Proof. intros (? & ? & ? & ? & ?) Ho. split_and!; try done; try lia. by apply Ho. Qed.

(** The processor is as it was. *)
Definition frame_of s s' : Prop :=
  s'.(cr3) = s.(cr3) ∧ s'.(iflag) = s.(iflag) ∧ s'.(critical_loaded) = s.(critical_loaded)
  ∧ s'.(held) = s.(held).

Lemma frame_of_trans s s1 s2 : frame_of s s1 → frame_of s1 s2 → frame_of s s2.
Proof. intros (? & ? & ? & ?) (? & ? & ? & ?). split_and!; congruence. Qed.

(** A new page directory. *)
Lemma run_new_pdt s st ds k msg :
  tables s st ds k → k = 512 * Z.of_nat (length ds) → Z.of_nat (length ds) < 512 →
  (0 < avail s.(alloc))%nat →
  ∃ p st' s', (p ← alloc_page msg; _ ← Bzero p 0x1000;
      _ ← store64 (st.(pdpt) + 8 * (st.(pdptOffset) + 1)) (p .| 3);
      mret (mkSetup st.(kernelEnd) st.(reservedEnd) st.(pdpt) st.(pml4) 0
              (st.(pdptOffset) + 1) p st.(firstUnmapped))) s = Ok (st', s')
    ∧ tables s' st' (ds ++ [p]) k ∧ st'.(pml4) = st.(pml4)
    ∧ frame_of s s' ∧ (avail s.(alloc) ≤ S (avail s'.(alloc)))%nat.
Proof.
  intros [Hrun Hpages Hnd Hpml4 Hpdpt Hpdt Hlen [Hoff1 Hoff2] Hcur Hfirst] Hk Hmax Hav.
  destruct (run_alloc_page s msg Hrun Hav) as (p & a' & E & Hrun1 & Hpage & Hown & Hnew & Hle).
  run E.
  destruct (run_bzero _ _ Hrun1 Hpage) as (m' & Hz & Hrun2 & Hzero & Hsame). run Hz.
  set (s2 := set_mem m' (set_alloc a' s)) in *.
  assert (Hold : ∀ q, q ∈ st.(pml4) :: st.(pdpt) :: ds → my_page s2 q ∧ q ≠ p).
  { intros q Hq. split; [eapply my_page_alloc; [by apply Hpages|cbn; set_solver]|].
    destruct (Hpages q Hq) as (_ & _ & _ & _ & Hin). intros ->. done. }
  assert (Hpage2 : my_page s2 p) by done.
  destruct (Hold (pdpt st)) as [Hpd Hpdne]; [right; by left|].
  destruct (run_store s2 (pdpt st) (pdptOffset st + 1) (p .| 3) Hrun2 Hpd) as [Hst Hrun3]; [lia|].
  run Hst. exists p. eexists _, _. split; [done|]. split; [|split_and!; by try split].
  assert (Hal : ∀ q, my_page s2 q → q mod 4096 = 0) by (by intros q [? _]).
  assert (Hread : ∀ q i, q ∈ st.(pml4) :: st.(pdpt) :: ds → 0 ≤ i < 512 →
    read64 (write64 m' (slot (pdpt st) (pdptOffset st + 1)) (p .| 3)) (slot q i)
    = if decide (q = pdpt st ∧ i = pdptOffset st + 1) then p .| 3 else read64 s.(mem) (slot q i)).
  { intros q i Hq Hi. destruct (Hold q Hq) as [Hqp Hqne].
    rewrite read_slot by (auto || lia). rewrite Hsame by auto. done. }
  apply NoDup_cons in Hnd as Hnd'. destruct Hnd' as [Hn1 Hnd2].
  apply NoDup_cons in Hnd2 as [Hn2 Hnd3].
  split; cbn [mem set_mem kernelEnd reservedEnd pdpt pml4 pdtOffset pdptOffset currentPDT firstUnmapped].
  - exact Hrun3.
  - intros q Hq. rewrite !app_comm_cons in Hq.
    apply elem_of_app in Hq as [Hq| ->%list_elem_of_singleton]; [by apply Hold|done].
  - rewrite !app_comm_cons. apply NoDup_app. split_and!; [done| |apply NoDup_singleton].
    intros q Hq ->%list_elem_of_singleton. by destruct (Hold p Hq).
  - intros i Hi. rewrite Hread by (done || by left).
    rewrite decide_False; [by apply Hpml4|]. intros [Heq _]. apply Hn1. rewrite Heq. by left.
  - intros i Hi. rewrite Hread by (done || (right; by left)).
    rewrite Hpdpt by done. destruct (decide _) as [[_ ->]|Hne].
    + replace (Z.to_nat (pdptOffset st + 1)) with (length ds) by lia.
      by rewrite lookup_app_r, Nat.sub_diag by lia.
    + destruct (decide (Z.to_nat i < length ds)%nat).
      * by rewrite lookup_app_l by done.
      * rewrite (lookup_ge_None_2 ds), lookup_ge_None_2; [done| |lia].
        rewrite length_app. cbn. assert (i ≠ pdptOffset st + 1) by naive_solver. lia.
  - intros n d j Hd Hj. apply lookup_app_Some in Hd as [Hd|[Hn Hd]].
    + assert (d ∈ ds) by (by eapply list_elem_of_lookup_2).
      rewrite Hread by (done || (right; by right)).
      rewrite decide_False by (intros [-> _]; done). by eapply Hpdt.
    + apply list_lookup_singleton_Some in Hd as [Hn0 <-].
      rewrite read_slot by (auto || lia). rewrite decide_False by (intros [-> _]; done).
      rewrite Hzero by done. unfold pdt_entry. rewrite (proj2 (Z.ltb_ge _ _)); [done|lia].
  - rewrite length_app. cbn. lia.
  - rewrite length_app. cbn. lia.
  - intros d. rewrite last_snoc. by intros [= ->].
  - done.
Qed.

(** The next entry of the current page directory. *)
Lemma run_map_one s st ds k :
  tables s st ds k → st.(pdtOffset) < 512 → k < 2 ^ 18 →
  ∃ s', store64 (st.(currentPDT) + 8 * st.(pdtOffset)) (st.(firstUnmapped) .| 0x183) s = Ok (tt, s')
    ∧ tables s' (mkSetup st.(kernelEnd) st.(reservedEnd) st.(pdpt) st.(pml4) (st.(pdtOffset) + 1)
        st.(pdptOffset) st.(currentPDT) (st.(firstUnmapped) +u 0x200000)) ds (k + 1)
    ∧ frame_of s s' ∧ s'.(alloc) = s.(alloc).
Proof.
  intros [Hrun Hpages Hnd Hpml4 Hpdpt Hpdt [Hlen Hk0] [Hoff1 Hoff2] Hcur Hfirst] Hoff Hk.
  destruct (last ds) as [d|] eqn:Elast; cycle 1.
  { apply last_None in Elast as ->. cbn in *. lia. }
  rewrite (Hcur d eq_refl).
  apply last_Some in Elast as [l Hl]. subst ds. rewrite length_app in *. cbn [length] in *.
  assert (Hd : my_page s d) by (apply Hpages; right; right; apply elem_of_app; right; by left).
  destruct (run_store s d st.(pdtOffset) (st.(firstUnmapped) .| 0x183) Hrun Hd) as [Hst Hrun']; [lia|].
  eexists. split; [exact Hst|]. split; [|by split].
  assert (Hal : ∀ q, q ∈ st.(pml4) :: st.(pdpt) :: l ++ [d] → q mod 4096 = 0)
    by (intros q Hq; by destruct (Hpages q Hq)).
  assert (Hdal : d mod 4096 = 0) by (by destruct Hd).
  apply NoDup_cons in Hnd as Hnd'. destruct Hnd' as [Hn1 Hnd2].
  apply NoDup_cons in Hnd2 as [Hn2 Hnd3]. apply NoDup_app in Hnd3 as (_ & Hnd4 & _).
  split; cbn [mem set_mem kernelEnd reservedEnd pdpt pml4 pdtOffset pdptOffset currentPDT firstUnmapped].
  - exact Hrun'.
  - intros q Hq. eapply my_page_alloc; [by apply Hpages|done].
  - done.
  - intros i Hi. rewrite read_slot by (lia || (apply Hal; by left) || done).
    rewrite decide_False; [by apply Hpml4|].
    intros [Heq _]. apply Hn1. rewrite Heq. right. apply elem_of_app. right. by left.
  - intros i Hi. rewrite read_slot by (lia || (apply Hal; right; by left) || done).
    rewrite decide_False; [by apply Hpdpt|].
    intros [Heq _]. apply Hn2. rewrite Heq. apply elem_of_app. right. by left.
  - intros n q j Hq Hj. assert (Hin : q ∈ l ++ [d]) by (by eapply list_elem_of_lookup_2).
    rewrite read_slot by (lia || (apply Hal; right; by right) || done).
    apply lookup_app_Some in Hq as Hq'. destruct Hq' as [Hl|[Hn Hq']].
    + assert (q ∈ l) by (by eapply list_elem_of_lookup_2). apply lookup_lt_Some in Hl.
      rewrite decide_False; [|intros [-> _]; apply (Hnd4 d); [done|by left]].
      rewrite (Hpdt _ _ _ Hq Hj). unfold pdt_entry. do 2 case_test; done || lia.
    + apply list_lookup_singleton_Some in Hq' as [Hn0 <-].
      assert (n = length l) as -> by lia.
      destruct (decide _) as [[_ ->]|Hne].
      * unfold pdt_entry. rewrite (proj2 (Z.ltb_lt _ _)) by lia. rewrite Hfirst. f_equal. lia.
      * rewrite (Hpdt _ _ _ Hq Hj). assert (j ≠ pdtOffset st) by naive_solver.
        unfold pdt_entry. do 2 case_test; done || lia.
  - rewrite length_app. cbn [length]. lia.
  - rewrite length_app. cbn [length]. lia.
  - intros q. rewrite last_snoc. by intros [= ->].
  - rewrite Hfirst, u64_small by (unfold is_u64; lia). lia.
Qed.

Lemma run_MapNext s st ds k lin :
  tables s st ds k → k < 2 ^ 18 → (k = 512 * Z.of_nat (length ds) → (0 < avail s.(alloc))%nat) →
  ∃ st' s' ds', MapNext st lin s = Ok ((st', if lin <=? 0x200000 then 0 else lin - 0x200000), s')
    ∧ tables s' st' ds' (k + 1) ∧ st'.(pml4) = st.(pml4) ∧ frame_of s s'
    ∧ (avail s.(alloc) + length ds ≤ avail s'.(alloc) + length ds')%nat.
Proof.
  intros Ht Hk Hav. unfold MapNext. pose proof Ht as [_ _ _ _ _ _ [Hlen Hk0] [Hoff1 Hoff2] _ _].
  destruct (Z.eqb_spec (pdtOffset st) 0x200).
  - destruct (run_new_pdt s st ds k "MapSetup::MapNext() - failed to allocate PDT" Ht
      ltac:(lia) ltac:(lia) ltac:(apply Hav; lia)) as (p & st1 & s1 & E & Ht1 & Hp1 & Hf1 & Hle).
    run E. pose proof (tb_offset _ _ _ _ Ht1) as [_ Ho]. rewrite length_app in Ho. cbn in Ho.
    destruct (run_map_one s1 st1 _ k Ht1 ltac:(lia) Hk) as (s2 & Hr & Ht2 & Hf2 & Ha2).
    run Hr. eexists _, s2, _. split; [done|]. split; [exact Ht2|]. split; [done|].
    split; [by eapply frame_of_trans|]. rewrite Ha2, length_app. cbn [length]. lia.
  - run run_ret. destruct (run_map_one s st ds k Ht ltac:(lia) Hk) as (s2 & Hr & Ht2 & Hf2 & Ha2).
    run Hr. eexists _, s2, _. split; [done|]. split; [exact Ht2|]. by rewrite Ha2.
Qed.

(** The pages that cover [lin] bytes, and the page directories that hold [k]
    pages. *)
Definition pages_for (lin : Z) : Z := (lin + 0x1fffff) / 0x200000.
Definition pdts_for (k : Z) : Z := (k + 511) / 512.

Lemma run_map_loop fuel s st ds k lin :
  tables s st ds k → 0 ≤ lin → pages_for lin ≤ Z.of_nat fuel → k + pages_for lin ≤ 2 ^ 18 →
  pdts_for (k + pages_for lin) ≤ Z.of_nat (length ds + avail s.(alloc)) →
  ∃ st' s' ds', map_loop fuel st lin s = Ok (st', s')
    ∧ tables s' st' ds' (k + pages_for lin) ∧ st'.(pml4) = st.(pml4) ∧ frame_of s s'
    ∧ (avail s.(alloc) + length ds ≤ avail s'.(alloc) + length ds')%nat.
Proof.
  revert s st ds k lin. induction fuel as [|fuel IH]; intros s st ds k lin Ht Hlin Hf Hk Hav;
    cbn [map_loop]; unfold pages_for in *;
    (destruct (truthy lin) eqn:E; [apply truthy_true in E|apply truthy_false in E as ->]).
  - zlia.
  - exists st, s, ds. by rewrite Z.add_0_r.
  - unfold pdts_for in *. pose proof (tb_len _ _ _ _ Ht) as [Hlen _].
    destruct (run_MapNext s st ds k lin Ht ltac:(zlia) ltac:(zlia))
      as (st1 & s1 & ds1 & En & Ht1 & Hp1 & Hf1 & Hle).
    run En. cbn [fst snd]. set (lin1 := if lin <=? 0x200000 then 0 else lin - 0x200000).
    assert (pages_for lin = 1 + pages_for lin1 ∧ 0 ≤ lin1) as [Hpf ?]
      by (unfold pages_for; subst lin1; case_test; zlia).
    unfold pages_for in Hpf. rewrite Hpf, Z.add_assoc in *.
    destruct (IH s1 st1 ds1 (k + 1) lin1 Ht1 ltac:(done) ltac:(lia) ltac:(lia) ltac:(lia))
      as (st2 & s2 & ds2 & Hr & Ht2 & Hp2 & Hf2 & Hle2).
    exists st2, s2, ds2. split_and!; [done|done|congruence|by eapply frame_of_trans|lia].
  - exists st, s, ds. by rewrite Z.add_0_r.
Qed.

(** *** What the tables translate *)

Lemma flags3 : parent_flags 3.
Proof. split; [lia|done]. Qed.

Lemma table_entry s p : my_page s p → is_table (p .| 3) = true ∧ frame (p .| 3) = p.
Proof.
  intros (Hp & Hpos & _). split.
  - apply (is_table_lor 3 flags3), bit7_page. done.
  - rewrite (frame_lor 3 flags3). by apply frame_page; [|lia].
Qed.

Lemma page_entry j : 0 ≤ j < 2 ^ 18 →
  let e := j * 0x200000 .| 0x183 in
  present e = true ∧ huge e = true ∧ ∀ v, v / 0x200000 = j → in_page e 2 v = v.
Proof.
  intros Hj e.
  split_and!; [by rewrite present_bit; unfold e; rewrite Z.lor_spec, orb_true_r
              |by rewrite huge_bit; unfold e; rewrite Z.lor_spec, orb_true_r|].
  intros v Hv. unfold in_page, e. rewrite frame_eq, lor_div by lia.
  change (span 2) with 0x200000. eval_pow. zlia.
Qed.

(** The entry at which the walk of an address ends. *)
Lemma tables_leaf s st ds k v :
  tables s st ds k → canonical v = true → 0 ≤ v < 2 ^ 64 → idx v 0 ≠ 511 → k ≤ 2 ^ 18 →
  v < k * 0x200000 ∧ leaf4 s.(mem) st.(pml4) v = (2, v / 0x200000 * 0x200000 .| 0x183)
  ∨ k * 0x200000 ≤ v ∧ ∃ d, leaf4 s.(mem) st.(pml4) v = (d, 0).
Proof.
  intros [Hrun Hpages Hnd Hpml4 Hpdpt Hpdt [Hlen Hk0] _ _ _] Hcan Hv Hidx Hk.
  assert (Hp3 : my_page s st.(pdpt)) by (apply Hpages; right; by left).
  unfold leaf4. rewrite leaf_unfold. change (st.(pml4) + 8 * idx v 0) with (slot st.(pml4) (idx v 0)).
  rewrite Hpml4 by apply idx_range. cbv zeta.
  assert (Hv0 : idx v 0 = v / 2 ^ 39 mod 512) by done.
  destruct (Z.eqb_spec (idx v 0) 0) as [Hi0|Hi0]; cycle 1.
  { rewrite (proj2 (Z.eqb_neq (idx v 0) 511)) by done. right. split; [zlia|by eexists]. }
  assert (Hlow : v < 2 ^ 39).
  { unfold canonical in Hcan. apply orb_true_iff in Hcan as [Hc|Hc];
      [apply Z.ltb_lt in Hc|apply Z.leb_le in Hc]; rewrite Hv0 in Hi0; revert Hi0 Hc Hv; eval_pow; zlia. }
  destruct (table_entry s _ Hp3) as [-> ->].
  rewrite leaf_unfold. change (st.(pdpt) + 8 * idx v (0 + 1)) with (slot st.(pdpt) (idx v 1)).
  rewrite Hpdpt by apply idx_range. cbv zeta.
  assert (Hv1 : idx v 1 = v / 2 ^ 30) by (change (idx v 1) with (v / 2 ^ 30 mod 512); zlia).
  destruct (ds !! Z.to_nat (idx v 1)) as [d|] eqn:Ed; cycle 1.
  { apply lookup_ge_None in Ed. right. split; [rewrite Hv1 in Ed; zlia|by eexists]. }
  destruct (table_entry s d) as [-> ->].
  { apply Hpages. right. right. by eapply list_elem_of_lookup_2. }
  rewrite leaf_unfold. change (d + 8 * idx v (0 + 1 + 1)) with (slot d (idx v 2)).
  rewrite (Hpdt _ _ _ Ed) by apply idx_range. cbv zeta.
  assert (Hv2 : 512 * Z.of_nat (Z.to_nat (idx v 1)) + idx v 2 = v / 0x200000).
  { change (idx v 2) with (v / 2 ^ 21 mod 512). rewrite Hv1, Z2Nat.id by zlia. eval_pow. zlia. }
  unfold pdt_entry. rewrite Hv2.
  destruct (Z.ltb_spec (v / 0x200000) k) as [Hlt|Hge].
  - destruct (page_entry (v / 0x200000)) as (Hpr & Hhu & _); [zlia|].
    unfold is_table. rewrite Hpr, Hhu. left. split; [zlia|done].
  - right. split; [zlia|by eexists].
Qed.

Lemma tables_translate s st ds k v :
  tables s st ds k → canonical v = true → 0 ≤ v < 2 ^ 64 → idx v 0 ≠ 511 → k ≤ 2 ^ 18 →
  translate s.(mem) st.(pml4) v = if v <? k * 0x200000 then Some v else None.
Proof.
  intros Ht Hcan Hv Hidx Hk. unfold translate. rewrite Hcan.
  assert (Hp4 : my_page s st.(pml4)) by (apply (tb_pages _ _ _ _ Ht); by left).
  rewrite frame_page by (destruct Hp4; lia || tauto).
  destruct (tables_leaf _ _ _ _ _ Ht Hcan Hv Hidx Hk) as [[Hlt ->]|(Hge & d & ->)].
  - destruct (page_entry (v / 0x200000)) as (Hpr & Hhu & Hin); [zlia|].
    cbn [leaf_frame]. rewrite Hpr. cbn [andb Z.eqb Pos.eqb negb]. rewrite (Hin v eq_refl).
    by rewrite (proj2 (Z.ltb_lt _ _)).
  - cbn [leaf_frame]. by rewrite (proj2 (Z.ltb_ge _ _)).
Qed.

(** The tables before the first page. *)
Lemma run_empty_tables s :
  running s → (2 ≤ avail s.(alloc))%nat →
  ∀ kEnd rEnd cur,
  ∃ st s', (pml4 ← alloc_page "MapSetup::Run() - failed to allocate PML4";
         pdpt ← alloc_page "MapSetup::Run() - failed to allocate PDPT";
         _ ← Bzero pml4 0x1000;
         _ ← Bzero pdpt 0x1000;
         _ ← store64 (pml4 + 8 * 0) (pdpt .| 3);
         _ ← store64 (pml4 + 8 * 0x1ff) (pml4 .| 3);
         mret (mkSetup kEnd rEnd pdpt pml4 0x200 (-1) cur 0)) s = Ok (st, s')
    ∧ tables s' st [] 0 ∧ frame_of s s' ∧ (avail s.(alloc) ≤ avail s'.(alloc) + 2)%nat.
Proof.
  intros Hrun Hav kEnd rEnd cur.
  destruct (run_alloc_page s "MapSetup::Run() - failed to allocate PML4" Hrun ltac:(lia))
    as (p4 & a1 & E1 & Hrun1 & Hp4 & Hown1 & _ & Hle1). run E1. clear E1.
  set (s1 := set_alloc a1 s) in *.
  destruct (run_alloc_page s1 "MapSetup::Run() - failed to allocate PDPT" Hrun1 ltac:(cbn; lia))
    as (p3 & a2 & E2 & Hrun2 & Hp3 & Hown2 & Hnew & Hle2). run E2. clear E2.
  set (s2 := set_alloc a2 s1) in *. cbn [alloc s1 set_alloc] in Hle2.
  assert (Hp4' : my_page s2 p4)
    by (eapply my_page_alloc; [exact Hp4|cbn [alloc s2 set_alloc]; rewrite Hown2; set_solver]).
  assert (Hne : p4 ≠ p3) by (intros ->; destruct Hp4 as (_ & _ & _ & _ & ?); done).
  destruct (run_bzero _ _ Hrun2 Hp4') as (m1 & Hz1 & Hrun3 & Hzero1 & _). run Hz1.
  assert (Hp3' : my_page (set_mem m1 s2) p3) by done.
  destruct (run_bzero _ _ Hrun3 Hp3') as (m2 & Hz2 & Hrun4 & Hzero2 & Hsame2). run Hz2.
  assert (Hal4 : p4 mod 4096 = 0) by (by destruct Hp4).
  assert (Hal3 : p3 mod 4096 = 0) by (by destruct Hp3).
  destruct (run_store (set_mem m2 (set_mem m1 s2)) p4 0 (p3 .| 3) Hrun4 Hp4' ltac:(lia)) as [Hst1 Hrun5].
  run Hst1.
  destruct (run_store _ p4 0x1ff (p4 .| 3) Hrun5 Hp4' ltac:(lia)) as [Hst2 Hrun6]. run Hst2.
  cbv zeta. eexists _, _. split; [done|]. split; [|split; [done|cbn; lia]].
  split; cbn [mem set_mem kernelEnd reservedEnd pdpt pml4 pdtOffset pdptOffset currentPDT firstUnmapped].
  - exact Hrun6.
  - intros q [->|[->|Hq]%elem_of_cons]%elem_of_cons; [done|done|by apply not_elem_of_nil in Hq].
  - apply NoDup_cons_2; [|apply NoDup_singleton]. by intros ?%list_elem_of_singleton.
  - intros i Hi. rewrite !read_slot by (done || lia).
    destruct (Z.eqb_spec i 0) as [->|Hi0].
    + rewrite decide_False by (intros [_ ?]; lia). by rewrite decide_True.
    + destruct (Z.eqb_spec i 511) as [->|Hi1]; [by rewrite decide_True|].
      rewrite decide_False by (intros [_ ?]; lia). rewrite decide_False by (intros [_ ?]; done).
      rewrite Hsame2 by done. by apply Hzero1.
  - intros i Hi. rewrite !read_slot by (done || lia).
    rewrite !decide_False by (intros [? _]; congruence). by apply Hzero2.
  - done.
  - cbn. lia.
  - cbn. lia.
  - done.
  - done.
Qed.

Lemma tables_self_mapped s st ds k : tables s st ds k → self_mapped s.(mem) st.(pml4).
Proof.
  intros Ht. assert (Hp : my_page s st.(pml4)) by (apply (tb_pages _ _ _ _ Ht); by left).
  pose proof (tb_pml4 _ _ _ _ Ht 511 ltac:(lia)) as H511. cbn [Z.eqb Pos.eqb] in H511.
  destruct (table_entry s _ Hp) as [Hta Hfr]. destruct Hp as (? & ? & _).
  split_and!; [done|lia|lia|by rewrite H511|by rewrite H511].
Qed.

Lemma run_GenerateMap s st :
  running s → st.(firstUnmapped) = 0 → 0 ≤ st.(reservedEnd) ≤ 2 ^ 39 →
  2 + pdts_for (pages_for st.(reservedEnd)) ≤ Z.of_nat (avail s.(alloc)) →
  ∃ st' s' ds, GenerateMap st s = Ok (st', s')
    ∧ tables s' st' ds (pages_for st.(reservedEnd)) ∧ frame_of s s'
    ∧ (avail s.(alloc) ≤ avail s'.(alloc) + 2 + length ds)%nat.
Proof.
  intros Hrun Hfirst Hres Hav.
  assert (Hpages : pages_for st.(reservedEnd) ≤ 2 ^ 18) by (unfold pages_for; zlia).
  destruct (run_empty_tables s Hrun ltac:(unfold pdts_for, pages_for in *; zlia)
    st.(kernelEnd) st.(reservedEnd) st.(currentPDT)) as (st0 & s0 & E & Ht & Hf & Hle).
  destruct (run_map_loop (map_fuel st.(reservedEnd)) s0 st0 [] 0 st.(reservedEnd) Ht ltac:(lia)
    ltac:(unfold map_fuel, pages_for; zlia) ltac:(lia)
    ltac:(rewrite Z.add_0_l; cbn [length]; lia)) as (st' & s' & ds & Hr & Ht' & _ & Hf' & Hle').
  rewrite Z.add_0_l in Ht'. exists st', s', ds.
  split_and!; [|done|by eapply frame_of_trans|cbn [length] in *; lia].
  match type of E with ?p s = _ => transitivity
    ((p ≫= λ st0, map_loop (map_fuel st.(reservedEnd)) st0 st.(reservedEnd)) s) end.
  - unfold GenerateMap; unfold_m; rewrite Hfirst; repeat case_match; simplify_eq/=; done.
  - by run E.
Qed.

(** *** The tables as a tree *)

(** The tables by their paths. *)
Definition boot_tree (st : setup) (ds : list Z) : gmap (list Z) Z :=
  <[ [] := st.(pml4)]> (<[ [0] := st.(pdpt)]>
    (kmap (λ n : nat, [Z.of_nat n; 0]) (map_seq 0 ds : gmap nat Z))).

#[local] Instance path_inj : Inj (=) (=) (λ n : nat, [Z.of_nat n; 0]).
Proof. intros n n' [= ?]. lia. Qed.

Lemma boot_tree_Some st ds p g :
  boot_tree st ds !! p = Some g ↔ p = [] ∧ g = st.(pml4) ∨ p = [0] ∧ g = st.(pdpt)
    ∨ ∃ n : nat, p = [Z.of_nat n; 0] ∧ ds !! n = Some g.
Proof.
  unfold boot_tree. rewrite !lookup_insert_Some, lookup_kmap_Some by apply _.
  setoid_rewrite lookup_map_seq_Some. setoid_rewrite Nat.sub_0_r. split.
  - intros [[<- <-]|[_ [[<- <-]|[_ (n & -> & _ & ?)]]]]; eauto 10.
  - intros [[-> ->]|[[-> ->]|(n & -> & Hn)]]; [by left|right; split; [done|by left]|].
    right. split; [done|]. right. split; [done|]. exists n. split_and!; [done|lia|done].
Qed.

Lemma code_frame_table s p : my_page s p → code_frame (p .| 3) = frame (p .| 3).
Proof.
  intros (? & ? & _). rewrite (code_frame_lor 3 flags3), (frame_lor 3 flags3).
  rewrite code_frame_page, frame_page by (done || lia). done.
Qed.

Lemma pdt_entry_leaf k n j : is_table (pdt_entry k n j) = false.
Proof.
  unfold pdt_entry. destruct (_ <? k); [|done]. unfold is_table.
  assert (huge ((512 * Z.of_nat n + j) * 0x200000 .| 0x183) = true) as ->
    by (by rewrite huge_bit, Z.lor_spec, orb_true_r). by rewrite andb_false_r.
Qed.

Lemma tables_tree s st ds k : tables s st ds k → (length ds ≤ 512)%nat →
  tree_ok s.(mem) st.(pml4) (boot_tree st ds).
Proof.
  intros [Hrun Hpages Hnd Hpml4 Hpdpt Hpdt _ _ _ _] Hlen.
  assert (Hin : ∀ p g, boot_tree st ds !! p = Some g → my_page s g).
  { intros p g [[_ ->]|[[_ ->]|(n & _ & Hn)]]%boot_tree_Some; apply Hpages;
      [by left|right; by left|right; right; by eapply list_elem_of_lookup_2]. }
  apply NoDup_cons in Hnd as [Hn1 [Hn2 Hnd]%NoDup_cons].
  assert (Hpd : st.(pml4) ≠ st.(pdpt)) by (intros He; apply Hn1; rewrite He; by left).
  assert (Hds : ∀ n d, ds !! n = Some d → d ≠ st.(pml4) ∧ d ≠ st.(pdpt)).
  { intros n d Hd%list_elem_of_lookup_2. split; intros ->; [apply Hn1; by right|done]. }
  assert (Hroot : boot_tree st ds !! [] = Some st.(pml4)) by (apply boot_tree_Some; auto).
  assert (Hfrac : read64 s.(mem) (slot st.(pml4) 511) = st.(pml4) .| 3) by (by rewrite Hpml4).
  assert (H4 : my_page s st.(pml4)) by (by eapply Hin).
  assert (Hchild : ∀ p g i, boot_tree st ds !! p = Some g → 0 ≤ i < 512 → ¬ fractal p i →
    boot_tree st ds !! (i :: p) = Some (frame (read64 s.(mem) (slot g i)))
      ∧ is_table (read64 s.(mem) (slot g i)) = true
      ∧ code_frame (read64 s.(mem) (slot g i)) = frame (read64 s.(mem) (slot g i))
    ∨ boot_tree st ds !! (i :: p) = None ∧ is_table (read64 s.(mem) (slot g i)) = false).
  { intros p g i Hp Hi Hf.
    assert (Htab : ∀ d, boot_tree st ds !! (i :: p) = Some d → read64 s.(mem) (slot g i) = d .| 3 →
      boot_tree st ds !! (i :: p) = Some (frame (read64 s.(mem) (slot g i)))
      ∧ is_table (read64 s.(mem) (slot g i)) = true
      ∧ code_frame (read64 s.(mem) (slot g i)) = frame (read64 s.(mem) (slot g i))).
    { intros d Hd ->. pose proof (Hin _ _ Hd) as Hm. destruct (table_entry s _ Hm) as [Ht Hfr].
      rewrite (code_frame_table s d Hm), Hfr. done. }
    apply boot_tree_Some in Hp as Hp'. destruct Hp' as [[-> ->]|[[-> ->]|(n & -> & Hn)]].
    - specialize (Hpml4 i Hi). destruct (Z.eqb_spec i 0) as [Hi0|Hi0].
      { left. subst i. eapply Htab; [|done]. apply boot_tree_Some; auto. }
      destruct (Z.eqb_spec i 511) as [Hi1|Hi1]; [by destruct Hf|]. right. rewrite Hpml4. split; [|done].
      apply eq_None_not_Some. intros [x [[? _]|[[[= ?] _]|(n & ? & _)]]%boot_tree_Some]; done.
    - specialize (Hpdpt i Hi). destruct (ds !! Z.to_nat i) as [d|] eqn:E.
      { left. eapply Htab; [|done]. apply boot_tree_Some. right. right. exists (Z.to_nat i).
        by rewrite Z2Nat.id by lia. }
      right. rewrite Hpdpt. split; [|done]. apply eq_None_not_Some.
      intros [x [[? _]|[[? _]|(n & [= ->] & Hx)]]%boot_tree_Some]; [done..|].
      by rewrite Nat2Z.id, Hx in E.
    - right. rewrite (Hpdt _ _ _ Hn Hi). split; [|apply pdt_entry_leaf].
      apply eq_None_not_Some. by intros [x [[? _]|[[? _]|(n' & ? & Hx)]]%boot_tree_Some]. }
  split.
  - done.
  - rewrite Hfrac. by apply (table_entry s).
  - intros p g Hp. destruct (Hin _ _ Hp) as (? & ? & _). split; [done|lia].
  - intros p q g Hp Hq. apply boot_tree_Some in Hp, Hq.
    destruct Hp as [[-> ->]|[[-> ->]|(n & -> & Hn)]], Hq as [[-> Hg]|[[-> Hg]|(n' & -> & Hn')]];
      try done; try (by destruct (Hds _ _ Hn); congruence); try (by destruct (Hds _ _ Hn'); congruence);
      try congruence.
    by rewrite (NoDup_lookup _ _ _ _ Hnd Hn Hn').
  - intros p g i Hp _ Hi Hf. destruct (Hchild p g i Hp Hi Hf) as [(-> & -> & _)|[-> ->]]; done.
  - intros p g i Hp _ Hi Hf Ht. destruct (Hchild p g i Hp Hi Hf) as [(_ & _ & ->)|[_ Hx]]; [done|congruence].
  - intros i p g [[? _]|[[[= -> ->] _]|(n & [= -> ->] & Hn)]]%boot_tree_Some; [done| |].
    + split_and!; [cbn; lia|lia|lia|by intros [_ ?]|by eexists].
    + apply lookup_lt_Some in Hn. split_and!; [cbn; lia|lia|lia|by intros [? _]|].
      exists st.(pdpt). apply boot_tree_Some; auto.
Qed.

(** Given two pages and one for each page directory, [GenerateMap] builds
    an address space that maps every address of the kernel and of the space
    reserved after it, up to the next multiple of 2 MiB, to itself, and nothing
    else outside the fractal slot, and whose last slot maps the PML4 itself. *)
Lemma GenerateMap_identity s st :
  running s → st.(firstUnmapped) = 0 → 0 ≤ st.(reservedEnd) ≤ 2 ^ 39 →
  2 + pdts_for (pages_for st.(reservedEnd)) ≤ Z.of_nat (avail s.(alloc)) →
  ∃ st' s', GenerateMap st s = Ok (st', s') ∧ self_mapped s'.(mem) st'.(pml4) ∧
    ∀ v, canonical v = true → 0 ≤ v < 2 ^ 64 → idx v 0 ≠ 511 →
      translate s'.(mem) st'.(pml4) v
      = if v <? pages_for st.(reservedEnd) * 0x200000 then Some v else None.
Proof.
  intros Hrun Hfirst Hres Hav.
  destruct (run_GenerateMap s st Hrun Hfirst Hres Hav) as (st' & s' & ds & Hr & Ht & _).
  exists st', s'. split; [exact Hr|]. split; [by eapply tables_self_mapped|].
  intros v Hc Hv Hi. eapply tables_translate; try done. unfold pages_for. zlia.
Qed.
End Correct.

(** ** Example *)

Section Witness.
Import MapSetup.

(** The loader maps the first gigabyte to itself with one page; the allocator
    hands out pages from 0x10000 up. *)
Definition loader_mem : gmap Z Z := {[ 0x1000 := 0x2003; 0x2000 := 0x83 ]}.
Definition loader_machine : machine PageSet :=
  Machine _ loader_mem 0x1000 true true ∅ [] [] {[0x1000; 0x2000]}.

Lemma loader_identity : loader_ok 0x1000 0x40000000 loader_mem {[0x1000; 0x2000]}.
Proof.
  split.
  - intros p Hp. apply elem_of_union in Hp as [->%elem_of_singleton| ->%elem_of_singleton]; done.
  - intros m v Hm Hv. unfold translate.
    assert (canonical v = true) as ->.
    { unfold canonical. apply orb_true_iff. left. apply Z.ltb_lt. eval_pow. lia. }
    change (frame 0x1000) with 0x1000. unfold leaf4. rewrite leaf_unfold.
    assert (idx v 0 = 0) as -> by (change (idx v 0) with (v / 2 ^ 39 mod 512); eval_pow; zlia).
    change (0x1000 + 8 * 0) with (slot 0x1000 0). rewrite Hm by (set_solver || lia).
    change (read64 loader_mem (slot 0x1000 0)) with 0x2003. cbv zeta.
    change (is_table 0x2003) with true. cbv iota. rewrite leaf_unfold.
    change (frame 0x2003) with 0x2000. change (0 + 1) with 1.
    assert (idx v 1 = 0) as -> by (change (idx v 1) with (v / 2 ^ 30 mod 512); eval_pow; zlia).
    change (0x2000 + 8 * 0) with (slot 0x2000 0). rewrite Hm by (set_solver || lia).
    change (read64 loader_mem (slot 0x2000 0)) with 0x83. cbv zeta.
    change (is_table 0x83) with false. cbv iota.
    change (leaf_frame (1, 0x83) v) with (Some (in_page 0x83 1 v)). f_equal.
    unfold in_page. change (frame 0x83) with 0. change (span 1) with (2 ^ 30). eval_pow. zlia.
  - intros a a' p. cbn. destruct (first_free a pages) as [q|] eqn:E; [|done]. intros [= -> _].
    apply first_free_some in E as [Hp _]. unfold pages in Hp.
    apply list_elem_of_fmap in Hp as (i & -> & Hi). apply elem_of_seqZ in Hi. lia.
Qed.

(** A kernel that ends within the third 2 MiB page. *)
Definition kernel_setup : setup := mkSetup 0x400000 0x401000 0 0 0 0 0 0.

Lemma GenerateMap_identity_witness :
  ∃ st s, GenerateMap kernel_setup loader_machine = Ok (st, s)
    ∧ self_mapped s.(mem) st.(pml4) ∧ translate s.(mem) st.(pml4) 0x5fffff = Some 0x5fffff
    ∧ translate s.(mem) st.(pml4) 0x600000 = None.
Proof.
  destruct (GenerateMap_identity 0x1000 0x40000000 loader_mem {[0x1000; 0x2000]} loader_identity
    loader_machine kernel_setup) as (st & s & Hr & Hself & Htr); [|done|cbn; lia|by vm_compute|].
  { split_and!; [done|done|]. cbn. done. }
  exists st, s. split; [exact Hr|]. clear Hr. split; [exact Hself|]. rewrite !Htr by (done || lia). by vm_compute.
Defined.
End Witness.
