(* ===== verification/KernelMap.v ===== *)
(** * The start of the kernel map

    [GlobalMap::Initialize] (src/arch/x64/vmm/global/global-map.cpp) puts the
    kernel on an address space of its own: MapSetup builds the first tables
    (MapSetup.v), the finder starts empty (GlobalMap.v), CR3 is loaded, and the
    buddy allocator (Buddy.v) is built in memory that the step allocator hands
    out page by page through the map itself ([AllocAndMap] of Allocator.v).
    [phys_kernel] and [map_kernel] connect the kernel map and the step
    allocator to the interface of Allocator.v. *)

From stdpp Require Import base numbers list gmap strings.
From Stdlib Require Import ZArith Lia.
From S2P Require Import Prelude Machine Mmu PageTable PageTree PageTableProofs PageTableList Concrete PageTableProps GlobalMap GlobalMapProofs Regions Buddy Allocator MapSetup.
#[local] Open Scope Z_scope.

(** What is used of the step allocator besides its pages
    (pmm/step-allocator.cpp): its construction and [GetLastAddress]. *)
Class StepPages (A : Type) := {
  NewStepAllocator : Z → A;
  GetLastAddress : A → Z;
}.

(** It only moves upwards: what it has handed out lies below. *)
Class StepLaws (A : Type) `{AllocLaws A, !StepPages A} := {
  owned_below : ∀ (a : A) p, p ∈ owned a → p < GetLastAddress a;
}.

Module KernelMap.

(** The fields of the map that the start needs, with the step allocator its
    table allocates from. *)
Record kernel {A : Type} : Type := mkKernel {
  pages : A;
  pml4 : Z;                          (* of pageTable *)
  finder : FreeFinder.state;         (* freeFinder *)
}.
Arguments kernel : clear implicits.

Section Ops.
Context {A : Type} `{PageTable.PhysAllocator A, AnsaBzero A, AnsaLock A, !StepPages A}.

Definition set_pages (a : A) (k : kernel A) : kernel A := mkKernel A a k.(pml4) k.(finder).
Definition set_finder (f : FreeFinder.state) (k : kernel A) : kernel A :=
  mkKernel A k.(pages) k.(pml4) f.

(** An operation of the page table, and one that also uses the finder. *)
Definition on_table {X} (m : Z → M (machine A) X) : M (machine (kernel A)) X :=
  k ← gets alloc; zoom pages set_pages (m k.(pml4)).

Definition on_finder {X} (m : Z → FreeFinder.state → M (machine A) (X * FreeFinder.state))
  : M (machine (kernel A)) X :=
  k ← gets alloc;
  '(x, f) ← zoom pages set_pages (m k.(pml4) k.(finder));
  _ ← modify (λ s, set_alloc (set_finder f s.(alloc)) s);
  mret x.

(** The physical allocator whose [AllocAndMap] runs: the step allocator. *)
#[export] Instance phys_kernel : Allocator.PhysAllocator (machine (kernel A)) := {
  PhysAlloc size align := on_table (λ _, PageTable.alloc_op (Alloc size align));
  PhysFree a := on_table (λ _, PageTable.alloc_op (Free a));
}.

(** The map it maps with: the kernel map. *)
#[export] Instance map_kernel : MemoryMap (machine (kernel A)) := {
  placementMap := Capabilities.placementMap GlobalMap.GetCapabilities;
  MapPageSizeCount := GlobalMap.GetPageSizeCount;
  MapPageSize idx := if idx =? 0 then 0x1000 else 0x200000;
  MapPageSizeAlign idx := if idx =? 0 then 0x1000 else 0x200000;
  MapRead addr := on_table (λ pml4, GlobalMap.Read pml4 addr);
  MapMap phys size attr := on_finder (λ pml4 f, GlobalMap.Map pml4 f phys size attr);
  MapMapAt addr phys size attr := on_table (λ pml4, GlobalMap.MapAt pml4 addr phys size attr);
  MapUnmap addr size := on_finder (λ pml4 f, f ← GlobalMap.Unmap pml4 f addr size; mret (tt, f));
  MapReserve size := on_finder (λ pml4 f, GlobalMap.Reserve pml4 f size);
}.

(** The sizes are those [GetPageSize] returns. *)
Lemma run_GetPageSize idx (s : machine (kernel A)) : 0 ≤ idx < 2 →
  GlobalMap.GetPageSize idx s = Ok (MapPageSize idx, s)
  ∧ GlobalMap.GetPageSizeAlign idx s = Ok (MapPageSizeAlign idx, s).
Proof.
  intros Hi. assert (idx = 0 ∨ idx = 1) as [->| ->] by lia; done.
Qed.

Section Initialize.
Context {C L R D : Type} `{AnallocRegion R, !AnallocRegionList L R, AnallocCluster C, !AnallocBuilder C L D}.
(** [ansa::Align], the sizes of the objects placed after the kernel, and the
    boot information. *)
Context (Align : Z → Z → Z) (sizeofBuddy sizeofTable sizeofFinder : Z).
Context (bootKernelEnd : Z) (lowerRegions upperRegions : L).
Abbreviation B := (BuddyAllocator.buddy C).

(** The objects that are left: the map, whose table now allocates from the
    buddy allocator, which is its [pageAllocator] too. *)
Record result : Type := mkResult { map : kernel B; pdpt : Z }.
Definition pageAllocator (r : result) : B := r.(map).(pages).

(** [PageTable::SetAllocator]. *)
Definition SetAllocator (b : B) (k : kernel A) : kernel B := mkKernel B b k.(pml4) k.(finder).

(** A method of an allocator that is not the one of the state. *)
Definition on_buddy (b : B) (m : M (machine B) unit) : M (machine (kernel A)) B := λ s,
  match m (with_alloc b s) with
  | Ok (_, s') => Ok (s'.(alloc), with_alloc s.(alloc) s')
  | Stop f => Stop f
  end.

(** [MapSetup::GenerateMap]; the constructor starts the step allocator at the
    end of the reserved space. *)
Definition GenerateMap : M (machine (kernel A)) MapSetup.setup :=
  let setup := MapSetup.new Align bootKernelEnd sizeofBuddy sizeofTable sizeofFinder in
  _ ← modify (λ s, set_alloc
        (set_pages (NewStepAllocator setup.(MapSetup.reservedEnd)) s.(alloc)) s);
  on_table (λ _, MapSetup.GenerateMap setup).

Definition GeneratePageTable (setup : MapSetup.setup) : M (machine (kernel A)) unit :=
  modify (λ s, set_alloc
    (mkKernel A s.(alloc).(pages) setup.(MapSetup.pml4) s.(alloc).(finder)) s).

Definition GenerateFreeFinder : M (machine (kernel A)) unit :=
  modify (λ s, set_alloc (set_finder (FreeFinder.mkState 0 0) s.(alloc)) s).

(** [bigPages] is true by default. *)
Definition GenerateBuddyAllocator : M (machine (kernel A)) (kernel B) :=
  b ← BuddyAllocator.new (D:=D) (λ size, Allocator.AllocAndMap size true)
        lowerRegions upperRegions;
  k ← gets alloc;
  b ← on_buddy b (BuddyAllocator.Reserve (GetLastAddress k.(pages)));
  k ← gets alloc;
  mret (SetAllocator b k).

(** The first part of [Initialize], up to the address space that is loaded. *)
Definition load_map : M (machine (kernel A)) MapSetup.setup :=
  _ ← put_text "Initializing x64::GlobalMap"; _ ← put_endl;
  setup ← GenerateMap;
  _ ← put_text " - generating global PageTable"; _ ← put_endl;
  _ ← GeneratePageTable setup;
  _ ← put_text " - generating FreeFinder"; _ ← put_endl;
  _ ← GenerateFreeFinder;
  _ ← ScopedCritical (on_table (GlobalMap.Set_ WillSet_uninitialized));
  mret setup.

Definition Initialize : M (machine (kernel A)) result :=
  setup ← load_map;
  _ ← put_text " - generating BuddyAllocator"; _ ← put_endl;
  map ← GenerateBuddyAllocator;
  mret (mkResult map (MapSetup.GetPdpt setup)).
End Initialize.
End Ops.
Arguments kernel : clear implicits.
End KernelMap.

(** ** Pages of the kernel map *)

Section Pages.
Context {A : Type} `{AllocLaws A, BzeroLaws A, LockLaws A}.
Implicit Types (s : machine A) (f : FreeFinder.state) (T : gmap (list Z) Z).
Abbreviation KE := PageTable.KernelEnd.

(** Between two operations: the tables are a tree, the lock is free, and the
    finder keeps a range without a page. *)
Record map_ok s (root : Z) T f : Prop := {
  mo_pt : pt_state s root T;
  mo_lock : GlobalMapLock ∉ s.(held);
  mo_finder : finder_ok s root f;
}.

(** What was mapped in the kernel's half still is. *)
Definition kept s s' (root : Z) : Prop :=
  ∀ w x, 0 ≤ w < KE → translate s.(mem) root w = Some x → translate s'.(mem) root w = Some x.

(** The page at [v] has its slot, which maps nothing yet. *)
Definition reserved s (root v : Z) : Prop :=
  ∀ w, covers v 3 w → ∃ e, leaf4 s.(mem) root w = (3, e) ∧ present e = false.

Lemma walks_free_keep d m m' root v :
  walks_free m root v → leaf_keep d m m' root v → walks_free m' root v.
Proof.
  unfold walks_free. intros Hw [->|(_ & _ & ->)]; [done|]. by vm_compute.
Qed.

Lemma reserved_keep s s' root v :
  reserved s root v → (∀ w, covers v 3 w → leaf_keep 3 s.(mem) s'.(mem) root w) → reserved s' root v.
Proof.
  intros Hr Hk w Hw. destruct (Hr w Hw) as (e & Hl & Hp). exists e. split; [|done].
  destruct (Hk w Hw) as [->|(Hlt & _)]; [done|]. rewrite Hl in Hlt. cbn in Hlt. lia.
Qed.

Lemma covers_kernel v w : 0 ≤ v < KE → 0 ≤ w < KE → covers v 3 w ↔ w / 4096 = v / 4096.
Proof.
  unfold covers, PageTable.KernelEnd. change (span 3) with 4096. intros Hv Hw.
  by rewrite !Z.mod_small by (eval_pow; lia).
Qed.

(** The pages from [a] on, below the finder's region, get the entries from
    [entry] on. *)
Lemma run_set_pages s root T f n a entry :
  map_ok s root T f → a mod 4096 = 0 → 0 ≤ a → a + Z.of_nat n * 4096 ≤ f.(FreeFinder.freeStart) →
  0 ≤ entry → entry + Z.of_nat n * 4096 < 2 ^ 64 →
  (∀ i, 0 ≤ i < Z.of_nat n → ¬ blocked s.(mem) root (a + i * 4096) 3) →
  (n * 3 ≤ avail s.(alloc))%nat →
  let s1 := set_held (GlobalMapLock :: s.(held)) s in
  ∃ c s2 T', PageTable.SetList root a entry (mkSize 0x1000 (Z.of_nat n)) 3 false s1 = Ok (c, s2)
    ∧ pt_state s2 root T' ∧ same_cpu s1 s2
    ∧ (avail s.(alloc) ≤ avail s2.(alloc) + n * 3)%nat
    ∧ (∀ w i, 0 ≤ i < Z.of_nat n → covers (a + i * 4096) 3 w →
        leaf4 s2.(mem) root w = (3, entry + i * 4096))
    ∧ (∀ w, idx w 0 ≠ 511 → (∀ i, 0 ≤ i < Z.of_nat n → ¬ covers (a + i * 4096) 3 w) →
        leaf_keep 3 s.(mem) s2.(mem) root w)
    ∧ finder_ok s2 root f.
Proof.
  intros [Hps Hl [Hf Hgap]] Ha Ha0 Hae He0 He Hb Hav s1.
  assert (HKE : f.(FreeFinder.freeStart) + f.(FreeFinder.freeSize) ≤ KE) by apply Hf.
  assert (Hf0 : 0 ≤ f.(FreeFinder.freeSize)) by apply Hf.
  assert (Hps1 : pt_state s1 root T) by (by apply pt_state_held).
  assert (HKE64 : KE ≤ 2 ^ 39) by done.
  assert (Hg : good_range 3 n a entry).
  { split; change (span 3) with 4096; [done|lia|lia|lia| |by left].
    intros i Hi. apply idx0_kernel. lia. }
  pose proof (run_SetList 3 flags_3 root 3 ltac:(lia) n a entry _ false s1 T Hps1 ltac:(lia)
    eq_refl Hg) as Hpost.
  change (span 3) with 4096 in Hpost. fold s1.
  destruct (PageTable.SetList _ _ _ _ _ _ s1) as [[c s2]|fl]; cbn [setlist_post] in Hpost.
  - destruct Hpost as ([T' [Hps2 Hcpu _ Hh Hk _ _]] & _ & Hle).
    exists c, s2, T'. change (span 3) with 4096 in *. split_and!; try done.
    split; [done|]. intros v Hv. assert (Hv0 : 0 ≤ v < KE) by (unfold fend, region_in_range in *; lia).
    apply (walks_free_keep 3 s.(mem)); [by apply Hgap|]. apply Hk; [by apply idx0_kernel|].
    intros i Hi Hc. apply (covers_kernel (a + i * 4096) v) in Hc; [|lia..]. zlia.
  - exfalso. destruct Hpost as [[_ Hx]|(_ & i & Hi & Hx)]; [cbn in Hx; lia|by apply (Hb i)].
Qed.

(** A range without a page maps nothing, so that mapping it loses nothing. *)
Lemma kept_off s s' root T T' (P : Z → Prop) :
  pt_state s root T → pt_state s' root T' →
  (∀ w, 0 ≤ w < KE → P w → translate s.(mem) root w = None) →
  (∀ w, 0 ≤ w < KE → ¬ P w → leaf_keep 3 s.(mem) s'.(mem) root w) →
  (∀ w, Decision (P w)) → kept s s' root.
Proof.
  intros Hps Hps' Hnone Hk Hdec w x Hw Hx. destruct (Hdec w) as [Hp|Hp].
  - by rewrite Hnone in Hx.
  - by rewrite (keep_translate 3 s s' root T T' w Hps Hps' (Hk w Hw Hp)).
Qed.

Lemma reserve_entry_absent i : 0 ≤ i →
  present (GlobalMap.reserve_entry 0x1000 + i * 4096) = false.
Proof.
  intros Hi. change (GlobalMap.reserve_entry 0x1000) with 0x1000.
  rewrite present_bit. apply Z.testbit_false; [lia|]. change (2 ^ 0) with 1. rewrite Z.div_1_r. zlia.
Qed.

(** [Reserve] takes pages that are free and keeps room for the rest. *)
Lemma run_Reserve_pages s root T f n rest :
  map_ok s root T f → (0 < n)%nat → (n * 3 ≤ avail s.(alloc))%nat →
  has_room s root f ((Z.of_nat n + 1) * 4096 + rest) → 0 ≤ rest →
  ∃ a f' s' T', GlobalMap.Reserve root f (mkSize 0x1000 (Z.of_nat n)) s = Ok ((Some a, f'), s')
    ∧ map_ok s' root T' f' ∧ same_cpu s s' ∧ kept s s' root
    ∧ a mod 4096 = 0 ∧ 0 ≤ a ∧ a + Z.of_nat n * 4096 ≤ f'.(FreeFinder.freeStart)
    ∧ (∀ i, 0 ≤ i < Z.of_nat n → reserved s' root (a + i * 4096))
    ∧ rest ≤ f'.(FreeFinder.freeSize)
    ∧ (avail s.(alloc) ≤ avail s'.(alloc) + n * 3)%nat.
Proof.
  intros Hmo Hn Hav Hroom Hrest. pose proof Hmo as [Hps Hl Hfo].
  assert (Hsmall : (Z.of_nat n + 1) * 4096 + rest ≤ KE).
  { destruct Hfo as [Hf _]. unfold region_in_range in Hf. destruct Hroom as [?|(_ & x & ? & ? & _)]; lia. }
  assert (HKE : KE = 2 ^ 39) by done.
  set (s1 := set_held (GlobalMapLock :: s.(held)) s).
  assert (Hps1 : pt_state s1 root T) by (by apply pt_state_held).
  destruct (run_finder_Alloc s1 root T f (Z.of_nat n * 4096) 4096 _ Hps1 Hfo Hroom ltac:(lia) ltac:(lia)
    ltac:(lia)) as (a & f' & Hal & Hfo' & Ha & Ha0 & Hae & Hgap & Hsz).
  assert (Hmo' : map_ok s root T f') by done.
  assert (HfKE : f'.(FreeFinder.freeStart) ≤ KE).
  { destruct Hfo' as [Hf' _]. unfold region_in_range in Hf'. lia. }
  destruct (run_set_pages s root T f' n a (GlobalMap.reserve_entry 0x1000) Hmo' Ha Ha0 Hae)
    as (c & s2 & T' & Hr & Hps2 & Hcpu & Hle & Hh & Hk & Hfo2); [done| | |done|].
  { change (GlobalMap.reserve_entry 0x1000) with 0x1000. eval_pow. lia. }
  { intros i Hi (_ & Hp & _). specialize (Hgap (a + i * 4096) ltac:(lia)).
    unfold walks_free in Hgap. change (mem s1) with (mem s) in Hgap. by rewrite Hp in Hgap. }
  fold s1 in Hr, Hcpu.
  assert (Hbody : ('(r, f) ← FreeFinder.Alloc root f (Bytes (mkSize 0x1000 (Z.of_nat n))) 0x1000;
    match r with
    | None => mret (None, f)
    | Some addr =>
        _ ← PageTable.SetList root addr (GlobalMap.reserve_entry 0x1000)
              (mkSize 0x1000 (Z.of_nat n)) 3 false;
        mret (Some addr, f)
    end) s1 = Ok ((Some a, f'), s2)).
  { assert (Bytes (mkSize 0x1000 (Z.of_nat n)) = Z.of_nat n * 4096) as ->.
    { unfold Bytes. cbn [pageSize pageCount]. rewrite u64_small by (unfold is_u64; lia). lia. }
    run Hal. cbn beta iota. by run Hr. }
  destruct (locked_run _ root T s _ _ _ T' Hps Hl Hbody Hps2 Hcpu) as (Hrun & Hps3 & Hcpu3).
  exists a, f', (set_held s.(held) s2), T'. split_and!; try done.
  - unfold GlobalMap.Reserve. run run_AssertNoncritical; [exact Hrun|apply (ps_noncritical _ _ _ Hps)].
  - apply (kept_off s s2 root T T' (λ w, a ≤ w < a + Z.of_nat n * 4096)); [done|done| | |apply _].
    + intros w Hw Hin. eapply unmapped_translate; [exact Hps|done|].
      specialize (Hgap w Hin). by apply orb_false_iff in Hgap as [? _].
    + intros w Hw Hout. apply Hk; [by apply idx0_kernel|]. intros i Hi Hc.
      apply (covers_kernel (a + i * 4096) w) in Hc; [|lia..]. apply Hout. zlia.
  - intros i Hi w Hc. exists (GlobalMap.reserve_entry 0x1000 + i * 4096).
    split; [by apply Hh|apply reserve_entry_absent; lia].
  - lia.
Qed.

(** The entry of a page of the kernel. *)
Lemma page_entry_eq p : p mod 4096 = 0 → 0 ≤ p < 2 ^ 52 →
  let e := p .| PageTable.CalcMask 0x1000 true default_attributes in
  0 ≤ e ∧ e + 4096 < 2 ^ 64 ∧ present e = true ∧ frame e = p.
Proof.
  intros Hp Hb e. change (PageTable.CalcMask 0x1000 true default_attributes) with 0x103 in e.
  assert (He : e / 2 ^ 12 = p / 2 ^ 12) by (apply lor_div; lia).
  assert (0 ≤ e) by (apply Z.lor_nonneg; lia).
  split_and!; [done|eval_pow; zlia| |].
  - unfold e. by rewrite present_bit, Z.lor_spec, orb_true_r.
  - rewrite frame_eq, He. eval_pow. zlia.
Qed.

Lemma run_MapAt_page s root T f v p :
  map_ok s root T f → reserved s root v → v mod 4096 = 0 → 0 ≤ v →
  v + 4096 ≤ f.(FreeFinder.freeStart) → p mod 4096 = 0 → 0 ≤ p < 2 ^ 52 → (3 ≤ avail s.(alloc))%nat →
  ∃ s' T', GlobalMap.MapAt root v p (mkSize 0x1000 1) default_attributes s = Ok (tt, s')
    ∧ map_ok s' root T' f ∧ same_cpu s s' ∧ kept s s' root
    ∧ (avail s.(alloc) ≤ avail s'.(alloc) + 3)%nat
    ∧ (∀ u, 0 ≤ u < KE → u mod 4096 = 0 → u ≠ v → reserved s root u → reserved s' root u)
    ∧ translate s'.(mem) root v = Some p.
Proof.
  intros Hmo Hres Hv Hv0 Hvf Hp Hpb Hav. pose proof Hmo as [Hps Hl Hfo].
  assert (HKE : KE = 2 ^ 39) by done.
  assert (HfKE : f.(FreeFinder.freeStart) ≤ KE).
  { destruct Hfo as [Hf _]. unfold region_in_range in Hf. lia. }
  set (e := p .| PageTable.CalcMask 0x1000 true default_attributes).
  destruct (page_entry_eq p Hp Hpb) as (He0 & He1 & Hpr & Hfr). fold e in He0, He1, Hpr, Hfr.
  destruct (run_set_pages s root T f 1 v e Hmo Hv Hv0 ltac:(lia) He0 ltac:(lia))
    as (c & s2 & T' & Hr & Hps2 & Hcpu & Hle & Hh & Hk & Hfo2); [|done|].
  { intros i Hi (Hlt & _). assert (i = 0) as -> by lia. rewrite Z.add_0_r in Hlt.
    destruct (Hres v) as (x & Hx & _); [done|]. rewrite Hx in Hlt. cbn in Hlt. lia. }
  set (s1 := set_held (GlobalMapLock :: s.(held)) s) in *.
  assert (Hone : ∀ w, covers v 3 w → leaf4 s2.(mem) root w = (3, e)).
  { intros w Hc. rewrite (Hh w 0); [by rewrite Z.add_0_r|lia|by rewrite Z.add_0_r]. }
  assert (Hoff : ∀ w, idx w 0 ≠ 511 → ¬ covers v 3 w → leaf_keep 3 s.(mem) s2.(mem) root w).
  { intros w Hw Hc. apply Hk; [done|]. intros i Hi. assert (i = 0) as -> by lia.
    by rewrite Z.add_0_r. }
  assert (Hbody : (_ ← PageTable.SetList root v e (mkSize 0x1000 1) 3 false;
    emit (EvInvlpg v (Bytes (mkSize 0x1000 1)))) s1
    = Ok (tt, push_event (EvInvlpg v (Bytes (mkSize 0x1000 1))) s2)) by (by run Hr).
  destruct (locked_run _ root T s _ _ _ T' Hps Hl Hbody) as (Hrun & Hps3 & Hcpu3).
  { destruct Hps2; by split. }
  { destruct Hcpu; by split. }
  set (s3 := set_held s.(held) (push_event (EvInvlpg v (Bytes (mkSize 0x1000 1))) s2)) in *.
  exists s3, T'. split_and!.
  - unfold GlobalMap.MapAt. run run_AssertNoncritical; [exact Hrun|apply (ps_noncritical _ _ _ Hps)].
  - by split.
  - done.
  - apply (kept_off s s3 root T T' (λ w, covers v 3 w)); [done|done| | |apply _].
    + intros w Hw Hc. eapply unmapped_translate; [exact Hps|done|].
      by destruct (Hres w Hc) as (x & -> & ?).
    + intros w Hw Hc. apply Hoff; [by apply idx0_kernel|done].
  - cbn [alloc s3 set_held push_event]. lia.
  - intros u Hu Hum Huv Hru. eapply (reserved_keep s); [exact Hru|]. intros w Hc. apply Hoff.
    + rewrite (idx_covers u 3 w) by (done || lia). by apply idx0_kernel.
    + intros Hcv. unfold covers in Hc, Hcv. change (span 3) with 4096 in *.
      rewrite Hc in Hcv. rewrite !Z.mod_small in Hcv by (eval_pow; lia). zlia.
  - rewrite (pt_translate _ _ _ _ Hps3). cbn [mem s3 set_held push_event].
    rewrite (Hone v) by done. unfold canonical.
    rewrite (proj2 (Z.ltb_lt v (2 ^ 47))) by (eval_pow; lia). cbn [orb leaf_frame].
    rewrite Hpr. cbn [andb negb Z.eqb Pos.eqb]. f_equal. unfold in_page.
    change (span 3) with 4096. rewrite Hfr. zlia.
Qed.
End Pages.

(** ** Allocation through the kernel map *)

Section Mapped.
Context {A : Type} `{AllocLaws A, BzeroLaws A, LockLaws A, !StepPages A}.
Import KernelMap.
Implicit Types (s : machine (kernel A)) (T : gmap (list Z) Z).
Abbreviation KE := PageTable.KernelEnd.
Abbreviation root s := s.(alloc).(pml4).

(** The machine its page table runs on. *)
Definition inner s : machine A := with_alloc s.(alloc).(pages) s.
Definition outer (k : kernel A) (s0 : machine A) : machine (kernel A) :=
  with_alloc (set_pages s0.(alloc) k) s0.

Lemma inner_outer k (s0 : machine A) : inner (outer k s0) = s0.
Proof. by destruct s0. Qed.

Lemma run_on_table {X} (m : Z → M (machine A) X) s x (s0 : machine A) :
  m (root s) (inner s) = Ok (x, s0) → on_table m s = Ok (x, outer s.(alloc) s0).
Proof. intros Hm. unfold on_table. run run_gets. by apply run_zoom. Qed.

Lemma run_on_finder {X} (m : Z → FreeFinder.state → M (machine A) (X * FreeFinder.state)) s x f (s0 : machine A) :
  m (root s) s.(alloc).(finder) (inner s) = Ok ((x, f), s0) →
  on_finder m s = Ok (x, outer (set_finder f s.(alloc)) s0).
Proof.
  intros Hm. unfold on_finder. run run_gets. erewrite run_bind; [|by apply run_zoom].
  cbn beta iota. by run run_modify.
Qed.

Definition kernel_ok s T : Prop := map_ok (inner s) (root s) T s.(alloc).(finder).

(** What the operations below leave alone. *)
Record same_kernel s s' : Prop := {
  sk_root : root s' = root s;
  sk_cpu : same_cpu (inner s) (inner s');
  sk_kept : kept (inner s) (inner s') (root s);
}.

Lemma same_kernel_refl s : same_kernel s s.
Proof. split; [done|done|]. by intros w x _. Qed.

Lemma same_kernel_trans s s1 s2 : same_kernel s s1 → same_kernel s1 s2 → same_kernel s s2.
Proof.
  intros [R1 C1 K1] [R2 C2 K2]. split; [congruence|by etrans|].
  intros w x Hw Hx. rewrite R1 in K2. by apply K2, K1.
Qed.

Definition left_over s : nat := avail s.(alloc).(pages).

(** A page of the step allocator. *)
Lemma run_kernel_PhysAlloc s T :
  kernel_ok s T → (0 < left_over s)%nat →
  ∃ p a', PhysAlloc 0x1000 0x1000 s = Ok (Some p, set_alloc (set_pages a' s.(alloc)) s)
    ∧ p mod 4096 = 0 ∧ 0 ≤ p < 2 ^ 52 ∧ owned s.(alloc).(pages) ⊆ owned a'
    ∧ (left_over s ≤ Datatypes.S (avail a'))%nat.
Proof.
  intros Hk Hav. destruct (alloc_avail _ Hav) as (p & a' & Hr & Hle).
  destruct (alloc_some _ _ _ Hr) as (Hp & Hb & _ & Ho). exists p, a'.
  split_and!; [|done|lia|lia|rewrite Ho; set_solver|done].
  cbn [PhysAlloc phys_kernel].
  rewrite (run_on_table _ s (Some p) (set_alloc a' (inner s))); [by destruct s|].
  unfold PageTable.alloc_op. cbn [inner alloc with_alloc]. by rewrite Hr.
Qed.

Lemma kernel_ok_pages s T a' : owned s.(alloc).(pages) ⊆ owned a' → kernel_ok s T →
  kernel_ok (set_alloc (set_pages a' s.(alloc)) s) T.
Proof.
  intros Ho [[Hc Hn Ht Hown] Hl Hf]. split; [|done|done].
  split; [done|done|done|]. intros p g Hg. apply Ho. by eapply Hown.
Qed.

Lemma run_kernel_page_loop n s T res dest :
  kernel_ok s T → dest mod 4096 = 0 → 0 ≤ dest →
  dest + Z.of_nat n * 4096 ≤ s.(alloc).(finder).(FreeFinder.freeStart) →
  (∀ i, 0 ≤ i < Z.of_nat n → reserved (inner s) (root s) (dest + i * 4096)) →
  (n * 4 ≤ left_over s)%nat →
  ∃ s' T', Allocator.page_loop n res dest 0x1000 0x1000 s = Ok (true, s')
    ∧ kernel_ok s' T' ∧ same_kernel s s' ∧ s'.(alloc).(finder) = s.(alloc).(finder)
    ∧ (left_over s ≤ left_over s' + n * 4)%nat.
Proof.
  revert s T dest. induction n as [|n IH]; intros s T dest Hk Hd Hd0 Hdf Hres Hav.
  { exists s, T. split_and!; try done; [apply same_kernel_refl|lia]. }
  cbn [Allocator.page_loop].
  assert (HfKE : s.(alloc).(finder).(FreeFinder.freeStart) ≤ KE).
  { destruct (mo_finder _ _ _ _ Hk) as [Hf _]. unfold region_in_range in Hf. lia. }
  assert (HKE : KE = 2 ^ 39) by done.
  destruct (run_kernel_PhysAlloc s T Hk ltac:(lia)) as (p & a' & Hr & Hp & Hpb & Ho & Hle).
  run Hr. cbn beta iota. set (s1 := set_alloc (set_pages a' s.(alloc)) s).
  assert (Hk1 : kernel_ok s1 T) by (by apply kernel_ok_pages).
  destruct (run_MapAt_page (inner s1) (root s1) T s1.(alloc).(finder) dest p Hk1)
    as (s2 & T2 & Hm & Hk2 & Hc2 & Hkp2 & Hle2 & Hres2 & _);
    [|done|done|cbn; lia|done|done|cbn in *; lia|].
  { specialize (Hres 0 ltac:(lia)). by rewrite Z.add_0_r in Hres. }
  erewrite run_bind; [cbn beta|apply (run_on_table _ s1 tt s2 Hm)].
  rewrite (u64_small (dest + 0x1000)) by (unfold is_u64; lia).
  set (s3 := outer s1.(alloc) s2).
  destruct (IH s3 T2 (dest + 0x1000)) as (s4 & T4 & Hrun & Hk4 & Hs4 & Hf4 & Hle4).
  - unfold kernel_ok, s3. by rewrite inner_outer.
  - zlia.
  - lia.
  - cbn. lia.
  - intros i Hi. unfold s3. rewrite inner_outer. apply Hres2; [lia|zlia|lia|].
    replace (dest + 0x1000 + i * 4096) with (dest + (i + 1) * 4096) by lia. apply Hres. lia.
  - change (n * 4 ≤ avail s2.(alloc))%nat. cbn in Hle2. lia.
  - exists s4, T4. split_and!; [exact Hrun|done| |by rewrite Hf4|].
    + eapply same_kernel_trans; [|exact Hs4]. split; [done| |]; unfold s3; rewrite inner_outer.
      * destruct Hc2. by split.
      * exact Hkp2.
    + change (left_over s3) with (avail s2.(alloc)) in Hle4. cbn in Hle2. lia.
Qed.

(** [AllocAndMap] of a size that is no multiple of the larger page size. *)
Lemma run_kernel_AllocAndMap s T size rest :
  let n := Z.to_nat (Allocator.page_count size 0x1000) in
  kernel_ok s T → 0 < size < 2 ^ 63 → size mod 0x200000 ≠ 0 → (n * 7 ≤ left_over s)%nat →
  has_room (inner s) (root s) s.(alloc).(finder) ((Z.of_nat n + 1) * 4096 + rest) → 0 ≤ rest →
  ∃ v s' T', Allocator.AllocAndMap size true s = Ok (Some v, s')
    ∧ kernel_ok s' T' ∧ same_kernel s s' ∧ rest ≤ s'.(alloc).(finder).(FreeFinder.freeSize)
    ∧ (left_over s ≤ left_over s' + n * 7)%nat.
Proof.
  intros n Hk Hs Hm Hav Hroom Hrest.
  destruct (page_count_spec size 0x1000 Hs ltac:(lia)) as (Hn & _ & _).
  unfold Allocator.AllocAndMap. change (placementMap (S:=machine (kernel A))) with true. cbn [negb].
  change (Z.to_nat (Allocator.page_size_count true)) with 2%nat. cbn [Allocator.size_loop].
  change (Z.of_nat 1) with 1. change (Z.of_nat 0) with 0.
  change (MapPageSize 1) with 0x200000. change (MapPageSize 0) with 0x1000.
  change (MapPageSizeAlign 0) with 0x1000.
  rewrite (proj2 (truthy_true (size mod 0x200000)) Hm).
  change (truthy 1) with true. change (truthy 0) with false. cbn [andb]. cbn zeta. fold n.
  replace (Allocator.page_count size 0x1000) with (Z.of_nat n) by lia.
  destruct (run_Reserve_pages (inner s) (root s) T s.(alloc).(finder) n rest Hk ltac:(lia)
    ltac:(change (n * 3 ≤ left_over s)%nat; lia) Hroom Hrest)
    as (a & f' & s1 & T1 & Hr & Hk1 & Hc1 & Hkp1 & Ha & Ha0 & Haf & Hres & Hf1 & Hle1).
  erewrite run_bind; [cbn beta iota|apply (run_on_finder _ s _ _ _ Hr)].
  set (s2 := outer (set_finder f' s.(alloc)) s1).
  assert (Hs2 : inner s2 = s1) by apply inner_outer.
  destruct (run_kernel_page_loop n s2 T1 a a) as (s3 & T3 & Hl & Hk3 & Hs3 & Hf3 & Hle3);
    [by unfold kernel_ok; rewrite Hs2|done|done|done|by rewrite Hs2| |].
  { change (n * 4 ≤ avail s1.(alloc))%nat. change (left_over s ≤ avail s1.(alloc) + n * 3)%nat in Hle1. lia. }
  run Hl. cbn beta iota. exists a, s3, T3. split_and!; [done|done| |by rewrite Hf3|].
  - eapply same_kernel_trans; [|exact Hs3]. split; [done| |]; by rewrite Hs2.
  - change (left_over s2) with (avail s1.(alloc)) in Hle3.
    change (left_over s ≤ avail s1.(alloc) + n * 3)%nat in Hle1. lia.
Qed.
End Mapped.

(** ** Initialization *)

Section Start.
Context {A : Type} `{AllocLaws A, BzeroLaws A, LockLaws A, !StepPages A, !StepLaws A}.
Context {C L R D : Type} `{HB : BuilderLaws C L D R, !ReserveLaws C}.
Import KernelMap.
Implicit Types (s : machine (kernel A)).
Context (Align : Z → Z → Z) (sizeofBuddy sizeofTable sizeofFinder bootKernelEnd : Z).
Context (lowerRegions upperRegions : L).
(** The loader's tables, as in MapSetup.v. *)
Context (root lim : Z) (m0 : gmap Z Z) (boot : gset Z).

Definition space (l : L) : Z := RequiredSpace (LayoutRun l : D).
Definition reserved_end : Z :=
  (MapSetup.new Align bootKernelEnd sizeofBuddy sizeofTable sizeofFinder).(MapSetup.reservedEnd).
(** The mapped pages that [AllocAndMap] needs room for, one more for the
    alignment. *)
Definition need (l : L) : nat := Z.to_nat (Allocator.page_count (space l) 0x1000) + 1.

(** The machine the boot loader leaves, with enough memory: the tables of the
    identity mapping, and for each page of the clusters' trees the page itself
    and at most six tables. *)
Record start_ok s : Prop := {
  so_noncritical : noncritical s;
  so_lock : GlobalMapLock ∉ s.(held);
  so_loader : loader_ok (A:=A) root lim m0 boot;
  so_running : s.(cr3) = root ∧ boot_same m0 boot s.(mem) ∧ boot ⊆ owned (NewStepAllocator reserved_end : A);
  so_end : 0 ≤ reserved_end ≤ 2 ^ 38;
  so_lists : lists_inv (Multiboot.mkLists lowerRegions upperRegions);
  so_space l : l = lowerRegions ∨ l = upperRegions →
    0 < space l ≤ 2 ^ 36 ∧ space l mod 0x200000 ≠ 0;
  so_pages : 3 + pdts_for (pages_for reserved_end)
    + 7 * Z.of_nat (need lowerRegions + need upperRegions)
    ≤ Z.of_nat (avail (NewStepAllocator reserved_end : A));
}.

(** The map that [load_map] leaves. *)
Record loaded s (n : nat) : Prop := {
  ld_ok : ∃ T, kernel_ok s T;
  ld_pages : (7 * n ≤ left_over s)%nat;
  ld_room : has_room (inner s) s.(alloc).(pml4) s.(alloc).(finder) (Z.of_nat n * 4096);
  ld_identity : ∀ v, 0 ≤ v < pages_for reserved_end * 0x200000 →
    translate s.(mem) s.(alloc).(pml4) v = Some v;
}.

(** The tables are loaded: from here on the operations of the page table find
    the tree they need. *)
Lemma tables_loaded (s0 : machine A) st ds k s : tables root lim m0 boot s0 st ds k →
  k ≤ 2 ^ 17 + 1 → s.(mem) = s0.(mem) → s.(cr3) = st.(MapSetup.pml4) → noncritical s →
  GlobalMapLock ∉ s.(held) → s.(alloc).(pages) = s0.(alloc) →
  s.(alloc).(pml4) = st.(MapSetup.pml4) → s.(alloc).(finder) = FreeFinder.mkState 0 0 →
  ∀ n, n * 4096 ≤ PageTable.KernelEnd - k * 0x200000 →
  kernel_ok s (boot_tree st ds) ∧ has_room (inner s) s.(alloc).(pml4) s.(alloc).(finder) (n * 4096)
  ∧ ∀ v, 0 ≤ v < k * 0x200000 → translate s.(mem) s.(alloc).(pml4) v = Some v.
Proof.
  intros Ht Hk Hm Hc Hn Hl Ha Hp Hf n Hroom. pose proof (tb_len _ _ _ _ _ _ _ _ Ht) as [Hlen Hk0].
  assert (HKE : PageTable.KernelEnd = 2 ^ 39) by done.
  assert (Hcan : ∀ v, 0 ≤ v < PageTable.KernelEnd → canonical v = true).
  { intros v Hv. unfold canonical. apply orb_true_iff. left. apply Z.ltb_lt. eval_pow. lia. }
  unfold kernel_ok. rewrite Hp, Hf. split_and!.
  - split; [|done|].
    + split; [done|done| |].
      * cbn. rewrite Hm. eapply tables_tree; [exact Ht|lia].
      * intros p g Hg. cbn [alloc inner with_alloc]. rewrite Ha.
        assert (Hin : g ∈ st.(MapSetup.pml4) :: st.(MapSetup.pdpt) :: ds).
        { apply boot_tree_Some in Hg as [[_ ->]|[[_ ->]|(i & _ & Hi)]];
            [by left|right; by left|right; right; by eapply list_elem_of_lookup_2]. }
        by apply (tb_pages _ _ _ _ _ _ _ _ Ht) in Hin as (_ & _ & _ & _ & ?).
    + split; [done|]. intros v Hv. unfold fend in Hv. cbn in Hv. lia.
  - right. split; [done|]. exists (k * 0x200000). split_and!; [lia|lia|].
    intros v Hv. unfold walks_free. cbn [mem inner with_alloc]. rewrite Hm.
    destruct (tables_leaf _ _ _ _ _ _ _ _ v Ht) as [[? _]|(_ & d & ->)];
      [by apply Hcan; lia|eval_pow; lia|apply idx0_kernel; lia|lia|lia|by vm_compute].
  - intros v Hv. rewrite Hm. erewrite tables_translate; [|exact Ht|apply Hcan; lia|eval_pow; lia|
      apply idx0_kernel; lia|lia]. by rewrite (proj2 (Z.ltb_lt _ _)) by lia.
Qed.

Lemma need_bound s l : start_ok s → l = lowerRegions ∨ l = upperRegions →
  Z.of_nat (need l) * 4096 ≤ 2 ^ 36 + 2 * 4096.
Proof.
  intros Hs Hl. destruct (so_space _ Hs l Hl) as [Hsp _]. unfold need.
  destruct (page_count_spec (space l) 0x1000) as (? & ? & _); [eval_pow; lia|lia|]. lia.
Qed.

(** [GlobalMap::Set] within a critical section. *)
Lemma run_switch s :
  ∃ s', ScopedCritical (on_table (GlobalMap.Set_ WillSet_uninitialized)) s = Ok (tt, s')
    ∧ s'.(cr3) = s.(alloc).(pml4) ∧ s'.(mem) = s.(mem) ∧ s'.(alloc) = s.(alloc)
    ∧ s'.(held) = s.(held) ∧ s'.(iflag) = s.(iflag) ∧ s'.(critical_loaded) = s.(critical_loaded).
Proof.
  set (s1 := enter_critical s). set (r := s1.(alloc).(pml4)).
  set (s2 := set_cr3 r (push_event (EvLoadCr3 r) (inner s1))).
  assert (Hset : on_table (GlobalMap.Set_ WillSet_uninitialized) s1 = Ok (tt, outer s1.(alloc) s2)).
  { apply run_on_table. unfold GlobalMap.Set_, emit.
    do 2 (run run_AssertCritical; [|exact (enter_critical_critical s)]). by run run_modify. }
  assert (He : ∀ X (g : machine (kernel A) → X), (∀ b x, g (set_iflag b x) = g x) → g s1 = g s).
  { intros X g Hx. unfold s1, enter_critical. by destruct (critical_loaded s). }
  eexists. split; [by apply run_ScopedCritical|].
  rewrite leave_enter by (done || exact (He _ critical_loaded (λ _ _, eq_refl))).
  split_and!; [exact (He _ (λ x, x.(alloc).(pml4)) (λ _ _, eq_refl))
              |exact (He _ mem (λ _ _, eq_refl))| |exact (He _ held (λ _ _, eq_refl))|done
              |exact (He _ critical_loaded (λ _ _, eq_refl))].
  rewrite <-(He _ alloc (λ _ _, eq_refl)). by destruct s1 as [? ? ? ? ? ? ? []].
Qed.

Lemma run_load_map s : start_ok s →
  ∃ st s', load_map Align sizeofBuddy sizeofTable sizeofFinder bootKernelEnd s = Ok (st, s')
    ∧ loaded s' (need lowerRegions + need upperRegions)
    ∧ s'.(held) = s.(held) ∧ s'.(iflag) = s.(iflag) ∧ s'.(critical_loaded) = s.(critical_loaded).
Proof.
  intros Hst. pose proof Hst as [Hn Hl Hlo (Hcr & Hbs & Hbo) Hend Hli Hsp Hpg].
  unfold load_map, put_text, put_endl, emit. run run_modify. run run_modify.
  set (st0 := MapSetup.new Align bootKernelEnd sizeofBuddy sizeofTable sizeofFinder) in *.
  set (s1 := push_event _ (push_event _ s)).
  set (s2 := set_alloc (set_pages (NewStepAllocator reserved_end) s1.(alloc)) s1).
  change reserved_end with (MapSetup.reservedEnd st0) in *.
  assert (Hk : pages_for (MapSetup.reservedEnd st0) ≤ 2 ^ 17) by (unfold pages_for; zlia).
  destruct (run_GenerateMap root lim m0 boot Hlo (inner s2) st0)
    as (st & s3 & ds & Hg & Ht & (_ & Hf2 & Hf3 & Hf4) & Hle); [by split|done|eval_pow; lia| |].
  { change (avail (inner s2).(alloc)) with (avail (NewStepAllocator (MapSetup.reservedEnd st0) : A)). lia. }
  assert (Hgen : GenerateMap Align sizeofBuddy sizeofTable sizeofFinder bootKernelEnd s1
    = Ok (st, outer s2.(alloc) s3)).
  { unfold GenerateMap. run run_modify. by apply (run_on_table _ s2). }
  run Hgen. unfold GeneratePageTable, GenerateFreeFinder. do 6 run run_modify.
  match goal with |- ∃ _ _, (ScopedCritical _ ≫= _) ?x = _ ∧ _ => destruct (run_switch x)
    as (s5 & Hset & Hc5 & Hm5 & Ha5 & Hh5 & Hi5 & Hl5) end.
  run Hset. exists st, s5. split; [done|].
  assert (Hneed : Z.of_nat (need lowerRegions + need upperRegions) * 4096
    ≤ PageTable.KernelEnd - pages_for (MapSetup.reservedEnd st0) * 0x200000).
  { pose proof (need_bound s lowerRegions Hst (or_introl eq_refl)).
    pose proof (need_bound s upperRegions Hst (or_intror eq_refl)).
    unfold PageTable.KernelEnd, pages_for. eval_pow. zlia. }
  assert (Hc : s5.(held) = s.(held) ∧ s5.(iflag) = s.(iflag) ∧ s5.(critical_loaded) = s.(critical_loaded)).
  { rewrite Hh5, Hi5, Hl5. split_and!; [exact Hf4|exact Hf2|exact Hf3]. }
  destruct Hc as (Hh & Hi & Hcl).
  destruct (tables_loaded s3 st ds _ s5 Ht ltac:(lia) Hm5 Hc5) with
    (n := Z.of_nat (need lowerRegions + need upperRegions)) as (Hok & Hroom & Hid);
    [unfold noncritical; by rewrite Hi, Hcl|by rewrite Hh|by rewrite Ha5..|done|].
  split_and!; [split; [by eexists| |done|done]|done..].
  unfold left_over. rewrite Ha5. cbn [alloc pages set_alloc set_finder].
  pose proof (tb_len _ _ _ _ _ _ _ _ Ht).
  change (avail (NewStepAllocator (MapSetup.reservedEnd st0) : A) ≤ avail s3.(alloc) + 2 + length ds)%nat in Hle.
  change (7 * (need lowerRegions + need upperRegions) ≤ avail s3.(alloc))%nat.
  unfold pdts_for in Hpg. zlia.
Qed.

(** The space for a cluster's trees. *)
Lemma loaded_AllocAndMap s l n : 0 ≤ reserved_end ≤ 2 ^ 38 → 0 < space l ≤ 2 ^ 36 → space l mod 0x200000 ≠ 0 →
  loaded s (need l + n) →
  ∃ v s', Allocator.AllocAndMap (space l) true s = Ok (Some v, s') ∧ loaded s' n ∧ same_kernel s s'.
Proof.
  intros Hend Hs Hm [[T Hk] Hpg Hroom Hid]. unfold need in *.
  set (c := Z.to_nat (Allocator.page_count (space l) 0x1000)) in *.
  destruct (run_kernel_AllocAndMap s T (space l) (Z.of_nat n * 4096) Hk) as
    (v & s' & T' & Hr & Hk' & Hsame & Hf & Hle); [eval_pow; lia|done|fold c; lia| |lia|].
  { fold c. by replace ((Z.of_nat c + 1) * 4096 + Z.of_nat n * 4096)
      with (Z.of_nat (c + 1 + n) * 4096) by lia. }
  fold c in Hle. exists v, s'. split_and!; [done| |done].
  destruct Hsame as [Hroot _ Hkept].
  split; [by eexists|lia|by left|]. rewrite Hroot. intros w Hw. apply Hkept; [|by apply Hid].
  assert (pages_for reserved_end * 0x200000 ≤ PageTable.KernelEnd); [|lia].
  unfold pages_for, PageTable.KernelEnd. eval_pow. zlia.
Qed.

(** C19. From the boot loader's identity mapping, with enough memory,
    [GlobalMap::Initialize] returns: CR3 holds tables of the kernel's own, which
    form the tree every operation of the page table starts from; the kernel and
    what was placed after it are where they were; the finder keeps a range
    without a page; the buddy allocator has no block in use, its two clusters
    on their sides of 4 GiB, and will never hand out a page that holds one of
    the tables; interrupts and locks are as before. *)
Theorem Initialize_correct s : start_ok s →
  ∃ res s' T, Initialize (C:=C) (D:=D) Align sizeofBuddy sizeofTable sizeofFinder bootKernelEnd
      lowerRegions upperRegions s = Ok (res, s')
    ∧ pt_state (inner s') s'.(alloc).(pml4) T ∧ s'.(held) = s.(held) ∧ s'.(iflag) = s.(iflag)
    ∧ (∀ v, 0 ≤ v < pages_for reserved_end * 0x200000 →
         translate s'.(mem) s'.(alloc).(pml4) v = Some v)
    ∧ finder_ok (inner s') s'.(alloc).(pml4) s'.(alloc).(finder)
    ∧ res.(map).(pml4) = s'.(alloc).(pml4) ∧ res.(map).(finder) = s'.(alloc).(finder)
    ∧ buddy_inv (pageAllocator res) ∧ used (pageAllocator res) = ∅
    ∧ (∀ p g, T !! p = Some g → g < GetLastAddress s'.(alloc).(pages))
    ∧ buddy_starts_at (pageAllocator res) (GetLastAddress s'.(alloc).(pages)).
Proof.
  intros Hst. destruct (run_load_map s Hst) as (st & s1 & Hr1 & Hld & Hh1 & Hi1 & Hc1).
  unfold Initialize. run Hr1. unfold put_text, put_endl, emit. run run_modify. run run_modify.
  set (s2 := push_event _ (push_event _ s1)).
  assert (Hld2 : loaded s2 (need lowerRegions + need upperRegions)).
  { destruct Hld as [[T [[? ? ? ?] ? ?]] ? ? ?]. split; [exists T; by split|done..]. }
  destruct (new_inv (D:=D) (λ size, Allocator.AllocAndMap size true)
    (Multiboot.mkLists lowerRegions upperRegions)
    (λ n s', loaded s' n ∧ same_kernel s2 s') need s2 (so_lists _ Hst))
    as (b & s3 & n & Hnew & [[[T Hk] _ _ Hid] Hsame] & Hb & Hu).
  { intros l n s3 Hl [Hl3 Hs3]. destruct (so_space _ Hst l Hl) as [Hsp Hsm].
    destruct (loaded_AllocAndMap s3 l n (so_end _ Hst) Hsp Hsm Hl3) as (v & s4 & Hr & ? & ?).
    exists v, s4. split_and!; [done|done|by eapply same_kernel_trans]. }
  { split; [exact Hld2|apply same_kernel_refl]. }
  assert (Hlast : ∀ p g, T !! p = Some g → 0 ≤ g < GetLastAddress s3.(alloc).(pages)).
  { intros p g Hg. destruct Hk as [Hps _ _].
    destruct (t_page _ _ _ (ps_tree _ _ _ Hps) _ _ Hg) as [_ ?]. split; [lia|].
    apply owned_below. exact (ps_owned _ _ _ Hps _ _ Hg). }
  destruct (run_buddy_Reserve (with_alloc b s3) (GetLastAddress s3.(alloc).(pages)) Hb)
    as (b' & Hr & Hb' & Hu' & Hst').
  { destruct Hk as [Hps _ _]. pose proof (t_root _ _ _ (ps_tree _ _ _ Hps)) as Hroot.
    apply Hlast in Hroot. lia. }
  exists (mkResult (SetAllocator b' s3.(alloc)) (MapSetup.GetPdpt st)), s3, T.
  destruct Hsame as [_ Hcpu _]. destruct Hk as [Hps Hlk Hf]. split_and!; try done.
  - unfold GenerateBuddyAllocator. erewrite run_bind; [done|]. run Hnew. run run_gets.
    erewrite run_bind; [|by unfold on_buddy; rewrite Hr]. by destruct s3.
  - rewrite <-Hh1. exact (sc_held _ _ Hcpu).
  - rewrite <-Hi1. exact (sc_iflag _ _ Hcpu).
  - exact (eq_trans Hu' Hu).
  - intros p g Hg. by apply Hlast in Hg as [_ ?].
Qed.
End Start.

(** ** Example *)

(** A step allocator over the pages from 0x401000 on; the state counts the
    pages that are handed out.  The loader's tables are never handed out. *)
Module Steps.
Definition limit : nat := 256.
Definition page (n : nat) : Z := 0x401000 + 0x1000 * Z.of_nat n.
Definition handed_out (n : nat) : gset Z := {[0x1000; 0x2000]} ∪ list_to_set (page <$> seq 0 n).

#[export] Instance steps : PageTable.PhysAllocator nat := {
  Alloc size align n := if (n <? limit)%nat then Ok (Some (page n), S n) else Ok (None, n);
  Free _ _ := Stop (Panic "StepAllocator::Free() - unsupported");
}.
#[export] Instance step_pages : StepPages nat := {
  NewStepAllocator _ := 0%nat;
  GetLastAddress := page;
}.

Lemma elem_of_handed_out n p : p ∈ handed_out n ↔
  p = 0x1000 ∨ p = 0x2000 ∨ ∃ i, (i < n)%nat ∧ p = page i.
Proof.
  unfold handed_out. rewrite !elem_of_union, !elem_of_singleton, elem_of_list_to_set, list_elem_of_fmap.
  setoid_rewrite elem_of_seq. split.
  - intros [[?|?]|(i & ? & ?)]; [by left|by right; left|]. right. right. exists i. split; [lia|done].
  - intros [?|[?|(i & ? & ?)]]; [by left; left|by left; right|]. right. exists i. split; [done|lia].
Qed.

#[export] Program Instance steps_laws : AllocLaws nat := {
  owned := handed_out;
  avail n := (limit - n)%nat;
}.
Next Obligation. intros n. cbn [Alloc steps]. destruct (n <? limit)%nat; by eexists _, _. Qed.
Next Obligation.
  intros n p n'. cbn [Alloc steps]. destruct (Nat.ltb_spec n limit) as [Hn|]; [|done]. intros [= <- <-].
  unfold limit in Hn. unfold page at 1 2 3. split_and!; [zlia|lia|eval_pow; lia| |].
  - rewrite elem_of_handed_out. unfold page. intros [?|[?|(i & ? & ?)]]; lia.
  - apply set_eq. intros x. rewrite elem_of_union, elem_of_singleton, !elem_of_handed_out. split.
    + intros [?|[?|(i & ? & ->)]]; [tauto..|].
      destruct (decide (i = n)) as [->|]; [by left|]. right. right. right. exists i. split; [lia|done].
    + intros [->|[?|[?|(i & ? & ->)]]]; [|tauto..|].
      * right. right. exists n. split; [lia|done].
      * right. right. exists i. split; [lia|done].
Qed.
Next Obligation. intros n n'. cbn [Alloc steps]. destruct (n <? limit)%nat; [done|]. by intros [= ->]. Qed.
Next Obligation.
  intros n Hn. change (0 < limit - n)%nat in Hn. cbn [Alloc steps].
  rewrite (proj2 (Nat.ltb_lt _ _)) by lia. eexists _, _. split; [done|lia].
Qed.
#[export] Instance step_laws : StepLaws nat.
Proof.
  split. intros n p [->|[->|(i & ? & ->)]]%elem_of_handed_out; cbn; unfold page; lia.
Qed.

#[export] Instance steps_bzero : AnsaBzero nat := { Bzero va size := zero_words (Z.to_nat (size / 8)) va }.
#[export] Instance steps_bzero_laws : BzeroLaws nat.
Proof. split. done. Qed.

(** Clusters over the first region of a list, whose trees need two pages. *)
Import Pairs Bump.
#[export] Instance bump_builder : AnallocBuilder bump (list (Z * Z)) (list (Z * Z)) := {
  LayoutRun l := l;
  RequiredSpace _ := 0x2000;
  CreateAllocators d _ := match d with
    | [] => mkBump 0 0 0 ∅
    | r :: _ => mkBump r.1 (r.1 + r.2) r.1 ∅
    end;
}.
#[export] Instance bump_builder_laws : BuilderLaws bump (list (Z * Z)) (list (Z * Z)) (Z * Z).
Proof.
  split.
  - intros [|r l] a; cbn; (split; [lia|apply map_Forall_empty]).
  - by intros [|r l] a.
  - intros [|r l] a x; cbn; rewrite andb_true_iff, Z.leb_le, Z.ltb_lt; [lia|].
    intros Hx. exists r. split; [by left|done].
Qed.
End Steps.

Section Witness.
Import KernelMap Steps Pairs Bump.
Definition round_up (x align : Z) : Z := (x + align - 1) / align * align.

Definition boot_kernel : machine (kernel nat) :=
  Machine _ loader_mem 0x1000 true true ∅ [] [] (mkKernel nat 0%nat 0 (FreeFinder.mkState 0 0)).

Lemma boot_start_ok :
  start_ok (A:=nat) (C:=bump) (D:=list (Z * Z)) round_up 0x400 0x20 0x20 0x3ffff0 [(0, 0x40000000)] []
    0x1000 0x40000000 loader_mem {[0x1000; 0x2000]} boot_kernel.
Proof.
  split.
  - by right.
  - apply not_elem_of_nil.
  - split; [apply loader_identity|apply loader_identity|].
    intros n n' p. cbn [Alloc steps]. destruct (Nat.ltb_spec n limit) as [Hn|]; [|done].
    intros [= <- _]. unfold limit in Hn. unfold page. lia.
  - split_and!; [done|done|]. intros p Hp. apply elem_of_handed_out. set_solver.
  - by vm_compute.
  - split; cbn.
    + intros r ->%list_elem_of_singleton. cbn. eval_pow. lia.
    + by intros r ?%not_elem_of_nil.
    + repeat constructor.
    + constructor.
  - intros l _. by vm_compute.
  - by vm_compute.
Qed.

Lemma Initialize_correct_witness :
  ∃ res s', Initialize (C:=bump) (D:=list (Z * Z)) round_up 0x400 0x20 0x20 0x3ffff0
      [(0, 0x40000000)] [] boot_kernel = Ok (res, s')
    ∧ translate s'.(mem) s'.(alloc).(pml4) 0x3ff123 = Some 0x3ff123
    ∧ used (pageAllocator res) = ∅.
Proof.
  destruct (Initialize_correct round_up 0x400 0x20 0x20 0x3ffff0 [(0, 0x40000000)] [] 0x1000
    0x40000000 loader_mem {[0x1000; 0x2000]} boot_kernel boot_start_ok)
    as (res & s' & T & Hr & _ & _ & _ & Hid & _ & _ & _ & _ & Hu & _).
  exists res, s'. split; [exact Hr|]. clear Hr. split; [apply Hid|exact Hu].
  by vm_compute.
Defined.
End Witness.
