(* ===== verification/Console.v ===== *)
(** * Console and output streams

    TextConsole (src/arch/x64/console/text-console.cpp), the VGA text buffer, as
    a computation over the cursor and the 80 by 25 cells; and the streams of
    src/util/stream.cpp, which print numbers in hexadecimal on it. *)

From stdpp Require Import base numbers list gmap strings.
From Stdlib Require Import ZArith Lia.
From S2P Require Import Prelude Machine Concrete.
#[local] Open Scope Z_scope.

(** ** TextConsole *)

(** [Console::Color] of src/arch/api/console.hpp. *)
Inductive Color : Type :=
  | ColorBlack | ColorBlue | ColorGreen | ColorCyan | ColorRed | ColorMagenta | ColorBrown
  | ColorLightGray.

Definition color_value (c : Color) : Z :=
  match c with
  | ColorBlack => 0 | ColorBlue => 1 | ColorGreen => 2 | ColorCyan => 3
  | ColorRed => 4 | ColorMagenta => 5 | ColorBrown => 6 | ColorLightGray => 7
  end.

Record console : Type := mkConsole {
  color : Z;
  x : Z;
  y : Z;
  cells : list Z;    (* the buffer at 0xb8000, in 16-bit cells *)
}.

Definition set_color c (k : console) : console := mkConsole c k.(x) k.(y) k.(cells).
Definition set_x v (k : console) : console := mkConsole k.(color) v k.(y) k.(cells).
Definition set_y v (k : console) : console := mkConsole k.(color) k.(x) v k.(cells).
Definition set_cells b (k : console) : console := mkConsole k.(color) k.(x) k.(y) b.

Module TextConsole.

Definition GetWidth : Z := 80.
Definition GetHeight : Z := 25.

(** A new console; [Initialize] zeroes the buffer, whatever it held. *)
Definition new (buffer : list Z) : console := mkConsole 0xa 0 0 buffer.
Definition Initialize (k : console) : console := set_cells (replicate 2000 0) k.

Definition GetBufferIndex (k : console) : Z :=
  let pos := u16 (k.(y) * GetWidth + k.(x)) in
  if GetWidth * GetHeight <=? pos then GetWidth * GetHeight - 1 else pos.

(** [CurrentCharacter()], and an assignment to it. *)
Definition CurrentCharacter (k : console) : Z :=
  default 0 (k.(cells) !! Z.to_nat (GetBufferIndex k)).
Definition put_current (v : Z) (k : console) : console :=
  set_cells (<[Z.to_nat (GetBufferIndex k) := u16 v]> k.(cells)) k.

(** The loop over the cells that copies each line up, and the one that clears
    the last line. *)
Fixpoint copy_loop (n i : nat) (b : list Z) : list Z :=
  match n with
  | O => b
  | S n' => copy_loop n' (S i) (<[i := default 0 (b !! (i + 80)%nat)]> b)
  end.

Fixpoint clear_loop (n i : nat) (b : list Z) : list Z :=
  match n with
  | O => b
  | S n' => clear_loop n' (S i) (<[i := 0]> b)
  end.

Definition ScrollUp (k : console) : console :=
  set_cells (clear_loop 80 1920 (copy_loop 1920 0 k.(cells))) k.

Definition PrintNewline (k : console) : console :=
  let k := set_y (k.(y) + 1) (set_x 0 k) in
  if GetHeight <=? k.(y) then ScrollUp (set_y (GetHeight - 1) k) else k.

Definition PrintCarriageReturn (k : console) : console := set_x 0 k.

(** [for (x = 0; x < GetWidth(); ++x) if (!(CurrentCharacter() & 0xff)) break;] *)
Fixpoint find_end (n : nat) (k : console) : console :=
  match n with
  | O => k
  | S n' =>
      if negb (truthy (CurrentCharacter k .& 0xff)) then k
      else find_end n' (set_x (k.(x) + 1) k)
  end.

Definition PrintBackspace (k : console) : console :=
  if truthy k.(x) then
    let k := set_x (k.(x) - 1) k in
    put_current (k.(color) .<< 8) k
  else
    let k := find_end 80 (set_x 0 (set_y (k.(y) - 1) k)) in
    let k := if k.(x) =? GetWidth then set_x (k.(x) - 1) k else k in
    put_current (k.(color) .<< 8) k.

Definition PrintCharacter (theChar : Z) (k : console) : console :=
  let k := if k.(x) =? GetWidth then PrintNewline k else k in
  let k := put_current (theChar .| (k.(color) .<< 8)) k in
  let k := set_x (k.(x) + 1) k in
  if (k.(x) =? 80) && (k.(y) =? GetHeight - 1) then
    let k := ScrollUp k in set_y (k.(y) - 1) k
  else k.

(** The switch of [PrintString]. *)
Definition print (theChar : Z) (k : console) : console :=
  if theChar =? 10 then PrintNewline k
  else if theChar =? 13 then PrintCarriageReturn k
  else if theChar =? 8 then PrintBackspace k
  else PrintCharacter theChar k.

Section Methods.
Context `{AnsaLock console}.
Abbreviation method := (M (machine console)).

Definition this : method console := gets alloc.
Definition update (f : console → console) : method unit :=
  modify (λ s, set_alloc (f s.(alloc)) s).

Definition PositionCursor : method unit :=
  k ← this;
  let position := GetBufferIndex k in
  _ ← OutB 0x3D4 0x0f;
  _ ← OutB 0x3D5 (u8 (position .& 0xff));
  _ ← OutB 0x3D4 0x0e;
  OutB 0x3D5 (u8 ((position .>> 8) .& 0xff)).

(** A C string is the list of the bytes before its terminator. *)
Fixpoint print_loop (string : list Z) : method unit :=
  match string with
  | [] => mret tt
  | theChar :: string => _ ← update (print theChar); print_loop string
  end.

Definition PrintString (string : list Z) : method unit :=
  ScopedCritical (ScopedCriticalLock ConsoleLock (
    _ ← print_loop string;
    _ ← update (λ k, if negb (truthy (CurrentCharacter k .& 0xff00))
                     then put_current (k.(color) .<< 8) k else k);
    PositionCursor)).

Definition SetColor (c : Color) (bright : bool) : method unit :=
  ScopedCritical (ScopedCriticalLock ConsoleLock (
    update (set_color (u8 (color_value c) .| (if bright then 8 else 0))))).
End Methods.
End TextConsole.

(** ** Streams *)

Module Stream.

Definition chars : list Z := [48; 49; 50; 51; 52; 53; 54; 55; 56; 57; 97; 98; 99; 100; 101; 102].

(** [do { ... } while (number > 0)], on [buf], which starts two bytes into the
    array; 16 iterations are enough for 64 bits. *)
Fixpoint digit_loop (fuel : nat) (buf : list Z) (len : nat) (number : Z) : list Z * nat :=
  match fuel with
  | O => (buf, len)
  | S fuel' =>
      let nextDig := number .& 0xf in
      let buf := <[len := default 0 (chars !! Z.to_nat nextDig)]> buf in
      let number := number .>> 4 in
      if 0 <? number then digit_loop fuel' buf (S len) number else (buf, S len)
  end.

(** The swaps of the second loop, for [i] from [i] on. *)
Fixpoint swap_loop (n i len : nat) (buf : list Z) : list Z :=
  match n with
  | O => buf
  | S n' =>
      let a := default 0 (buf !! (len - i - 1)%nat) in
      let buf := <[(len - i - 1)%nat := default 0 (buf !! i)]> buf in
      swap_loop n' (S i) len (<[i := a]> buf)
  end.

(** The 32 bytes of [_buf] for [number]. *)
Definition format (number : Z) : list Z :=
  let '(buf, len) := digit_loop 16 (replicate 30 0) 2 number in
  [48; 120] ++ swap_loop (len / 2) 0 len buf.

(** The bytes before the terminator. *)
Fixpoint cstring (b : list Z) : list Z :=
  match b with
  | [] => []
  | c :: b => if c =? 0 then [] else c :: cstring b
  end.

Section Methods.
Context `{AnsaLock console}.

(** [cout << str] and [cerr << str]: the color of the stream, then the text. *)
Definition Puts_out (str : list Z) : M (machine console) unit :=
  _ ← TextConsole.SetColor ColorLightGray true; TextConsole.PrintString str.
Definition Puts_err (str : list Z) : M (machine console) unit :=
  _ ← TextConsole.SetColor ColorRed true; TextConsole.PrintString str.

(** [cout << number] *)
Definition print_number (number : Z) : M (machine console) unit :=
  Puts_out (cstring (format number)).
End Methods.
End Stream.

(** ** Numbers print and read back *)

(** The digits of a number, the least significant first. *)
Fixpoint hex_le (fuel : nat) (n : Z) : list Z :=
  match fuel with
  | O => []
  | S fuel' => n mod 16 :: if 0 <? n / 16 then hex_le fuel' (n / 16) else []
  end.

Definition digit_char (d : Z) : Z := default 0 (Stream.chars !! Z.to_nat d).

(** The number a text denotes: 0x and at least one digit in lower case. *)
Definition char_digit (c : Z) : option Z :=
  if (48 <=? c) && (c <=? 57) then Some (c - 48)
  else if (97 <=? c) && (c <=? 102) then Some (c - 87) else None.

Fixpoint parse_digits (acc : Z) (cs : list Z) : option Z :=
  match cs with
  | [] => Some acc
  | c :: cs => match char_digit c with
               | Some d => parse_digits (16 * acc + d) cs
               | None => None
               end
  end.

Definition parse_number (cs : list Z) : option Z :=
  match cs with
  | 48 :: 120 :: c :: cs => parse_digits 0 (c :: cs)
  | _ => None
  end.

Lemma digit_cases (P : Z → Prop) : (∀ d, d ∈ seqZ 0 16 → P d) → ∀ d, 0 ≤ d < 16 → P d.
Proof. intros HP d Hd. apply HP, elem_of_seqZ. lia. Qed.

Lemma char_digit_char d : 0 ≤ d < 16 → char_digit (digit_char d) = Some d.
Proof.
  revert d. apply digit_cases, Forall_forall. unfold seqZ. cbn [Z.to_nat Pos.to_nat Pos.iter_op].
  cbn. repeat constructor.
Qed.

Lemma digit_char_pos d : 0 ≤ d < 16 → 48 ≤ digit_char d ∧ (digit_char d = 48 → d = 0).
Proof.
  intros Hd. pose proof (char_digit_char d Hd) as Hc. unfold char_digit in Hc.
  repeat case_test; cbn [andb] in Hc; simplify_eq; lia.
Qed.

Lemma hex_le_range fuel n d : 0 ≤ n → d ∈ hex_le fuel n → 0 ≤ d < 16.
Proof.
  revert n. induction fuel as [|fuel IH]; intros n Hn; cbn; [by intros ?%not_elem_of_nil|].
  intros [->|Hd]%elem_of_cons; [zlia|]. destruct (0 <? n / 16); [|by apply not_elem_of_nil in Hd].
  apply (IH (n / 16)); [zlia|done].
Qed.

Lemma length_hex_le fuel n : (length (hex_le fuel n) ≤ fuel)%nat.
Proof.
  revert n. induction fuel as [|fuel IH]; intros n; cbn; [lia|].
  specialize (IH (n / 16)). destruct (0 <? n / 16); cbn; lia.
Qed.

(** The last digit of the list is not zero, unless the number is zero. *)
Lemma last_hex_le fuel n d : 0 < n < 16 ^ Z.of_nat fuel → last (hex_le fuel n) = Some d → d ≠ 0.
Proof.
  revert n. induction fuel as [|fuel IH]; intros n Hn; [cbn in Hn; lia|].
  rewrite Nat2Z.inj_succ, Z.pow_succ_r in Hn by lia. cbn [hex_le].
  destruct (Z.ltb_spec 0 (n / 16)); cycle 1.
  { intros [= <-]. zlia. }
  assert (hex_le fuel (n / 16) ≠ []) as Hne.
  { destruct fuel; [cbn in Hn; zlia|done]. }
  intros Hl. apply (IH (n / 16)); [zlia|].
  destruct (hex_le fuel (n / 16)); done.
Qed.

Lemma parse_rev ds acc : (∀ d, d ∈ ds → 0 ≤ d < 16) →
  parse_digits acc (digit_char <$> reverse ds)
  = Some (acc * 16 ^ Z.of_nat (length ds) + foldr (λ d v, d + 16 * v) 0 ds).
Proof.
  revert acc. induction ds as [|d ds IH] using rev_ind; intros acc Hd.
  { cbn. f_equal. lia. }
  rewrite reverse_snoc. cbn [fmap list_fmap parse_digits].
  rewrite char_digit_char by (apply Hd, elem_of_app; right; by left).
  rewrite IH by (intros d' Hd'; apply Hd, elem_of_app; by left). f_equal.
  rewrite foldr_app, length_app. cbn [length foldr].
  rewrite Nat2Z.inj_add, Z.pow_add_r by lia. change (16 ^ Z.of_nat 1) with 16.
  assert (Hfold : ∀ v, foldr (λ d v, d + 16 * v) v ds
    = foldr (λ d v, d + 16 * v) 0 ds + v * 16 ^ Z.of_nat (length ds)).
  { clear. induction ds as [|e ds IH]; intros v; cbn [foldr length]; [cbn; lia|].
    rewrite IH, Nat2Z.inj_succ, Z.pow_succ_r by lia. lia. }
  rewrite (Hfold (d + 16 * 0)). lia.
Qed.

Lemma hex_le_value fuel n : 0 ≤ n < 16 ^ Z.of_nat fuel →
  foldr (λ d v, d + 16 * v) 0 (hex_le fuel n) = n.
Proof.
  revert n. induction fuel as [|fuel IH]; intros n Hn; [cbn in *; lia|].
  rewrite Nat2Z.inj_succ, Z.pow_succ_r in Hn by lia. cbn [hex_le foldr].
  destruct (Z.ltb_spec 0 (n / 16)).
  - rewrite IH by zlia. zlia.
  - cbn. zlia.
Qed.

Lemma run_digit_loop fuel pre k n : 0 ≤ n → (fuel ≤ k)%nat →
  Stream.digit_loop fuel (pre ++ replicate k 0) (length pre) n
  = (pre ++ (digit_char <$> hex_le fuel n) ++ replicate (k - length (hex_le fuel n)) 0,
     (length pre + length (hex_le fuel n))%nat).
Proof.
  revert pre k n. induction fuel as [|fuel IH]; intros pre k n Hn Hk;
    cbn [Stream.digit_loop hex_le fmap list_fmap length].
  { cbn. by rewrite Nat.sub_0_r, Nat.add_0_r. }
  destruct k as [|k]; [lia|]. cbn [replicate].
  change 0xf with (Z.ones 4). rewrite land_low by lia. change (2 ^ 4) with 16.
  rewrite insert_app_r_alt, Nat.sub_diag by lia. cbn [insert list_insert].
  fold (digit_char (n mod 16)). rewrite Z.shiftr_div_pow2 by lia. change (2 ^ 4) with 16.
  change (pre ++ digit_char (n mod 16) :: replicate k 0)
    with (pre ++ [digit_char (n mod 16)] ++ replicate k 0).
  destruct (0 <? n / 16).
  - rewrite (assoc_L (++)).
    replace (S (length pre)) with (length (pre ++ [digit_char (n mod 16)])) by (rewrite length_app; cbn; lia).
    rewrite IH by (zlia || lia). rewrite <-(assoc_L (++)), length_app.
    apply (f_equal2 pair); [done|cbn; lia].
  - apply (f_equal2 pair); [cbn; by rewrite Nat.sub_0_r|cbn; lia].
Qed.

(** Reversing the digits leaves the two zero bytes after them. *)
Lemma swap_reverse ds : (1 ≤ length ds ≤ 16)%nat →
  Stream.swap_loop ((2 + length ds) / 2) 0 (2 + length ds)
    ([0; 0] ++ ds ++ replicate (28 - length ds) 0)
  = reverse ds ++ replicate (30 - length ds) 0.
Proof.
  intros Hl. do 17 (destruct ds as [|? ds]; [cbn in Hl; try lia; reflexivity|]).
  cbn in Hl. lia.
Qed.

Lemma cstring_app cs z : (∀ c, c ∈ cs → c ≠ 0) → Stream.cstring (cs ++ 0 :: z) = cs.
Proof.
  induction cs as [|c cs IH]; intros Hc; [done|]. cbn.
  rewrite (proj2 (Z.eqb_neq c 0)) by (apply Hc; by left).
  f_equal. apply IH. intros c' Hc'. apply Hc. by right.
Qed.

Lemma format_text n : 0 ≤ n →
  Stream.cstring (Stream.format n) = [48; 120] ++ (digit_char <$> reverse (hex_le 16 n)).
Proof.
  intros Hn. unfold Stream.format.
  pose proof (run_digit_loop 16 [0; 0] 28 n Hn ltac:(lia)) as Hd.
  change ([0; 0] ++ replicate 28 0) with (replicate 30 0) in Hd. cbn [length] in Hd.
  rewrite Hd. pose proof (length_hex_le 16 n).
  assert (1 ≤ length (hex_le 16 n))%nat by (cbn; lia).
  rewrite <-(length_fmap digit_char (hex_le 16 n)), swap_reverse by (rewrite length_fmap; lia).
  rewrite length_fmap. destruct (30 - length (hex_le 16 n))%nat as [|z] eqn:Ez; [lia|].
  cbn [replicate]. rewrite (assoc_L (++)), fmap_reverse. apply cstring_app.
  intros c [Hc|Hc]%elem_of_app.
  - apply elem_of_cons in Hc as [->| ->%list_elem_of_singleton]; done.
  - rewrite elem_of_reverse in Hc. apply list_elem_of_fmap in Hc as (d & -> & Hd').
    apply hex_le_range in Hd'; [|done]. pose proof (digit_char_pos d Hd'). lia.
Qed.

(** A number printed on a stream reads back as that number: 0x and its
    digits in lower case, without leading zeros. *)
Lemma Stream_number_roundtrip n : is_u64 n →
  parse_number (Stream.cstring (Stream.format n)) = Some n
  ∧ (0 < n → (Stream.cstring (Stream.format n)) !! 2%nat ≠ Some 48).
Proof.
  intros Hn. unfold is_u64 in Hn. rewrite format_text by lia.
  assert (Hr : ∀ d, d ∈ hex_le 16 n → 0 ≤ d < 16) by (intros d; apply hex_le_range; lia).
  assert (Hne : hex_le 16 n ≠ []) by done. split.
  - destruct (digit_char <$> reverse (hex_le 16 n)) as [|c cs] eqn:E.
    { apply fmap_nil_inv in E. by apply (f_equal reverse) in E; rewrite reverse_involutive in E. }
    cbn [app parse_number]. rewrite <-E, parse_rev by done. f_equal. rewrite Z.mul_0_l, Z.add_0_l.
    by apply hex_le_value.
  - intros Hpos. rewrite lookup_app_r by (cbn; lia). cbn [length].
    change (2 - 2)%nat with 0%nat. rewrite list_lookup_fmap. destruct (last (hex_le 16 n)) as [d|] eqn:El; [|by apply last_None in El].
    assert (Hd : d ≠ 0) by (apply (last_hex_le 16 n d); [cbn; lia|done]).
    apply last_Some in El as [l El]. rewrite El, reverse_snoc. cbn. intros [= Hc].
    assert (0 ≤ d < 16) as Hd' by (apply Hr; rewrite El; apply elem_of_app; right; by left).
    by apply Hd, (digit_char_pos d Hd').
Qed.

(** ** The cursor stays on the screen *)

Section ConsoleInv.
Import TextConsole.
Implicit Types (k : console).

(** The cursor is on a cell, or past the end of a line that is not the last. *)
Record console_inv k : Prop := {
  ci_cells : length k.(cells) = 2000%nat;
  ci_x : 0 ≤ k.(x) ≤ 80;
  ci_y : 0 ≤ k.(y) ≤ 24;
  ci_end : k.(x) = 80 → k.(y) ≤ 23;
}.

Lemma index_eq k : console_inv k → GetBufferIndex k = 80 * k.(y) + k.(x).
Proof.
  intros [_ Hx Hy He]. unfold GetBufferIndex, GetWidth, GetHeight, u16.
  assert (k.(y) * 80 + k.(x) < 2000) by lia.
  rewrite Z.mod_small by lia. rewrite (proj2 (Z.leb_gt _ _)); lia.
Qed.

Lemma put_current_inv v k : console_inv k → console_inv (put_current v k).
Proof. intros [? ? ? ?]. split; cbn; try done. by rewrite length_insert. Qed.

Lemma length_copy_loop n i b : length (copy_loop n i b) = length b.
Proof. revert i b. induction n as [|n IH]; intros i b; cbn; [done|]. by rewrite IH, length_insert. Qed.

Lemma length_clear_loop n i b : length (clear_loop n i b) = length b.
Proof. revert i b. induction n as [|n IH]; intros i b; cbn; [done|]. by rewrite IH, length_insert. Qed.

#[local] Opaque copy_loop clear_loop.

Lemma length_scroll k : length (ScrollUp k).(cells) = length k.(cells).
Proof. unfold ScrollUp. cbn [cells set_cells]. by rewrite length_clear_loop, length_copy_loop. Qed.

Lemma newline_inv k : length k.(cells) = 2000%nat → 0 ≤ k.(y) ≤ 24 →
  console_inv (PrintNewline k) ∧ (PrintNewline k).(x) = 0.
Proof.
  intros Hc Hy. unfold PrintNewline. cbn [y set_y set_x]. unfold GetHeight.
  destruct (Z.leb_spec 25 (k.(y) + 1)); (split; [|done]).
  - split; [by rewrite length_scroll|cbn; lia..].
  - split; cbn; done || lia.
Qed.

Lemma character_inv c k : console_inv k → console_inv (PrintCharacter c k).
Proof.
  intros Hk. unfold PrintCharacter, GetWidth.
  assert (Hpre : let k' := if k.(x) =? 80 then PrintNewline k else k in
    console_inv k' ∧ k'.(x) < 80).
  { cbv zeta. destruct (Z.eqb_spec k.(x) 80).
    - destruct (newline_inv k) as [? ->]; [apply Hk|apply Hk|]. split; [done|lia].
    - split; [done|]. pose proof (ci_x _ Hk). lia. }
  set (k' := if k.(x) =? 80 then PrintNewline k else k) in *. clearbody k'.
  destruct Hpre as [Hk' Hx]. apply (put_current_inv (c .| (k'.(color) .<< 8))) in Hk' as [H1 H2 H3 H4].
  set (k2 := put_current _ _) in *. assert (k2.(x) = k'.(x)) as Hx2 by done. clearbody k2.
  cbn [x y set_x]. unfold GetHeight.
  destruct (Z.eqb_spec (k2.(x) + 1) 80), (Z.eqb_spec k2.(y) (25 - 1)); cbn [andb];
    (split; cbn [x y cells set_y set_x]; [by rewrite ?length_scroll|cbn; lia..]).
Qed.

Lemma find_end_same n k :
  let k' := find_end n k in
  k'.(cells) = k.(cells) ∧ k'.(y) = k.(y) ∧ k'.(color) = k.(color)
  ∧ k.(x) ≤ k'.(x) ≤ k.(x) + Z.of_nat n.
Proof.
  revert k. induction n as [|n IH]; intros k; cbn [find_end].
  - split_and!; try done; lia.
  - destruct (negb _); [split_and!; try done; lia|].
    destruct (IH (set_x (k.(x) + 1) k)) as (-> & -> & -> & Hx). split_and!; try done; cbn in Hx; lia.
Qed.

Lemma backspace_inv k : console_inv k → ¬ (k.(x) = 0 ∧ k.(y) = 0) → console_inv (PrintBackspace k).
Proof.
  intros [Hc Hx Hy He] H0. unfold PrintBackspace.
  destruct (truthy k.(x)) eqn:E; [apply truthy_true in E|apply truthy_false in E].
  - apply put_current_inv. split; cbn; try done; lia.
  - pose proof (find_end_same 80 (set_x 0 (set_y (k.(y) - 1) k))) as Hf. cbv zeta in *.
    set (k1 := find_end _ _) in *. clearbody k1. destruct Hf as (Hc1 & Hy1 & _ & Hx1).
    cbn [cells y x set_x set_y] in *. unfold GetWidth.
    apply put_current_inv. destruct (Z.eqb_spec k1.(x) 80); split; cbn; try lia; by rewrite Hc1.
Qed.

Lemma print_inv c k : console_inv k → ¬ (c = 8 ∧ k.(x) = 0 ∧ k.(y) = 0) → console_inv (print c k).
Proof.
  intros Hk H0. unfold print.
  destruct (c =? 10); [apply newline_inv; apply Hk|].
  destruct (c =? 13).
  { destruct Hk. split; cbn; try done; lia. }
  destruct (Z.eqb_spec c 8); [apply backspace_inv; [done|tauto]|by apply character_inv].
Qed.

(** A text that does not go back from the top left corner. *)
Fixpoint text_ok (str : list Z) k : Prop :=
  match str with
  | [] => True
  | c :: str => ¬ (c = 8 ∧ k.(x) = 0 ∧ k.(y) = 0) ∧ text_ok str (print c k)
  end.

Lemma text_inv str k : console_inv k → text_ok str k → console_inv (foldl (flip print) k str).
Proof.
  revert k. induction str as [|c str IH]; intros k Hk Ht; [done|]. destruct Ht as [H0 Ht].
  cbn. apply IH; [|done]. by apply print_inv.
Qed.

(** A printable text that ends before the end of the line is in the cells from
    the cursor on. *)
Definition printable (c : Z) : Prop := c ≠ 8 ∧ c ≠ 10 ∧ c ≠ 13.

Lemma text_cells str k :
  console_inv k → Forall printable str → k.(x) + Z.of_nat (length str) < 80 →
  let k' := foldl (flip print) k str in
  k'.(x) = k.(x) + Z.of_nat (length str) ∧ k'.(y) = k.(y) ∧ k'.(color) = k.(color)
  ∧ ∀ i : nat, Z.of_nat i < 2000 → k'.(cells) !! i
      = match (str !! Z.to_nat (Z.of_nat i - (80 * k.(y) + k.(x)))) with
        | Some c => if 80 * k.(y) + k.(x) <=? Z.of_nat i then Some (u16 (c .| (k.(color) .<< 8)))
                    else k.(cells) !! i
        | None => k.(cells) !! i
        end.
Proof.
  revert k. induction str as [|c str IH]; intros k Hk Hp Hlen; cbn [foldl].
  { cbn. split_and!; try done; lia. }
  change (flip print k c) with (print c k).
  apply Forall_cons in Hp as [(Hc8 & Hc10 & Hc13) Hp]. cbn [length] in *.
  assert (Hx : k.(x) < 79) by lia.
  assert (Hpr : print c k = set_x (k.(x) + 1) (put_current (c .| (k.(color) .<< 8)) k)).
  { unfold print. rewrite !(proj2 (Z.eqb_neq _ _)) by done. unfold PrintCharacter, GetWidth, GetHeight.
    rewrite (proj2 (Z.eqb_neq k.(x) 80)) by lia. cbn [x set_x put_current set_cells].
    by rewrite (proj2 (Z.eqb_neq (k.(x) + 1) 80)) by lia. }
  assert (Hk1 : console_inv (print c k)) by (apply print_inv; [done|tauto]).
  pose proof (index_eq _ Hk) as Hidx. pose proof Hk as [Hcells Hxr Hyr _].
  destruct (IH (print c k) Hk1 Hp) as (-> & -> & -> & Hi).
  { rewrite Hpr. cbn. lia. }
  rewrite Hpr in *. cbn [x y color cells set_x put_current set_cells] in *. rewrite Hidx in *.
  split_and!; try done; [lia|]. intros i Hi2000. rewrite (Hi i Hi2000).
  destruct (Z.leb_spec (80 * k.(y) + k.(x)) (Z.of_nat i)) as [Hge|Hlt].
  - destruct (decide (Z.of_nat i = 80 * k.(y) + k.(x))) as [He|Hne].
    + rewrite He. replace (80 * k.(y) + k.(x) - (80 * k.(y) + (k.(x) + 1))) with (-1) by lia.
      rewrite Z.sub_diag. rewrite (proj2 (Z.leb_gt (80 * y k + (x k + 1)) _)) by lia. cbn [Z.to_nat lookup list_lookup].
      replace (Z.to_nat (80 * k.(y) + k.(x))) with i by lia.
      rewrite list_lookup_insert_eq by lia. by destruct str.
    + replace (Z.to_nat (Z.of_nat i - (80 * k.(y) + k.(x))))
        with (S (Z.to_nat (Z.of_nat i - (80 * k.(y) + (k.(x) + 1))))) by lia.
      cbn [lookup list_lookup]. rewrite list_lookup_insert_ne by lia.
      rewrite (proj2 (Z.leb_le (80 * k.(y) + (k.(x) + 1)) _)) by lia. done.
  - rewrite list_lookup_insert_ne by lia.
    rewrite (proj2 (Z.leb_gt (80 * y k + (x k + 1)) _)) by lia. by repeat case_match.
Qed.
End ConsoleInv.

(** ** PrintString *)

Section PrintString.
Context `{AnsaLock console, !LockLaws console}.
Import TextConsole.
Implicit Types (s : machine console).

(** The attribute of the cell under the cursor, set if it was zero. *)
Definition show_cursor (k : console) : console :=
  if negb (truthy (CurrentCharacter k .& 0xff00)) then put_current (k.(color) .<< 8) k else k.

(** The port writes that move the hardware cursor to [pos], newest first. *)
Definition cursor_events (pos : Z) : list event :=
  [EvOutB 0x3D5 (pos / 256); EvOutB 0x3D4 0x0e; EvOutB 0x3D5 (pos mod 256); EvOutB 0x3D4 0x0f].

Lemma run_print_loop str s :
  print_loop str s = Ok (tt, set_alloc (foldl (flip print) s.(alloc) str) s).
Proof.
  revert s. induction str as [|c str IH]; intros s; cbn [print_loop foldl]; [by destruct s|].
  unfold update. run run_modify. by rewrite IH.
Qed.

Lemma run_OutB port byte s :
  critical s → OutB port byte s = Ok (tt, push_event (EvOutB port byte) s).
Proof. intros Hc. unfold OutB. by run run_AssertCritical. Qed.

Lemma run_PositionCursor s :
  critical s → console_inv s.(alloc) →
  ∃ s', PositionCursor s = Ok (tt, s') ∧ s'.(alloc) = s.(alloc) ∧ s'.(held) = s.(held)
    ∧ s'.(iflag) = s.(iflag) ∧ s'.(critical_loaded) = s.(critical_loaded)
    ∧ s'.(trace) = cursor_events (80 * s.(alloc).(y) + s.(alloc).(x)) ++ s.(trace).
Proof.
  intros Hc Hk. unfold PositionCursor, this. run run_gets.
  run run_OutB; [|done]. run run_OutB; [|done]. run run_OutB; [|done].
  rewrite run_OutB by done. eexists. split; [done|]. split_and!; try done.
  cbn [trace push_event]. unfold cursor_events. rewrite (index_eq _ Hk).
  destruct Hk as [_ Hx Hy He]. set (pos := 80 * y (alloc s) + x (alloc s)).
  assert (0 ≤ pos < 2000) by (unfold pos; lia).
  change 0xff with (Z.ones 8). rewrite !land_low, Z.shiftr_div_pow2 by lia.
  unfold u8. change (2 ^ 8) with 256. rewrite !Z.mod_mod by lia.
  by rewrite (Z.mod_small (pos / 256)) by zlia.
Qed.

Lemma critical_set_alloc (k : console) s : critical s → critical (set_alloc k s).
Proof. done. Qed.

(** C20. [PrintString] returns for every text that does not go back from the top
    left corner, with the lock free and interrupts as before; the cursor is still
    on the screen, the hardware cursor has been moved to it, and a printable text
    that fits on the line is in the cells from the old cursor on, in the current
    color. *)
Theorem PrintString_correct s str :
  ConsoleLock ∉ s.(held) → console_inv s.(alloc) → text_ok str s.(alloc) →
  ∃ s', PrintString str s = Ok (tt, s')
    ∧ console_inv s'.(alloc) ∧ s'.(held) = s.(held) ∧ s'.(iflag) = s.(iflag)
    ∧ s'.(trace) = cursor_events (80 * s'.(alloc).(y) + s'.(alloc).(x)) ++ s.(trace)
    ∧ (Forall printable str → s.(alloc).(x) + Z.of_nat (length str) < 80 →
       ∀ (i : nat) c, str !! i = Some c →
         s'.(alloc).(cells) !! Z.to_nat (80 * s.(alloc).(y) + s.(alloc).(x) + Z.of_nat i)
         = Some (u16 (c .| (s.(alloc).(color) .<< 8)))).
Proof.
  intros Hl Hk Ht. unfold PrintString. pose proof (enter_critical_critical s) as Hcr.
  set (s1 := enter_critical s) in *.
  assert (Hs1 : s1.(alloc) = s.(alloc) ∧ s1.(held) = s.(held) ∧ s1.(trace) = s.(trace)
    ∧ s1.(critical_loaded) = s.(critical_loaded)).
  { unfold s1, enter_critical. by destruct s as [? ? ? [] ? ? ? ?]. }
  destruct Hs1 as (Ha1 & Hh1 & Ht1 & Hc1).
  set (k2 := foldl (flip print) s.(alloc) str).
  assert (Hk2 : console_inv k2) by (by apply text_inv).
  set (k3 := show_cursor k2).
  assert (Hk3 : console_inv k3)
    by (unfold k3, show_cursor; destruct (negb _); [by apply put_current_inv|done]).
  assert (Hxy : k3.(x) = k2.(x) ∧ k3.(y) = k2.(y)) by (unfold k3, show_cursor; by destruct (negb _)).
  set (s2 := set_held (ConsoleLock :: s1.(held)) s1).
  destruct (run_PositionCursor (set_alloc k3 s2)) as (s3 & Hpos & Ha3 & Hh3 & Hi3 & Hc3 & Ht3);
    [done|done|].
  assert (Hbody : (_ ← print_loop str; _ ← update show_cursor; PositionCursor) s2 = Ok (tt, s3)).
  { run run_print_loop. unfold update. run run_modify. cbn [alloc s2 set_held]. by rewrite Ha1. }
  assert (Hcr3 : critical s3) by (destruct Hcr; [left; by rewrite Hc3|right; by rewrite Hi3]).
  assert (Hlock : ScopedCriticalLock ConsoleLock
    (_ ← print_loop str; _ ← update show_cursor; PositionCursor) s1 = Ok (tt, set_held s1.(held) s3)).
  { apply run_ScopedCriticalLock; [done|by rewrite Hh1|exact Hbody|done|by rewrite Hh3]. }
  eexists. split; [by apply run_ScopedCritical|].
  set (s4 := set_held (held s1) s3).
  assert (Hleave : ∀ (B : Type) (f : machine console → B), (∀ b s, f (set_iflag b s) = f s) →
    f (leave_critical s s4) = f s4).
  { intros B f Hf. unfold leave_critical. by destruct (_ && _). }
  rewrite (Hleave _ alloc), (Hleave _ held), (Hleave _ trace) by done.
  cbn [alloc held trace s4 set_held]. rewrite Ha3. cbn [alloc set_alloc].
  split_and!; [done|done| |by rewrite Ht3; cbn; rewrite Ht1|].
  - unfold leave_critical. cbn [critical_loaded s4 set_held]. rewrite Hc3. cbn [critical_loaded set_alloc s2 set_held].
    rewrite Hc1. unfold s4, s2, s1, enter_critical in *.
    destruct s as [? ? [] [] ? ? ? ?]; cbn in *; done.
  - intros Hp Hlen i c Hi. destruct (text_cells str s.(alloc) Hk Hp Hlen) as (Hx & Hy & _ & Hcells).
    fold k2 in Hx, Hy, Hcells. pose proof (lookup_lt_Some _ _ _ Hi) as Hil.
    pose proof Hk as [_ Hx0 Hy0 _].
    assert (Hcell : k2.(cells) !! Z.to_nat (80 * s.(alloc).(y) + s.(alloc).(x) + Z.of_nat i)
      = Some (u16 (c .| (s.(alloc).(color) .<< 8)))).
    { rewrite Hcells by lia. rewrite Z2Nat.id by lia.
      replace (_ + Z.of_nat i - _) with (Z.of_nat i) by lia. rewrite Nat2Z.id, Hi.
      by rewrite (proj2 (Z.leb_le _ _)) by lia. }
    unfold k3, show_cursor. destruct (negb _); [|done]. cbn [cells put_current set_cells].
    rewrite (index_eq _ Hk2), Hx, Hy, list_lookup_insert_ne by lia. done.
Qed.
End PrintString.

(** ** Examples *)

Lemma Stream_number_roundtrip_witness :
  Stream.cstring (Stream.format 0xdead) = [48; 120; 100; 101; 97; 100]
  ∧ parse_number (Stream.cstring (Stream.format 0xdead)) = Some 0xdead.
Proof.
  split; [reflexivity|]. apply (Stream_number_roundtrip 0xdead). unfold is_u64. lia.
Defined.

Definition blank_console : console := TextConsole.Initialize (TextConsole.new []).

(** ok, on an empty screen. *)
Lemma PrintString_correct_witness :
  ∃ s', TextConsole.PrintString [111; 107] (idle_machine blank_console) = Ok (tt, s')
    ∧ s'.(alloc).(cells) !! 1%nat = Some 0xa6b.
Proof.
  destruct (PrintString_correct (idle_machine blank_console) [111; 107])
    as (s' & Hr & _ & _ & _ & _ & Hcells).
  - apply not_elem_of_nil.
  - split; cbn; done || lia.
  - cbn. split_and!; [intros [? _]; lia|intros [? _]; lia|done].
  - exists s'. split; [done|]. apply (Hcells ltac:(repeat constructor; done) ltac:(cbn; lia) 1%nat 107).
    done.
Defined.
