(* ===== verification/Interrupts.v ===== *)
(** * Interrupt descriptors, routines and handlers

    Idt, Irt, Pic and the C++ interrupt handlers (src/arch/x64/interrupts/) and
    the GS swapping around them (src/arch/x64/segments/local-segment.cpp).  Every
    entry of the IDT points to a thunk of machine code that the code writes byte
    by byte; a model of the instructions it uses shows what running it does. *)

From stdpp Require Import base numbers list gmap strings.
From Stdlib Require Import ZArith Lia.
From S2P Require Import Prelude Machine Concrete.
#[local] Open Scope Z_scope.

(** ** Machine code *)

(** The instructions of the thunk, in the encodings it uses. *)
Inductive instr : Type :=
  | PushRax
  | MovRaxImm (imm : Z)
  | MovStackRax (disp : Z)      (* mov %rax, disp(%rsp) *)
  | XchgRaxStack                (* xchg %rax, (%rsp) *)
  | Ret.

(** A little-endian number. *)
Fixpoint le_bytes (n : nat) (x : Z) : list Z :=
  match n with O => [] | S n' => x mod 256 :: le_bytes n' (x / 256) end.

Fixpoint le_value (bs : list Z) : Z :=
  match bs with [] => 0 | b :: bs => b + 256 * le_value bs end.

Definition decode (bs : list Z) : option (instr * Z) :=
  match bs with
  | 0x50 :: _ => Some (PushRax, 1)
  | 0x48 :: 0xb8 :: bs => Some (MovRaxImm (le_value (take 8 bs)), 10)
  | 0x48 :: 0x89 :: 0x44 :: 0x24 :: d :: _ => Some (MovStackRax d, 5)
  | 0x48 :: 0x87 :: 0x04 :: 0x24 :: _ => Some (XchgRaxStack, 4)
  | 0xc3 :: _ => Some (Ret, 1)
  | _ => None
  end.

(** The registers the thunk uses and the stack, in 64-bit words. *)
Record core : Type := mkCore { rax : Z; rsp : Z; rip : Z; stack : gmap Z Z }.

Definition exec (i : instr) (next : Z) (c : core) : core :=
  match i with
  | PushRax => mkCore c.(rax) (c.(rsp) - 8) next (<[c.(rsp) - 8 := c.(rax)]> c.(stack))
  | MovRaxImm imm => mkCore imm c.(rsp) next c.(stack)
  | MovStackRax d => mkCore c.(rax) c.(rsp) next (<[c.(rsp) + d := c.(rax)]> c.(stack))
  | XchgRaxStack => mkCore (default 0 (c.(stack) !! c.(rsp))) c.(rsp) next
                      (<[c.(rsp) := c.(rax)]> c.(stack))
  | Ret => mkCore c.(rax) (c.(rsp) + 8) (default 0 (c.(stack) !! c.(rsp))) c.(stack)
  end.

(** [n] instructions of the code [bs], which starts at [base]. *)
Fixpoint run_code (n : nat) (base : Z) (bs : list Z) (c : core) : option core :=
  match n with
  | O => Some c
  | S n' =>
      match decode (drop (Z.to_nat (c.(rip) - base)) bs) with
      | Some (i, len) => run_code n' base bs (exec i (c.(rip) + len) c)
      | None => None
      end
  end.

(** ** Idt *)

Record IdtHandler : Type := mkHandler { argument : Z; function : Z }.

Record IdtEntry : Type := mkEntry {
  lowOffset : Z;
  codeSegment : Z;
  ist : Z;
  flags : Z;
  midOffset : Z;
  highOffset : Z;
}.

(** The bytes of a handler. *)
Definition handler_code (h : IdtHandler) : list Z :=
  [0x50; 0x50; 0x48; 0xB8] ++ le_bytes 8 h.(argument)
  ++ [0x48; 0x89; 0x44; 0x24; 0x08; 0x48; 0xB8] ++ le_bytes 8 h.(function)
  ++ [0x48; 0x87; 0x04; 0x24; 0xc3].

Definition default_entry : IdtEntry := mkEntry 0 8 0 0 0 0.
Definition default_handler : IdtHandler := mkHandler 0 0.

Definition SetOffset (exc : Z) (e : IdtEntry) : IdtEntry :=
  mkEntry (exc .& 0xffff) e.(codeSegment) e.(ist) e.(flags) ((exc .>> 16) .& 0xffff)
    (u32 (exc .>> 32)).

Module Idt.

Record t : Type := mkIdt {
  entries : list IdtEntry;
  handlers : list IdtHandler;
  limit : Z;               (* idtPtr *)
  virtualAddress : Z;
}.

Definition new : t := mkIdt (replicate 256 default_entry) (replicate 256 default_handler) 0 0.

Section Ops.
(** [&handlers], [entries] and [&idtPtr]. *)
Context (handlersBase entriesBase idtPtrBase : Z).

Definition SetEntry (idx fn flags_ : Z) (idt : t) : t :=
  let h := mkHandler idx fn in
  let e := default default_entry (idt.(entries) !! Z.to_nat idx) in
  let e := SetOffset (handlersBase + 0x20 * idx) e in
  let e := mkEntry e.(lowOffset) e.(codeSegment) e.(ist) flags_ e.(midOffset) e.(highOffset) in
  mkIdt (<[Z.to_nat idx := e]> idt.(entries)) (<[Z.to_nat idx := h]> idt.(handlers))
    idt.(limit) idt.(virtualAddress).

Definition SetIst (idx ist_ : Z) (idt : t) : t :=
  let e := default default_entry (idt.(entries) !! Z.to_nat idx) in
  let e := mkEntry e.(lowOffset) e.(codeSegment) (ist_ mod 8) e.(flags) e.(midOffset)
             e.(highOffset) in
  mkIdt (<[Z.to_nat idx := e]> idt.(entries)) idt.(handlers) idt.(limit) idt.(virtualAddress).

(** [lidt] loads the pointer; the result is what it loads. *)
Definition Set_ : M t (Z * Z) :=
  _ ← modify (λ idt, mkIdt idt.(entries) idt.(handlers) 0xfff entriesBase);
  _ ← assert (negb (truthy (idtPtrBase .& 0x7))) "!((uint64_t)&idtPtr & 0x7)";
  _ ← assert (negb (truthy (entriesBase .& 0x7))) "!((uint64_t)entries & 0x7)";
  gets (λ idt, (idt.(limit), idt.(virtualAddress))).
End Ops.
End Idt.

(** ** Irt *)

Module Irt.

(** [routines], indexed by a byte. *)
Definition t : Type := list Z.

Definition Get (irt : t) (idx : Z) : Z := default 0 (irt !! Z.to_nat (u8 idx)).
Definition Set_ (idx r : Z) (irt : t) : t := <[Z.to_nat (u8 idx) := u64 r]> irt.
Definition Unset (idx : Z) (irt : t) : t := <[Z.to_nat (u8 idx) := 0]> irt.

Section Configure.
Context (handlersBase RawPicEoiIsr RawCodedIsr RawNonCodedIsr : Z).

Fixpoint configure_loop (n : nat) (i : Z) (fn : Z → Z) (idt : Idt.t) : Idt.t :=
  match n with
  | O => idt
  | S n' => configure_loop n' (i + 1) fn (Idt.SetEntry handlersBase i (fn i) 0x8e idt)
  end.

Definition ConfigurePicEoi (idt : Idt.t) : Idt.t := configure_loop 0x100 0 (λ _, RawPicEoiIsr) idt.

Definition hasCode (i : Z) : bool :=
  (i =? 0x8) || (i =? 0x11) || (0xa <=? i) && (i <=? 0xe).

Definition Configure (idt : Idt.t) : Idt.t :=
  configure_loop 0x100 0 (λ i, if hasCode i then RawCodedIsr else RawNonCodedIsr) idt.
End Configure.
End Irt.

(** ** Pic *)

Module Pic.
Section Ops.
Context {A : Type}.

Definition IOWait : M (machine A) unit := OutB 0x80 0.

Definition PIC1_COMMAND : Z := 0x20.
Definition PIC1_DATA : Z := 0x21.
Definition PIC2_COMMAND : Z := 0xa0.
Definition PIC2_DATA : Z := 0xa1.
Definition ICW1_ICW4 : Z := 0x01.
Definition ICW1_INIT : Z := 0x10.
Definition ICW4_8086 : Z := 0x01.

Definition Remap (masterBase slaveBase masterMask slaveMask : Z) : M (machine A) unit :=
  _ ← OutB PIC1_COMMAND (ICW1_INIT + ICW1_ICW4);
  _ ← IOWait;
  _ ← OutB PIC2_COMMAND (ICW1_INIT + ICW1_ICW4);
  _ ← IOWait;
  _ ← OutB PIC1_DATA masterBase;
  _ ← IOWait;
  _ ← OutB PIC2_DATA slaveBase;
  _ ← IOWait;
  _ ← OutB PIC1_DATA 4;
  _ ← IOWait;
  _ ← OutB PIC2_DATA 2;
  _ ← IOWait;
  _ ← OutB PIC1_DATA ICW4_8086;
  _ ← IOWait;
  _ ← OutB PIC2_DATA ICW4_8086;
  _ ← IOWait;
  _ ← OutB PIC1_DATA masterMask;
  OutB PIC2_DATA slaveMask.

(** The body of [Initialize]: every line masked. *)
Definition Initialize : M (machine A) unit := Remap 0xf0 0xf8 0xff 0xff.
End Ops.
End Pic.

(** ** LocalSegment *)

Module LocalSegment.
Section Ops.
Context {A : Type}.

Definition GS_BASE : Z := 0xc0000101.
Definition KERNEL_GS_BASE : Z := 0xc0000102.

(** [swapgs] exchanges the two base registers. *)
Definition swapgs (s : machine A) : machine A :=
  let gs := default 0 (s.(msrs) !! GS_BASE) in
  let kgs := default 0 (s.(msrs) !! KERNEL_GS_BASE) in
  set_msrs (<[GS_BASE := kgs]> (<[KERNEL_GS_BASE := gs]> s.(msrs))) s.

Definition Swap : M (machine A) unit :=
  _ ← AssertCritical; modify swapgs.

Definition Read : M (machine A) Z :=
  _ ← AssertCritical; ReadMsr GS_BASE.

Definition Write (value : Z) : M (machine A) unit :=
  _ ← AssertCritical; WriteMsr GS_BASE value.

(** A block that opens with [SwapScope scope(vector, stack);]: the constructor's
    decision, and the destructor. *)
Definition SwapScope {B} (vector cs : Z) (body : M (machine A) B) : M (machine A) B :=
  didSwap ← (if negb (vector =? 0x2) && negb (vector =? 0x12)
             then mret (truthy (cs .& 3))
             else v ← Read; mret (v =? 0));
  _ ← (if (didSwap : bool) then Swap else mret tt);
  r ← body;
  _ ← (if (didSwap : bool) then Swap else mret tt);
  mret r.
End Ops.
End LocalSegment.

(** ** The handlers *)

Module Isr.
Section Ops.
Context {A : Type}.

(** Calling a routine with the stack and the code, and the page delegate
    ([GetGlobalPageDelegate()], 0 for none) with the address and the access. *)
Context (call : Z → Z → Z → M (machine A) unit).
Context (call_delegate : Z → Z → bool → M (machine A) unit).
Context (irt : Irt.t) (GlobalPageDelegate cr2 : Z).

(** The line printed before the panic of an unhandled vector, and the one printed
    for a legacy interrupt. *)
Context (report print_eoi : M (machine A) unit).

Definition InterruptCoded (vector stackPtr cs code : Z) : M (machine A) unit :=
  LocalSegment.SwapScope (u8 vector) cs (
    if (vector =? 0xe) && truthy GlobalPageDelegate then
      call_delegate GlobalPageDelegate cr2 (truthy (code .& 2))
    else
      let routine := Irt.Get irt vector in
      if truthy routine then call routine stackPtr code
      else if vector <? 0xf0 then
        _ ← report; panic "unhandled exception"
      else mret tt).

Definition InterruptNonCoded (vector stackPtr cs : Z) : M (machine A) unit :=
  LocalSegment.SwapScope (u8 vector) cs (
    let routine := Irt.Get irt vector in
    if truthy routine then call routine stackPtr 0
    else if vector <? 0xf0 then
      _ ← report; panic "unhandled interrupt"
    else mret tt).

Definition InterruptPicEoi (vector : Z) : M (machine A) unit :=
  _ ← print_eoi;
  _ ← (if 0xf <? vector then OutB 0xa0 0x20 else mret tt);
  OutB 0x20 0x20.
End Ops.
End Isr.

(** ** What an interrupt runs *)

Lemma le_value_bytes n x : 0 ≤ x → le_value (le_bytes n x) = x mod 256 ^ Z.of_nat n.
Proof.
  revert x. induction n as [|n IH]; intros x Hx; [cbn; by rewrite Z.mod_1_r|].
  cbn [le_bytes le_value]. rewrite IH by zlia. rewrite Nat2Z.inj_succ, Z.pow_succ_r by lia.
  rewrite Z.rem_mul_r by lia. lia.
Qed.

(** The eight bytes of a 64-bit operand. *)
Lemma le_bytes_8 x : is_u64 x →
  ∃ a b c d e f g h, le_bytes 8 x = [a; b; c; d; e; f; g; h]
    ∧ le_value [a; b; c; d; e; f; g; h] = x.
Proof.
  intros Hx. eexists _, _, _, _, _, _, _, _. split; [reflexivity|].
  change (le_value (le_bytes 8 x) = x). rewrite le_value_bytes by (destruct Hx; lia).
  change (256 ^ Z.of_nat 8) with (2 ^ 64). by apply Z.mod_small.
Qed.

Lemma run_code_step n base bs c k i len :
  c.(rip) = base + k → 0 ≤ k → decode (drop (Z.to_nat k) bs) = Some (i, len) →
  run_code (S n) base bs c = run_code n base bs (exec i (base + (k + len)) c).
Proof.
  intros Hr Hk Hd. cbn [run_code]. rewrite Hr.
  replace (base + k - base) with k by lia. rewrite Hd. by rewrite Z.add_assoc.
Qed.

(** The registers and the stack after the thunk: the argument has been pushed,
    the function entered, and nothing else changed. *)
Definition entered (arg fn : Z) (c c' : core) : Prop :=
  c'.(rip) = fn ∧ c'.(rax) = c.(rax) ∧ c'.(rsp) = c.(rsp) - 8
  ∧ c'.(stack) !! (c.(rsp) - 8) = Some arg
  ∧ ∀ a, c.(rsp) ≤ a → c'.(stack) !! a = c.(stack) !! a.

Lemma run_thunk h base c :
  is_u64 h.(argument) → is_u64 h.(function) → c.(rip) = base →
  ∃ c', run_code 7 base (handler_code h) c = Some c' ∧ entered h.(argument) h.(function) c c'.
Proof.
  intros Ha Hf Hr. unfold handler_code.
  destruct (le_bytes_8 _ Ha) as (a0 & a1 & a2 & a3 & a4 & a5 & a6 & a7 & -> & Hav).
  destruct (le_bytes_8 _ Hf) as (f0 & f1 & f2 & f3 & f4 & f5 & f6 & f7 & -> & Hfv).
  cbn [app]. destruct c as [ax sp ip st]. cbn in Hr. subst ip.
  erewrite run_code_step with (k := 0); [|cbn; lia|lia|reflexivity].
  erewrite run_code_step with (k := 1); [|reflexivity|lia|reflexivity].
  erewrite run_code_step with (k := 2); [|reflexivity|lia|reflexivity].
  erewrite run_code_step with (k := 12); [|reflexivity|lia|reflexivity].
  erewrite run_code_step with (k := 17); [|reflexivity|lia|reflexivity].
  erewrite run_code_step with (k := 27); [|reflexivity|lia|reflexivity].
  erewrite run_code_step with (k := 31); [|reflexivity|lia|reflexivity].
  eexists. split; [reflexivity|].
  cbn [take]. rewrite Hav, Hfv. unfold entered. cbn [exec rax rsp rip stack].
  replace (sp - 8 - 8 + 8) with (sp - 8) by lia.
  split_and!.
  - by rewrite lookup_insert_eq.
  - by rewrite lookup_insert_ne, lookup_insert_eq by lia.
  - lia.
  - by rewrite lookup_insert_ne, lookup_insert_eq by lia.
  - intros x Hx. by rewrite !lookup_insert_ne by lia.
Qed.

(** The address the processor reads from a gate. *)
Definition gate_offset (e : IdtEntry) : Z :=
  e.(lowOffset) + e.(midOffset) * 2 ^ 16 + e.(highOffset) * 2 ^ 32.

Lemma gate_SetOffset x e : is_u64 x → gate_offset (SetOffset x e) = x.
Proof.
  intros Hx. unfold is_u64 in Hx. unfold gate_offset. cbn [lowOffset midOffset highOffset SetOffset].
  change 0xffff with (Z.ones 16). rewrite !land_low, !Z.shiftr_div_pow2 by lia. unfold u32.
  eval_pow. zlia.
Qed.

Section Dispatch.
Context (handlersBase RawPicEoiIsr RawCodedIsr RawNonCodedIsr : Z).

Definition sized (idt : Idt.t) : Prop :=
  length idt.(Idt.entries) = 256%nat ∧ length idt.(Idt.handlers) = 256%nat.

(** Vector [v] goes to [fn]: its gate leads to its own thunk, which enters [fn]
    with [v] on the stack. *)
Definition dispatches (idt : Idt.t) (v fn : Z) : Prop :=
  ∃ e h, idt.(Idt.entries) !! Z.to_nat v = Some e ∧ idt.(Idt.handlers) !! Z.to_nat v = Some h
    ∧ e.(flags) = 0x8e ∧ gate_offset e = handlersBase + 0x20 * v
    ∧ length (handler_code h) = 0x20%nat
    ∧ ∀ c, c.(rip) = gate_offset e →
        ∃ c', run_code 7 (gate_offset e) (handler_code h) c = Some c' ∧ entered v fn c c'.

Lemma SetEntry_dispatches idt v fn :
  sized idt → 0 ≤ v < 256 → is_u64 fn → 0 ≤ handlersBase → handlersBase + 0x2000 ≤ 2 ^ 64 →
  sized (Idt.SetEntry handlersBase v fn 0x8e idt)
  ∧ dispatches (Idt.SetEntry handlersBase v fn 0x8e idt) v fn
  ∧ ∀ v' fn', 0 ≤ v' → v' ≠ v → dispatches idt v' fn' →
      dispatches (Idt.SetEntry handlersBase v fn 0x8e idt) v' fn'.
Proof.
  intros [He Hh] Hv Hfn Hb0 Hb. split_and!.
  - split; cbn; by rewrite length_insert.
  - eexists _, (mkHandler v fn). cbn [Idt.entries Idt.handlers Idt.SetEntry].
    rewrite !list_lookup_insert_eq by lia. split_and!; try done.
    + by apply (gate_SetOffset (handlersBase + 0x20 * v)); unfold is_u64; lia.
    + intros c Hc. by apply (run_thunk (mkHandler v fn)); [unfold is_u64; cbn; lia| |].
  - intros v' fn' Hv' Hne (e & h & He' & Hh' & Hrest). exists e, h.
    cbn [Idt.entries Idt.handlers Idt.SetEntry].
    by rewrite !list_lookup_insert_ne by lia.
Qed.

Lemma run_configure_loop n i fn idt :
  sized idt → 0 ≤ i → i + Z.of_nat n ≤ 256 → (∀ v, is_u64 (fn v)) →
  0 ≤ handlersBase → handlersBase + 0x2000 ≤ 2 ^ 64 →
  (∀ v, 0 ≤ v < i → dispatches idt v (fn v)) →
  ∀ v, 0 ≤ v < i + Z.of_nat n → dispatches (Irt.configure_loop handlersBase n i fn idt) v (fn v).
Proof.
  intros Hs Hi Hn Hfn Hb0 Hb. revert i idt Hs Hi Hn.
  induction n as [|n IH]; intros i idt Hs Hi Hn Hd v Hv; cbn [Irt.configure_loop].
  { apply Hd. lia. }
  destruct (SetEntry_dispatches idt i (fn i) Hs ltac:(lia) (Hfn i) Hb0 Hb) as (Hs' & Hnew & Hold).
  apply (IH (i + 1)); try done; try lia.
  intros v' Hv'. destruct (decide (v' = i)) as [->|Hne]; [done|].
  apply Hold; [lia|done|]. apply Hd. lia.
Qed.

(** The exceptions for which the processor pushes an error code: double fault,
    invalid TSS, segment not present, stack fault, general protection, page
    fault, alignment check. *)
Definition pushes_code (v : Z) : Prop :=
  v = 8 ∨ v = 10 ∨ v = 11 ∨ v = 12 ∨ v = 13 ∨ v = 14 ∨ v = 17.

Lemma hasCode_spec v : Irt.hasCode v = true ↔ pushes_code v.
Proof.
  unfold pushes_code, Irt.hasCode. rewrite !orb_true_iff, andb_true_iff, !Z.eqb_eq, !Z.leb_le. lia.
Qed.

Lemma Configure_dispatches idt v :
  sized idt → 0 ≤ handlersBase → handlersBase + 0x2000 ≤ 2 ^ 64 →
  is_u64 RawCodedIsr → is_u64 RawNonCodedIsr → 0 ≤ v < 256 →
  dispatches (Irt.Configure handlersBase RawCodedIsr RawNonCodedIsr idt) v
    (if Irt.hasCode v then RawCodedIsr else RawNonCodedIsr).
Proof.
  intros Hs Hb0 Hb Hc Hnc Hv.
  apply (run_configure_loop 256 0 (λ i, if Irt.hasCode i then RawCodedIsr else RawNonCodedIsr));
    try done; try lia. intros i. by destruct (Irt.hasCode i).
Qed.

Lemma ConfigurePicEoi_dispatches idt v :
  sized idt → 0 ≤ handlersBase → handlersBase + 0x2000 ≤ 2 ^ 64 → is_u64 RawPicEoiIsr → 0 ≤ v < 256 →
  dispatches (Irt.ConfigurePicEoi handlersBase RawPicEoiIsr idt) v RawPicEoiIsr.
Proof.
  intros Hs Hb0 Hb Hp Hv.
  by apply (run_configure_loop 256 0 (λ _, RawPicEoiIsr)); try done; lia.
Qed.

(** After [Irt::Configure] every vector's gate leads to the thunk of that
    vector, and running the thunk's bytes pushes the vector and enters the
    routine for vectors with an error code, or the one for vectors without,
    with every register and the rest of the stack as they were. *)
Lemma Irt_Configure_dispatch idt v :
  sized idt → 0 ≤ handlersBase → handlersBase + 0x2000 ≤ 2 ^ 64 →
  is_u64 RawCodedIsr → is_u64 RawNonCodedIsr → 0 ≤ v < 256 →
  ∃ fn, dispatches (Irt.Configure handlersBase RawCodedIsr RawNonCodedIsr idt) v fn
    ∧ (pushes_code v → fn = RawCodedIsr) ∧ (¬ pushes_code v → fn = RawNonCodedIsr).
Proof.
  intros Hs Hb0 Hb Hc Hnc Hv.
  exists (if Irt.hasCode v then RawCodedIsr else RawNonCodedIsr).
  split; [by apply Configure_dispatches|]. rewrite <-hasCode_spec.
  split; [by intros ->|by intros ->%not_true_is_false].
Qed.
End Dispatch.

Lemma Irt_Configure_dispatch_witness :
  ∃ fn, dispatches 0x300000 (Irt.Configure 0x300000 0x111000 0x222000 Idt.new) 14 fn
    ∧ fn = 0x111000.
Proof.
  destruct (Irt_Configure_dispatch 0x300000 0x111000 0x222000 Idt.new 14) as (fn & Hd & Hc & _);
    [by split|lia|lia|unfold is_u64; lia|unfold is_u64; lia|lia|].
  exists fn. split; [exact Hd|]. apply Hc. unfold pushes_code. lia.
Defined.
