(* ===== verification/Devices.v ===== *)
(** * Windows on physical memory and memory-mapped registers

    Tables and device registers are reached through an [EasyMap]
    (src/memory/easy-map.cpp), whose own mapping is modelled in UserMap.v.
    Here a mapped [EasyMap] is a window: an offset from [GetStart()] is the
    physical byte at that distance from the physical start, and an access
    past the mapped pages faults.  The store a driver makes to a register is
    an event of the machine; the value a register answers is the device's. *)

From stdpp Require Import base numbers list gmap strings.
From Stdlib Require Import ZArith Lia.
From S2P Require Import Prelude Machine.
#[local] Open Scope Z_scope.

(** ** Bytes *)

(** The byte at [a] of a memory of 64-bit little-endian words. *)
Definition phys_byte (m : gmap Z Z) (a : Z) : Z :=
  u8 (default 0 (m !! (a - a mod 8)) .>> (8 * (a mod 8))).

(** The little-endian integer of the [n] bytes from [a]. *)
Fixpoint le (f : Z → Z) (a : Z) (n : nat) : Z :=
  match n with
  | O => 0
  | S n' => f a + 2 ^ 8 * le f (a + 1) n'
  end.

(** The bytes of an [n]-byte integer, least significant first. *)
Fixpoint le_bytes (n : nat) (v : Z) : list Z :=
  match n with
  | O => []
  | S n' => u8 v :: le_bytes n' (v .>> 8)
  end.

(** [f] holds the bytes [l] from [a] on. *)
Definition holds (f : Z → Z) (a : Z) (l : list Z) : Prop :=
  ∀ i b, l !! i = Some b → f (a + Z.of_nat i) = b.

(** The suffixes of a longer trace. *)
Lemma suffix_cons_cases {E} (l k : list E) y :
  l `suffix_of` y :: k → l = y :: k ∨ l `suffix_of` k.
Proof.
  intros [[|x p] Hp]; cbn in Hp; [by left|]. injection Hp as -> ->. right. by exists p.
Qed.

Lemma length_le_bytes n v : length (le_bytes n v) = n.
Proof. revert v. induction n; intros; cbn [le_bytes length]; [done|]. by rewrite IHn. Qed.

Lemma holds_cons f a b l : holds f a (b :: l) ↔ f a = b ∧ holds f (a + 1) l.
Proof.
  split.
  - intros H. split; [rewrite <-(H O b) by done; f_equal; lia|].
    intros i c Hi. rewrite <-(H (S i) c) by done. f_equal. lia.
  - intros [H1 H2] [|i] c Hi; cbn in Hi.
    + injection Hi as <-. rewrite <-H1. f_equal. lia.
    + rewrite <-(H2 i c) by done. f_equal. lia.
Qed.

Lemma holds_app f a l k :
  holds f a (l ++ k) ↔ holds f a l ∧ holds f (a + Z.of_nat (length l)) k.
Proof.
  revert a. induction l as [|b l IH]; intros a; cbn [app length].
  - replace (a + Z.of_nat 0) with a by lia. split; [|by intros [_ ?]].
    intros H. split; [|done]. by intros i c ?.
  - rewrite !holds_cons, IH. replace (a + 1 + Z.of_nat (length l))
      with (a + Z.of_nat (S (length l))) by lia. tauto.
Qed.

(** Reading back the bytes of an integer. *)
Lemma le_holds f a n v :
  0 ≤ v < 2 ^ (8 * Z.of_nat n) → holds f a (le_bytes n v) → le f a n = v.
Proof.
  revert a v. induction n as [|n IH]; intros a v Hv H; cbn [le le_bytes] in *.
  - change (2 ^ (8 * Z.of_nat 0)) with 1 in Hv. lia.
  - apply holds_cons in H as [Ha H]. rewrite Ha, (IH (a + 1) (v .>> 8)); [|..|done].
    + unfold u8. rewrite Z.shiftr_div_pow2 by lia.
      pose proof (Z.div_mod v (2 ^ 8) ltac:(lia)). lia.
    + rewrite Z.shiftr_div_pow2 by lia.
      replace (8 * Z.of_nat (S n)) with (8 + 8 * Z.of_nat n) in Hv by lia.
      rewrite Z.pow_add_r in Hv by lia.
      split; [apply Z.div_pos; lia|apply Z.div_lt_upper_bound; lia].
Qed.

Lemma phys_byte_range m a : 0 ≤ phys_byte m a < 2 ^ 8.
Proof. apply Z.mod_pos_bound. lia. Qed.

Lemma le_range f a n : (∀ i, 0 ≤ f i < 2 ^ 8) → 0 ≤ le f a n < 2 ^ (8 * Z.of_nat n).
Proof.
  intros Hf. revert a. induction n as [|n IH]; intros a; cbn [le]; [by vm_compute|].
  specialize (IH (a + 1)). specialize (Hf a).
  replace (8 * Z.of_nat (S n)) with (8 + 8 * Z.of_nat n) by lia.
  rewrite Z.pow_add_r by lia. nia.
Qed.

(** ** Windows *)

Record window : Type := Window { wbase : Z; wsize : Z }.

(** The first offset past the mapped pages. *)
Definition window_limit (w : window) : Z :=
  let endSize := w.(wsize) + w.(wbase) mod 0x1000 in
  (endSize / 0x1000 + (if truthy (endSize mod 0x1000) then 1 else 0)) * 0x1000
  - w.(wbase) mod 0x1000.

Lemma window_limit_size w : w.(wsize) ≤ window_limit w.
Proof.
  unfold window_limit, truthy.
  destruct (Z.eqb_spec ((wsize w + wbase w mod 4096) mod 4096) 0); cbn [negb]; zlia.
Qed.

(** Whether the kernel map finds room for a window, in a state. *)
Class WindowMap (A : Type) := { can_map : machine A → Z → Z → bool }.

(** What a device register answers, after the stores of the trace. *)
Class Device := { answer : list event → Z → Z → Z }.

Section Windows.
Context {A : Type} `{WindowMap A}.
Implicit Types (s : machine A).

(** [EasyMap map(base, size)] as its clients see it: a window, or a panic where
    the kernel map has no room.  The constructor itself, with the lock and the
    tables it changes, is [EasyMap.new] of UserMap.v, which UserSpace.v runs. *)
Definition open_window (base size : Z) : M (machine A) window :=
  _ ← AssertNoncritical;
  s ← get;
  if can_map s base size then mret (Window base size)
  else panic "EasyMap() - failed to map memory".

Definition in_window (w : window) (off n : Z) : bool :=
  (0 <=? off) && (off + n <=? window_limit w).

(** A load of [n] bytes of memory at an offset of the window. *)
Definition window_read (w : window) (off : Z) (n : nat) : M (machine A) Z :=
  if in_window w off (Z.of_nat n)
  then gets (λ s, le (phys_byte s.(mem)) (w.(wbase) + off) n)
  else stop (PageFault (w.(wbase) + off)).

(** [PhysCopy(&value, addr, n)] into an integer of [n] bytes. *)
Definition PhysRead (addr : Z) (n : nat) : M (machine A) Z :=
  w ← open_window addr (Z.of_nat n);
  v ← window_read w 0 n;
  _ ← AssertNoncritical;
  mret v.

(** A store to, and a load of, a device register of [n] bytes. *)
Definition mmio_write (w : window) (off : Z) (n : nat) (v : Z) : M (machine A) unit :=
  if in_window w off (Z.of_nat n)
  then emit (EvMmio (w.(wbase) + off) (Z.of_nat n) v)
  else stop (PageFault (w.(wbase) + off)).

Definition mmio_read `{Device} (w : window) (off : Z) (n : nat) : M (machine A) Z :=
  if in_window w off (Z.of_nat n)
  then gets (λ s, answer s.(trace) (w.(wbase) + off) (Z.of_nat n)
                  mod 2 ^ (8 * Z.of_nat n))
  else stop (PageFault (w.(wbase) + off)).

Lemma in_window_size w off n : 0 ≤ off → off + n ≤ w.(wsize) → in_window w off n = true.
Proof.
  intros. unfold in_window. pose proof (window_limit_size w).
  apply andb_true_intro. split; apply Z.leb_le; lia.
Qed.

Lemma run_open_window base size s :
  noncritical s → can_map s base size = true →
  open_window base size s = Ok (Window base size, s).
Proof.
  intros Hn Hc. unfold open_window. run run_AssertNoncritical; [|done].
  unfold_m. by rewrite Hc.
Qed.

(** A read of bytes the memory holds. *)
Lemma run_window_read w off n v s :
  0 ≤ off → off + Z.of_nat n ≤ w.(wsize) → 0 ≤ v < 2 ^ (8 * Z.of_nat n) →
  holds (phys_byte s.(mem)) (w.(wbase) + off) (le_bytes n v) →
  window_read w off n s = Ok (v, s).
Proof.
  intros Ho Hs Hv Hh. unfold window_read. rewrite in_window_size by done.
  rewrite run_gets. by rewrite (le_holds _ _ _ v).
Qed.

Lemma run_PhysRead addr n s :
  noncritical s → can_map s addr (Z.of_nat n) = true →
  PhysRead addr n s = Ok (le (phys_byte s.(mem)) addr n, s).
Proof.
  intros Hn Hc. unfold PhysRead. run run_open_window; [|done..].
  erewrite run_bind; [|unfold window_read; rewrite in_window_size by (cbn; lia); apply run_gets].
  run run_AssertNoncritical; [|done]. cbn [wbase]. by rewrite Z.add_0_r.
Qed.

Lemma run_mmio_write w off n v s :
  0 ≤ off → off + Z.of_nat n ≤ w.(wsize) →
  mmio_write w off n v s = Ok (tt, push_event (EvMmio (w.(wbase) + off) (Z.of_nat n) v) s).
Proof. intros. unfold mmio_write. by rewrite in_window_size. Qed.

Lemma run_mmio_read `{Device} w off n s :
  0 ≤ off → off + Z.of_nat n ≤ w.(wsize) →
  mmio_read w off n s
  = Ok (answer s.(trace) (w.(wbase) + off) (Z.of_nat n) mod 2 ^ (8 * Z.of_nat n), s).
Proof. intros. unfold mmio_read. by rewrite in_window_size. Qed.
End Windows.

(** ** A concrete memory *)

(** Memory whose bytes from [a] on are [l]. *)
Fixpoint store_bytes (a : Z) (l : list Z) (m : gmap Z Z) : gmap Z Z :=
  match l with
  | [] => m
  | b :: l' =>
      let w := a - a mod 8 in
      store_bytes (a + 1) l'
        (<[w := default 0 (m !! w) + b * 2 ^ (8 * (a mod 8))]> m)
  end.

Definition holds_b (f : Z → Z) (a : Z) (l : list Z) : bool :=
  forallb (λ ib, f (a + Z.of_nat ib.1) =? ib.2) (imap pair l).

Lemma holds_b_true f a l : holds_b f a l = true → holds f a l.
Proof.
  intros Hh i b Hi. unfold holds_b in Hh. rewrite forallb_forall in Hh.
  specialize (Hh (i, b)). cbn in Hh. apply Z.eqb_eq, Hh, list_elem_of_In.
  apply list_elem_of_lookup. exists i. by rewrite list_lookup_imap, Hi.
Qed.

(** A kernel map with room for every window. *)
#[export] Instance always_mapped {A} : WindowMap A := { can_map _ _ _ := true }.
