(* ===== verification/FreeTable.v ===== *)
(** * Freeing an address space

    [PageTable::FreeTable] (src/arch/x64/vmm/page-table.cpp) gives back the
    tables of an address space that is not loaded, and the destructor of
    [UserMap] (src/arch/x64/vmm/user/user-map.cpp) calls it.  The tables are
    read through an [EasyMap] each, a window of Devices.v; the tree of the
    tables is that of PageTree.v. *)

From stdpp Require Import base numbers list gmap strings.
From Stdlib Require Import ZArith Lia.
From S2P Require Import Prelude Machine Mmu PageTable PageTree PageTableProofs Concrete UserMap Devices.
#[local] Open Scope Z_scope.

Section Ops.
Context {A : Type} `{PhysAllocator A, WindowMap A}.

(** [depth] is [3 - n]; the table is read while it is mapped, and unmapped
    before it is freed. *)
Fixpoint FreeTableRecursive (n : nat) (addr start end_ : Z) : M (machine A) unit :=
  _ ← AssertNoncritical;
  _ ← match n with
      | O => mret tt
      | Datatypes.S n' =>
          map ← open_window addr 0x1000;
          _ ← for_loop (Z.to_nat (end_ - start)) start (λ i,
            entry ← window_read map (8 * i) 8;
            if negb (truthy entry) || truthy (entry .& 0x80) then mret tt
            else
              let phys := entry .& 0x7FFFFFFFFFFFF000 in
              FreeTableRecursive n' phys 0 0x200);
          AssertNoncritical
      end;
  PageTable.alloc_op (Free addr).

Definition FreeTable (pml4 start : Z) : M (machine A) unit :=
  _ ← AssertNoncritical;
  b ← PageTable.IsSet pml4;
  _ ← assert (negb b) "!IsSet()";
  FreeTableRecursive 3 pml4 start 0x1ff.

(** The destructor: the first slot is the kernel's. *)
Definition UserMap_delete (pml4 : Z) : M (machine A) unit := FreeTable pml4 1.
End Ops.

(** ** Words and bytes *)

Lemma bytes_word x n : (n ≤ 8)%nat → 0 ≤ x →
  le (λ i, u8 (x .>> (8 * i))) (8 - Z.of_nat n) n = x / 2 ^ (8 * (8 - Z.of_nat n)) mod 2 ^ (8 * Z.of_nat n).
Proof.
  induction n as [|n IH]; intros Hn Hx; [by rewrite Z.mod_1_r|]. cbn [le].
  replace (8 - Z.of_nat (S n) + 1) with (8 - Z.of_nat n) by lia. rewrite IH by lia.
  unfold u8. rewrite Z.shiftr_div_pow2 by lia.
  set (k := 8 * (8 - Z.of_nat (S n))).
  replace (8 * (8 - Z.of_nat n)) with (k + 8) by lia.
  replace (8 * Z.of_nat (S n)) with (8 + 8 * Z.of_nat n) by lia.
  rewrite !Z.pow_add_r, <-Z.div_div by lia.
  rewrite Z.rem_mul_r by lia. lia.
Qed.

Lemma le_ext f g a n : (∀ i, a ≤ i < a + Z.of_nat n → f i = g i) → le f a n = le g a n.
Proof.
  revert a. induction n as [|n IH]; intros a He; cbn [le]; [done|].
  rewrite He by lia. rewrite IH; [done|]. intros i Hi. apply He. lia.
Qed.

Lemma le_shift f a b n : le (λ i, f (a + i)) b n = le f (a + b) n.
Proof.
  revert b. induction n as [|n IH]; intros b; cbn [le]; [done|]. rewrite IH. do 3 f_equal; lia.
Qed.

(** An aligned word, read byte by byte. *)
Lemma le_read64 m a : a mod 8 = 0 → is_u64 (read64 m a) → le (phys_byte m) a 8 = read64 m a.
Proof.
  intros Ha Hu. unfold is_u64 in Hu.
  replace a with (a + 0) at 1 by lia. rewrite <-le_shift.
  rewrite (le_ext _ (λ i, u8 (read64 m a .>> (8 * i)))).
  - rewrite (bytes_word _ 8) by lia. change (8 * (8 - Z.of_nat 8)) with 0.
    rewrite Z.div_1_r. by apply Z.mod_small.
  - intros i Hi. unfold phys_byte, read64.
    assert ((a + i) mod 8 = i) as -> by zlia. by replace (a + i - i) with a by lia.
Qed.

(** ** The tables of a subtree *)

Section Tree.
Context (m : gmap Z Z) (root : Z) (T : gmap (list Z) Z).
Context (Ht : tree_ok m root T).
Implicit Types (p q : list Z) (i j x g : Z).

(** The table [x] is at or below the path [p]. *)
Definition below p x : Prop := ∃ q, T !! (q ++ p) = Some x.

(** It is below an entry of the table at [p] with an index in a range. *)
Definition below_range p lo hi x : Prop := ∃ j, lo ≤ j < hi ∧ below (j :: p) x.

Lemma below_table p x : below p x → is_Some (T !! p).
Proof.
  intros [q Hq]. revert x Hq. induction q as [|i q IH]; intros x Hq; [by eexists|].
  destruct (t_parent _ _ _ Ht _ _ _ Hq) as (_ & _ & _ & [y Hy]). by eapply IH.
Qed.

Lemma below_cases p x : below p x ↔ T !! p = Some x ∨ below_range p 0 512 x.
Proof.
  split.
  - intros [q Hq]. destruct q as [|i q] using rev_ind; [by left|]. right.
    rewrite <-app_assoc in Hq. cbn [app] in Hq.
    assert (below (i :: p) x) as Hb by (by exists q).
    destruct (below_table _ _ Hb) as [g Hg].
    destruct (t_parent _ _ _ Ht _ _ _ Hg) as (_ & Hi & _). by exists i.
  - intros [Hp|(j & _ & q & Hq)]; [by exists []|]. exists (q ++ [j]). by rewrite <-app_assoc.
Qed.

(** The subtrees of two entries have no table in common, nor the table of the
    entries itself. *)
Lemma below_apart p i j x : below (i :: p) x → below (j :: p) x → i = j.
Proof.
  intros [q Hq] [q' Hq']. pose proof (t_inj _ _ _ Ht _ _ _ Hq Hq') as He.
  rewrite !(cons_middle _ _ p), !app_assoc in He. apply app_inv_tail in He.
  by apply app_inj_tail in He as [_ ?].
Qed.

Lemma below_not_self p i x : below (i :: p) x → T !! p ≠ Some x.
Proof.
  intros [q Hq] Hp. pose proof (t_inj _ _ _ Ht _ _ _ Hq Hp) as He.
  apply (f_equal length) in He. rewrite length_app in He. cbn [length] in He. lia.
Qed.

Lemma below_leaf p x : (3 ≤ length p)%nat → below p x ↔ T !! p = Some x.
Proof.
  intros Hl. rewrite below_cases. split; [intros [?|(j & _ & Hb)]; [done|]|by left].
  destruct (below_table _ _ Hb) as [g Hg].
  destruct (t_parent _ _ _ Ht _ _ _ Hg) as (Hlt & _). lia.
Qed.

(** The entries that are not tables have nothing below them. *)
Lemma below_none p i x : T !! (i :: p) = None → ¬ below (i :: p) x.
Proof. intros Hn Hb. apply below_table in Hb as [g Hg]. congruence. Qed.
End Tree.

(** ** What is freed *)

Section Free.
Context {A : Type} `{FreeLaws A, WindowMap A}.
Context (m : gmap Z Z) (root : Z) (T : gmap (list Z) Z).
Context (Ht : tree_ok m root T) (Hw : ∀ a, is_u64 (read64 m a)).
Context (Hmap : ∀ (s : machine A) a n, can_map s a n = true).
(** An entry of a table that is not empty and not a large page is a table. *)
Context (Hstray : ∀ p g i, T !! p = Some g → (length p < 3)%nat → 0 ≤ i < 512 →
  read64 m (slot g i) ≠ 0 → huge (read64 m (slot g i)) = false →
  is_table (read64 m (slot g i)) = true).
Implicit Types (s : machine A) (p : list Z).

(** Freeing the tables [P] and nothing else. *)
Definition frees (P : Z → Prop) s s' : Prop :=
  ∃ a, s' = set_alloc a s ∧ ∀ x, x ∈ owned a ↔ x ∈ owned s.(alloc) ∧ ¬ P x.

Definition ready s : Prop := noncritical s ∧ s.(mem) = m.

Lemma frees_ready P s s' : ready s → frees P s s' → ready s'.
Proof. intros [Hn Hm] (a & -> & _). by split. Qed.

Lemma frees_none P s : (∀ x, ¬ P x) → frees P s s.
Proof. intros Hp. exists s.(alloc). split; [by destruct s|]. intros x. naive_solver. Qed.

Lemma frees_trans P Q R s s1 s2 : (∀ x, R x ↔ P x ∨ Q x) →
  frees P s s1 → frees Q s1 s2 → frees R s s2.
Proof.
  intros Hr (a & -> & Ha) (b & -> & Hb). exists b. split; [done|].
  intros x. rewrite Hb, Ha, Hr. cbn [alloc set_alloc]. tauto.
Qed.

Lemma run_free_one g s : g ∈ owned s.(alloc) →
  ∃ s', PageTable.alloc_op (Free g) s = Ok (tt, s') ∧ frees (eq g) s s'.
Proof.
  intros Ho. destruct (free_page _ _ Ho) as (a & Hf & Ha). exists (set_alloc a s).
  split; [unfold PageTable.alloc_op; by rewrite Hf|]. exists a. split; [done|].
  intros x. rewrite Ha. set_solver.
Qed.

(** The entry [i] of a table, through its window. *)
Lemma run_entry p g i s : ready s → T !! p = Some g → 0 ≤ i < 512 →
  window_read (Window g 0x1000) (8 * i) 8 s = Ok (read64 m (slot g i), s).
Proof.
  intros [_ Hm] Hg Hi. destruct (t_page _ _ _ Ht _ _ Hg) as [Ha _].
  unfold window_read. rewrite in_window_size by (cbn; lia). rewrite run_gets, Hm. cbn [wbase].
  by rewrite le_read64 by (done || unfold slot; zlia).
Qed.

Section Level.
Context (n : nat).
Hypothesis IH : ∀ p g s, ready s → T !! p = Some g → p ≠ [] → length p = (3 - n)%nat →
  (∀ x, below T p x → x ∈ owned s.(alloc)) →
  ∃ s', FreeTableRecursive n g 0 0x200 s = Ok (tt, s') ∧ frees (below T p) s s'.

(** One turn of the loop. *)
Lemma run_free_entry p g i s :
  ready s → T !! p = Some g → length p = (3 - Datatypes.S n)%nat → (n < 3)%nat →
  0 ≤ i < 512 → ¬ fractal p i → (∀ x, below T (i :: p) x → x ∈ owned s.(alloc)) →
  ∃ s', (entry ← window_read (Window g 0x1000) (8 * i) 8;
    if negb (truthy entry) || truthy (entry .& 0x80) then mret tt
    else FreeTableRecursive n (entry .& 0x7FFFFFFFFFFFF000) 0 0x200) s = Ok (tt, s') ∧
    frees (below T (i :: p)) s s'.
Proof.
  intros Hr Hg Hl Hn Hi Hf Ho. run run_entry; [|done..].
  assert (length p < 3)%nat as Hl3 by lia.
  pose proof (t_child _ _ _ Ht p g i Hg Hl3 Hi Hf) as Hc.
  fold (huge (read64 m (slot g i))).
  destruct (truthy (read64 m (slot g i))) eqn:E0; cbn [negb orb].
  2:{ exists s. split; [done|]. apply frees_none. intros x. eapply below_none; [exact Ht|].
      apply truthy_false in E0. rewrite Hc, E0. done. }
  destruct (huge (read64 m (slot g i))) eqn:Eh.
  { exists s. split; [done|]. apply frees_none. intros x. eapply below_none; [exact Ht|].
    rewrite Hc. unfold is_table. by rewrite Eh, andb_false_r. }
  assert (is_table (read64 m (slot g i)) = true) as Hti
    by (apply (Hstray p); [done|done|done|by apply truthy_true|done]).
  rewrite Hti in Hc. fold (code_frame (read64 m (slot g i))).
  rewrite (t_clean _ _ _ Ht p g i) by done.
  destruct (IH (i :: p) (frame (read64 m (slot g i))) s) as (s' & Hs & Hfr); [done|done|done| |done|].
  { cbn [length]. lia. }
  by exists s'.
Qed.

Lemma run_subtree_loop p g k i s :
  ready s → T !! p = Some g → length p = (3 - Datatypes.S n)%nat → (n < 3)%nat →
  0 ≤ i → i + Z.of_nat k ≤ 512 → (∀ j, i ≤ j < i + Z.of_nat k → ¬ fractal p j) →
  (∀ x, below_range T p i (i + Z.of_nat k) x → x ∈ owned s.(alloc)) →
  ∃ s', for_loop k i (λ i,
    entry ← window_read (Window g 0x1000) (8 * i) 8;
    if negb (truthy entry) || truthy (entry .& 0x80) then mret tt
    else FreeTableRecursive n (entry .& 0x7FFFFFFFFFFFF000) 0 0x200) s = Ok (tt, s') ∧
    frees (below_range T p i (i + Z.of_nat k)) s s'.
Proof.
  revert i s. induction k as [|k IHk]; intros i s Hr Hg Hl Hn Hi Hk Hf Ho; cbn [for_loop].
  { exists s. split; [done|]. apply frees_none. intros x (j & Hj & _). lia. }
  destruct (run_free_entry p g i s) as (s1 & Hs1 & Hf1); [done|done|done|done|lia|apply Hf; lia| |].
  { intros x Hx. apply Ho. exists i. split; [lia|done]. }
  run Hs1.
  destruct (IHk (i + 1) s1) as (s2 & Hs2 & Hf2); [by eapply frees_ready|done|done|done|lia|lia| | |].
  { intros j Hj. apply Hf. lia. }
  { intros x (j & Hj & Hx). destruct Hf1 as (a & -> & Ha). apply Ha. split.
    - apply Ho. exists j. split; [lia|done].
    - intros Hxi. pose proof (below_apart m root T Ht p i j x Hxi Hx). lia. }
  exists s2. split; [exact Hs2|]. eapply frees_trans; [|exact Hf1|exact Hf2].
  intros x. split.
  - intros (j & Hj & Hx). destruct (decide (j = i)) as [->|]; [by left|right].
    exists j. split; [lia|done].
  - intros [Hx|(j & Hj & Hx)]; [exists i|exists j]; (split; [lia|done]).
Qed.

(** A table with the subtrees of a range of its entries. *)
Lemma run_free_range p g lo hi s :
  ready s → T !! p = Some g → length p = (3 - Datatypes.S n)%nat → (n < 3)%nat →
  0 ≤ lo ≤ hi → hi ≤ 512 → (∀ j, lo ≤ j < hi → ¬ fractal p j) → g ∈ owned s.(alloc) →
  (∀ x, below_range T p lo hi x → x ∈ owned s.(alloc)) →
  ∃ s', FreeTableRecursive (Datatypes.S n) g lo hi s = Ok (tt, s') ∧
    frees (λ x, T !! p = Some x ∨ below_range T p lo hi x) s s'.
Proof.
  intros Hr Hg Hl Hn Hlo Hhi Hf Hgo Ho. cbn [FreeTableRecursive].
  run run_AssertNoncritical; [|apply Hr].
  destruct (run_subtree_loop p g (Z.to_nat (hi - lo)) lo s) as (s1 & Hs1 & Hf1); try done;
    replace (lo + Z.of_nat (Z.to_nat (hi - lo))) with hi in * by lia; try done; try lia.
  pose proof (frees_ready _ _ _ Hr Hf1) as Hr1.
  assert (g ∈ owned s1.(alloc)) as Hg1.
  { destruct Hf1 as (a & -> & Ha). apply Ha. split; [done|]. intros (j & _ & Hb).
    by apply (below_not_self m root T Ht p j g Hb). }
  destruct (run_free_one g s1 Hg1) as (s2 & Hs2 & Hf2). exists s2. split.
  - erewrite run_bind; [exact Hs2|]. run run_open_window; [|apply Hr|apply Hmap].
    run Hs1. apply run_AssertNoncritical, Hr1.
  - eapply frees_trans; [|exact Hf1|exact Hf2]. intros x. rewrite Hg. split.
    + intros [[= ->]|Hb]; [by right|by left].
    + intros [Hb|<-]; [by right|by left].
Qed.
End Level.

Lemma run_free_subtree n p g s : (n ≤ 2)%nat →
  ready s → T !! p = Some g → p ≠ [] → length p = (3 - n)%nat →
  (∀ x, below T p x → x ∈ owned s.(alloc)) →
  ∃ s', FreeTableRecursive n g 0 0x200 s = Ok (tt, s') ∧ frees (below T p) s s'.
Proof.
  revert p g s. induction n as [|n IH]; intros p g s Hn Hr Hg Hne Hl Ho.
  - cbn [FreeTableRecursive]. run run_AssertNoncritical; [|apply Hr].
    destruct (run_free_one g s) as (s' & Hs & a & -> & Ha); [by apply Ho; exists []|].
    eexists. split; [exact Hs|]. exists a. split; [done|]. intros x. rewrite Ha.
    rewrite (below_leaf m root T Ht) by lia. rewrite Hg. naive_solver.
  - destruct (run_free_range n (λ p g s, IH p g s ltac:(lia)) p g 0 512 s) as (s' & Hs & Hf);
      try done; try lia.
    + intros j _ [Hp _]. done.
    + apply Ho. by exists [].
    + intros x Hx. apply Ho. apply (below_cases m root T Ht). by right.
    + exists s'. split; [exact Hs|]. destruct Hf as (a & -> & Ha). exists a. split; [done|].
      intros x. by rewrite Ha, (below_cases m root T Ht).
Qed.
End Free.

(** ** Properties *)

(** C34. PageTable::FreeTable on an address space that is not loaded returns,
    and gives back the PML4 and exactly the tables below its slots from
    [start] up to the fractal one, each once: a page is owned afterwards when
    it was before and is none of them, so the tables of the slots before
    [start], the kernel's for a user map, stay; memory is as it was.  On the
    address space that is loaded it stops. *)
Theorem FreeTable_correct {A} `{FreeLaws A, WindowMap A} (s : machine A) (pml4 start : Z)
  (T : gmap (list Z) Z) (Hn : noncritical s) (Ht : tree_ok s.(mem) pml4 T)
  (Hw : ∀ a, is_u64 (read64 s.(mem) a)) (Hmap : ∀ (s' : machine A) a n, can_map s' a n = true)
  (Hstray : ∀ p g i, T !! p = Some g → (length p < 3)%nat → 0 ≤ i < 512 →
    read64 s.(mem) (slot g i) ≠ 0 → huge (read64 s.(mem) (slot g i)) = false →
    is_table (read64 s.(mem) (slot g i)) = true)
  (Hstart : 0 ≤ start ≤ 511)
  (Ho : ∀ x, x = pml4 ∨ below_range T [] start 511 x → x ∈ owned s.(alloc)) :
  if s.(cr3) =? pml4 then FreeTable pml4 start s = Stop (AssertFail "!IsSet()")
  else ∃ a, FreeTable pml4 start s = Ok (tt, set_alloc a s) ∧
    (∀ x, x ∈ owned a ↔ x ∈ owned s.(alloc) ∧ x ≠ pml4 ∧ ¬ below_range T [] start 511 x) ∧
    (∀ i g, 0 ≤ i < start → T !! [i] = Some g → g ∈ owned s.(alloc) → g ∈ owned a).
Proof.
  assert (FreeTable pml4 start s = (_ ← assert (negb (s.(cr3) =? pml4)) "!IsSet()";
    FreeTableRecursive 3 pml4 start 0x1ff) s) as ->.
  { unfold FreeTable, PageTable.IsSet. run run_AssertNoncritical; [|done]. by run run_gets. }
  destruct (s.(cr3) =? pml4); [by apply run_bind_stop, run_assert_fail|].
  run_assert ltac:(done).
  pose proof (t_root _ _ _ Ht) as Hroot.
  destruct (run_free_range s.(mem) pml4 T Ht Hw Hmap Hstray 2
    (λ p g s', run_free_subtree s.(mem) pml4 T Ht Hw Hmap Hstray 2 p g s' ltac:(lia))
    [] pml4 start 511 s) as (s' & Hs & a & -> & Ha); try done; try lia.
  { intros j Hj [_ Hx]. lia. }
  { apply Ho. by left. }
  { intros x Hx. apply Ho. by right. }
  exists a. split; [exact Hs|].
  assert (∀ x, x ∈ owned a ↔ x ∈ owned s.(alloc) ∧ x ≠ pml4 ∧ ¬ below_range T [] start 511 x) as Ha'.
  { intros x. rewrite Ha, Hroot. split.
    - intros [Hx Hn']. split; [done|]. split; [intros ->|intros Hb]; apply Hn'; [by left|by right].
    - intros (Hx & Hne & Hb). split; [done|]. by intros [[= ->]|?]. }
  split; [exact Ha'|]. intros i g Hi Hg Hgo. apply Ha'. split; [done|]. split.
  - intros ->. by pose proof (t_inj _ _ _ Ht _ _ _ Hroot Hg).
  - intros (j & Hj & Hb). assert (below T [i] g) as Hi' by (by exists []).
    pose proof (below_apart _ _ _ Ht [] i j g Hi' Hb). lia.
Qed.

(** An address space of a user: the PML4 at 0x8000 with the kernel's table
    0x9000 in slot 0, a table 0xa000 of its own in slot 1, and the fractal
    slot; another one is loaded. *)
Definition user_words : gmap Z Z := <[0x8008 := 0xa003]> (<[0x8000 := 0x9003]> {[0x8ff8 := 0x8003]}).
Definition user_tree : gmap (list Z) Z := <[[1] := 0xa000]> (<[[0] := 0x9000]> {[ [] := 0x8000 ]}).
Definition user_space : machine PageSet :=
  set_alloc {[0x8000; 0x9000; 0xa000]} (set_mem user_words boot_machine).

Lemma user_word a : read64 user_words a ≠ 0 → a = 0x8000 ∨ a = 0x8008 ∨ a = 0x8ff8.
Proof.
  unfold read64, user_words. intros Ha.
  destruct (decide (a = 0x8008)) as [|E1]; [by auto|rewrite lookup_insert_ne in Ha by done].
  destruct (decide (a = 0x8000)) as [|E2]; [by auto|rewrite lookup_insert_ne in Ha by done].
  destruct (decide (a = 0x8ff8)) as [|E3]; [by auto|rewrite lookup_singleton_ne in Ha by done].
  done.
Qed.

Lemma user_table p g i : user_tree !! p = Some g → 0 ≤ i < 512 → g ≠ 0x8000 →
  read64 user_words (slot g i) = 0.
Proof.
  intros Hg Hi Hne. destruct (decide (read64 user_words (slot g i) = 0)) as [|Hw]; [done|].
  apply user_word in Hw. unfold user_tree in Hg.
  apply lookup_insert_Some in Hg as [[_ <-]|[_ Hg]]; [unfold slot in Hw; lia|].
  apply lookup_insert_Some in Hg as [[_ <-]|[_ Hg]]; [unfold slot in Hw; lia|].
  apply lookup_singleton_Some in Hg as [_ <-]. done.
Qed.

(** Words that are not set are zero. *)
Lemma unset_word (l : gmap Z Z) a : l !! a = None → read64 l a = 0.
Proof. unfold read64. by intros ->. Qed.

Lemma kernel_tree_ok :
  tree_ok (<[0x8000 := 0x9003]> {[0x8ff8 := 0x8003]}) 0x8000 (<[[0] := 0x9000]> {[ [] := 0x8000 ]}).
Proof.
  assert (tree_ok {[0x8ff8 := 0x8003]} 0x8000 {[ [] := 0x8000 ]}) as Hroot.
  { apply tree_root; try done. intros i Hi.
    by rewrite unset_word by (apply lookup_singleton_ne; unfold slot; lia). }
  apply (tree_new {[0x8ff8 := 0x8003]} _ _ _ [] 0x8000 0); try done.
  - change (<[0x8000 := 0x9003]> ?m) with (write64 m (slot 0x8000 0) 0x9003).
    by apply (agree_write _ 0x8000 {[ [] := 0x8000 ]} []).
  - intros [_ Hx]. lia.
  - cbn [length]. lia.
  - intros q [_ Hq]%lookup_singleton_Some. lia.
  - intros j Hj. apply unset_word. rewrite lookup_insert_ne by (unfold slot; lia).
    apply lookup_singleton_ne. unfold slot; lia.
Qed.

Lemma user_tree_ok : tree_ok user_words 0x8000 user_tree.
Proof.
  apply (tree_new (<[0x8000 := 0x9003]> {[0x8ff8 := 0x8003]}) _ _ _ [] 0x8000 1); try done.
  - apply kernel_tree_ok.
  - unfold user_words. change (<[0x8008 := 0xa003]> ?m) with (write64 m (slot 0x8000 1) 0xa003).
    by apply (agree_write _ 0x8000 (<[[0] := 0x9000]> {[ [] := 0x8000 ]}) []); [apply kernel_tree_ok|..].
  - intros [_ Hx]. lia.
  - cbn [length]. lia.
  - intros q [[_ Hq]|[_ [_ Hq]%lookup_singleton_Some]]%lookup_insert_Some; lia.
  - intros j Hj. apply unset_word. unfold user_words.
    rewrite !lookup_insert_ne by (unfold slot; lia). apply lookup_singleton_ne. unfold slot; lia.
Qed.

Lemma FreeTable_correct_witness :
  ∃ a, FreeTable 0x8000 1 user_space = Ok (tt, set_alloc a user_space) ∧
    0x9000 ∈ owned a ∧ 0xa000 ∉ owned a ∧ 0x8000 ∉ owned a.
Proof.
  assert (∀ a, is_u64 (read64 user_words a)) as Hw.
  { intros a. destruct (decide (read64 user_words a = 0)) as [->|Hne]; [by vm_compute|].
    apply user_word in Hne as [->|[->| ->]]; by vm_compute. }
  assert (∀ p g i, user_tree !! p = Some g → (length p < 3)%nat → 0 ≤ i < 512 →
    read64 user_words (slot g i) ≠ 0 → huge (read64 user_words (slot g i)) = false →
    is_table (read64 user_words (slot g i)) = true) as Hs.
  { intros p g i _ _ _ Hne _. by apply user_word in Hne as [->|[->| ->]]. }
  assert (∀ x, x = 0x8000 ∨ below_range user_tree [] 1 511 x → x ∈ owned user_space.(alloc)) as Ho.
  { intros x [->|(j & Hj & q & Hq)]; [by vm_compute|]. unfold user_tree in Hq.
    apply lookup_insert_Some in Hq as [[_ <-]|[_ Hq]]; [by vm_compute|].
    apply lookup_insert_Some in Hq as [[He _]|[_ [He _]%lookup_singleton_Some]];
      destruct q as [|? []]; cbn in He; simplify_eq; lia. }
  destruct (FreeTable_correct user_space 0x8000 1 user_tree (or_intror eq_refl) user_tree_ok Hw
    ltac:(done) Hs ltac:(lia) Ho) as (a & Hr & Ha & Hk).
  exists a. split; [exact Hr|]. split.
  - apply (Hk 0 0x9000); [lia|done|by vm_compute].
  - split; intros Hx; destruct (proj1 (Ha _) Hx) as (_ & Hne & Hb); [|by apply Hne].
    apply Hb. exists 1. split; [lia|]. by exists [].
Defined.
