(* ===== verification/Acpi.v ===== *)
(** * The interrupt controller table

    The ACPI table of the interrupt controllers and its iterator
    (src/arch/x64/acpi/apic-table.cpp).  A table is bytes of physical memory,
    read through a window; a table object is the window and the size the code
    keeps.  The entries that the bytes encode are a list, and every query of
    the code is shown to be a query of that list. *)

From stdpp Require Import base numbers list gmap strings.
From Stdlib Require Import ZArith Lia.
From S2P Require Import Prelude Machine Concrete Devices.
#[local] Open Scope Z_scope.

(** ** The interrupt controller table *)

Module ApicTable.

Definition TypeLapic : Z := 0.
Definition TypeIOApic : Z := 1.
Definition TypeIso : Z := 2.
Definition TypeX2Apic : Z := 9.

(** [sizeof(Header)]; the offsets of the fields that are used. *)
Definition sizeof_Header : Z := 44.
Definition Header_lapicAddr : Z := 36.
Definition Header_flags : Z := 40.

Definition Iso_bus : Z := 2.
Definition Iso_source : Z := 3.
Definition Iso_interrupt : Z := 4.
Definition Iso_flags : Z := 8.

Definition LocalApic_apicId : Z := 3.
Definition LocalApic_flags : Z := 4.
Definition LocalApic2_x2apicId : Z := 4.
Definition LocalApic2_flags : Z := 8.
Definition IOApic_identifier : Z := 2.
Definition IOApic_baseAddr : Z := 4.
Definition IOApic_interruptBase : Z := 8.

Record t : Type := mk { dataSize : Z; map : window }.

(** [address] is the offset of the entry from the start of the table. *)
Record Iterator : Type := mkIterator { address : Z; left : Z }.

Section Ops.
Context {A : Type} `{WindowMap A}.
Implicit Types (table : t) (it : Iterator).

Definition ReadLength (addr : Z) : M (machine A) Z := PhysRead addr 4.

Definition new (baseAddr : Z) : M (machine A) t :=
  dataSize ← ReadLength (baseAddr +u 4);
  w ← open_window baseAddr dataSize;
  mret (mk dataSize w).

Definition GetDataSize table : Z := table.(dataSize) -u sizeof_Header.

Definition CanIterate table : bool := 0 <? GetDataSize table.

(** [map.GetStart() + sizeof(Header)] *)
Definition GetData : Z := sizeof_Header.

Definition GetIterator table : Iterator := mkIterator GetData (GetDataSize table).

Definition field table (off : Z) (n : nat) : M (machine A) Z :=
  window_read table.(map) off n.

Definition GetHeader_flags table : M (machine A) Z := field table Header_flags 4.
Definition GetHeader_lapicAddr table : M (machine A) Z := field table Header_lapicAddr 4.

Definition SystemHas8259 table : M (machine A) bool :=
  flags ← GetHeader_flags table;
  mret (truthy (flags .& 1)).

(** *** The iterator *)

Definition GetType table it : M (machine A) Z := field table it.(address) 1.
Definition GetEntry it : Z := it.(address).
Definition GetSize table it : M (machine A) Z := field table (it.(address) + 1) 1.

(** The iterator to go on with, when there is one. *)
Definition Next table it : M (machine A) (option Iterator) :=
  thisSize ← GetSize table it;
  _ ← assert (thisSize <=? it.(left)) "thisSize <= dataSize";
  if thisSize =? it.(left) then mret None
  else mret (Some (mkIterator (it.(address) + thisSize) (it.(left) -u thisSize))).

(** [do body while (it.Next());] where the body goes on with an accumulator
    ([inl]) or returns from the function ([inr]). *)
Fixpoint do_entries {B R} (fuel : nat) table (body : Iterator → B → M (machine A) (B + R))
    it (acc : B) : M (machine A) (B + R) :=
  match fuel with
  | O => stop OutOfFuel
  | S fuel' =>
      r ← body it acc;
      match r with
      | inr x => mret (inr x)
      | inl acc' =>
          next ← Next table it;
          match next with
          | None => mret (inl acc')
          | Some it' => do_entries fuel' table body it' acc'
          end
      end
  end.

Definition fuel table : nat := Z.to_nat (GetDataSize table).

Definition or_acc {B} (r : B + B) : B := match r with inl b | inr b => b end.

Definition CountType table (type : Z) : M (machine A) Z :=
  if negb (CanIterate table) then mret 0 else
  r ← do_entries (fuel table) table (λ it count,
        ty ← GetType table it;
        mret (inl (if ty =? type then count + 1 else count)))
      (GetIterator table) 0;
  mret (or_acc r).

Definition CountIOApics table : M (machine A) Z := CountType table TypeIOApic.

Definition CountLapics table (checkUsable : bool) : M (machine A) Z :=
  if negb (CanIterate table) then mret 0 else
  r ← do_entries (fuel table) table (λ it count,
        ty ← GetType table it;
        if ty =? TypeLapic then
          if negb checkUsable then mret (inl (count + 1))
          else
            flags ← field table (GetEntry it + LocalApic_flags) 4;
            mret (inl (if truthy (flags .& 1) then count + 1 else count))
        else if ty =? TypeX2Apic then
          if negb checkUsable then mret (inl (count + 1))
          else
            flags ← field table (GetEntry it + LocalApic2_flags) 4;
            mret (inl (if truthy (flags .& 1) then count + 1 else count))
        else mret (inl count))
      (GetIterator table) 0;
  mret (or_acc r).

Definition LookupIso table (physIRQ : Z) : M (machine A) (option Z) :=
  if negb (CanIterate table) then mret None else
  r ← do_entries (fuel table) table (λ it (_ : option Z),
        ty ← GetType table it;
        if negb (ty =? TypeIso) then mret (inl None) else
        let iso := GetEntry it in
        source ← field table (iso + Iso_source) 1;
        if negb (source =? physIRQ) then mret (inl None) else
        bus ← field table (iso + Iso_bus) 1;
        mret (if bus =? 0 then inr (Some iso) else inl None))
      (GetIterator table) None;
  mret (or_acc r).

Definition LookupIOApic table (base : Z) : M (machine A) (option Z) :=
  if negb (CanIterate table) then mret None else
  r ← do_entries (fuel table) table (λ it (_ : option Z),
        ty ← GetType table it;
        if negb (ty =? TypeIOApic) then mret (inl None) else
        let info := GetEntry it in
        interruptBase ← field table (info + IOApic_interruptBase) 4;
        mret (if interruptBase =? base then inr (Some info) else inl None))
      (GetIterator table) None;
  mret (or_acc r).
End Ops.

(** *** What a table says

    The entries of a table as data, and their bytes. *)

Inductive entry : Type :=
  | LocalApic (apicpuId apicId flags : Z)
  | IOApic (identifier baseAddr interruptBase : Z)
  | Iso (bus source interrupt flags : Z)
  | LocalApic2 (x2apicId flags x2apicpuId : Z)
  | Other (type : Z) (payload : list Z).

Definition type_of (e : entry) : Z :=
  match e with
  | LocalApic _ _ _ => TypeLapic
  | IOApic _ _ _ => TypeIOApic
  | Iso _ _ _ _ => TypeIso
  | LocalApic2 _ _ _ => TypeX2Apic
  | Other ty _ => ty
  end.

Definition encode (e : entry) : list Z :=
  match e with
  | LocalApic cpu id flags =>
      le_bytes 1 TypeLapic ++ le_bytes 1 8 ++ le_bytes 1 cpu ++ le_bytes 1 id ++ le_bytes 4 flags
  | IOApic id addr base =>
      le_bytes 1 TypeIOApic ++ le_bytes 1 12 ++ le_bytes 1 id ++ le_bytes 1 0
      ++ le_bytes 4 addr ++ le_bytes 4 base
  | Iso bus source interrupt flags =>
      le_bytes 1 TypeIso ++ le_bytes 1 10 ++ le_bytes 1 bus ++ le_bytes 1 source
      ++ le_bytes 4 interrupt ++ le_bytes 2 flags
  | LocalApic2 id flags cpu =>
      le_bytes 1 TypeX2Apic ++ le_bytes 1 16 ++ le_bytes 2 0 ++ le_bytes 4 id
      ++ le_bytes 4 flags ++ le_bytes 4 cpu
  | Other ty payload =>
      le_bytes 1 ty ++ le_bytes 1 (2 + Z.of_nat (length payload)) ++ payload
  end.

Definition is_u (n v : Z) : Prop := 0 ≤ v < 2 ^ n.

Definition wf (e : entry) : Prop :=
  match e with
  | LocalApic cpu id flags => is_u 8 cpu ∧ is_u 8 id ∧ is_u 32 flags
  | IOApic id addr base => is_u 8 id ∧ is_u 32 addr ∧ is_u 32 base
  | Iso bus source interrupt flags =>
      is_u 8 bus ∧ is_u 8 source ∧ is_u 32 interrupt ∧ is_u 16 flags
  | LocalApic2 id flags cpu => is_u 32 id ∧ is_u 32 flags ∧ is_u 32 cpu
  | Other ty payload =>
      is_u 8 ty ∧ (ty ∉ [TypeLapic; TypeIOApic; TypeIso; TypeX2Apic]) ∧
      is_u 8 (2 + Z.of_nat (length payload))
  end.

Definition size_of (e : entry) : Z := Z.of_nat (length (encode e)).

Definition is_lapic (checkUsable : bool) (e : entry) : bool :=
  match e with
  | LocalApic _ _ flags | LocalApic2 _ flags _ => negb checkUsable || Z.odd flags
  | _ => false
  end.

Definition is_iso (physIRQ : Z) (e : entry) : bool :=
  match e with
  | Iso bus source _ _ => (source =? physIRQ) && (bus =? 0)
  | _ => false
  end.

Definition is_ioapic (base : Z) (e : entry) : bool :=
  match e with IOApic _ _ b => b =? base | _ => false end.

(** The entries with their offsets. *)
Fixpoint at_offsets (off : Z) (es : list entry) : list (Z * entry) :=
  match es with
  | [] => []
  | e :: es' => (off, e) :: at_offsets (off + size_of e) es'
  end.

Definition count (P : entry → bool) (es : list entry) : Z :=
  Z.of_nat (length (List.filter P es)).

Definition find_entry (P : entry → bool) (es : list entry) : option (Z * entry) :=
  List.find (P ∘ snd) (at_offsets sizeof_Header es).

(** A loop over a list that may return early. *)
Fixpoint fold_until {E B R} (f : E → B → B + R) (l : list E) (acc : B) : B + R :=
  match l with
  | [] => inl acc
  | e :: l' => match f e acc with inl acc' => fold_until f l' acc' | inr r => inr r end
  end.

Section Facts.
Context {A : Type} `{WindowMap A}.
Implicit Types (s : machine A) (table : t) (e : entry) (es : list entry).

Definition memory s table : Z → Z := λ off, phys_byte s.(mem) (table.(map).(wbase) + off).

(** The table's memory holds these entries after a header of this size. *)
Definition table_holds s table es : Prop :=
  Forall wf es ∧ table.(map).(wsize) = table.(dataSize) ∧
  table.(dataSize) = sizeof_Header + Z.of_nat (length (es ≫= encode)) ∧
  is_u 32 table.(dataSize) ∧
  holds (memory s table) sizeof_Header (es ≫= encode).

(** An entry lies at an offset of the table. *)
Definition entry_at s table (off : Z) e : Prop :=
  wf e ∧ 0 ≤ off ∧ off + size_of e ≤ table.(map).(wsize) ∧
  holds (memory s table) off (encode e).

Lemma holds_memory s table off l :
  holds (memory s table) off l ↔ holds (phys_byte s.(mem)) (table.(map).(wbase) + off) l.
Proof.
  unfold holds, memory. split; intros Hh i b Hi; rewrite <-(Hh i b Hi); f_equal; lia.
Qed.

Lemma run_field s table off e pre n v post :
  entry_at s table off e → encode e = pre ++ le_bytes n v ++ post →
  is_u (8 * Z.of_nat n) v →
  field table (off + Z.of_nat (length pre)) n s = Ok (v, s).
Proof.
  unfold entry_at, size_of. intros (_ & Ho & Hs & Hh) He Hv. rewrite He in Hs, Hh.
  rewrite !length_app, length_le_bytes in Hs.
  apply holds_app in Hh as [_ Hh]. apply holds_app in Hh as [Hh _].
  apply run_window_read; [lia|lia|done|by apply holds_memory].
Qed.

Lemma size_of_pos e : 2 ≤ size_of e.
Proof. destruct e; unfold size_of; cbn; lia. Qed.

(** The type and size bytes of an entry. *)
Lemma encode_head e : wf e →
  ∃ rest, encode e = le_bytes 1 (type_of e) ++ le_bytes 1 (size_of e) ++ rest.
Proof.
  destruct e as [| | | |ty payload]; intros _; try (eexists; reflexivity).
  exists payload. cbn [encode type_of].
  replace (size_of (Other ty payload)) with (2 + Z.of_nat (length payload)); [done|].
  unfold size_of. cbn [encode]. rewrite !length_app, !length_le_bytes. lia.
Qed.

Lemma size_of_byte e : wf e → is_u 8 (size_of e).
Proof.
  pose proof (size_of_pos e). destruct e; try (intros _; unfold is_u, size_of; cbn; lia).
  intros (_ & _ & Hp). unfold size_of. cbn [encode].
  rewrite !length_app, !length_le_bytes. unfold is_u in *. lia.
Qed.

Lemma type_of_byte e : wf e → is_u 8 (type_of e).
Proof. destruct e; intros Hw; [by vm_compute..|apply Hw]. Qed.

Lemma run_GetType s table it e :
  entry_at s table it.(address) e → GetType table it s = Ok (type_of e, s).
Proof.
  intros He. destruct (encode_head e (proj1 He)) as [rest Hr].
  pose proof (run_field s table _ e [] 1 (type_of e) _ He Hr
    (type_of_byte e (proj1 He))) as Hf.
  cbn [length] in Hf. by rewrite Z.add_0_r in Hf.
Qed.

Lemma run_GetSize s table it e :
  entry_at s table it.(address) e → GetSize table it s = Ok (size_of e, s).
Proof.
  intros He. destruct (encode_head e (proj1 He)) as [rest Hr].
  exact (run_field s table _ e (le_bytes 1 (type_of e)) 1 (size_of e) _ He Hr
    (size_of_byte e (proj1 He))).
Qed.
(** *** The loop visits the entries in order *)

Lemma run_Next s table it e :
  entry_at s table it.(address) e → size_of e ≤ it.(left) → is_u64 it.(left) →
  Next table it s
  = Ok (if size_of e =? it.(left) then None
        else Some (mkIterator (it.(address) + size_of e) (it.(left) - size_of e)), s).
Proof.
  intros He Hle Hu. pose proof (size_of_pos e). unfold Next.
  run run_GetSize; [|done]. run_assert ltac:(by apply Z.leb_le).
  unfold is_u64 in Hu. rewrite u64_small by (unfold is_u64; lia). by case_test.
Qed.

Definition total es : Z := Z.of_nat (length (es ≫= encode)).

Lemma total_cons e es : total (e :: es) = size_of e + total es.
Proof. unfold total, size_of. cbn [mbind list_bind]. rewrite length_app. lia. Qed.

Lemma total_length es : Z.of_nat (length es) ≤ total es.
Proof.
  induction es as [|e es IH]; [done|]. rewrite total_cons. cbn [length].
  pose proof (size_of_pos e). lia.
Qed.

Lemma total_pos es : es ≠ [] → 0 < total es.
Proof. intros. pose proof (total_length es). destruct es; [done|]. cbn [length] in *. lia. Qed.

(** The entries [es] lie at [off], up to the end of the window. *)
Definition entries_at s table (off : Z) es : Prop :=
  Forall wf es ∧ 0 ≤ off ∧ off + total es ≤ table.(map).(wsize) ∧
  holds (memory s table) off (es ≫= encode).

Lemma entries_at_cons s table off e es :
  entries_at s table off (e :: es) →
  entry_at s table off e ∧ entries_at s table (off + size_of e) es.
Proof.
  unfold entries_at, entry_at. rewrite total_cons. cbn [mbind list_bind].
  intros ([He Hes]%Forall_cons & Ho & Hs & [H1 H2]%holds_app).
  pose proof (size_of_pos e).
  assert (0 ≤ total es) by (pose proof (total_length es); lia).
  repeat split; try done; try lia. 
Qed.

Section Loop.
Context {B R : Type} (s : machine A) (table : t).
Context (body : Iterator → B → M (machine A) (B + R)) (f : Z * entry → B → B + R).
Hypothesis body_ok : ∀ it e acc, entry_at s table it.(address) e →
  body it acc s = Ok (f (it.(address), e) acc, s).

Lemma run_do_entries es fuel off acc :
  es ≠ [] → entries_at s table off es → (length es ≤ fuel)%nat → is_u64 (total es) →
  do_entries fuel table body (mkIterator off (total es)) acc s
  = Ok (fold_until f (at_offsets off es) acc, s).
Proof.
  revert fuel off acc. induction es as [|e es IH]; intros fuel off acc Hne Hes Hf Hu; [done|].
  destruct fuel as [|fuel]; [cbn in Hf; lia|].
  apply entries_at_cons in Hes as [He Hes].
  pose proof (size_of_pos e). rewrite total_cons in *.
  assert (0 ≤ total es) by (pose proof (total_length es); lia).
  cbn [do_entries at_offsets fold_until].
  erewrite run_bind; [|by apply body_ok]. cbn beta iota delta [address].
  destruct (f (off, e) acc) as [acc'|r]; [|done].
  run run_Next; cbn [address left]; [|done|lia|done].
  destruct es as [|e' es'].
  - change (total []) with 0. by rewrite Z.add_0_r, Z.eqb_refl.
  - pose proof (total_pos (e' :: es') ltac:(done)).
    destruct (Z.eqb_spec (size_of e) (size_of e + total (e' :: es'))); [lia|].
    replace (size_of e + total (e' :: es') - size_of e) with (total (e' :: es')) by lia.
    apply IH; [done|done|cbn in *; lia|unfold is_u64 in *; lia].
Qed.
End Loop.

(** *** The queries *)

Lemma table_entries s table es :
  table_holds s table es → es ≠ [] →
  entries_at s table sizeof_Header es ∧ GetDataSize table = total es ∧
  CanIterate table = true ∧ (length es ≤ fuel table)%nat ∧ is_u64 (total es).
Proof.
  intros (Hwf & Hw & Hd & Hu & Hh) Hne.
  pose proof (total_pos es Hne). pose proof (total_length es).
  assert (GetDataSize table = total es) as Hsz.
  { unfold GetDataSize. rewrite Hd. fold (total es). unfold is_u in Hu.
    rewrite u64_small; [lia|]. unfold is_u64, total, sizeof_Header in *. lia. }
  assert (is_u64 (total es)).
  { unfold is_u64, is_u, total, sizeof_Header in *. lia. }
  unfold fuel, CanIterate. rewrite Hsz.
  split; [split_and!; try done; rewrite Hw, Hd; fold (total es); lia|].
  split_and!; [done|by apply Z.ltb_lt|lia|done].
Qed.

Lemma found_entry_at s table es P off e :
  table_holds s table es → find_entry P es = Some (off, e) →
  entry_at s table off e ∧ P e = true.
Proof.
  intros Ht Hf. destruct (decide (es = [])) as [->|Hne]; [done|].
  destruct (table_entries s table es Ht Hne) as [He _].
  unfold find_entry in Hf. revert He Hf. generalize sizeof_Header as o.
  clear Ht Hne. induction es as [|x es IH]; intros o He Hf; [done|].
  apply entries_at_cons in He as [Hx He]. cbn in Hf.
  destruct (P x) eqn:E; [by injection Hf as <- <-|by apply (IH _ He)].
Qed.

Lemma run_loop {B R} s table es (body : Iterator → B → M (machine A) (B + R)) f acc :
  table_holds s table es → es ≠ [] →
  (∀ it e acc, entry_at s table it.(address) e →
    body it acc s = Ok (f (it.(address), e) acc, s)) →
  do_entries (fuel table) table body (GetIterator table) acc s
  = Ok (fold_until f (at_offsets sizeof_Header es) acc, s).
Proof.
  intros Ht Hne Hb. destruct (table_entries s table es Ht Hne) as (He & Hsz & _ & Hf & Hu).
  unfold GetIterator. rewrite Hsz. by apply run_do_entries.
Qed.

Lemma CanIterate_nil s table : table_holds s table [] → CanIterate table = false.
Proof. intros (_ & _ & Hd & _). unfold CanIterate, GetDataSize. by rewrite Hd. Qed.

Lemma fold_count (P : entry → bool) es off n :
  fold_until (R:=Z) (λ (oe : Z * entry) n, inl (if P oe.2 then n + 1 else n)) (at_offsets off es) n
  = inl (n + count P es).
Proof.
  revert off n. induction es as [|e es IH]; intros off n; unfold count in *; cbn; [f_equal; lia|].
  rewrite IH. f_equal. destruct (P e); cbn [length]; lia.
Qed.

Lemma fold_find (P : entry → bool) es off :
  or_acc (fold_until (B:=option Z) (λ (oe : Z * entry) (_ : option Z), if P oe.2 then inr (Some oe.1) else inl None)
            (at_offsets off es) None)
  = fst <$> List.find (P ∘ snd) (at_offsets off es).
Proof.
  revert off. induction es as [|e es IH]; intros off; [done|]. cbn.
  destruct (P e); [done|apply IH].
Qed.

(** A loop that counts, and one that looks for an entry. *)
Lemma run_count s table es (P : entry → bool) (body : Iterator → Z → M (machine A) (Z + Z)) :
  table_holds s table es →
  (∀ it e n, entry_at s table it.(address) e →
    body it n s = Ok (inl (if P e then n + 1 else n), s)) →
  (if negb (CanIterate table) then mret 0 else
   r ← do_entries (fuel table) table body (GetIterator table) 0; mret (or_acc r)) s
  = Ok (count P es, s).
Proof.
  intros Ht Hb. destruct (decide (es = [])) as [->|Hne].
  { by rewrite (CanIterate_nil s table Ht). }
  destruct (table_entries s table es Ht Hne) as (_ & _ & -> & _). cbn [negb].
  erewrite run_bind; [|by apply (run_loop s table es body (λ oe n, inl (if P oe.2 then n + 1 else n)))].
  by rewrite fold_count.
Qed.

Lemma run_find s table es (P : entry → bool) (body : Iterator → option Z → M (machine A) (option Z + option Z)) :
  table_holds s table es →
  (∀ it e o, entry_at s table it.(address) e →
    body it o s = Ok (if P e then inr (Some it.(address)) else inl None, s)) →
  (if negb (CanIterate table) then mret None else
   r ← do_entries (fuel table) table body (GetIterator table) None; mret (or_acc r)) s
  = Ok (fst <$> find_entry P es, s).
Proof.
  intros Ht Hb. destruct (decide (es = [])) as [->|Hne].
  { by rewrite (CanIterate_nil s table Ht). }
  destruct (table_entries s table es Ht Hne) as (_ & _ & -> & _). cbn [negb].
  erewrite run_bind; [|by apply (run_loop s table es body
    (λ (oe : Z * entry) (_ : option Z), if P oe.2 then inr (Some oe.1) else inl None))].
  by rewrite run_ret, fold_find.
Qed.

(** The fields of an entry that is found. *)

(** The field [v] of [n] bytes after the bytes [pre] of the entry of [He]. *)
Ltac read_field He pre n v :=
  let Hw := fresh "Hw" in
  pose proof (proj1 He) as Hw; cbn [wf] in Hw;
  eapply (run_field _ _ _ _ pre n v _ He); [reflexivity|tauto].
Lemma run_lapic_flags s table off cpu id flags :
  entry_at s table off (LocalApic cpu id flags) →
  field table (off + LocalApic_flags) 4 s = Ok (flags, s).
Proof. intros He. read_field He (le_bytes 1 TypeLapic ++ le_bytes 1 8 ++ le_bytes 1 cpu ++ le_bytes 1 id) 4%nat flags. Qed.

Lemma run_lapic_id s table off cpu id flags :
  entry_at s table off (LocalApic cpu id flags) →
  field table (off + LocalApic_apicId) 1 s = Ok (id, s).
Proof. intros He. read_field He (le_bytes 1 TypeLapic ++ le_bytes 1 8 ++ le_bytes 1 cpu) 1%nat id. Qed.

Lemma run_x2apic_flags s table off id flags cpu :
  entry_at s table off (LocalApic2 id flags cpu) →
  field table (off + LocalApic2_flags) 4 s = Ok (flags, s).
Proof. intros He. read_field He (le_bytes 1 TypeX2Apic ++ le_bytes 1 16 ++ le_bytes 2 0 ++ le_bytes 4 id) 4%nat flags. Qed.

Lemma run_x2apic_id s table off id flags cpu :
  entry_at s table off (LocalApic2 id flags cpu) →
  field table (off + LocalApic2_x2apicId) 4 s = Ok (id, s).
Proof. intros He. read_field He (le_bytes 1 TypeX2Apic ++ le_bytes 1 16 ++ le_bytes 2 0) 4%nat id. Qed.

Lemma run_iso_source s table off bus source interrupt flags :
  entry_at s table off (Iso bus source interrupt flags) →
  field table (off + Iso_source) 1 s = Ok (source, s).
Proof. intros He. read_field He (le_bytes 1 TypeIso ++ le_bytes 1 10 ++ le_bytes 1 bus) 1%nat source. Qed.

Lemma run_iso_bus s table off bus source interrupt flags :
  entry_at s table off (Iso bus source interrupt flags) →
  field table (off + Iso_bus) 1 s = Ok (bus, s).
Proof. intros He. read_field He (le_bytes 1 TypeIso ++ le_bytes 1 10) 1%nat bus. Qed.

Lemma run_iso_interrupt s table off bus source interrupt flags :
  entry_at s table off (Iso bus source interrupt flags) →
  field table (off + Iso_interrupt) 4 s = Ok (interrupt, s).
Proof. intros He. read_field He (le_bytes 1 TypeIso ++ le_bytes 1 10 ++ le_bytes 1 bus ++ le_bytes 1 source) 4%nat interrupt. Qed.

Lemma run_iso_flags s table off bus source interrupt flags :
  entry_at s table off (Iso bus source interrupt flags) →
  field table (off + Iso_flags) 2 s = Ok (flags, s).
Proof. intros He. read_field He (le_bytes 1 TypeIso ++ le_bytes 1 10 ++ le_bytes 1 bus ++ le_bytes 1 source ++ le_bytes 4 interrupt) 2%nat flags. Qed.

Lemma run_ioapic_base s table off id addr base :
  entry_at s table off (IOApic id addr base) →
  field table (off + IOApic_interruptBase) 4 s = Ok (base, s).
Proof. intros He. read_field He (le_bytes 1 TypeIOApic ++ le_bytes 1 12 ++ le_bytes 1 id ++ le_bytes 1 0 ++ le_bytes 4 addr) 4%nat base. Qed.
(** *** The results *)

Lemma type_other e ty : wf e → ty ∈ [TypeLapic; TypeIOApic; TypeIso; TypeX2Apic] →
  type_of e = ty → match e with Other _ _ => False | _ => True end.
Proof. destruct e; try done. cbn. intros (_ & Hn & _) Hin ->. done. Qed.

Lemma truthy_land_1 v : truthy (v .& 1) = Z.odd v.
Proof. rewrite land_1, Zmod_odd. by destruct (Z.odd v). Qed.

(** Evaluate the test of the type byte of the entry at hand. *)
Ltac type_tests :=
  unfold TypeLapic, TypeIOApic, TypeIso, TypeX2Apic in *; cbn [type_of] in *;
  repeat match goal with
  | |- context [?a =? ?b] => first [change (a =? b) with true | change (a =? b) with false]
  end; cbn [negb].

Lemma other_types ty payload : wf (Other ty payload) →
  (ty =? TypeLapic) = false ∧ (ty =? TypeIOApic) = false ∧
  (ty =? TypeIso) = false ∧ (ty =? TypeX2Apic) = false.
Proof.
  intros (_ & Hn & _). rewrite !Z.eqb_neq. repeat split; intros ->; apply Hn; set_solver.
Qed.

Lemma run_CountType s table es type : table_holds s table es →
  CountType table type s = Ok (count (λ e, type_of e =? type) es, s).
Proof.
  intros Ht. apply (run_count s table es _ _ Ht). intros it e n He. cbn beta.
  by run (run_GetType s table it e He).
Qed.

Lemma run_CountLapics s table es b : table_holds s table es →
  CountLapics table b s = Ok (count (is_lapic b) es, s).
Proof.
  intros Ht. apply (run_count s table es _ _ Ht). intros it e n He. cbn beta.
  run (run_GetType s table it e He).
  destruct e as [cpu id flags|id ad bs|bus src intr flags|id flags cpu|ty payload];
    try (type_tests; done).
  - type_tests. destruct b; [|done]. cbn [negb].
    run run_lapic_flags; [|exact He]. by rewrite truthy_land_1.
  - type_tests. destruct b; [|done]. cbn [negb].
    run run_x2apic_flags; [|exact He]. by rewrite truthy_land_1.
  - destruct (other_types ty payload (proj1 He)) as (H1 & _ & _ & H4).
    cbn [type_of]. by rewrite H1, H4.
Qed.

Lemma run_LookupIso s table es irq : table_holds s table es →
  LookupIso table irq s = Ok (fst <$> find_entry (is_iso irq) es, s).
Proof.
  intros Ht. apply (run_find s table es _ _ Ht). intros it e n He. cbn beta.
  run (run_GetType s table it e He).
  destruct e as [cpu id flags|id ad bs|bus src intr flags|id flags cpu|ty payload];
    try (type_tests; done).
  - type_tests. cbn [is_iso]. unfold GetEntry.
    run run_iso_source; [|exact He]. destruct (src =? irq); [|done]. cbn [negb andb].
    run run_iso_bus; [|exact He]. by destruct (bus =? 0).
  - destruct (other_types ty payload (proj1 He)) as (_ & _ & H3 & _).
    cbn [type_of]. by rewrite H3.
Qed.

Lemma run_LookupIOApic s table es base : table_holds s table es →
  LookupIOApic table base s = Ok (fst <$> find_entry (is_ioapic base) es, s).
Proof.
  intros Ht. apply (run_find s table es _ _ Ht). intros it e n He. cbn beta.
  run (run_GetType s table it e He).
  destruct e as [cpu id flags|id ad bs|bus src intr flags|id flags cpu|ty payload];
    try (type_tests; done).
  - type_tests. cbn [is_ioapic]. unfold GetEntry.
    run run_ioapic_base; [|exact He]. by destruct (bs =? base).
  - destruct (other_types ty payload (proj1 He)) as (_ & H2 & _ & _).
    cbn [type_of]. by rewrite H2.
Qed.

(** An entry whose size byte is zero makes every query run forever: the
    iterator stays where it is. *)
Lemma zero_size_loops {B R} s table it (body : Iterator → B → M (machine A) (B + R)) :
  GetSize table it s = Ok (0, s) → 0 < it.(left) < 2 ^ 64 →
  (∀ acc, ∃ acc', body it acc s = Ok (inl acc', s)) →
  ∀ n acc, do_entries n table body it acc s = Stop OutOfFuel.
Proof.
  intros Hz Hl Hb n. induction n as [|n IH]; intros acc; [done|]. cbn [do_entries].
  destruct (Hb acc) as [acc' Hr]. run Hr. cbn beta iota.
  assert (Next table it s = Ok (Some it, s)) as Hn.
  { unfold Next. run Hz. run_assert ltac:(apply Z.leb_le; lia).
    destruct (Z.eqb_spec 0 it.(left)); [lia|]. destruct it as [a l]. cbn [address left] in *.
    rewrite Z.add_0_r, Z.sub_0_r, u64_small by (unfold is_u64; lia). done. }
  run Hn. apply IH.
Qed.
End Facts.

(** A table with two processors, an I/O APIC and an interrupt override. *)
Definition example_entries : list entry :=
  [LocalApic 0 0 1; LocalApic 1 1 0; IOApic 2 0xfec00000 0; Other 4 [255; 5; 0; 1];
   Iso 0 0 2 0; Iso 0 9 9 0xd; LocalApic2 257 1 2].

Definition example_size : Z := sizeof_Header + Z.of_nat (length (example_entries ≫= encode)).

Definition example_table : t := mk example_size (Window 0x7fe1234 example_size).

Definition example_memory : gmap Z Z :=
  store_bytes (0x7fe1234 + 4) (le_bytes 4 example_size)
    (store_bytes (0x7fe1234 + sizeof_Header) (example_entries ≫= encode) ∅).

Definition example_machine {A} (a : A) : machine A := set_mem example_memory (idle_machine a).

Lemma example_holds {A} (a : A) :
  table_holds (example_machine a) example_table example_entries.
Proof.
  split_and!; [|done..|by vm_compute|].
  - repeat (apply Forall_cons; split); [..|apply Forall_nil, I];
      cbn [wf]; split_and!; try (by vm_compute); set_solver.
  - apply holds_b_true. by vm_compute.
Qed.

End ApicTable.

(** ** Properties *)

(** C21. The queries of the interrupt controller table agree with the list of
    entries its bytes encode: CountType, CountIOApics and CountLapics count
    the entries they mean to (with [checkUsable], the enabled processors), and
    LookupIso and LookupIOApic return the first entry for the interrupt line
    and for the interrupt base, at its offset; every query ends, and the
    machine is as it was. *)
Theorem ApicTable_queries_correct {A} `{WindowMap A} (s : machine A) table es
  (Ht : ApicTable.table_holds s table es) :
  (∀ type, ApicTable.CountType table type s
    = Ok (ApicTable.count (λ e, ApicTable.type_of e =? type) es, s)) ∧
  ApicTable.CountIOApics table s
    = Ok (ApicTable.count (λ e, ApicTable.type_of e =? ApicTable.TypeIOApic) es, s) ∧
  (∀ b, ApicTable.CountLapics table b s = Ok (ApicTable.count (ApicTable.is_lapic b) es, s)) ∧
  (∀ irq, ApicTable.LookupIso table irq s
    = Ok (fst <$> ApicTable.find_entry (ApicTable.is_iso irq) es, s)) ∧
  (∀ base, ApicTable.LookupIOApic table base s
    = Ok (fst <$> ApicTable.find_entry (ApicTable.is_ioapic base) es, s)).
Proof.
  split_and!; intros; [by apply ApicTable.run_CountType|by apply ApicTable.run_CountType
    |by apply ApicTable.run_CountLapics|by apply ApicTable.run_LookupIso
    |by apply ApicTable.run_LookupIOApic].
Qed.

Lemma ApicTable_queries_correct_witness :
  let s := ApicTable.example_machine tt in
  ApicTable.CountLapics ApicTable.example_table true s = Ok (2, s) ∧
  ApicTable.CountLapics ApicTable.example_table false s = Ok (3, s) ∧
  ApicTable.LookupIso ApicTable.example_table 0 s = Ok (Some 78, s).
Proof.
  intros s.
  destruct (ApicTable_queries_correct s ApicTable.example_table ApicTable.example_entries
    (ApicTable.example_holds tt)) as (_ & _ & Hc & Hi & _).
  split_and!; [exact (Hc true)|exact (Hc false)|exact (Hi 0)].
Defined.
