(* ===== verification/AcpiRoot.v ===== *)
(** * Finding the ACPI tables

    The search for the root pointer (src/arch/x64/acpi/acpi-pointer.cpp), the
    two formats of the root table (acpi-root.cpp, rsdt.cpp, xsdt.cpp) and the
    module that keeps the tables of interest (acpi-module.cpp). *)

From stdpp Require Import base numbers list gmap strings.
From Stdlib Require Import ZArith Lia.
From S2P Require Import Prelude Machine Concrete Devices Acpi.
#[local] Open Scope Z_scope.

(** The value of a 64-bit integer converted to [int]. *)
Definition s32 (x : Z) : Z :=
  let y := u32 x in if y <? 2 ^ 31 then y else y - 2 ^ 32.

(** [ansa::Memcmp(a, b, n)] on [n] bytes. *)
Class AnsaMemcmp := { Memcmp : list Z → list Z → Z }.
Class MemcmpLaws `{AnsaMemcmp} := {
  memcmp_zero : ∀ a b, length a = length b → Memcmp a b = 0 ↔ a = b;
}.

(** ** The root table *)

Module AcpiRoot.

(** The class of the object, [Rsdt] or [Xsdt]. *)
Inductive kind : Type := Rsdt | Xsdt.
Record t : Type := mk { class : kind; tableSize : Z; map : window }.

(** The bytes of an entry. *)
Definition width (k : kind) : nat := match k with Rsdt => 4 | Xsdt => 8 end.

Section Ops.
Context {A : Type} `{WindowMap A}.

Definition ReadPhysSize (addr : Z) : M (machine A) Z := PhysRead addr 4.

Definition new (k : kind) (tableBase : Z) : M (machine A) t :=
  tableSize ← ReadPhysSize (tableBase +u 4);
  w ← open_window tableBase tableSize;
  mret (mk k tableSize w).

Definition GetCount (r : t) : Z :=
  s32 ((r.(tableSize) -u 0x24) / Z.of_nat (width r.(class))).

Definition GetTable (r : t) (i : Z) : M (machine A) Z :=
  window_read r.(map) (0x24 + Z.of_nat (width r.(class)) * i) (width r.(class)).

(** [for (int i = 0; i < count; i++)] *)
Fixpoint find_loop (r : t) (num : Z) (n : nat) (i : Z) : M (machine A) Z :=
  match n with
  | O => mret (-1)
  | S n' =>
      tableAddr ← GetTable r i;
      typeNum ← PhysRead tableAddr 4;
      if typeNum =? num then mret i else find_loop r num n' (i + 1)
  end.

(** [name] is the four characters as an integer. *)
Definition FindTable (r : t) (name : Z) : M (machine A) Z :=
  find_loop r name (Z.to_nat (GetCount r)) 0.
End Ops.

(** The bytes of "APIC" and of "HPET" as integers. *)
Definition name_APIC : Z := 0x43495041.
Definition name_HPET : Z := 0x54455048.

End AcpiRoot.

(** ** The root pointer *)

Module AcpiPointer.

(** The fields that are used. *)
Definition revision : Z := 15.
Definition ptrRSDT : Z := 16.
Definition ptrXSDT : Z := 24.

(** ["RSD PTR "] *)
Definition signature : list Z := [82; 83; 68; 32; 80; 84; 82; 32].

Fixpoint read_bytes (f : Z → Z) (a : Z) (n : nat) : list Z :=
  match n with O => [] | S n' => f a :: read_bytes f (a + 1) n' end.

(** [while (len-- > 0) { sum += *ptr; ptr++; }] *)
Fixpoint checksum_loop (f : Z → Z) (len : nat) (ptr sum : Z) : Z :=
  match len with
  | O => sum
  | S len' => checksum_loop f len' (ptr + 1) (u8 (sum + f ptr))
  end.

Definition MemChecksum (f : Z → Z) (ptr : Z) (len : nat) : Z := checksum_loop f len ptr 0.

Section Ops.
Context {A : Type} `{WindowMap A, AnsaMemcmp, VirtualAllocator A}.

(** [for (; ptr < last; ptr++)], of [n] rounds. *)
Fixpoint find_loop (f : Z → Z) (n : nat) (ptr : Z) : option Z :=
  match n with
  | O => None
  | S n' =>
      if Memcmp signature (read_bytes f ptr 8) =? 0 then
        if truthy (MemChecksum f ptr 0x14) then find_loop f n' (ptr + 1)
        else Some ptr
      else find_loop f n' (ptr + 1)
  end.

(** The low megabyte is mapped one to one. *)
Definition Find : M (machine A) (option Z) :=
  gets (λ s, let f := phys_byte s.(mem) in
    match find_loop f (Z.to_nat (0x9fc00 - 0x80000)) 0x80000 with
    | Some ptr => Some ptr
    | None => find_loop f (Z.to_nat (0x100000 - 0xe0000)) 0xe0000
    end).

Definition field (ptr off : Z) (n : nat) : M (machine A) Z :=
  gets (λ s, le (phys_byte s.(mem)) (ptr + off) n).

(** [sizeof(Rsdt)] and [sizeof(Xsdt)]: the virtual table pointer, the size
    and the five words of the [EasyMap]. *)
Definition sizeof_AcpiRoot : Z := 56.

Definition GenerateRoot (ptr : Z) : M (machine A) (option AcpiRoot.t) :=
  rev ← field ptr revision 1;
  if rev =? 0 then
    rsdt ← field ptr ptrRSDT 4;
    New sizeof_AcpiRoot (AcpiRoot.new AcpiRoot.Rsdt rsdt)
  else
    xsdt ← field ptr ptrXSDT 8;
    New sizeof_AcpiRoot (AcpiRoot.new AcpiRoot.Xsdt xsdt).
End Ops.

End AcpiPointer.

(** ** The module *)

Module AcpiModule.

(** The bytes of an [HpetTable] are kept as one integer. *)
Definition sizeof_HpetTable : nat := 64.
Definition HpetTable_address : Z := 44.
Definition hpet_address (table : Z) : Z :=
  (table .>> (8 * HpetTable_address)) .& Z.ones 64.

Record t : Type := mk {
  root : AcpiRoot.t;
  apicTable : option ApicTable.t;
  hpetTable : option Z;
}.

Section Ops.
Context {A : Type} `{WindowMap A, AnsaMemcmp, VirtualAllocator A}.

(** [sizeof(ApicTable)]: the size and the [EasyMap]. *)
Definition sizeof_ApicTable : Z := 48.

Definition init_apic (root : AcpiRoot.t) : M (machine A) (option ApicTable.t) :=
  apicIndex ← AcpiRoot.FindTable root AcpiRoot.name_APIC;
  if 0 <=? apicIndex then
    addr ← AcpiRoot.GetTable root apicIndex;
    table ← New sizeof_ApicTable (ApicTable.new addr);
    _ ← assert (bool_decide (is_Some table)) "apicTable != NULL";
    mret table
  else mret None.

Definition init_hpet (root : AcpiRoot.t) : M (machine A) (option Z) :=
  hpetIndex ← AcpiRoot.FindTable root AcpiRoot.name_HPET;
  if 0 <=? hpetIndex then
    buf ← VAlloc (Z.of_nat sizeof_HpetTable);
    addr ← AcpiRoot.GetTable root hpetIndex;
    copy ← PhysRead addr sizeof_HpetTable;
    match buf with
    | None => stop (Undefined "PhysCopy to a null pointer")
    | Some _ => mret (Some copy)
    end
  else mret None.

Definition Initialize : M (machine A) t :=
  _ ← put_text "Initializing ACPI subsystem...";
  pointer ← AcpiPointer.Find;
  match pointer with
  | None => stop (AssertFail "pointer != NULL")
  | Some ptr =>
      root ← AcpiPointer.GenerateRoot ptr;
      match root with
      | None => stop (AssertFail "root != NULL")
      | Some root =>
          apicTable ← init_apic root;
          hpetTable ← init_hpet root;
          _ ← put_text " [OK]";
          _ ← put_endl;
          mret (mk root apicTable hpetTable)
      end
  end.
End Ops.

End AcpiModule.

(** ** What the search finds *)

Lemma length_read_bytes f a n : length (AcpiPointer.read_bytes f a n) = n.
Proof. revert a. induction n as [|n IH]; intros a; cbn; [done|]. by rewrite IH. Qed.

(** A root pointer lies at [p]: the signature, and bytes that add up to a
    multiple of 256. *)
Definition valid_pointer (f : Z → Z) (p : Z) : bool :=
  bool_decide (AcpiPointer.read_bytes f p 8 = AcpiPointer.signature) &&
  ((foldr Z.add 0 (AcpiPointer.read_bytes f p 20)) mod 2 ^ 8 =? 0).

(** The addresses that are searched, in order. *)
Definition candidates : list Z :=
  seqZ 0x80000 (0x9fc00 - 0x80000) ++ seqZ 0xe0000 (0x100000 - 0xe0000).

Lemma checksum_loop_sum f n ptr sum :
  AcpiPointer.checksum_loop f n ptr sum mod 2 ^ 8
  = (sum + foldr Z.add 0 (AcpiPointer.read_bytes f ptr n)) mod 2 ^ 8.
Proof.
  revert ptr sum. induction n as [|n IH]; intros ptr sum; cbn [AcpiPointer.checksum_loop
    AcpiPointer.read_bytes foldr]; [f_equal; lia|].
  rewrite IH. unfold u8. rewrite Z.add_mod_idemp_l by lia. f_equal. lia.
Qed.

Lemma checksum_loop_range f n ptr sum :
  0 ≤ sum < 2 ^ 8 → 0 ≤ AcpiPointer.checksum_loop f n ptr sum < 2 ^ 8.
Proof.
  revert ptr sum. induction n as [|n IH]; intros ptr sum Hs; [done|].
  apply IH, Z.mod_pos_bound. lia.
Qed.

Lemma MemChecksum_zero f p n :
  truthy (AcpiPointer.MemChecksum f p n)
  = negb (foldr Z.add 0 (AcpiPointer.read_bytes f p n) mod 2 ^ 8 =? 0).
Proof.
  unfold truthy, AcpiPointer.MemChecksum. do 2 f_equal.
  pose proof (checksum_loop_sum f n p 0) as Hs. rewrite Z.add_0_l in Hs. rewrite <-Hs.
  symmetry. apply Z.mod_small, checksum_loop_range. lia.
Qed.

Section Find.
Context `{MemcmpLaws}.

Lemma find_loop_find f n ptr :
  AcpiPointer.find_loop f n ptr = List.find (valid_pointer f) (seqZ ptr (Z.of_nat n)).
Proof.
  revert ptr. induction n as [|n IH]; intros ptr; [done|].
  rewrite seqZ_cons by lia. replace (Z.pred (Z.of_nat (S n))) with (Z.of_nat n) by lia.
  cbn [AcpiPointer.find_loop List.find]. unfold valid_pointer at 1.
  rewrite MemChecksum_zero.
  destruct (Z.eqb_spec (Memcmp AcpiPointer.signature (AcpiPointer.read_bytes f ptr 8)) 0) as [E|E];
    rewrite memcmp_zero in E by done.
  - rewrite bool_decide_true by done. cbn [andb].
    destruct (foldr Z.add 0 (AcpiPointer.read_bytes f ptr 20) mod 2 ^ 8 =? 0); [done|].
    cbn [negb]. by rewrite IH, Z.add_1_r.
  - rewrite bool_decide_false by congruence. cbn [andb]. by rewrite IH, Z.add_1_r.
Qed.

Lemma run_Find {A} (s : machine A) :
  AcpiPointer.Find s = Ok (List.find (valid_pointer (phys_byte s.(mem))) candidates, s).
Proof.
  unfold AcpiPointer.Find, candidates. rewrite run_gets, find_app, !find_loop_find.
  by rewrite !Z2Nat.id by lia.
Qed.
End Find.

(** ** Looking a table up *)

Section Root.
Context {A : Type} `{WindowMap A}.
Implicit Types (s : machine A) (r : AcpiRoot.t).

Definition signature_of s (addr : Z) : Z := le (phys_byte s.(mem)) addr 4.

(** The root table lists these tables. *)
Definition root_holds s r (tables : list Z) : Prop :=
  let n := AcpiRoot.width r.(AcpiRoot.class) in
  let base := r.(AcpiRoot.map).(wbase) in
  r.(AcpiRoot.map).(wsize) = r.(AcpiRoot.tableSize) ∧
  r.(AcpiRoot.tableSize) = 0x24 + Z.of_nat n * Z.of_nat (length tables) ∧
  r.(AcpiRoot.tableSize) < 2 ^ 32 ∧
  Forall (λ a, 0 ≤ a < 2 ^ (8 * Z.of_nat n)) tables ∧
  holds (phys_byte s.(mem)) (base + 0x24) (tables ≫= le_bytes n).

Lemma width_pos k : 4 ≤ Z.of_nat (AcpiRoot.width k) ≤ 8.
Proof. destruct k; cbn; lia. Qed.

Lemma length_words n tables : length (tables ≫= le_bytes n) = (n * length tables)%nat.
Proof.
  induction tables as [|a tables IH]; [cbn; lia|].
  rewrite bind_cons, length_app, length_le_bytes, IH. cbn [length]. lia.
Qed.

Lemma run_GetTable s r pre a post :
  root_holds s r (pre ++ a :: post) →
  AcpiRoot.GetTable r (Z.of_nat (length pre)) s = Ok (a, s).
Proof.
  intros (Hw & Hs & _ & Ha & Hh). pose proof (width_pos r.(AcpiRoot.class)).
  rewrite length_app in Hs. cbn [length] in Hs.
  rewrite bind_app in Hh. apply holds_app in Hh as [_ Hh]. cbn [mbind list_bind] in Hh.
  apply holds_app in Hh as [Hh _]. rewrite length_words in Hh.
  apply Forall_app in Ha as [_ [Ha _]%Forall_cons].
  unfold AcpiRoot.GetTable. apply run_window_read; [lia|rewrite Hw, Hs; lia|done|].
  by replace (wbase (AcpiRoot.map r) + (36 + Z.of_nat (AcpiRoot.width (AcpiRoot.class r)) *
    Z.of_nat (length pre))) with (wbase (AcpiRoot.map r) + 36 +
    Z.of_nat (AcpiRoot.width (AcpiRoot.class r) * length pre)) by lia.
Qed.

Lemma GetCount_length s r tables : root_holds s r tables →
  AcpiRoot.GetCount r = Z.of_nat (length tables).
Proof.
  intros (_ & Hs & Hlt & _). pose proof (width_pos r.(AcpiRoot.class)) as Hn.
  unfold AcpiRoot.GetCount. rewrite Hs in *.
  set (n := Z.of_nat (AcpiRoot.width (AcpiRoot.class r))) in *.
  set (l := Z.of_nat (length tables)) in *.
  assert (0 ≤ l) by lia. assert (l < 2 ^ 30) by nia.
  replace (36 + n * l - 36) with (l * n) by lia.
  rewrite u64_small by (unfold is_u64; nia). rewrite Z.div_mul by lia.
  unfold s32, u32. rewrite Z.mod_small by lia. by case_test; [|lia].
Qed.

(** The index the search returns. *)
Definition table_index s (num : Z) (tables : list Z) : option (nat * Z) :=
  list_find (λ a, signature_of s a = num) tables.

Definition index_result (i : Z) (o : option (nat * Z)) : Z :=
  match o with Some (j, _) => i + Z.of_nat j | None => -1 end.

Lemma run_find_loop s r num pre post :
  noncritical s → (∀ a n, can_map s a n = true) → root_holds s r (pre ++ post) →
  AcpiRoot.find_loop r num (length post) (Z.of_nat (length pre)) s
  = Ok (index_result (Z.of_nat (length pre)) (table_index s num post), s).
Proof.
  intros Hn Hm. revert pre. induction post as [|a post IH]; intros pre Hr; [done|].
  cbn [AcpiRoot.find_loop length]. run run_GetTable; [|exact Hr].
  run run_PhysRead; [|done..]. fold (signature_of s a).
  unfold table_index. cbn [list_find].
  destruct (Z.eqb_spec (signature_of s a) num) as [E|E].
  - rewrite decide_True by done. cbn [index_result]. by rewrite Z.add_0_r.
  - rewrite decide_False by done. specialize (IH (pre ++ [a])).
    rewrite length_app in IH. cbn [length] in IH.
    replace (Z.of_nat (length pre + 1)) with (Z.of_nat (length pre) + 1) in IH by lia.
    rewrite IH by (by rewrite <-app_assoc). unfold table_index.
    destruct (list_find _ post) as [[j b]|]; cbn; [|done]. do 2 f_equal. lia.
Qed.

Lemma run_FindTable s r num tables :
  noncritical s → (∀ a n, can_map s a n = true) → root_holds s r tables →
  AcpiRoot.FindTable r num s = Ok (index_result 0 (table_index s num tables), s).
Proof.
  intros Hn Hm Hr. unfold AcpiRoot.FindTable. rewrite (GetCount_length s r tables Hr).
  rewrite Nat2Z.id. exact (run_find_loop s r num [] tables Hn Hm Hr).
Qed.

(** The table at the index that is found. *)
Lemma run_GetTable_found s r num tables i a :
  root_holds s r tables → table_index s num tables = Some (i, a) →
  AcpiRoot.GetTable r (index_result 0 (Some (i, a))) s = Ok (a, s).
Proof.
  intros Hr [Hi _]%list_find_Some. apply list_elem_of_split_length in Hi as (pre & post & -> & ->).
  cbn [index_result]. rewrite Z.add_0_l. by apply run_GetTable in Hr.
Qed.
End Root.

(** ** Initialization *)

Section Init.
Context {A : Type} `{WindowMap A, MemcmpLaws, RoomyHeap A}.
Implicit Types (s : machine A).

(** The root table a root pointer refers to. *)
Definition root_of s (ptr : Z) : AcpiRoot.t :=
  let f := phys_byte s.(mem) in
  let k := if le f (ptr + AcpiPointer.revision) 1 =? 0 then AcpiRoot.Rsdt else AcpiRoot.Xsdt in
  let base := match k with
              | AcpiRoot.Rsdt => le f (ptr + AcpiPointer.ptrRSDT) 4
              | AcpiRoot.Xsdt => le f (ptr + AcpiPointer.ptrXSDT) 8
              end in
  let size := le f (base +u 4) 4 in
  AcpiRoot.mk k size (Window base size).

Definition apic_of s (tables : list Z) : option ApicTable.t :=
  (λ ia, let size := le (phys_byte s.(mem)) (ia.2 +u 4) 4 in
         ApicTable.mk size (Window ia.2 size))
  <$> table_index s AcpiRoot.name_APIC tables.

Definition hpet_of s (tables : list Z) : option Z :=
  (λ ia, le (phys_byte s.(mem)) ia.2 64) <$> table_index s AcpiRoot.name_HPET tables.

Definition all_mapped : Prop := ∀ s a n, can_map s a n = true.

Lemma run_new_root s k base : noncritical s → all_mapped →
  let size := le (phys_byte s.(mem)) (base +u 4) 4 in
  AcpiRoot.new k base s = Ok (AcpiRoot.mk k size (Window base size), s).
Proof.
  intros Hn Hm. unfold AcpiRoot.new, AcpiRoot.ReadPhysSize.
  run run_PhysRead; [|done..]. by run run_open_window.
Qed.

Lemma run_GenerateRoot s ptr : noncritical s → all_mapped →
  ∃ a, AcpiPointer.GenerateRoot ptr s = Ok (Some (root_of s ptr), set_alloc a s).
Proof.
  intros Hn Hm. unfold AcpiPointer.GenerateRoot, AcpiPointer.field, root_of.
  run run_gets. destruct (le _ (ptr + AcpiPointer.revision) 1 =? 0); run run_gets;
    apply run_New; try done; intros a; by apply (run_new_root (set_alloc a s)).
Qed.

Lemma run_init_apic s root tables : noncritical s → all_mapped → root_holds s root tables →
  ∃ a, AcpiModule.init_apic root s = Ok (apic_of s tables, set_alloc a s).
Proof.
  intros Hn Hm Hr. unfold AcpiModule.init_apic, apic_of.
  run run_FindTable; [|done..|exact Hr].
  destruct (table_index s AcpiRoot.name_APIC tables) as [[i addr]|] eqn:E; cbn [index_result];
    [|exists s.(alloc); by destruct s].
  destruct (Z.leb_spec 0 (0 + Z.of_nat i)); [|lia].
  pose proof (run_GetTable_found s root _ tables i addr Hr E) as Hg. cbn [index_result] in Hg.
  run Hg. set (size := le (phys_byte s.(mem)) (addr +u 4) 4).
  destruct (run_New AcpiModule.sizeof_ApicTable (ApicTable.new addr) s
    (ApicTable.mk size (Window addr size)) Hn) as [a Ha].
  { intros a. unfold ApicTable.new, ApicTable.ReadLength.
    run run_PhysRead; [|done..]. by run run_open_window. }
  exists a. run Ha. by run_assert ltac:(by apply bool_decide_true).
Qed.

Lemma run_init_hpet s root tables : noncritical s → all_mapped → root_holds s root tables →
  ∃ a, AcpiModule.init_hpet root s = Ok (hpet_of s tables, set_alloc a s).
Proof.
  intros Hn Hm Hr. unfold AcpiModule.init_hpet, hpet_of.
  run run_FindTable; [|done..|exact Hr].
  destruct (table_index s AcpiRoot.name_HPET tables) as [[i addr]|] eqn:E; cbn [index_result];
    [|exists s.(alloc); by destruct s].
  destruct (Z.leb_spec 0 (0 + Z.of_nat i)); [|lia].
  destruct (heap_room (Z.of_nat AcpiModule.sizeof_HpetTable) s Hn) as (p & a & Ha).
  exists a. run Ha.
  pose proof (run_GetTable_found (set_alloc a s) root _ tables i addr Hr E) as Hg.
  cbn [index_result] in Hg. run Hg. by run run_PhysRead.
Qed.

(** The state initialization leaves. *)
Definition initialized (a : A) s : machine A :=
  set_alloc a (push_event (EvPrint newline) (push_event (EvPrint " [OK]")
    (push_event (EvPrint "Initializing ACPI subsystem...") s))).

Lemma run_AcpiModule_Initialize s p tables : noncritical s → all_mapped →
  List.find (valid_pointer (phys_byte s.(mem))) candidates = Some p →
  root_holds s (root_of s p) tables →
  ∃ a, AcpiModule.Initialize s
    = Ok (AcpiModule.mk (root_of s p) (apic_of s tables) (hpet_of s tables), initialized a s).
Proof.
  intros Hn Hm Hp Hr. unfold AcpiModule.Initialize. run run_modify. run run_Find.
  set (s1 := push_event _ s). change (mem s1) with (mem s). rewrite Hp.
  destruct (run_GenerateRoot s1 p Hn Hm) as [a1 Ha1]. run Ha1. cbn beta iota.
  destruct (run_init_apic (set_alloc a1 s1) (root_of s p) tables Hn Hm Hr) as [a2 Ha2]. run Ha2.
  destruct (run_init_hpet (set_alloc a2 s1) (root_of s p) tables Hn Hm Hr) as [a3 Ha3]. run Ha3.
  exists a3. done.
Qed.
End Init.

(** ** A concrete firmware *)

#[export] Instance list_memcmp : AnsaMemcmp := {
  Memcmp a b := if bool_decide (a = b) then 0 else 1 }.
#[export] Program Instance list_memcmp_laws : MemcmpLaws.
Next Obligation. intros a b _. cbn. case_bool_decide; done. Qed.

Module Firmware.

(** A root pointer to a table of two tables, the second one of the kind of
    [ApicTable.example_table]. *)
Definition pointer_bytes : list Z :=
  AcpiPointer.signature ++ [220; 0; 0; 0; 0; 0; 0; 0] ++ le_bytes 4 0x7fe0000.
Definition tables : list Z := [0x7fe0100; 0x7fe1234].

Definition memory : gmap Z Z :=
  store_bytes 0x80000 pointer_bytes
    (store_bytes 0x7fe0004 (le_bytes 4 44)
      (store_bytes 0x7fe0024 (tables ≫= le_bytes 4)
        (store_bytes 0x7fe0100 (le_bytes 4 0x50434146)
          (store_bytes 0x7fe1234 (le_bytes 4 AcpiRoot.name_APIC)
            ApicTable.example_memory)))).

Definition boot : machine unit := set_mem memory (idle_machine tt).

Lemma candidates_head : ∃ l, candidates = 0x80000 :: l.
Proof. unfold candidates. rewrite seqZ_cons by lia. by eexists. Qed.

Lemma find_head {E} (P : E → bool) x l : P x = true → List.find P (x :: l) = Some x.
Proof. intros Hx. cbn. by rewrite Hx. Qed.

Lemma boot_pointer : List.find (valid_pointer (phys_byte boot.(mem))) candidates = Some 0x80000.
Proof. destruct candidates_head as [l ->]. apply find_head. by vm_compute. Qed.

Lemma boot_root : root_of boot 0x80000
  = AcpiRoot.mk AcpiRoot.Rsdt 44 (Window 0x7fe0000 44).
Proof. by vm_compute. Qed.

Lemma boot_tables : root_holds boot (root_of boot 0x80000) tables.
Proof.
  rewrite boot_root. split_and!; [done..| |apply holds_b_true; by vm_compute].
  repeat (apply Forall_cons; split); [by vm_compute..|by apply Forall_nil].
Qed.

Lemma boot_apic : apic_of boot tables = Some ApicTable.example_table.
Proof. by vm_compute. Qed.
End Firmware.

(** ** Properties *)

(** C22. AcpiModule::Initialize takes the first root pointer of the low
    memory whose signature and checksum are right, and stops when there is
    none; it then opens the root table of the pointer's revision, and keeps
    the first APIC table and the first HPET that the root table lists, or
    nothing where it lists none. *)
Theorem AcpiModule_Initialize_correct {A} `{WindowMap A, VirtualAllocator A, AnsaMemcmp}
  `{!RoomyHeap A, !MemcmpLaws} (s : machine A)
  (Hn : noncritical s) (Hm : all_mapped (A:=A)) :
  match List.find (valid_pointer (phys_byte s.(mem))) candidates with
  | None => AcpiModule.Initialize s = Stop (AssertFail "pointer != NULL")
  | Some p => ∀ tables, root_holds s (root_of s p) tables →
      ∃ a, AcpiModule.Initialize s
        = Ok (AcpiModule.mk (root_of s p) (apic_of s tables) (hpet_of s tables),
              initialized a s)
  end.
Proof.
  destruct (List.find _ candidates) as [p|] eqn:Hp.
  - intros tables Hr. by apply run_AcpiModule_Initialize.
  - unfold AcpiModule.Initialize. run run_modify. run run_Find.
    change (mem (push_event _ s)) with (mem s). by rewrite Hp.
Qed.

Lemma AcpiModule_Initialize_correct_witness :
  ∃ a, AcpiModule.Initialize Firmware.boot
    = Ok (AcpiModule.mk (AcpiRoot.mk AcpiRoot.Rsdt 44 (Window 0x7fe0000 44))
            (Some ApicTable.example_table) None, initialized a Firmware.boot).
Proof.
  pose proof (AcpiModule_Initialize_correct Firmware.boot (or_intror eq_refl)
    (λ _ _ _, eq_refl)) as Hi.
  rewrite Firmware.boot_pointer in Hi. destruct (Hi _ Firmware.boot_tables) as [a Ha].
  exists a. rewrite Ha, Firmware.boot_root, Firmware.boot_apic. reflexivity.
Defined.
