(* ===== verification/Apic.v ===== *)
(** * Interrupt controllers

    The I/O APIC (src/arch/x64/interrupts/apic/ioapic.cpp, ioapic-module.cpp):
    an index register and a data register in front of the redirection
    entries.  The local APIC (lapic.cpp) in its two forms, memory mapped
    (xapic.cpp) and through model-specific registers (x2apic.cpp), and the
    module that picks one (lapic-module.cpp).  A register store is an event of
    the machine; what the stores amount to is read off the trace, as the
    devices are documented. *)

From stdpp Require Import base numbers list gmap strings.
From Stdlib Require Import ZArith Lia.
From S2P Require Import Prelude Machine Concrete Devices Acpi AcpiRoot.
#[local] Open Scope Z_scope.

(** ** The I/O APIC *)

Module IOApic.

(** [Entry], a redirection entry, and its 64 bits. *)
Record Entry : Type := mkEntry {
  vector : Z; delmode : Z; destmode : Z; delstatus : Z; intpol : Z;
  remirr : Z; triggermode : Z; imask : Z; reserved : Z; destfield : Z;
}.

(** The bits of the entry, in the order of the fields. *)
Definition entry_bits (e : Entry) : Z :=
  e.(vector) .| (e.(delmode) .<< 8) .| (e.(destmode) .<< 11) .| (e.(delstatus) .<< 12)
  .| (e.(intpol) .<< 13) .| (e.(remirr) .<< 14) .| (e.(triggermode) .<< 15)
  .| (e.(imask) .<< 16) .| (e.(reserved) .<< 17) .| (e.(destfield) .<< 56).

(** The two words behind [(const uint32_t * )&entry]. *)
Definition word0 (e : Entry) : Z := u32 (entry_bits e).
Definition word1 (e : Entry) : Z := u32 (entry_bits e .>> 32).

Definition RegVersion : Z := 1.

(** The copy of the table's entry keeps the identifier, the address and the
    first interrupt. *)
Record t : Type := mk {
  table : ApicTable.t;
  identifier : Z; baseAddr : Z; interruptBase : Z;
  map : window;
}.

Section Ops.
Context {A : Type} `{WindowMap A, AnsaLock A, Device}.
Implicit Types (io : t).

Definition new (table : ApicTable.t) (info : Z) : M (machine A) t :=
  identifier ← ApicTable.field table (info + ApicTable.IOApic_identifier) 1;
  baseAddr ← ApicTable.field table (info + ApicTable.IOApic_baseAddr) 4;
  interruptBase ← ApicTable.field table (info + ApicTable.IOApic_interruptBase) 4;
  w ← open_window baseAddr 20;
  mret (mk table identifier baseAddr interruptBase w).

Definition WriteReg io (reg val : Z) : M (machine A) unit :=
  ScopedCritical (ScopedCriticalLock IOApicLock (
    _ ← mmio_write io.(map) 0 4 reg;
    mmio_write io.(map) 16 4 val)).

Definition ReadReg io (reg : Z) : M (machine A) Z :=
  ScopedCritical (ScopedCriticalLock IOApicLock (
    _ ← mmio_write io.(map) 0 4 reg;
    mmio_read io.(map) 16 4)).

Definition GetVersion io : M (machine A) Z :=
  v ← ReadReg io RegVersion; mret (v .& 0xff).

Definition GetPinCount io : M (machine A) Z :=
  v ← ReadReg io RegVersion; mret (u32 (1 + ((v .>> 0x10) .& 0xff))).

Definition GetInterruptBase io : Z := io.(interruptBase).

Definition SetEntry io (idx : Z) (entry : Entry) : M (machine A) unit :=
  ScopedCritical (ScopedCriticalLock IOApicTableLock (
    _ ← WriteReg io (u8 (0x10 + idx * 2)) 0x10000; (* mask the entry *)
    _ ← WriteReg io (u8 (0x11 + idx * 2)) (word1 entry);
    WriteReg io (u8 (0x10 + idx * 2)) (word0 entry))).

(** The entry of [MapIrq]: zeroed, then the vector; the override sets the
    polarity and the trigger mode. *)
Definition zero_entry : Entry := mkEntry 0 0 0 0 0 0 0 0 0 0.
Definition set_vector (v : Z) (e : Entry) : Entry :=
  mkEntry v e.(delmode) e.(destmode) e.(delstatus) e.(intpol) e.(remirr)
    e.(triggermode) e.(imask) e.(reserved) e.(destfield).
Definition set_intpol (v : Z) (e : Entry) : Entry :=
  mkEntry e.(vector) e.(delmode) e.(destmode) e.(delstatus) v e.(remirr)
    e.(triggermode) e.(imask) e.(reserved) e.(destfield).
Definition set_triggermode (v : Z) (e : Entry) : Entry :=
  mkEntry e.(vector) e.(delmode) e.(destmode) e.(delstatus) e.(intpol) e.(remirr)
    v e.(imask) e.(reserved) e.(destfield).

Definition MapIrq io (irq vector : Z) : M (machine A) unit :=
  let entry := set_vector vector zero_entry in
  iso ← ApicTable.LookupIso io.(table) irq;
  match iso with
  | Some iso =>
      flags ← ApicTable.field io.(table) (iso + ApicTable.Iso_flags) 2;
      let entry := if truthy (flags .& 0x3) then set_intpol 1 entry else entry in
      let entry := if truthy ((flags .>> 2) .& 0x3) then set_triggermode 1 entry else entry in
      interrupt ← ApicTable.field io.(table) (iso + ApicTable.Iso_interrupt) 4;
      SetEntry io (u8 interrupt) entry
  | None => SetEntry io irq entry
  end.

Definition MaskPin io (irq : Z) : M (machine A) unit :=
  ScopedCritical (ScopedCriticalLock IOApicTableLock (
    WriteReg io (u8 (0x10 + irq * 2)) 0x10000)).

Definition MaskIrq io (irq : Z) : M (machine A) unit :=
  iso ← ApicTable.LookupIso io.(table) irq;
  match iso with
  | Some iso =>
      interrupt ← ApicTable.field io.(table) (iso + ApicTable.Iso_interrupt) 4;
      MaskPin io (u8 interrupt)
  | None => MaskPin io irq
  end.
End Ops.

(** *** What the stores amount to

    The device has an index register at the base and a data register 16 bytes
    above it: a store to the second one goes to the register that the last
    store to the first one selected. *)

Fixpoint index_of (base : Z) (tr : list event) : Z :=
  match tr with
  | [] => 0
  | EvMmio a _ v :: tr' => if a =? base then v mod 2 ^ 8 else index_of base tr'
  | _ :: tr' => index_of base tr'
  end.

(** The last value stored in register [r]. *)
Fixpoint reg_of (base : Z) (tr : list event) (r : Z) : option Z :=
  match tr with
  | [] => None
  | EvMmio a _ v :: tr' =>
      if (a =? base + 16) && (index_of base tr' =? r) then Some v else reg_of base tr' r
  | _ :: tr' => reg_of base tr' r
  end.

(** The two words of the entry of a pin. *)
Definition entry_of (base : Z) (tr : list event) (pin : Z) : option Z * option Z :=
  (reg_of base tr (0x10 + 2 * pin), reg_of base tr (0x11 + 2 * pin)).

Definition masked : Z := 0x10000.

Definition reg_write (base reg val : Z) (tr : list event) : list event :=
  EvMmio (base + 16) 4 val :: EvMmio (base + 0) 4 reg :: tr.

Lemma reg_of_write base reg val tr r :
  0 ≤ reg < 2 ^ 8 →
  reg_of base (reg_write base reg val tr) r
  = if reg =? r then Some val else reg_of base tr r.
Proof.
  intros Hr. unfold reg_write. cbn [reg_of index_of]. rewrite Z.add_0_r, Z.eqb_refl.
  rewrite Z.eqb_refl, Z.mod_small by lia. cbn [andb].
  destruct (Z.eqb_spec reg r); [done|].
  destruct (Z.eqb_spec base (base + 16)); [lia|]. done.
Qed.

(** Half a write selects a register and stores nothing. *)
Lemma reg_of_select base reg tr r :
  reg_of base (EvMmio (base + 0) 4 reg :: tr) r = reg_of base tr r.
Proof.
  cbn [reg_of]. destruct (Z.eqb_spec (base + 0) (base + 16)); [lia|]. done.
Qed.

Section Facts.
Context {A : Type} `{WindowMap A, LockLaws A, Device}.
Implicit Types (s : machine A) (io : t).

(** The registers are within the window of the object. *)
Definition mapped io : Prop := io.(map) = Window io.(baseAddr) 20.

Lemma run_WriteReg io reg val s :
  mapped io → IOApicLock ∉ s.(held) →
  WriteReg io reg val s = Ok (tt, set_trace (reg_write io.(baseAddr) reg val s.(trace)) s).
Proof.
  intros Hm Hl. apply run_locked_trace; [done|]. intros s' _ _ Ht _. rewrite Hm.
  run run_mmio_write; [|cbn; lia..]. rewrite run_mmio_write by (cbn; lia).
  cbn [wbase]. unfold reg_write. by rewrite <-Ht.
Qed.

Lemma run_MaskPin io pin s :
  mapped io → IOApicLock ∉ s.(held) → IOApicTableLock ∉ s.(held) → 0 ≤ pin < 120 →
  MaskPin io pin s
  = Ok (tt, set_trace (reg_write io.(baseAddr) (0x10 + 2 * pin) masked s.(trace)) s).
Proof.
  intros Hm Hl1 Hl2 Hp. apply run_locked_trace; [done|]. intros s' _ Hh Ht _.
  rewrite run_WriteReg; [|done|rewrite Hh; set_solver].
  rewrite Ht. unfold u8. rewrite Z.mod_small by lia. by rewrite (Z.mul_comm pin).
Qed.

(** The trace after an entry is set. *)
Definition entry_write (base pin : Z) (e : Entry) (tr : list event) : list event :=
  reg_write base (0x10 + 2 * pin) (word0 e)
    (reg_write base (0x11 + 2 * pin) (word1 e)
      (reg_write base (0x10 + 2 * pin) masked tr)).

Lemma run_SetEntry io pin e s :
  mapped io → IOApicLock ∉ s.(held) → IOApicTableLock ∉ s.(held) → 0 ≤ pin < 120 →
  SetEntry io pin e s = Ok (tt, set_trace (entry_write io.(baseAddr) pin e s.(trace)) s).
Proof.
  intros Hm Hl1 Hl2 Hp. apply run_locked_trace; [done|]. intros s' _ Hh Ht _.
  assert (IOApicLock ∉ s'.(held)) by (rewrite Hh; set_solver).
  unfold u8. rewrite !Z.mod_small, (Z.mul_comm pin) by lia.
  run run_WriteReg; [|done..]. run run_WriteReg; [|done..].
  rewrite run_WriteReg by done. cbn [trace set_trace]. by rewrite Ht.
Qed.

(** *** Routing an interrupt line *)

(** The pin of a line, and whether its entry is set active low and level
    triggered, according to the table. *)
Definition route (es : list ApicTable.entry) (irq : Z) : Z * bool * bool :=
  match ApicTable.find_entry (ApicTable.is_iso irq) es with
  | Some (_, ApicTable.Iso _ _ interrupt flags) =>
      (u8 interrupt, truthy (flags .& 0x3), truthy ((flags .>> 2) .& 0x3))
  | _ => (irq, false, false)
  end.

Definition low_word (vector : Z) (low level : bool) : Z :=
  vector + Z.b2z low * 2 ^ 13 + Z.b2z level * 2 ^ 15.

Definition routed (vector : Z) (low level : bool) : Entry :=
  let e := set_vector vector zero_entry in
  let e := if low then set_intpol 1 e else e in
  if level then set_triggermode 1 e else e.

Lemma routed_words vector low level : 0 ≤ vector < 2 ^ 8 →
  word0 (routed vector low level) = low_word vector low level ∧
  word1 (routed vector low level) = 0.
Proof.
  intros Hv. set (f v := (word0 (routed v low level) =? low_word v low level)
    && (word1 (routed v low level) =? 0)).
  assert (forallb f (seqZ 0 256) = true) as Hf by (destruct low, level; by vm_compute).
  rewrite forallb_forall in Hf. specialize (Hf vector).
  rewrite <-list_elem_of_In, elem_of_seqZ in Hf. specialize (Hf ltac:(lia)).
  apply andb_true_iff in Hf as [E1%Z.eqb_eq E2%Z.eqb_eq]. done.
Qed.

Lemma run_MapIrq io es irq vector s :
  let '(pin, low, level) := route es irq in
  ApicTable.table_holds s io.(table) es → mapped io →
  IOApicLock ∉ s.(held) → IOApicTableLock ∉ s.(held) → 0 ≤ pin < 120 →
  MapIrq io irq vector s
  = Ok (tt, set_trace (entry_write io.(baseAddr) pin (routed vector low level) s.(trace)) s).
Proof.
  unfold route. destruct (ApicTable.find_entry (ApicTable.is_iso irq) es)
    as [[off e]|] eqn:E.
  2:{ intros Ht Hm Hl1 Hl2 Hp. unfold MapIrq. run ApicTable.run_LookupIso; [|exact Ht].
      rewrite E. cbn [fmap option_fmap option_map]. by apply run_SetEntry. }
  destruct e as [| |bus source interrupt flags| |]; intros Ht Hm Hl1 Hl2 Hp;
    destruct (ApicTable.found_entry_at s io.(table) es _ off _ Ht E) as [He Hi]; try done.
  unfold MapIrq. run ApicTable.run_LookupIso; [|exact Ht]. rewrite E.
  cbn [fmap option_fmap option_map fst].
  run ApicTable.run_iso_flags; [|exact He]. run ApicTable.run_iso_interrupt; [|exact He].
  by apply run_SetEntry.
Qed.
End Facts.

(** *** The entry while it is set *)

Section Entry.
Context (base pin : Z) (e : Entry) (tr : list event).
Hypothesis pin_range : 0 ≤ pin < 120.

Lemma entry_of_write :
  entry_of base (entry_write base pin e tr) pin = (Some (word0 e), Some (word1 e)).
Proof.
  unfold entry_of, entry_write. rewrite !reg_of_write by lia.
  repeat (case_test; try lia); done.
Qed.

Lemma entry_write_other r : r ≠ 0x10 + 2 * pin → r ≠ 0x11 + 2 * pin →
  reg_of base (entry_write base pin e tr) r = reg_of base tr r.
Proof.
  intros. unfold entry_write. rewrite !reg_of_write by lia. by repeat (case_test; try lia).
Qed.

(** Between two stores the entry is the old one, the new one, or masked. *)
Lemma entry_write_atomic tr' :
  tr `suffix_of` tr' → tr' `suffix_of` entry_write base pin e tr →
  entry_of base tr' pin = entry_of base tr pin ∨
  entry_of base tr' pin = (Some (word0 e), Some (word1 e)) ∨
  (entry_of base tr' pin).1 = Some masked.
Proof.
  intros Hs. unfold entry_write. set (m := reg_write base (0x10 + 2 * pin) masked tr).
  set (h := reg_write base (0x11 + 2 * pin) (word1 e) m).
  intros [->|Ht]%suffix_cons_cases; [right; left; apply entry_of_write|].
  assert (reg_of base m (0x10 + 2 * pin) = Some masked) as Hm.
  { unfold m. rewrite reg_of_write by lia. by rewrite Z.eqb_refl. }
  assert (reg_of base h (0x10 + 2 * pin) = Some masked) as Hh.
  { unfold h. rewrite reg_of_write by lia. by case_test; [lia|]. }
  apply suffix_cons_cases in Ht as [->|Ht].
  { right. right. unfold entry_of. by rewrite reg_of_select. }
  apply suffix_cons_cases in Ht as [->|Ht]; [by right; right|].
  apply suffix_cons_cases in Ht as [->|Ht].
  { right. right. unfold entry_of. by rewrite reg_of_select. }
  apply suffix_cons_cases in Ht as [->|Ht]; [by right; right|].
  left. apply suffix_cons_cases in Ht as [->|Ht].
  { unfold entry_of. by rewrite !reg_of_select. }
  by assert (tr' = tr) as -> by (by apply (anti_symm suffix)).
Qed.
End Entry.

End IOApic.

(** The module, whose state is the object it made. *)
Module IOApicModule.
Section Ops.
Context {A : Type} `{WindowMap A, AnsaLock A, Device, VirtualAllocator A}.
(** [sizeof(IOApic)]; the size of its locks is not known. *)
Context (sizeof_IOApic : Z).

(** [for (i = 0; i < GetPinCount(); i++) MaskPin(i)]: the count is read again
    in every round. *)
Fixpoint mask_loop (fuel : nat) (io : IOApic.t) (i : Z) : M (machine A) unit :=
  match fuel with
  | O => stop OutOfFuel
  | S fuel' =>
      pins ← IOApic.GetPinCount io;
      if i <? pins then
        _ ← IOApic.MaskPin io (u8 i); mask_loop fuel' io (u32 (i + 1))
      else mret tt
  end.

Definition Initialize (acpi : AcpiModule.t) : M (machine A) IOApic.t :=
  _ ← put_text "Initializing I/O APIC...";
  _ ← put_endl;
  match acpi.(AcpiModule.apicTable) with
  | None => panic "IOApicModule::Initialize() - no APIC table in ACPI"
  | Some table =>
      info ← ApicTable.LookupIOApic table 0;
      match info with
      | None => panic "IOApicModule::Initialize() - no base I/O APIC"
      | Some info =>
          baseIOApic ← New sizeof_IOApic (IOApic.new table info);
          match baseIOApic with
          | None => stop (AssertFail "baseIOApic != NULL")
          | Some io =>
              _ ← mask_loop 257 io 0;
              _ ← SetCritical true;
              _ ← OutB 0x22 0x70;
              _ ← OutB 0x23 0x01;
              _ ← SetCritical false;
              _ ← put_text "Initialized I/O APIC; version=";
              version ← IOApic.GetVersion io;
              _ ← put_number version;
              _ ← put_endl;
              mret io
          end
      end
  end.
End Ops.
End IOApicModule.

(** ** The local APIC *)

Module Lapic.

Definition PreferredDivide : Z := 0x3.
Definition RegApicId : Z := 0x2.
Definition RegTaskPriority : Z := 0x8.
Definition RegEoi : Z := 0xb.
Definition RegSpurious : Z := 0xf.
Definition RegEsr : Z := 0x28.
Definition RegIcr : Z := 0x30.
Definition RegLvtTimer : Z := 0x32.
Definition RegLvtPerf : Z := 0x34.
Definition RegLvtLint0 : Z := 0x35.
Definition RegLvtLint1 : Z := 0x36.
Definition RegLvtError : Z := 0x37.
Definition RegTimerInitCount : Z := 0x38.
Definition RegTimerCurrCount : Z := 0x39.
Definition RegTimerDiv : Z := 0x3e.

(** The virtual methods each class implements. *)
Record Lapic {A : Type} : Type := mk {
  Enable : M (machine A) unit;
  GetId : M (machine A) Z;
  SendIpi : Z → Z → Z → Z → Z → M (machine A) unit; (* cpu, vector, mode, level, trigger *)
  ReadReg : Z → M (machine A) Z;
  WriteReg : Z → Z → M (machine A) unit;
}.
Arguments Lapic : clear implicits.

(** The methods of the base class. *)
Section Base.
Context {A : Type} (l : Lapic A).

Definition SetDefaults : M (machine A) unit :=
  _ ← AssertCritical;
  _ ← l.(WriteReg) RegTaskPriority 0x0;
  _ ← l.(WriteReg) RegLvtTimer 0x10000;
  _ ← l.(WriteReg) RegLvtPerf 0x10000;
  _ ← l.(WriteReg) RegLvtLint0 0x8700;
  _ ← l.(WriteReg) RegLvtLint1 0x400;
  _ ← l.(WriteReg) RegLvtError 0x10000;
  _ ← l.(WriteReg) RegSpurious 0x1ff;
  _ ← l.(WriteReg) RegLvtLint0 0x8700;
  _ ← l.(WriteReg) RegLvtLint1 0x400;
  l.(WriteReg) RegTimerDiv PreferredDivide.

Definition ClearErrors : M (machine A) unit :=
  _ ← AssertCritical; l.(WriteReg) RegEsr 0.

Definition SendEoi : M (machine A) unit :=
  _ ← AssertCritical; l.(WriteReg) RegEoi 0.

Definition SetPriority (vector : Z) : M (machine A) unit :=
  _ ← AssertCritical; l.(WriteReg) RegTaskPriority vector.

(** A bit of one of the 256-bit registers at 0x20 and 0x10. *)
Definition IsRequested (vector : Z) : M (machine A) bool :=
  _ ← AssertCritical;
  let regIndex := 0x20 + (vector .>> 5) in
  let mask := u32 (1 .<< (vector .& 0x1f)) in
  r ← l.(ReadReg) regIndex; mret (truthy (r .& mask)).

Definition IsInService (vector : Z) : M (machine A) bool :=
  _ ← AssertCritical;
  let regIndex := 0x10 + (vector .>> 5) in
  let mask := u32 (1 .<< (vector .& 0x1f)) in
  r ← l.(ReadReg) regIndex; mret (truthy (r .& mask)).

Definition SetTimeout (vector ticks : Z) : M (machine A) unit :=
  let timerField := vector in
  _ ← l.(WriteReg) RegLvtTimer timerField;
  l.(WriteReg) RegTimerInitCount ticks.

Definition ClearTimeout : M (machine A) unit := l.(WriteReg) RegLvtTimer 0x10000.

Definition IsTimerRunning : M (machine A) bool :=
  lvt ← l.(ReadReg) RegLvtTimer;
  if truthy (lvt .& 0x10000) then mret false
  else c ← l.(ReadReg) RegTimerCurrCount; mret (truthy c).
End Base.

(** The interrupt command: the fields of [SendIpi] below the destination. *)
Definition icr_command (vector mode level trigger : Z) : Z :=
  (vector .| u64 (mode .<< 8)) .| (u64 (level .<< 0xe) .| u64 (trigger .<< 0xf)).

End Lapic.

Module X2Apic.
Section Ops.
Context {A : Type}.

Definition ReadReg (reg : Z) : M (machine A) Z :=
  _ ← AssertCritical; ReadMsr (reg + 0x800).

Definition WriteReg (reg value : Z) : M (machine A) unit :=
  _ ← AssertCritical; WriteMsr (reg + 0x800) value.

Definition Enable : M (machine A) unit :=
  _ ← AssertCritical;
  v ← ReadMsr 0x1b;
  let flags := v .& 0xf00 in
  let flags := flags .| (3 .<< 10) in
  WriteMsr 0x1b flags.

Definition GetId : M (machine A) Z :=
  _ ← AssertCritical; v ← ReadReg Lapic.RegApicId; mret (u32 v).

Definition SendIpi (cpu vector mode level trigger : Z) : M (machine A) unit :=
  _ ← AssertCritical;
  let value := Lapic.icr_command vector mode level trigger .| u64 (cpu .<< 0x20) in
  WriteReg Lapic.RegIcr value.

Definition lapic : Lapic.Lapic A := Lapic.mk A Enable GetId SendIpi ReadReg WriteReg.
End Ops.
End X2Apic.

Module XApic.

Record t : Type := mk { map : window; base : Z }.

Section Ops.
Context {A : Type} `{WindowMap A, Device}.

Definition new (base : Z) : M (machine A) t :=
  w ← open_window base 0x1000; mret (mk w base).

(** [regs[reg * 4]] is the word [16 * reg] bytes into the window. *)
Definition ReadReg (x : t) (reg : Z) : M (machine A) Z :=
  _ ← AssertCritical;
  if negb (reg =? Lapic.RegIcr) then mmio_read x.(map) (reg * 4 * 4) 4
  else
    lower ← mmio_read x.(map) (reg * 4 * 4) 4;
    higher ← mmio_read x.(map) ((reg + 1) * 4 * 4) 4;
    mret (lower .| u64 (higher .<< 0x20)).

Definition WriteReg (x : t) (reg value : Z) : M (machine A) unit :=
  _ ← AssertCritical;
  if negb (reg =? Lapic.RegIcr) then
    _ ← assert (negb (truthy (value .& 0xFFFFFFFF00000000))) "!(value & 0xFFFFFFFF00000000UL)";
    mmio_write x.(map) (reg * 4 * 4) 4 (u32 value)
  else
    _ ← mmio_write x.(map) ((reg + 1) * 4 * 4) 4 (u32 (value .>> 0x20));
    mmio_write x.(map) (reg * 4 * 4) 4 (u32 (value .& 0xFFFFFFFF)).

Definition Enable (x : t) : M (machine A) unit :=
  _ ← AssertCritical;
  v ← ReadMsr 0x1b;
  let flags := v .& 0xf00 in
  let flags := flags .| (1 .<< 11) in
  WriteMsr 0x1b (x.(base) .| flags).

Definition GetId (x : t) : M (machine A) Z :=
  _ ← AssertCritical; v ← ReadReg x Lapic.RegApicId; mret (u32 (v .>> 0x18)).

Definition SendIpi (x : t) (cpu vector mode level trigger : Z) : M (machine A) unit :=
  _ ← AssertCritical;
  let value := Lapic.icr_command vector mode level trigger .| u64 (cpu .<< 0x38) in
  WriteReg x Lapic.RegIcr value.

Definition lapic (x : t) : Lapic.Lapic A :=
  Lapic.mk A (Enable x) (GetId x) (SendIpi x) (ReadReg x) (WriteReg x).
End Ops.
End XApic.

(** [cpuid]: what the processor answers for a leaf, as EBX, EDX and ECX. *)
Class Cpuid := { cpuid : Z → Z * Z * Z }.

Definition CpuID {A} `{Cpuid} (eax : Z) : M (machine A) (Z * Z * Z) :=
  _ ← AssertCritical;
  let '(ebx, edx, ecx) := cpuid eax in
  mret (u32 ebx, u32 edx, u32 ecx).

Lemma run_CpuID {A} `{Cpuid} eax (s : machine A) : critical s →
  CpuID eax s = Ok ((u32 (cpuid eax).1.1, u32 (cpuid eax).1.2, u32 (cpuid eax).2), s).
Proof.
  intros Hc. unfold CpuID. run run_AssertCritical; [|done].
  by destruct (cpuid eax) as [[ebx edx] ecx].
Qed.

Module LapicModule.
Section Ops.
Context {A : Type} `{WindowMap A, Device, Cpuid}.

(** The test of [GetLapic], which passes its variable in the place of EDX. *)
Definition IsX2 : M (machine A) bool :=
  _ ← AssertCritical;
  '(_, edx, _) ← CpuID 1;
  let ecx := edx in
  mret (truthy (ecx .& (1 .<< 21))).

Definition object (xapic : XApic.t) (x2 : bool) : Lapic.Lapic A :=
  if x2 then X2Apic.lapic else XApic.lapic xapic.

Definition GetLapic (xapic : XApic.t) : M (machine A) (Lapic.Lapic A) :=
  x2 ← IsX2; mret (object xapic x2).

Definition has_x2 : bool := Z.testbit (u32 (cpuid 1).1.2) 21.

Lemma run_IsX2 (s : machine A) : critical s → IsX2 s = Ok (has_x2, s).
Proof.
  intros Hc. unfold IsX2. run run_AssertCritical; [|done]. run run_CpuID; [|done].
  cbn beta iota. by rewrite truthy_bit by lia.
Qed.

Lemma run_GetLapic xapic (s : machine A) : critical s →
  GetLapic xapic s = Ok (object xapic has_x2, s).
Proof. intros Hc. unfold GetLapic. by run run_IsX2. Qed.

Definition Initialize (acpi : AcpiModule.t) : M (machine A) XApic.t :=
  _ ← put_text "Initializing LAPIC module...";
  match acpi.(AcpiModule.apicTable) with
  | None => stop (AssertFail "table != NULL")
  | Some table =>
      lapicAddr ← ApicTable.GetHeader_lapicAddr table;
      xapic ← XApic.new lapicAddr;
      _ ← SetCritical true;
      lapic ← GetLapic xapic;
      _ ← lapic.(Lapic.Enable);
      lapic ← GetLapic xapic;
      _ ← Lapic.SetDefaults lapic;
      _ ← SetCritical false;
      _ ← put_text " [OK]";
      _ ← put_endl;
      mret xapic
  end.
End Ops.
End LapicModule.

(** ** What an interrupt command sends *)

(** A command as the device decodes it. *)
Record ipi : Type := Ipi {
  ipi_dest : Z; ipi_vector : Z; ipi_mode : Z; ipi_level : Z; ipi_trigger : Z }.

Definition decode_ipi (dest low : Z) : ipi :=
  Ipi dest (low mod 2 ^ 8) (low / 2 ^ 8 mod 2 ^ 3) (low / 2 ^ 14 mod 2) (low / 2 ^ 15 mod 2).

(** The high word of the memory-mapped command register, whose top byte is the
    destination. *)
Fixpoint icr_high (base : Z) (tr : list event) : Z :=
  match tr with
  | [] => 0
  | EvMmio a _ v :: tr' => if a =? base + 0x310 then v else icr_high base tr'
  | _ :: tr' => icr_high base tr'
  end.

(** The commands that were sent, newest first: a store to the low word sends
    to the destination in the high word; a store to MSR 0x830 sends to the
    destination in its own high half. *)
Fixpoint sent (base : Z) (tr : list event) : list ipi :=
  match tr with
  | [] => []
  | EvMmio a _ v :: tr' =>
      if a =? base + 0x300
      then decode_ipi (icr_high base tr' / 2 ^ 24) v :: sent base tr'
      else sent base tr'
  | EvMsr cell v :: tr' =>
      if cell =? 0x830 then decode_ipi (v / 2 ^ 32) (v mod 2 ^ 32) :: sent base tr'
      else sent base tr'
  | _ :: tr' => sent base tr'
  end.

Definition ipi_ok (limit cpu vector mode level trigger : Z) : Prop :=
  0 ≤ cpu < limit ∧ 0 ≤ vector < 2 ^ 8 ∧ 0 ≤ mode < 2 ^ 3 ∧ 0 ≤ level < 2 ∧ 0 ≤ trigger < 2.

Lemma icr_command_sum limit cpu vector mode level trigger :
  ipi_ok limit cpu vector mode level trigger →
  Lapic.icr_command vector mode level trigger
  = vector + mode * 2 ^ 8 + level * 2 ^ 14 + trigger * 2 ^ 15.
Proof.
  intros (_ & Hv & Hm & Hl & Ht). unfold Lapic.icr_command.
  rewrite (u64_shiftl _ _ 3), (u64_shiftl _ 14 1), (u64_shiftl _ 15 1) by lia.
  rewrite Z.lor_assoc.
  rewrite (lor_shiftl_add vector mode) by lia.
  rewrite (lor_shiftl_add _ level 14), (lor_shiftl_add _ trigger 15) by lia. done.
Qed.

Lemma decode_command limit cpu vector mode level trigger :
  ipi_ok limit cpu vector mode level trigger →
  decode_ipi cpu (vector + mode * 2 ^ 8 + level * 2 ^ 14 + trigger * 2 ^ 15)
  = Ipi cpu vector mode level trigger.
Proof. intros (_ & Hv & Hm & Hl & Ht). unfold decode_ipi. f_equal; zlia. Qed.

Section SendIpi.
Context {A : Type} `{WindowMap A, Device, Cpuid}.
Implicit Types (s : machine A).

Lemma run_XApic_SendIpi b cpu vector mode level trigger s :
  critical s → ipi_ok (2 ^ 8) cpu vector mode level trigger →
  ∃ tr, XApic.SendIpi (XApic.mk (Window b 0x1000) b) cpu vector mode level trigger s
    = Ok (tt, set_trace tr s) ∧
    sent b tr = Ipi cpu vector mode level trigger :: sent b s.(trace).
Proof.
  intros Hc Hi. unfold XApic.SendIpi, XApic.WriteReg.
  do 2 (run run_AssertCritical; [|done]). cbn [negb XApic.map].
  rewrite (icr_command_sum _ _ _ _ _ _ Hi).
  pose proof Hi as (Hcpu & Hv & Hm & Hl & Ht).
  rewrite (u64_shiftl _ _ 8), lor_shiftl_add by lia.
  set (low := vector + mode * 2 ^ 8 + level * 2 ^ 14 + trigger * 2 ^ 15).
  assert (0 ≤ low < 2 ^ 32) by (unfold low; lia).
  change (negb (Lapic.RegIcr =? Lapic.RegIcr)) with false. cbn iota.
  run run_mmio_write; [|by vm_compute..].
  rewrite run_mmio_write by (by vm_compute).
  eexists. split; [reflexivity|]. cbn [sent trace push_event wbase icr_high].
  change (Lapic.RegIcr * 4 * 4) with 0x300. change ((Lapic.RegIcr + 1) * 4 * 4) with 0x310.
  rewrite !Z.eqb_refl. destruct (Z.eqb_spec (b + 0x310) (b + 0x300)); [lia|]. f_equal.
  change 0xFFFFFFFF with (Z.ones 32).
  rewrite Z.land_ones, Z.shiftr_div_pow2 by lia. unfold u32. rewrite Z.mod_mod by lia.
  replace ((low + cpu * 2 ^ 56) mod 2 ^ 32) with low by zlia.
  replace ((low + cpu * 2 ^ 56) / 2 ^ 32 mod 2 ^ 32 / 2 ^ 24) with cpu by zlia.
  by apply (decode_command _ _ _ _ _ _ Hi).
Qed.

Lemma run_X2Apic_SendIpi b cpu vector mode level trigger s :
  critical s → ipi_ok (2 ^ 32) cpu vector mode level trigger →
  ∃ ms tr, X2Apic.SendIpi cpu vector mode level trigger s = Ok (tt, set_msrs ms (set_trace tr s)) ∧
    ms !! 0xc0000101 = s.(msrs) !! 0xc0000101 ∧
    sent b tr = Ipi cpu vector mode level trigger :: sent b s.(trace).
Proof.
  intros Hc Hi. unfold X2Apic.SendIpi, X2Apic.WriteReg, WriteMsr.
  do 3 (run run_AssertCritical; [|done]). run run_modify. rewrite run_modify.
  eexists _, _. split; [reflexivity|]. split; [by rewrite lookup_insert_ne|]. cbn [sent].
  change (Lapic.RegIcr + 2048 =? 2096) with true. cbn iota. f_equal.
  rewrite (icr_command_sum _ _ _ _ _ _ Hi).
  pose proof Hi as (Hcpu & Hv & Hm & Hl & Ht).
  rewrite (u64_shiftl _ _ 32), lor_shiftl_add by lia.
  set (low := vector + mode * 2 ^ 8 + level * 2 ^ 14 + trigger * 2 ^ 15).
  assert (0 ≤ low < 2 ^ 32) by (unfold low; lia).
  replace ((low + cpu * 2 ^ 32) mod 2 ^ 32) with low by zlia.
  replace ((low + cpu * 2 ^ 32) / 2 ^ 32) with cpu by zlia.
  by apply (decode_command _ _ _ _ _ _ Hi).
Qed.
End SendIpi.

(** ** A concrete device *)

#[export] Instance example_device : Device := { answer _ _ _ := 0x00170020 }.
#[export] Instance example_cpuid : Cpuid := { cpuid _ := (0, 0, 0x200000) }.

Definition example_ioapic : IOApic.t :=
  IOApic.mk ApicTable.example_table 2 0xfec00000 0 (Window 0xfec00000 20).

(** ** Properties *)

(** C23. IOApic::MapIrq programs the redirection entry of the line: of the
    interrupt override's pin when the table has one, of the pin of the same
    number otherwise.  The entry delivers the vector, with the polarity and
    trigger mode set where the override's flags are not zero, unmasked, to
    destination 0; no other register changes, and between any two stores the
    entry is the old one, the new one or masked, so that the device never
    sees a mix of the two.  Locks and interrupt flag are as they were. *)
Theorem IOApic_MapIrq_correct {A} `{WindowMap A, AnsaLock A, Device} `{!LockLaws A}
  (s : machine A) io es irq vector
  (Ht : ApicTable.table_holds s io.(IOApic.table) es) (Hm : IOApic.mapped io)
  (Hl1 : IOApicLock ∉ s.(held)) (Hl2 : IOApicTableLock ∉ s.(held))
  (Hv : 0 ≤ vector < 2 ^ 8) :
  let '(pin, low, level) := IOApic.route es irq in
  0 ≤ pin < 120 →
  let b := io.(IOApic.baseAddr) in
  let new := (Some (vector + Z.b2z low * 2 ^ 13 + Z.b2z level * 2 ^ 15), Some 0) in
  ∃ tr, IOApic.MapIrq io irq vector s = Ok (tt, set_trace tr s) ∧
    IOApic.entry_of b tr pin = new ∧
    (∀ r, r ≠ 0x10 + 2 * pin → r ≠ 0x11 + 2 * pin →
      IOApic.reg_of b tr r = IOApic.reg_of b s.(trace) r) ∧
    (∀ tr', s.(trace) `suffix_of` tr' → tr' `suffix_of` tr →
      IOApic.entry_of b tr' pin = IOApic.entry_of b s.(trace) pin ∨
      IOApic.entry_of b tr' pin = new ∨
      (IOApic.entry_of b tr' pin).1 = Some IOApic.masked).
Proof.
  pose proof (IOApic.run_MapIrq io es irq vector s) as Hrun.
  destruct (IOApic.route es irq) as [[pin low] level]. intros Hp b new.
  destruct (IOApic.routed_words vector low level Hv) as [Hw0 Hw1].
  fold (IOApic.low_word vector low level) in new. unfold new. rewrite <-Hw0, <-Hw1.
  eexists. split; [by apply Hrun|]. split_and!.
  - by apply IOApic.entry_of_write.
  - intros. by apply IOApic.entry_write_other.
  - intros. by apply IOApic.entry_write_atomic.
Qed.

Lemma IOApic_MapIrq_correct_witness :
  let s := ApicTable.example_machine tt in
  ∃ tr, IOApic.MapIrq example_ioapic 9 0x30 s = Ok (tt, set_trace tr s) ∧
    IOApic.entry_of 0xfec00000 tr 9 = (Some 0xa030, Some 0).
Proof.
  intros s.
  destruct (IOApic_MapIrq_correct s example_ioapic ApicTable.example_entries 9 0x30
    (ApicTable.example_holds tt) eq_refl ltac:(cbn; set_solver) ltac:(cbn; set_solver)
    ltac:(lia) ltac:(split; by vm_compute)) as (tr & Hr & He & _).
  exists tr. split; [exact Hr|exact He].
Defined.

(** C24. Whichever form of the local APIC LapicModule::GetLapic picks, SendIpi
    makes the device send exactly one command more, with the vector, the
    delivery mode, the level, the trigger mode and the destination it was
    given: 8 bits of destination for the memory-mapped form, where the high
    word is stored before the low word that triggers the command, and 32 bits
    for the other one. *)
Theorem LapicModule_SendIpi_correct {A} `{WindowMap A, Device, Cpuid}
  (s : machine A) base cpu vector mode level trigger (Hc : critical s) :
  let x2 := Z.testbit (u32 (cpuid 1).1.2) 21 in
  ipi_ok (if x2 then 2 ^ 32 else 2 ^ 8) cpu vector mode level trigger →
  ∃ lapic s', LapicModule.GetLapic (XApic.mk (Window base 0x1000) base) s = Ok (lapic, s) ∧
    Lapic.SendIpi lapic cpu vector mode level trigger s = Ok (tt, s') ∧
    sent base s'.(trace) = Ipi cpu vector mode level trigger :: sent base s.(trace).
Proof.
  intros x2 Hi. rewrite LapicModule.run_GetLapic by done. unfold LapicModule.has_x2.
  fold x2. destruct x2; cbn [LapicModule.object].
  - destruct (run_X2Apic_SendIpi base cpu vector mode level trigger s Hc Hi)
      as (ms & tr & Hs & _ & Ht). by eexists X2Apic.lapic, _.
  - destruct (run_XApic_SendIpi base cpu vector mode level trigger s Hc Hi) as (tr & Hs & Ht).
    by exists (XApic.lapic (XApic.mk (Window base 0x1000) base)), (set_trace tr s).
Qed.

Lemma LapicModule_SendIpi_correct_witness :
  let s := set_iflag false (idle_machine tt) in
  ∃ lapic s', LapicModule.GetLapic (XApic.mk (Window 0xfee00000 0x1000) 0xfee00000) s
      = Ok (lapic, s) ∧
    Lapic.SendIpi lapic 3 5 6 1 0 s = Ok (tt, s') ∧
    sent 0xfee00000 s'.(trace) = [Ipi 3 5 6 1 0].
Proof.
  intros s.
  exact (LapicModule_SendIpi_correct s 0xfee00000 3 5 6 1 0 (or_intror eq_refl)
    ltac:(repeat split; by vm_compute)).
Defined.
