(* ===== verification/Modules.v ===== *)
(** * Modules and the order in which they are loaded

    Every part of the layer that has an [Initialize] is a module, which names
    the modules it depends on.  They are loaded by [ansa::Module], which is
    not in the repository; what the code relies on is that a module is loaded
    after its dependencies.  This file has the dependencies of every module and
    the modules whose state its [Initialize] uses, and shows which of these the
    dependencies provide. *)

From stdpp Require Import base numbers list gmap strings.
From Stdlib Require Import ZArith Lia.
From S2P Require Import Prelude Machine Devices Acpi AcpiRoot Apic.
#[local] Open Scope Z_scope.

(** The modules, in the order of [InitializeSingletons] (public/init.cpp). *)
Inductive module : Type :=
  | CriticalModule | SyscallModule | GlobalMalloc | IOApicModule | TextConsole | PanicModule
  | LapicModule | TimerModule | ClockModule | DomainList | AcpiModule | GlobalMap | Tlb | Idt
  | Irt | Pic | Gdt | StreamModule.

#[export] Instance module_eq_dec : EqDecision module.
Proof. solve_decision. Defined.

Definition modules : list module :=
  [CriticalModule; SyscallModule; GlobalMalloc; IOApicModule; TextConsole; PanicModule;
   LapicModule; TimerModule; ClockModule; DomainList; AcpiModule; GlobalMap; Tlb; Idt;
   Irt; Pic; Gdt; StreamModule].

(** [GetDependencies] of each; the console of [StreamModule] is the [TextConsole]. *)
Definition CriticalModule_GetDependencies : list module := [Irt; Pic; StreamModule].
Definition SyscallModule_GetDependencies : list module := [DomainList].
Definition GlobalMalloc_GetDependencies : list module := [GlobalMap; StreamModule].
Definition IOApicModule_GetDependencies : list module :=
  [AcpiModule; GlobalMalloc; StreamModule; CriticalModule].
Definition TextConsole_GetDependencies : list module := [].
Definition PanicModule_GetDependencies : list module := [Irt; LapicModule; DomainList].
Definition LapicModule_GetDependencies : list module := [GlobalMap; StreamModule].
Definition TimerModule_GetDependencies : list module := [DomainList].
Definition ClockModule_GetDependencies : list module :=
  [Irt; IOApicModule; LapicModule; GlobalMalloc; AcpiModule; StreamModule].
Definition DomainList_GetDependencies : list module :=
  [CriticalModule; IOApicModule; LapicModule; ClockModule; Gdt; StreamModule; Irt].
Definition AcpiModule_GetDependencies : list module := [GlobalMalloc; StreamModule].
Definition GlobalMap_GetDependencies : list module := [StreamModule].
Definition Tlb_GetDependencies : list module := [Irt; LapicModule; DomainList].
Definition Idt_GetDependencies : list module := [].
Definition Irt_GetDependencies : list module := [Idt; StreamModule].
Definition Pic_GetDependencies : list module := [StreamModule].
Definition Gdt_GetDependencies : list module := [GlobalMalloc].
Definition StreamModule_GetDependencies : list module := [TextConsole].

Definition GetDependencies (m : module) : list module :=
  match m with
  | CriticalModule => CriticalModule_GetDependencies
  | SyscallModule => SyscallModule_GetDependencies
  | GlobalMalloc => GlobalMalloc_GetDependencies
  | IOApicModule => IOApicModule_GetDependencies
  | TextConsole => TextConsole_GetDependencies
  | PanicModule => PanicModule_GetDependencies
  | LapicModule => LapicModule_GetDependencies
  | TimerModule => TimerModule_GetDependencies
  | ClockModule => ClockModule_GetDependencies
  | DomainList => DomainList_GetDependencies
  | AcpiModule => AcpiModule_GetDependencies
  | GlobalMap => GlobalMap_GetDependencies
  | Tlb => Tlb_GetDependencies
  | Idt => Idt_GetDependencies
  | Irt => Irt_GetDependencies
  | Pic => Pic_GetDependencies
  | Gdt => Gdt_GetDependencies
  | StreamModule => StreamModule_GetDependencies
  end.

(** [DomainList::GetSuperDependencies]. *)
Definition DomainList_GetSuperDependencies : list module := [PanicModule; Tlb; TimerModule].

(** The modules whose state [Initialize] uses, itself or in what it calls:
    [cout] (the streams, with the console behind them), the map behind a window
    on physical memory, the heap, the tables, the clock, the interrupt routines
    and controllers.  [Tlb] and [PanicModule] are not listed where the code asks
    [IsInitialized] first. *)
Definition CriticalModule_Initialize_uses : list module := [StreamModule; Irt; Idt; Pic].
Definition SyscallModule_Initialize_uses : list module := [DomainList; LapicModule; Idt].
Definition GlobalMalloc_Initialize_uses : list module := [StreamModule; GlobalMap].
Definition IOApicModule_Initialize_uses : list module :=
  [StreamModule; AcpiModule; GlobalMalloc; GlobalMap].
Definition TextConsole_Initialize_uses : list module := [].
Definition PanicModule_Initialize_uses : list module := [Irt].
Definition LapicModule_Initialize_uses : list module := [StreamModule; AcpiModule; GlobalMap].
Definition TimerModule_Initialize_uses : list module :=
  [StreamModule; DomainList; LapicModule; ClockModule; Irt].
Definition ClockModule_Initialize_uses : list module :=
  [GlobalMalloc; AcpiModule; StreamModule; GlobalMap; Irt; IOApicModule; LapicModule].
Definition DomainList_Initialize_uses : list module :=
  [Irt; AcpiModule; GlobalMalloc; GlobalMap; LapicModule; ClockModule; Idt; Gdt; StreamModule].
Definition AcpiModule_Initialize_uses : list module := [StreamModule; GlobalMalloc; GlobalMap].
Definition GlobalMap_Initialize_uses : list module := [StreamModule].
Definition Tlb_Initialize_uses : list module := [Irt].
Definition Idt_Initialize_uses : list module := [].
Definition Irt_Initialize_uses : list module := [StreamModule; Idt].
Definition Pic_Initialize_uses : list module := [StreamModule].
Definition Gdt_Initialize_uses : list module := [GlobalMalloc].
Definition StreamModule_Initialize_uses : list module := [].

Definition uses (m : module) : list module :=
  match m with
  | CriticalModule => CriticalModule_Initialize_uses
  | SyscallModule => SyscallModule_Initialize_uses
  | GlobalMalloc => GlobalMalloc_Initialize_uses
  | IOApicModule => IOApicModule_Initialize_uses
  | TextConsole => TextConsole_Initialize_uses
  | PanicModule => PanicModule_Initialize_uses
  | LapicModule => LapicModule_Initialize_uses
  | TimerModule => TimerModule_Initialize_uses
  | ClockModule => ClockModule_Initialize_uses
  | DomainList => DomainList_Initialize_uses
  | AcpiModule => AcpiModule_Initialize_uses
  | GlobalMap => GlobalMap_Initialize_uses
  | Tlb => Tlb_Initialize_uses
  | Idt => Idt_Initialize_uses
  | Irt => Irt_Initialize_uses
  | Pic => Pic_Initialize_uses
  | Gdt => Gdt_Initialize_uses
  | StreamModule => StreamModule_Initialize_uses
  end.

Definition included (l k : list module) : bool := bool_decide (Forall (.∈ k) l).

(** Every module of the list after its dependencies, the first [loaded]. *)
Fixpoint respects (loaded order : list module) : bool :=
  match order with
  | [] => true
  | m :: l => included (GetDependencies m) loaded && respects (m :: loaded) l
  end.

(** Loading: the modules that are initialized at the end, or the one that
    found a module it uses not to be. *)
Fixpoint load (loaded order : list module) : list module + module :=
  match order with
  | [] => inl loaded
  | m :: l => if included (uses m) loaded then load (m :: loaded) l else inr m
  end.

(** ** What the dependencies provide *)

(** Everything that is needed, at most [n] steps away. *)
Fixpoint needs (n : nat) (m : module) : list module :=
  match n with
  | O => []
  | S n => GetDependencies m ++ (GetDependencies m ≫= needs n)
  end.

Definition closed (loaded : list module) : Prop :=
  ∀ m, m ∈ loaded → ∀ d, d ∈ GetDependencies m → d ∈ loaded.

Lemma included_spec l k : included l k = true ↔ ∀ x, x ∈ l → x ∈ k.
Proof. unfold included. by rewrite bool_decide_eq_true, Forall_forall. Qed.

Lemma needs_loaded n m loaded : closed loaded →
  (∀ d, d ∈ GetDependencies m → d ∈ loaded) → ∀ d, d ∈ needs n m → d ∈ loaded.
Proof.
  intros Hc. revert m. induction n as [|n IH]; intros m Hm d; [by intros ?%not_elem_of_nil|].
  intros [Hd|(e & Hd & He)%list_elem_of_bind]%elem_of_app; [by apply Hm|].
  apply (IH e); [|done]. intros x Hx. by apply (Hc e); [apply Hm|].
Qed.

(** The dependencies, followed to the end, provide every module that is used,
    except the ACPI tables of [LapicModule]. *)
Lemma uses_needed m u : u ∈ uses m → u ∈ needs 7 m ∨ m = LapicModule ∧ u = AcpiModule.
Proof.
  assert (H : Forall (λ m, Forall (λ u, u ∈ needs 7 m ∨ m = LapicModule ∧ u = AcpiModule) (uses m))
    modules) by (apply (bool_decide_unpack _); by vm_compute).
  assert (Hm : m ∈ modules) by (destruct m; apply (bool_decide_unpack _); done).
  rewrite Forall_forall in H. specialize (H m Hm). rewrite Forall_forall in H. apply H.
Qed.

(** [AcpiModule] is loaded before [LapicModule]. *)
Fixpoint acpi_first (loaded order : list module) : bool :=
  match order with
  | [] => true
  | m :: l => (negb (bool_decide (m = LapicModule)) || bool_decide (AcpiModule ∈ loaded))
              && acpi_first (m :: loaded) l
  end.

Lemma load_respects loaded order : closed loaded → acpi_first loaded order = true →
  respects loaded order = true → load loaded order = inl (reverse order ++ loaded).
Proof.
  revert loaded. induction order as [|m l IH]; intros loaded Hc; [done|].
  cbn [respects load acpi_first]. intros [Hm Ha]%andb_true_iff [Hd Hr]%andb_true_iff.
  rewrite included_spec in Hd.
  assert (Hu : included (uses m) loaded = true).
  { apply included_spec. intros u Hu. destruct (uses_needed m u Hu) as [Hn|[-> ->]].
    - by apply (needs_loaded 7 m).
    - by apply bool_decide_eq_true in Hm. }
  rewrite Hu, IH; [by rewrite reverse_cons, <-app_assoc| |done|done].
  intros x [->|Hx]%elem_of_cons d Hx'; right; [by apply Hd|by apply (Hc x)].
Qed.

(** An order with [AcpiModule] first, and one that has [LapicModule] as early
    as its own dependencies allow. *)
Definition good_order : list module :=
  [TextConsole; StreamModule; GlobalMap; GlobalMalloc; AcpiModule; Idt; Irt; Pic; CriticalModule;
   IOApicModule; LapicModule; ClockModule; Gdt; DomainList; PanicModule; Tlb; TimerModule;
   SyscallModule].
Definition early_lapic : list module :=
  [TextConsole; StreamModule; GlobalMap; LapicModule; GlobalMalloc; AcpiModule; Idt; Irt; Pic;
   CriticalModule; IOApicModule; ClockModule; Gdt; DomainList; PanicModule; Tlb; TimerModule;
   SyscallModule].

(** C39. The dependencies are enough for all modules but one.  They have no
    cycle: some order loads every module once, each after its dependencies.  In
    any such order, of all modules or of some, that has [AcpiModule] before
    [LapicModule], every [Initialize] finds the modules it uses initialized.
    But [LapicModule] does not name [AcpiModule], and an order that loads it
    earlier respects every dependency too; its [Initialize] then fails the
    assertion on the APIC table, which is [NULL] before [AcpiModule] is
    initialized.  What [DomainList] wants loaded with it depends on it. *)
Theorem load_order_correct :
  (∃ order, order ≡ₚ modules ∧ respects [] order = true) ∧
  (∀ order, respects [] order = true → acpi_first [] order = true → load [] order = inl (reverse order)) ∧
  (early_lapic ≡ₚ modules ∧ respects [] early_lapic = true ∧ load [] early_lapic = inr LapicModule) ∧
  (∀ A (HW : WindowMap A) (HD : Device) (HC : Cpuid) root hpetTable (s : machine A),
     LapicModule.Initialize (AcpiModule.mk root None hpetTable) s = Stop (AssertFail "table != NULL")) ∧
  Forall (λ m, DomainList ∈ GetDependencies m) DomainList_GetSuperDependencies.
Proof.
  split_and!; try by vm_compute.
  - exists good_order. split; [apply (bool_decide_unpack _)|]; by vm_compute.
  - intros order Hr Ha. rewrite (load_respects [] order), app_nil_r; [done| |done|done].
    by intros m ?%not_elem_of_nil.
  - apply (bool_decide_unpack _). by vm_compute.
  - apply (bool_decide_unpack _). by vm_compute.
Qed.

Lemma load_order_correct_witness : load [] good_order = inl (reverse good_order).
Proof.
  destruct load_order_correct as (_ & H & _). apply H; by vm_compute.
Defined.
