(* ===== verification/Segments.v ===== *)
(** * Segments

    The global descriptor table (src/arch/x64/segments/gdt.cpp), the code and
    data descriptors (short-descriptor.cpp) and the task state segment with
    its descriptor (tss.cpp).  The table is the component state of the
    machine: its address, the bytes in use and the bytes. *)

From stdpp Require Import base numbers list gmap strings.
From Stdlib Require Import ZArith Lia.
From S2P Require Import Prelude Machine Concrete Devices.
#[local] Open Scope Z_scope.

(** ** Code and data descriptors *)

Record ShortDescriptor : Type := mkShort {
  limit : Z; baseLow : Z; baseMid : Z;
  accessBit : Z; writable : Z; direction : Z; executable : Z;
  reservedOne : Z; privilege : Z; present : Z;
  limitHigh : Z;
  reservedZero : Z; longMode : Z; size : Z; granularity : Z;
  baseHigh : Z;
}.

(** The constructor. *)
Definition new_short (privileged executable : bool) : ShortDescriptor :=
  mkShort 0 0 0 0 (if executable then 0 else 1) 0 (if executable then 1 else 0)
    1 (if privileged then 0 else 3) 1 0 0 1 0 0 0.

(** The eight bytes of the packed structure. *)
Definition short_bytes (d : ShortDescriptor) : list Z :=
  le_bytes 2 d.(limit) ++ le_bytes 2 d.(baseLow) ++ le_bytes 1 d.(baseMid) ++
  le_bytes 1 (d.(accessBit) .| (d.(writable) .<< 1) .| (d.(direction) .<< 2)
    .| (d.(executable) .<< 3) .| (d.(reservedOne) .<< 4) .| (d.(privilege) .<< 5)
    .| (d.(present) .<< 7)) ++
  le_bytes 1 (d.(limitHigh) .| (d.(reservedZero) .<< 4) .| (d.(longMode) .<< 5)
    .| (d.(size) .<< 6) .| (d.(granularity) .<< 7)) ++
  le_bytes 1 d.(baseHigh).

(** ** The task state segment *)

Record Tss : Type := mkTss { rsp : list Z; ist : list Z; ioplBase : Z }.

Record TssDescriptor : Type := mkTssDescriptor {
  limit_0 : Z; base_0 : Z; base_16 : Z; type : Z; res0 : Z; dpl : Z; tss_present : Z;
  limit_16 : Z; available : Z; res1 : Z; tss_granularity : Z; base_24 : Z;
  base_32 : Z; res2 : Z;
}.

(** The constructor. *)
Definition new_tss (ptrVal : Z) : TssDescriptor :=
  let base_0 := ptrVal .& 0xffff in
  let base_16 := (ptrVal .>> 16) .& 0xff in
  let base_24 := (ptrVal .>> 24) .& 0xff in
  let base_32 := u32 (ptrVal .>> 0x20) in
  mkTssDescriptor 0x67 base_0 base_16 9 0 0 1 0 1 0 0 base_24 base_32 0.

(** A signed 32-bit result, converted to 64 bits unsigned. *)
Definition sign_extend (x : Z) : Z :=
  let y := u32 x in u64 (if y <? 2 ^ 31 then y else y - 2 ^ 32).

(** [GetPointer]: the bytes are promoted to [int] before they are shifted. *)
Definition GetPointer (d : TssDescriptor) : Z :=
  (d.(base_0) .| sign_extend (d.(base_16) .<< 16)) .|
  (sign_extend (d.(base_24) .<< 24) .| u64 (d.(base_32) .<< 0x20)).

(** The sixteen bytes of the packed structure. *)
Definition tss_bytes (d : TssDescriptor) : list Z :=
  le_bytes 2 d.(limit_0) ++ le_bytes 2 d.(base_0) ++ le_bytes 1 d.(base_16) ++
  le_bytes 1 (d.(type) .| (d.(res0) .<< 4) .| (d.(dpl) .<< 5) .| (d.(tss_present) .<< 7)) ++
  le_bytes 1 (d.(limit_16) .| (d.(available) .<< 4) .| (d.(res1) .<< 5)
    .| (d.(tss_granularity) .<< 7)) ++
  le_bytes 1 d.(base_24) ++ le_bytes 4 d.(base_32) ++ le_bytes 4 d.(res2).

(** ** The table *)

Module Gdt.

Record t : Type := mk { buffer : Z; amountUsed : Z; bytes : gmap Z Z }.

(** [ansa::Memcpy] of these bytes to an offset of the buffer. *)
Fixpoint write_bytes (off : Z) (l : list Z) (m : gmap Z Z) : gmap Z Z :=
  match l with
  | [] => m
  | b :: l' => write_bytes (off + 1) l' (<[off := b]> m)
  end.

Section Ops.
Context `{VirtualAllocator t}.

(** Both [Push] methods: the bytes are appended, and their offset is the
    selector. *)
Definition push (what : string) (desc : list Z) : M (machine t) Z :=
  g ← gets alloc;
  let n := Z.of_nat (length desc) in
  _ ← assert (g.(amountUsed) +u n <=? 0x10000) what;
  let sel := u16 g.(amountUsed) in
  _ ← modify (set_alloc (mk g.(buffer) (g.(amountUsed) +u n)
        (write_bytes g.(amountUsed) desc g.(bytes))));
  mret sel.

Definition PushShortDescriptor (desc : ShortDescriptor) : M (machine t) Z :=
  push "amountUsed + 8 <= 0x10000" (short_bytes desc).

Definition PushTssDescriptor (desc : TssDescriptor) : M (machine t) Z :=
  push "amountUsed + 0x10 <= 0x10000" (tss_bytes desc).

(** The limit and the start of the pointer. *)
Definition Pointer : M (machine t) (Z * Z) := gets (λ s, (0xffff, s.(alloc).(buffer))).

Definition Set_ : M (machine t) unit :=
  _ ← AssertCritical;
  ptr ← Pointer;
  emit (EvLgdt ptr.1 ptr.2).

(** What [sgdt] stores: the last pointer that [lgdt] loaded, at first the one of
    the boot loader. *)
Fixpoint gdtr (loader : Z * Z) (tr : list event) : Z * Z :=
  match tr with
  | [] => loader
  | EvLgdt limit start :: _ => (limit, start)
  | _ :: tr => gdtr loader tr
  end.

(** [Gdt::Pointer::GetCurrent] *)
Definition Pointer_GetCurrent (loader : Z * Z) : M (machine t) (Z * Z) :=
  _ ← AssertCritical;
  gets (λ s, gdtr loader s.(trace)).

Definition Initialize : M (machine t) unit :=
  buf ← VAlloc 0x10000;
  match buf with
  | None => panic "Gdt::Initialize() - failed to allocate buffer"
  | Some buffer =>
      _ ← modify (set_alloc (mk buffer 8 ∅));
      _ ← PushShortDescriptor (new_short true true);   (* kernel code *)
      _ ← PushShortDescriptor (new_short true false);  (* kernel data *)
      _ ← PushShortDescriptor (new_short false false); (* user data *)
      _ ← PushShortDescriptor (new_short false true);  (* user code *)
      ScopedCritical Set_
  end.
End Ops.

End Gdt.

(** ** What the processor reads *)

Section Read.
Implicit Types (g : Gdt.t).

Definition byte_at g (off : Z) : Z := default 0 (g.(Gdt.bytes) !! off).

(** The descriptor a selector names: whether it is present, executable and
    for 64-bit code, and its privilege level. *)
Record segment : Type := Segment { seg_code : bool; seg_dpl : Z; seg_present : bool; seg_long : bool }.

(** From the bytes 5 and 6 of a descriptor. *)
Definition decode_segment (access flags : Z) : segment :=
  Segment (Z.testbit access 3) (access / 2 ^ 5 mod 2 ^ 2) (Z.testbit access 7) (Z.testbit flags 5).

Definition segment_of g (selector : Z) : segment :=
  let off := selector .& 0xfff8 in decode_segment (byte_at g (off + 5)) (byte_at g (off + 6)).

(** The address and the type of the system descriptor a selector names. *)
Definition system_base g (selector : Z) : Z :=
  let off := selector .& 0xfff8 in
  le (byte_at g) (off + 2) 2 + 2 ^ 16 * le (byte_at g) (off + 4) 1
  + 2 ^ 24 * le (byte_at g) (off + 7) 1 + 2 ^ 32 * le (byte_at g) (off + 8) 4.

Definition system_type g (selector : Z) : Z :=
  byte_at g ((selector .& 0xfff8) + 5) mod 2 ^ 4.

Lemma byte_at_write g off l n a :
  a < off ∨ off + Z.of_nat (length l) ≤ a →
  byte_at (Gdt.mk n a (Gdt.write_bytes off l g.(Gdt.bytes))) a = byte_at g a.
Proof.
  unfold byte_at. cbn [Gdt.bytes]. destruct g as [b u m]. cbn [Gdt.bytes].
  revert off m. induction l as [|x l IH]; intros off m Ha; [done|]. cbn [Gdt.write_bytes length] in *.
  rewrite IH by lia. by rewrite lookup_insert_ne by lia.
Qed.

Lemma write_bytes_other off l m a :
  a < off ∨ off + Z.of_nat (length l) ≤ a → Gdt.write_bytes off l m !! a = m !! a.
Proof.
  revert off m. induction l as [|x l IH]; intros off m Ha; [done|]. cbn [Gdt.write_bytes length] in *.
  rewrite IH by lia. by rewrite lookup_insert_ne by lia.
Qed.

Lemma write_bytes_holds off l m b u : holds (byte_at (Gdt.mk b u (Gdt.write_bytes off l m))) off l.
Proof.
  revert off m. induction l as [|x l IH]; intros off m; [by intros []|].
  cbn [Gdt.write_bytes]. apply holds_cons. split; [|apply IH].
  unfold byte_at. cbn [Gdt.bytes]. rewrite write_bytes_other by lia. by rewrite lookup_insert_eq.
Qed.

Lemma holds_same f h a l :
  (∀ i, a ≤ i < a + Z.of_nat (length l) → f i = h i) → holds f a l → holds h a l.
Proof.
  intros Hs Hf i b Hi. rewrite <-(Hf i b Hi). symmetry. apply Hs.
  apply lookup_lt_Some in Hi. lia.
Qed.

(** A task descriptor names the address it was made of. *)
Lemma holds_le_app f a n v rest : 0 ≤ v < 2 ^ (8 * Z.of_nat n) →
  holds f a (le_bytes n v ++ rest) → le f a n = v ∧ holds f (a + Z.of_nat n) rest.
Proof.
  intros Hv [Hh Hr]%holds_app. rewrite length_le_bytes in Hr. split; [|done]. by apply le_holds.
Qed.

Lemma tss_base_read g sel p : is_u64 p → sel mod 8 = 0 → 0 ≤ sel < 2 ^ 16 →
  holds (byte_at g) sel (tss_bytes (new_tss p)) →
  system_base g sel = p ∧ system_type g sel = 9.
Proof.
  intros Hp Hs Hr Hh. unfold is_u64 in Hp. unfold system_base, system_type.
  assert (sel .& 0xfff8 = sel) as ->.
  { change 0xfff8 with (Z.ones 13 .<< 3). rewrite land_field by lia. zlia. }
  unfold tss_bytes, new_tss in Hh. cbn -[le_bytes Z.shiftr Z.land] in Hh.
  change 0xffff with (Z.ones 16) in Hh. change 0xff with (Z.ones 8) in Hh.
  rewrite !Z.land_ones, !Z.shiftr_div_pow2 in Hh by lia. unfold u32 in Hh.
  apply holds_le_app in Hh as [_ Hh]; [|by vm_compute].
  apply holds_le_app in Hh as [H0 Hh]; [|by apply Z.mod_pos_bound].
  apply holds_le_app in Hh as [H16 Hh]; [|by apply Z.mod_pos_bound].
  apply holds_le_app in Hh as [Hty Hh]; [|by vm_compute].
  apply holds_le_app in Hh as [_ Hh]; [|by vm_compute].
  apply holds_le_app in Hh as [H24 Hh]; [|by apply Z.mod_pos_bound].
  apply holds_le_app in Hh as [H32 _]; [|by apply Z.mod_pos_bound].
  replace (sel + 2) with (sel + Z.of_nat 2) by lia.
  replace (sel + 4) with (sel + Z.of_nat 2 + Z.of_nat 2) by lia.
  replace (sel + 5) with (sel + Z.of_nat 2 + Z.of_nat 2 + Z.of_nat 1) by lia.
  replace (sel + 7) with
    (sel + Z.of_nat 2 + Z.of_nat 2 + Z.of_nat 1 + Z.of_nat 1 + Z.of_nat 1) by lia.
  replace (sel + 8) with
    (sel + Z.of_nat 2 + Z.of_nat 2 + Z.of_nat 1 + Z.of_nat 1 + Z.of_nat 1 + Z.of_nat 1) by lia.
  rewrite H0, H16, H24, H32. cbn [le] in Hty. rewrite Z.mul_0_r, Z.add_0_r in Hty.
  rewrite Hty. split; [zlia|done].
Qed.

(** [GetPointer] gives the address back when its bit 31 is clear; when it is
    set, the sign of the shifted byte fills the upper half. *)
Lemma lor_ones x n : 0 ≤ n → 0 ≤ x < 2 ^ n → Z.ones n .| x = Z.ones n.
Proof.
  intros Hn Hx. apply Z.bits_inj'. intros i Hi. rewrite Z.lor_spec.
  destruct (Z.ltb_spec i n); [by rewrite Z.ones_spec_low by lia|].
  rewrite Z.ones_spec_high, <-(Z.mod_small x (2 ^ n)) by lia.
  by rewrite Z.mod_pow2_bits_high by lia.
Qed.

Lemma sign_extend_shiftl b n : 0 ≤ b < 2 ^ 8 → n = 16 ∨ n = 24 →
  sign_extend (b .<< n)
  = b * 2 ^ n + (if (n =? 24) && (2 ^ 7 <=? b) then Z.ones 32 * 2 ^ 32 else 0).
Proof.
  intros Hb Hn. unfold sign_extend, u32. rewrite Z.shiftl_mul_pow2 by lia.
  change (Z.ones 32) with 4294967295.
  destruct Hn as [-> | ->]; rewrite (Z.mod_small (_ * _)) by lia;
    destruct (Z.leb_spec (2 ^ 7) b); cbn [Z.eqb Pos.eqb andb];
    (case_test; [|try lia]); try lia; try (rewrite u64_small by (unfold is_u64; lia); lia);
    (rewrite u64_borrow by lia; lia).
Qed.

Lemma GetPointer_correct p : is_u64 p →
  GetPointer (new_tss p)
  = if Z.testbit p 31 then p mod 2 ^ 32 + Z.ones 32 * 2 ^ 32 else p.
Proof.
  intros Hp. unfold is_u64 in Hp. unfold GetPointer, new_tss. cbn [base_0 base_16 base_24 base_32].
  change 0xffff with (Z.ones 16). change 0xff with (Z.ones 8).
  rewrite !Z.land_ones, !Z.shiftr_div_pow2 by lia. unfold u32.
  rewrite !sign_extend_shiftl by (auto; by apply Z.mod_pos_bound).
  cbn [Z.eqb Pos.eqb andb]. rewrite Z.add_0_r.
  assert (Z.testbit p 31 = (2 ^ 7 <=? p / 2 ^ 24 mod 2 ^ 8)) as ->.
  { rewrite Z.testbit_eqb by lia. case_test; case_test; try done; zlia. }
  rewrite (u64_shiftl _ _ 32) by (try lia; by apply Z.mod_pos_bound).
  rewrite <-(Z.shiftl_mul_pow2 (p / 2 ^ 16 mod 2 ^ 8)), lor_shiftl_add
    by (try lia; by apply Z.mod_pos_bound).
  destruct (Z.leb_spec (2 ^ 7) (p / 2 ^ 24 mod 2 ^ 8)).
  - rewrite Z.lor_assoc.
    rewrite <-(lor_shiftl_add (p / 2 ^ 24 mod 2 ^ 8 * 2 ^ 24) (Z.ones 32)) by zlia.
    rewrite <-!Z.lor_assoc, <-Z.shiftl_lor, lor_ones by (try lia; by apply Z.mod_pos_bound).
    rewrite Z.lor_assoc, <-(Z.shiftl_mul_pow2 (p / 2 ^ 24 mod 2 ^ 8)) by lia.
    rewrite (lor_shiftl_add _ (p / 2 ^ 24 mod 2 ^ 8) 24), (lor_shiftl_add _ (Z.ones 32) 32) by zlia.
    zlia.
  - rewrite Z.add_0_r, Z.lor_assoc, <-(Z.shiftl_mul_pow2 (p / 2 ^ 24 mod 2 ^ 8)) by lia.
    rewrite (lor_shiftl_add _ (p / 2 ^ 24 mod 2 ^ 8) 24),
      (lor_shiftl_add _ (p / 2 ^ 32 mod 2 ^ 32) 32) by zlia.
    zlia.
Qed.
End Read.

(** ** The table that is built *)

Section Build.
Context `{RoomyHeap Gdt.t}.
Implicit Types (s : machine Gdt.t) (g : Gdt.t) (ps : list Z).

Definition fixed_bytes : list Z :=
  short_bytes (new_short true true) ++ short_bytes (new_short true false) ++
  short_bytes (new_short false false) ++ short_bytes (new_short false true).

Definition task_bytes ps : list Z := ps ≫= λ p, tss_bytes (new_tss p).

(** The table holds the four fixed descriptors and those of these tasks. *)
Definition table g ps : Prop :=
  g.(Gdt.amountUsed) = 0x28 + 0x10 * Z.of_nat (length ps) ∧
  holds (byte_at g) 8 (fixed_bytes ++ task_bytes ps).

Lemma length_tss_bytes p : length (tss_bytes (new_tss p)) = 16%nat.
Proof. done. Qed.

Lemma length_task_bytes ps : length (task_bytes ps) = (16 * length ps)%nat.
Proof.
  unfold task_bytes. induction ps as [|p ps IH]; [done|].
  rewrite bind_cons, length_app, IH, length_tss_bytes. cbn [length]. lia.
Qed.

(** Appending bytes. *)
Definition appended (l : list Z) g : Gdt.t :=
  Gdt.mk g.(Gdt.buffer) (g.(Gdt.amountUsed) + Z.of_nat (length l))
    (Gdt.write_bytes g.(Gdt.amountUsed) l g.(Gdt.bytes)).

Lemma run_push what l s :
  0 ≤ s.(alloc).(Gdt.amountUsed) →
  s.(alloc).(Gdt.amountUsed) + Z.of_nat (length l) ≤ 0x10000 → (0 < length l)%nat →
  Gdt.push what l s
  = Ok (s.(alloc).(Gdt.amountUsed), set_alloc (appended l s.(alloc)) s).
Proof.
  intros Hz Hle Hl. unfold Gdt.push. run run_gets.
  rewrite u64_small by (unfold is_u64; lia).
  run_assert ltac:(by apply Z.leb_le). run run_modify.
  unfold u16. by rewrite Z.mod_small by lia.
Qed.

Lemma run_push_full what l s :
  0 ≤ s.(alloc).(Gdt.amountUsed) ≤ 0x10000 → Z.of_nat (length l) < 2 ^ 32 →
  0x10000 < s.(alloc).(Gdt.amountUsed) + Z.of_nat (length l) →
  Gdt.push what l s = Stop (AssertFail what).
Proof.
  intros Hz Hl Hlt. unfold Gdt.push. run run_gets.
  rewrite u64_small by (unfold is_u64; lia).
  apply run_bind_stop, run_assert_fail. by apply Z.leb_gt.
Qed.

Lemma appended_holds l k a g :
  holds (byte_at g) a k → a + Z.of_nat (length k) = g.(Gdt.amountUsed) →
  holds (byte_at (appended l g)) a (k ++ l).
Proof.
  intros Hk Ha. apply holds_app. split.
  - eapply holds_same; [|exact Hk]. intros i Hi. unfold byte_at, appended. cbn [Gdt.bytes].
    by rewrite write_bytes_other by lia.
  - rewrite Ha. apply write_bytes_holds.
Qed.

Lemma appended_task g ps p : table g ps → table (appended (tss_bytes (new_tss p)) g) (ps ++ [p]).
Proof.
  intros [Hu Hh]. split.
  - cbn [appended Gdt.amountUsed]. rewrite length_tss_bytes, length_app, Hu. cbn [length]. lia.
  - unfold task_bytes. rewrite bind_app, bind_singleton, app_assoc.
    apply appended_holds; [done|]. rewrite length_app. fold (task_bytes ps).
    rewrite length_task_bytes, Hu. change (length fixed_bytes) with 32%nat. lia.
Qed.

Definition task_selectors (k n : nat) : list Z :=
  (λ i, 0x28 + 0x10 * Z.of_nat i) <$> seq k n.

Lemma run_push_tasks ps qs s :
  table s.(alloc) qs → 0x28 + 0x10 * Z.of_nat (length qs + length ps) ≤ 0x10000 →
  ∃ g, mapM (λ p, Gdt.PushTssDescriptor (new_tss p)) ps s
    = Ok (task_selectors (length qs) (length ps), set_alloc g s) ∧
    table g (qs ++ ps) ∧ g.(Gdt.buffer) = s.(alloc).(Gdt.buffer).
Proof.
  revert qs s. induction ps as [|p ps IH]; intros qs s Ht Hle; cbn [length] in Hle.
  { exists s.(alloc). rewrite app_nil_r. split; [|done]. by destruct s. }
  pose proof Ht as [Hu _]. cbn [mapM].
  run run_push; [|lia|rewrite length_tss_bytes; lia|rewrite length_tss_bytes; lia].
  destruct (IH (qs ++ [p]) (set_alloc (appended (tss_bytes (new_tss p)) s.(alloc)) s))
    as (g & Hr & Hg & Hb).
  { by apply appended_task. }
  { rewrite length_app. cbn [length]. lia. }
  exists g. run Hr. rewrite <-app_assoc in Hg. split; [|done].
  rewrite length_app, Hu. unfold task_selectors. cbn [seq fmap list_fmap length].
  by rewrite Nat.add_1_r.
Qed.

(** The state after [Initialize]. *)
Lemma run_Gdt_Initialize s : noncritical s →
  ∃ buffer g, Gdt.Initialize s
    = Ok (tt, push_event (EvLgdt 0xffff buffer) (set_alloc g s)) ∧
    table g [] ∧ g.(Gdt.buffer) = buffer.
Proof.
  intros Hn. unfold Gdt.Initialize.
  destruct (heap_room 0x10000 s Hn) as (p & a & Hp). run Hp. cbn beta iota.
  run run_modify. set (g0 := Gdt.mk p 8 ∅).
  run run_push; [|cbn; lia..]. run run_push; [|cbn; lia..].
  run run_push; [|cbn; lia..]. run run_push; [|cbn; lia..].
  cbn [alloc set_alloc].
  set (g := appended (short_bytes (new_short false true)) _).
  exists p, g. split; [|split; [|done]].
  - set (s1 := set_alloc g _).
    erewrite run_ScopedCritical; [|unfold Gdt.Set_; run run_AssertCritical;
      [|apply enter_critical_critical]; run run_gets; reflexivity].
    assert (g.(Gdt.buffer) = p) as Hg by done. unfold s1. clearbody g. subst p.
    by destruct s as [? ? [] [] ? ? ? ?].
  - split; [by vm_compute|]. apply holds_b_true. by vm_compute.
Qed.
End Build.

(** ** Reading the table back *)

Lemma segment_of_at g sel off access flags : sel .& 0xfff8 = off →
  byte_at g (off + 5) = access → byte_at g (off + 6) = flags →
  segment_of g sel = Segment (Z.testbit access 3) (access / 2 ^ 5 mod 2 ^ 2)
    (Z.testbit access 7) (Z.testbit flags 5).
Proof. unfold segment_of. by intros -> -> ->. Qed.

Lemma table_fixed g ps : table g ps →
  segment_of g 0x08 = Segment true 0 true true ∧
  segment_of g 0x10 = Segment false 0 true true ∧
  segment_of g 0x1b = Segment false 3 true true ∧
  segment_of g 0x23 = Segment true 3 true true.
Proof.
  intros [_ [Hh _]%holds_app].
  assert (∀ i b, fixed_bytes !! i = Some b → byte_at g (8 + Z.of_nat i) = b) as Hb by exact Hh.
  split_and!.
  - exact (segment_of_at g 8 8 _ _ eq_refl (Hb 5%nat _ eq_refl) (Hb 6%nat _ eq_refl)).
  - exact (segment_of_at g 16 16 _ _ eq_refl (Hb 13%nat _ eq_refl) (Hb 14%nat _ eq_refl)).
  - exact (segment_of_at g 0x1b 24 _ _ eq_refl (Hb 21%nat _ eq_refl) (Hb 22%nat _ eq_refl)).
  - exact (segment_of_at g 0x23 32 _ _ eq_refl (Hb 29%nat _ eq_refl) (Hb 30%nat _ eq_refl)).
Qed.

Lemma table_task g ps i p : table g ps → 0x28 + 0x10 * Z.of_nat (length ps) ≤ 0x10000 →
  ps !! i = Some p → is_u64 p →
  system_base g (0x28 + 0x10 * Z.of_nat i) = p ∧ system_type g (0x28 + 0x10 * Z.of_nat i) = 9.
Proof.
  intros [_ Hh] Hle Hi Hp. apply list_elem_of_split_length in Hi as (pre & post & -> & ->).
  rewrite length_app in Hle. cbn [length] in Hle.
  apply tss_base_read; [done|zlia|lia|].
  unfold task_bytes in Hh. rewrite bind_app, bind_cons, !app_assoc in Hh.
  apply holds_app in Hh as [[_ Hh]%holds_app _].
  rewrite length_app in Hh. fold (task_bytes pre) in Hh. rewrite length_task_bytes in Hh.
  change (length fixed_bytes) with 32%nat in Hh.
  by replace (40 + 16 * Z.of_nat (length pre)) with (8 + Z.of_nat (32 + 16 * length pre)) by lia.
Qed.

(** Once a table is set, [Pointer::GetCurrent] answers the pointer of that table,
    whatever was loaded before. *)
Lemma run_Pointer_GetCurrent loader (s : machine Gdt.t) : critical s →
  (_ ← Gdt.Set_; Gdt.Pointer_GetCurrent loader) s
  = Ok ((0xffff, s.(alloc).(Gdt.buffer)), push_event (EvLgdt 0xffff s.(alloc).(Gdt.buffer)) s).
Proof.
  intros Hc. erewrite run_bind; [|unfold Gdt.Set_; run run_AssertCritical; [|exact Hc];
    unfold Gdt.Pointer; run run_gets; reflexivity].
  unfold Gdt.Pointer_GetCurrent. run run_AssertCritical; [|exact Hc]. reflexivity.
Qed.

(** A heap that always has room; the table before it is made. *)
Definition before_gdt : machine Gdt.t := idle_machine (Gdt.mk 0 0 ∅).

(** ** Properties *)

(** C25. Gdt::Initialize loads a table in which the selectors the rest of the
    kernel uses name present 64-bit segments: 0x08 the kernel's code and 0x10
    its data at level 0, 0x1b the user's data and 0x23 its code at level 3.
    The task descriptors pushed afterwards get the selectors 0x28, 0x38, ...,
    and the processor reads the address of each task segment from its
    descriptor; no push disturbs another descriptor, and the push that would
    pass the 64 KiB of the table stops. *)
Theorem Gdt_selectors_correct `{VirtualAllocator Gdt.t} `{!RoomyHeap Gdt.t}
  (s : machine Gdt.t) (ps : list Z) (Hn : noncritical s) (Hp : Forall is_u64 ps)
  (Hlen : (length ps ≤ 4093)%nat) :
  ∃ s' g buffer,
    (_ ← Gdt.Initialize; mapM (λ p, Gdt.PushTssDescriptor (new_tss p)) ps) s
      = Ok (task_selectors 0 (length ps), s') ∧
    s'.(alloc) = g ∧ s'.(trace) = EvLgdt 0xffff buffer :: s.(trace) ∧ g.(Gdt.buffer) = buffer ∧
    segment_of g 0x08 = Segment true 0 true true ∧
    segment_of g 0x10 = Segment false 0 true true ∧
    segment_of g 0x1b = Segment false 3 true true ∧
    segment_of g 0x23 = Segment true 3 true true ∧
    (∀ i p, ps !! i = Some p →
      system_base g (0x28 + 0x10 * Z.of_nat i) = p ∧
      system_type g (0x28 + 0x10 * Z.of_nat i) = 9) ∧
    (∀ p, length ps = 4093%nat →
      Gdt.PushTssDescriptor (new_tss p) s' = Stop (AssertFail "amountUsed + 0x10 <= 0x10000")).
Proof.
  destruct (run_Gdt_Initialize s Hn) as (buffer & g0 & Hi & Ht0 & Hb0).
  set (s1 := push_event (EvLgdt 0xffff buffer) (set_alloc g0 s)) in *.
  destruct (run_push_tasks ps [] s1 Ht0 ltac:(cbn [length]; lia)) as (g & Hr & Ht & Hb).
  exists (set_alloc g s1), g, buffer. cbn [app] in Ht.
  destruct (table_fixed g ps Ht) as (Hkc & Hkd & Hud & Huc).
  split; [by run Hi|]. split_and!; try done.
  - cbn in Hb. by rewrite Hb.
  - intros i p Hl. apply (table_task g ps i p Ht); [lia|done|].
    by eapply (proj1 (Forall_lookup _ _) Hp).
  - intros p Hl. pose proof Ht as [Hu _]. rewrite Hl in Hu.
    apply run_push_full; cbn [alloc set_alloc]; rewrite ?Hu, ?length_tss_bytes; lia.
Qed.

Lemma Gdt_selectors_correct_witness :
  ∃ s' g buffer,
    (_ ← Gdt.Initialize; mapM (λ p, Gdt.PushTssDescriptor (new_tss p)) [0x180001000; 0x80002000])
      before_gdt = Ok ([0x28; 0x38], s') ∧
    s'.(alloc) = g ∧ g.(Gdt.buffer) = buffer ∧ system_base g 0x38 = 0x80002000.
Proof.
  destruct (Gdt_selectors_correct before_gdt [0x180001000; 0x80002000] (or_intror eq_refl)
    ltac:(repeat (apply Forall_cons; split); [split; by vm_compute..|by apply Forall_nil])
    ltac:(cbn; lia)) as (s' & g & buffer & Hr & Ha & _ & Hb & _ & _ & _ & _ & Ht & _).
  exists s', g, buffer. split; [exact Hr|]. split; [exact Ha|]. split; [exact Hb|].
  exact (proj1 (Ht 1%nat _ eq_refl)).
Defined.
