(* ===== verification/Clock.v ===== *)
(** * Clocks

    The clock interface and its waits (src/arch/api/clock.cpp), the two
    clocks, the programmable interval timer (src/arch/x64/clock/pit.cpp) and
    the HPET (hpet.cpp), and the module that picks one (module.cpp).  Between
    two reads of a clock the rest of the machine runs: [advance] is what it
    does, interrupts included. *)

From stdpp Require Import base numbers list gmap strings.
From Stdlib Require Import ZArith Lia.
From S2P Require Import Prelude Machine Concrete Interrupts Devices Acpi AcpiRoot Apic.
#[local] Open Scope Z_scope.

(** [ansa::Rational<uint64_t>]. *)
Class AnsaRational := {
  rational : Type;
  Rational : Z → Z → rational;
  Flip : rational → rational;
  ScaleInteger : rational → Z → Z;
}.

(** What the rest of the machine does while a processor spins once. *)
Class World (A : Type) := { advance : machine A → machine A }.

(** ** The interface *)

Record Clock {A : Type} `{AnsaRational} : Type := mkClock {
  GetTicks : M (machine A) Z;
  GetMicrosPerTick : M (machine A) rational;
}.
Arguments Clock A {_}.

Section Clock.
Context {A : Type} `{AnsaRational, World A} (c : Clock A).
Implicit Types (s : machine A).

Definition GetMicros : M (machine A) Z :=
  r ← c.(GetMicrosPerTick);
  t ← c.(GetTicks);
  mret (ScaleInteger r t).

(** [while (GetTicks() < ticks);] *)
Fixpoint wait_loop (fuel : nat) (ticks : Z) : M (machine A) unit :=
  match fuel with
  | O => stop OutOfFuel
  | S fuel' =>
      t ← c.(GetTicks);
      if t <? ticks then _ ← modify advance; wait_loop fuel' ticks else mret tt
  end.

Definition WaitUntil (fuel : nat) (ticks : Z) : M (machine A) unit :=
  _ ← AssertNoncritical; wait_loop fuel ticks.

Definition Sleep (fuel : nat) (ticks : Z) : M (machine A) unit :=
  t ← c.(GetTicks); WaitUntil fuel (t +u ticks).

Definition MicroSleep (fuel : nat) (micros : Z) : M (machine A) unit :=
  now ← c.(GetTicks);
  r ← c.(GetMicrosPerTick);
  let tickCount := ScaleInteger (Flip r) micros in
  WaitUntil fuel (now +u tickCount).

(** *** The waits end *)

(** [advance], so many times. *)
Fixpoint after (n : nat) s : machine A :=
  match n with O => s | S n' => after n' (advance s) end.

(** In the states of [inv], which the machine does not leave, the clock shows
    [now] and reading it changes nothing; while it is short of the target it
    never goes back, and after a while it moves on. *)
Record runs (inv : machine A → Prop) (now : machine A → Z) (target : Z) : Prop := {
  runs_inv : ∀ s, inv s → inv (advance s);
  runs_read : ∀ s, inv s → c.(GetTicks) s = Ok (now s, s);
  runs_mono : ∀ s, inv s → now s < target → now s ≤ now (advance s);
  runs_moves : ∀ s, inv s → now s < target → ∃ n, now s < now (after n s);
}.

(** The loop returns in the first state where the clock shows the target. *)
Definition waits (now : machine A → Z) (target : Z) s : Prop :=
  ∃ fuel n, wait_loop fuel target s = Ok (tt, after n s) ∧
    target ≤ now (after n s) ∧ (∀ k, (k < n)%nat → now (after k s) < target).

Lemma waits_advance inv now target s : runs inv now target → inv s → now s < target →
  waits now target (advance s) → waits now target s.
Proof.
  intros Hr Hi Hlt (fuel & k & Hw & Hk & Hb). exists (S fuel), (S k). cbn [wait_loop after].
  split; [|split; [done|]].
  - run (runs_read _ _ _ Hr s Hi). destruct (Z.ltb_spec (now s) target); [|lia].
    by run run_modify.
  - intros [|i] Hik; cbn [after]; [done|]. apply Hb. lia.
Qed.

Lemma wait_loop_ends inv now target s : runs inv now target → inv s → waits now target s.
Proof.
  intros Hr. remember (Z.to_nat (target - now s)) as d eqn:Hd.
  revert s Hd. induction (lt_wf d) as [d _ IH]. intros s Hd Hi.
  destruct (Z.ltb_spec (now s) target) as [Hlt|Hge].
  2:{ exists 1%nat, 0%nat. cbn [wait_loop after]. split; [|split; [done|lia]].
      run (runs_read _ _ _ Hr s Hi). destruct (Z.ltb_spec (now s) target); [lia|done]. }
  destruct (runs_moves _ _ _ Hr s Hi Hlt) as [n Hn].
  (* the first steps, up to the one where the clock moves *)
  assert (∀ m s', inv s' → now s' < target → now s ≤ now s' → now s < now (after m s') →
    waits now target s') as Hm; [|exact (Hm n s Hi Hlt (Z.le_refl _) Hn)].
  induction m as [|m IHm]; intros s' Hi' Hlt' Hle Hmv; cbn [after] in Hmv.
  - apply (IH (Z.to_nat (target - now s'))); [lia|done|done].
  - apply (waits_advance inv); [done..|].
    pose proof (runs_mono _ _ _ Hr s' Hi' Hlt'). pose proof (runs_inv _ _ _ Hr s' Hi').
    destruct (Z.ltb_spec (now (advance s')) target); [apply IHm; [done|done|lia|done]|].
    apply (IH (Z.to_nat (target - now (advance s')))); [lia|done|done].
Qed.

(** More fuel changes nothing. *)
Lemma wait_loop_fuel fuel fuel' ticks s s' :
  wait_loop fuel ticks s = Ok (tt, s') → (fuel ≤ fuel')%nat →
  wait_loop fuel' ticks s = Ok (tt, s').
Proof.
  revert fuel' s. induction fuel as [|fuel IH]; intros [|fuel'] s Hw Hle; try done; [lia|].
  cbn [wait_loop] in *. apply bind_ok_inv in Hw as (t & s1 & Ht & Hw). run Ht.
  destruct (t <? ticks); [|done]. apply bind_ok_inv in Hw as (u & s2 & Hu & Hw).
  run Hu. apply IH; [done|lia].
Qed.
End Clock.

(** ** The HPET *)

Module Hpet.

Record t `{AnsaRational} : Type := mk { map : window; microsPerTick : rational }.

Section Ops.
Context {A : Type} `{WindowMap A, Device, AnsaRational}.

(** A register is eight bytes. *)
Definition reg (idx : Z) : Z := idx * 8.

Definition ExtractTicksPerMin (map : window) : M (machine A) Z :=
  v ← mmio_read map (reg 0) 8;
  let period := v .>> 0x20 in
  if period =? 0 then stop (Undefined "division by zero")
  else mret (60000000000000000 / period).

Definition new (info : Z) : M (machine A) t :=
  map ← open_window (AcpiModule.hpet_address info) 0x1000;
  ticksPerMin ← ExtractTicksPerMin map;
  mret (mk _ map (Rational 60000000 ticksPerMin)).

Definition Start (h : t) : M (machine A) unit :=
  _ ← AssertNoncritical;
  ScopedCritical (
    v ← mmio_read h.(map) (reg 2) 8;
    mmio_write h.(map) (reg 2) 8 (v .| 1)).

Definition Stop (h : t) : M (machine A) unit :=
  _ ← AssertNoncritical;
  ScopedCritical (
    v ← mmio_read h.(map) (reg 2) 8;
    mmio_write h.(map) (reg 2) 8 (v .& (2 ^ 64 - 1 - 1))).

Definition GetTicks (h : t) : M (machine A) Z := mmio_read h.(map) (reg 0x1e) 8.

Definition GetMicrosPerTick (h : t) : M (machine A) rational := mret h.(microsPerTick).

Definition clock (h : t) : Clock A := mkClock _ _ (GetTicks h) (GetMicrosPerTick h).
End Ops.
End Hpet.

(** The interrupt vectors (src/arch/x64/interrupts/vectors.hpp). *)
Module IntVectors.
Definition Pit : Z := 0x20.
Definition LapicTimer : Z := 0x21.
Definition Invlpg : Z := 0x22.
Definition Wakeup : Z := 0x23.
Definition Panic : Z := 0xef.
End IntVectors.

(** ** The interval timer *)

Module Pit.

Record t : Type := mk { divisor : Z; counter : Z }.

(** The objects, by their address, the one that runs, and the table of
    interrupt routines. *)
Record state : Type := mkState {
  pits : gmap Z t;
  currentPit : option Z;
  irt : Irt.t;
}.

Definition set_pits (p : gmap Z t) (st : state) : state := mkState p st.(currentPit) st.(irt).
Definition set_current (o : option Z) (st : state) : state := mkState st.(pits) o st.(irt).
Definition set_irt (i : Irt.t) (st : state) : state := mkState st.(pits) st.(currentPit) i.

Section Ops.
Context `{WindowMap state, AnsaLock state, Device, Cpuid, AnsaRational}.
(** The address of [InterruptHandler]; the I/O APIC and the local APIC of
    the modules. *)
Context (handler : Z) (ioApic : IOApic.t) (xapic : XApic.t).

Definition update (f : state → state) : M (machine state) unit :=
  modify (λ s, set_alloc (f s.(alloc)) s).

Definition load (this : Z) : M (machine state) t :=
  s ← get;
  match s.(alloc).(pits) !! this with
  | Some p => mret p
  | None => stop (Undefined "no clock at the address")
  end.

Definition new (this divisor : Z) : M (machine state) unit :=
  update (λ st, set_pits (<[this := mk divisor 0]> st.(pits)) st).

Definition Start (this : Z) : M (machine state) unit :=
  _ ← AssertNoncritical;
  current ← gets (λ s, s.(alloc).(currentPit));
  _ ← assert (bool_decide (current = None)) "currentPit == NULL";
  p ← load this;
  _ ← update (λ st, set_pits (<[this := mk p.(divisor) 0]> st.(pits)) st);
  _ ← SetCritical true;
  _ ← OutB 0x43 0x34;
  _ ← OutB 0x40 (u8 p.(divisor));
  _ ← OutB 0x40 (u8 (p.(divisor) .>> 8));
  _ ← SetCritical false;
  _ ← update (set_current (Some this));
  _ ← update (λ st, set_irt (Irt.Set_ IntVectors.Pit handler st.(irt)) st);
  IOApic.MapIrq ioApic 0 IntVectors.Pit.

Definition Stop (this : Z) : M (machine state) unit :=
  _ ← AssertNoncritical;
  current ← gets (λ s, s.(alloc).(currentPit));
  _ ← assert (bool_decide (current = Some this)) "currentPit == this";
  _ ← update (set_current None);
  _ ← OutB 0x43 0x34;
  _ ← OutB 0x40 0xff;
  _ ← OutB 0x40 0xff;
  IOApic.MaskIrq ioApic IntVectors.Pit.

Definition GetTicks (this : Z) : M (machine state) Z :=
  p ← load this; mret p.(counter).

Definition GetMicrosPerTick (this : Z) : M (machine state) rational :=
  p ← load this;
  if p.(divisor) =? 0 then stop (Undefined "division by zero")
  else mret (Rational 1000000 (1193182 / p.(divisor))).

Definition InterruptHandler : M (machine state) unit :=
  _ ← AssertCritical;
  current ← gets (λ s, s.(alloc).(currentPit));
  _ ← match current with
      | Some this =>
          p ← load this;
          update (λ st, set_pits (<[this := mk p.(divisor) (p.(counter) +u 1)]> st.(pits)) st)
      | None => mret tt
      end;
  lapic ← LapicModule.GetLapic xapic;
  Lapic.SendEoi lapic.

Definition clock (this : Z) : Clock state :=
  mkClock _ _ (GetTicks this) (GetMicrosPerTick this).
End Ops.
End Pit.

(** ** The module *)

Module ClockModule.

Inductive object `{AnsaRational} : Type := ObjHpet (h : Hpet.t) | ObjPit (this : Z).

Section Ops.
Context `{WindowMap Pit.state, AnsaLock Pit.state, Device, Cpuid, AnsaRational}.
Context `{VirtualAllocator Pit.state}.
Context (handler : Z) (ioApic : IOApic.t) (sizeof_Hpet sizeof_Pit : Z).

(** [clock->Start()] *)
Definition start (c : object) : M (machine Pit.state) unit :=
  match c with
  | ObjHpet h => Hpet.Start h
  | ObjPit this => Pit.Start handler ioApic this
  end.

(** [GetClock()] *)
Definition GetClock (clock : option object) : M (machine Pit.state) (Clock Pit.state) :=
  match clock with
  | None => stop (AssertFail "clock != NULL")
  | Some (ObjHpet h) => mret (Hpet.clock h)
  | Some (ObjPit this) => mret (Pit.clock this)
  end.

Definition TryTsc : M (machine Pit.state) unit := AssertNoncritical.

Definition Initialize (acpi : AcpiModule.t) : M (machine Pit.state) object :=
  clock ← match acpi.(AcpiModule.hpetTable) with
          | Some info =>
              h ← New sizeof_Hpet (Hpet.new info);
              _ ← put_text "HPET clock initialized";
              _ ← put_endl;
              mret (ObjHpet <$> h)
          | None =>
              p ← VAlloc sizeof_Pit;
              _ ← match p with Some this => Pit.new this 1193 | None => mret tt end;
              _ ← put_text "PIT clock initialized";
              _ ← put_endl;
              mret (ObjPit <$> p)
          end;
  match clock with
  | None => stop (Undefined "clock is null")
  | Some c => _ ← start c; mret c
  end.
End Ops.
End ClockModule.

(** ** Interrupts drive the interval timer *)

Section PitWorld.
Context `{WindowMap Pit.state, LockLaws Pit.state, Device, Cpuid, AnsaRational}.
Context (base : Z).
Implicit Types (s : machine Pit.state).

Let xapic : XApic.t := XApic.mk (Window base 0x1000) base.

(** Where interrupts are on, a turn of the loop sees one timer interrupt: its
    handler runs in a critical section. *)
Definition pit_advance s : machine Pit.state :=
  if s.(iflag) then
    match Pit.InterruptHandler xapic (set_iflag false s) with
    | Ok (_, s') => set_iflag true s'
    | Stop _ => s
    end
  else s.

Instance pit_world : World Pit.state := { advance := pit_advance }.

Definition pit_at (this : Z) s : Pit.t := default (Pit.mk 0 0) (s.(alloc).(Pit.pits) !! this).
Definition ticks_at (this : Z) s : Z := (pit_at this s).(Pit.counter).

(** The clock runs and interrupts are on. *)
Definition running (this : Z) s : Prop :=
  s.(critical_loaded) = true ∧ s.(iflag) = true ∧
  s.(alloc).(Pit.currentPit) = Some this ∧ is_Some (s.(alloc).(Pit.pits) !! this) ∧
  is_u64 (ticks_at this s).

Lemma run_load this s : is_Some (s.(alloc).(Pit.pits) !! this) →
  Pit.load this s = Ok (pit_at this s, s).
Proof. intros [p Hp]. unfold Pit.load, pit_at. unfold_m. by rewrite Hp. Qed.

Lemma run_SendEoi s : critical s → ∃ s', (lapic ← LapicModule.GetLapic xapic; Lapic.SendEoi lapic) s
  = Ok (tt, s') ∧ s'.(alloc) = s.(alloc) ∧ s'.(iflag) = s.(iflag) ∧
  s'.(critical_loaded) = s.(critical_loaded).
Proof.
  intros Hc. run LapicModule.run_GetLapic; [|done].
  unfold Lapic.SendEoi. run run_AssertCritical; [|done].
  destruct LapicModule.has_x2; cbn [LapicModule.object]; cbn [Lapic.WriteReg X2Apic.lapic XApic.lapic].
  - unfold X2Apic.WriteReg, WriteMsr. do 2 (run run_AssertCritical; [|done]).
    eexists. split; [reflexivity|done].
  - unfold XApic.WriteReg. run run_AssertCritical; [|done].
    change (negb (Lapic.RegEoi =? Lapic.RegIcr)) with true. cbn iota.
    run_assert ltac:(done). rewrite run_mmio_write by (by vm_compute).
    eexists. split; [reflexivity|done].
Qed.

Lemma run_InterruptHandler this s :
  critical s → s.(alloc).(Pit.currentPit) = Some this →
  is_Some (s.(alloc).(Pit.pits) !! this) →
  let p := pit_at this s in
  ∃ s', Pit.InterruptHandler xapic s = Ok (tt, s') ∧
    s'.(alloc) = Pit.set_pits (<[this := Pit.mk p.(Pit.divisor) (p.(Pit.counter) +u 1)]>
                   s.(alloc).(Pit.pits)) s.(alloc) ∧
    s'.(iflag) = s.(iflag) ∧ s'.(critical_loaded) = s.(critical_loaded).
Proof.
  intros Hc Hcur Hp p. unfold Pit.InterruptHandler. run run_AssertCritical; [|done].
  run run_gets. rewrite Hcur.
  erewrite run_bind; [|run run_load; [|done]; unfold Pit.update; apply run_modify].
  set (s1 := set_alloc _ s). destruct (run_SendEoi s1 Hc) as (s' & Hr & Ha & Hi & Hl).
  exists s'. split; [exact Hr|]. by rewrite Ha, Hi, Hl.
Qed.

Lemma pit_advance_running this s : running this s →
  running this (pit_advance s) ∧ ticks_at this (pit_advance s) = ticks_at this s +u 1.
Proof.
  intros (Hl & Hi & Hcur & Hp & Ht). unfold pit_advance. rewrite Hi.
  destruct (run_InterruptHandler this (set_iflag false s)) as (s' & Hr & Ha & _ & Hl');
    [by right|done|done|].
  cbn [alloc set_iflag critical_loaded] in Ha, Hl'. rewrite Hr.
  assert (ticks_at this (set_iflag true s') = ticks_at this s +u 1) as Hticks.
  { unfold ticks_at, pit_at at 1. cbn [alloc set_iflag]. rewrite Ha. cbn [Pit.pits Pit.set_pits].
    by rewrite lookup_insert_eq. }
  split; [|done]. unfold running. rewrite Hticks. cbn [alloc set_iflag critical_loaded iflag].
  rewrite Ha, Hl'. split_and!; try done; [|apply u64_range].
  cbn [Pit.pits Pit.set_pits]. rewrite lookup_insert_eq. by eexists.
Qed.

Lemma after_ticks this n s : running this s → ticks_at this s + Z.of_nat n < 2 ^ 64 →
  running this (after n s) ∧ ticks_at this (after n s) = ticks_at this s + Z.of_nat n.
Proof.
  revert s. induction n as [|n IH]; intros s Hr Hlt; cbn [after]; [split; [done|lia]|].
  change (advance s) with (pit_advance s).
  destruct (pit_advance_running this s Hr) as [Hr' Ht].
  destruct Hr as (_ & _ & _ & _ & Hu). unfold is_u64 in Hu.
  rewrite u64_small in Ht by (unfold is_u64; lia).
  destruct (IH _ Hr' ltac:(lia)) as [Ha Hb]. split; [done|lia].
Qed.

Lemma pit_runs this target : target < 2 ^ 64 →
  runs (Pit.clock this) (running this) (ticks_at this) target.
Proof.
  intros Htg. constructor.
  - intros s Hs. apply pit_advance_running, Hs.
  - intros s (_ & _ & _ & Hp & _). cbn [Pit.clock GetTicks]. unfold Pit.GetTicks.
    by run run_load.
  - intros s Hs Hlt. destruct (pit_advance_running this s Hs) as [_ Ht].
    cbn [advance pit_world]. rewrite Ht. destruct Hs as (_ & _ & _ & _ & Hu).
    unfold is_u64 in Hu. rewrite u64_small by (unfold is_u64; lia). lia.
  - intros s Hs Hlt. exists 1%nat.
    destruct (after_ticks this 1 s Hs ltac:(lia)) as [_ Ht]. lia.
Qed.

(** A wait of the running clock takes as many interrupts as it has ticks. *)
Lemma pit_waits this ticks s : running this s → 0 ≤ ticks →
  ticks_at this s + ticks < 2 ^ 64 →
  ∃ fuel0, ∀ fuel, (fuel0 ≤ fuel)%nat →
    wait_loop (Pit.clock this) fuel (ticks_at this s + ticks) s
    = Ok (tt, after (Z.to_nat ticks) s).
Proof.
  intros Hr Ht Hlt.
  destruct (wait_loop_ends _ _ _ _ s (pit_runs this _ Hlt) Hr) as (fuel & n & Hw & Hn & Hk).
  exists fuel. intros fuel' Hle.
  assert (n = Z.to_nat ticks) as <-; [|by eapply wait_loop_fuel].
  assert (∀ k, Z.of_nat k ≤ ticks → ticks_at this (after k s) = ticks_at this s + Z.of_nat k) as Ha.
  { intros k Hkt. by apply after_ticks; [|lia]. }
  destruct (decide (n = Z.to_nat ticks)) as [|Hne]; [done|]. exfalso.
  destruct (decide (n < Z.to_nat ticks)%nat).
  - rewrite Ha in Hn by lia. lia.
  - specialize (Hk (Z.to_nat ticks) ltac:(lia)). rewrite Ha in Hk by lia. lia.
Qed.

(** C26. Sleeping on the running interval timer ends: with interrupts on, a
    sleep of some ticks returns after exactly as many timer interrupts, each
    of which adds one to the counter and is acknowledged.  In a critical
    section, where no interrupt would arrive, a sleep stops at once instead of
    spinning for ever; and Pit::Stop always stops the machine, at its first
    port write, because it asserts that its caller is noncritical and then
    writes the port without entering a critical section. *)
Theorem Pit_Sleep_ends (ioApic : IOApic.t) (this ticks : Z) (s : machine Pit.state)
  (Hr : running this s) (Ht : 0 ≤ ticks) (Hlt : ticks_at this s + ticks < 2 ^ 64) :
  (∃ fuel0, ∀ fuel, (fuel0 ≤ fuel)%nat →
    Sleep (Pit.clock this) fuel ticks s = Ok (tt, after (Z.to_nat ticks) s)) ∧
  ticks_at this (after (Z.to_nat ticks) s) = ticks_at this s + ticks ∧
  (∀ fuel, Sleep (Pit.clock this) fuel ticks (set_iflag false s)
    = Stop (AssertFail "AssertNoncritical")) ∧
  Pit.Stop ioApic this s = Stop (AssertFail "AssertCritical").
Proof.
  pose proof Hr as (Hl & Hi & Hcur & Hp & Hu). unfold is_u64 in Hu. split_and!.
  - destruct (pit_waits this ticks s Hr Ht Hlt) as [fuel0 Hw]. exists fuel0.
    intros fuel Hle. unfold Sleep, WaitUntil. run (runs_read _ _ _ _ (pit_runs this _ Hlt) s Hr).
    rewrite u64_small by (unfold is_u64; lia).
    run run_AssertNoncritical; [|by right]. by apply Hw.
  - destruct (after_ticks this (Z.to_nat ticks) s Hr ltac:(lia)) as [_ Ha]. lia.
  - intros fuel. unfold Sleep. cbn [Pit.clock GetTicks]. unfold Pit.GetTicks.
    erewrite run_bind; [|by run run_load]. apply run_bind_stop, run_AssertNoncritical_fail.
    intros [Hf|Hf]; cbn in Hf; congruence.
  - unfold Pit.Stop. run run_AssertNoncritical; [|by right]. run run_gets.
    run_assert ltac:(by apply bool_decide_true). unfold Pit.update. run run_modify.
    apply run_bind_stop. unfold OutB. apply run_bind_stop, run_AssertCritical_fail.
    intros [Hf|Hf]; cbn in Hf; congruence.
Qed.
End PitWorld.

(** A rational number as a pair. *)
#[export] Instance pair_rational : AnsaRational := {
  rational := Z * Z;
  Rational n d := (n, d);
  Flip r := (r.2, r.1);
  ScaleInteger r x := u64 (x * r.1) / r.2;
}.

(** A machine whose timer, at address 0x1000, has counted to five. *)
Definition example_pit : machine Pit.state :=
  idle_machine (Pit.mkState {[0x1000 := Pit.mk 1193 5]} (Some 0x1000) (replicate 256 0)).

Lemma Pit_Sleep_ends_witness :
  ∃ fuel0, ∀ fuel, (fuel0 ≤ fuel)%nat →
    @Sleep _ _ (pit_world 0xfee00000) (Pit.clock 0x1000) fuel 3 example_pit
    = Ok (tt, @after _ (pit_world 0xfee00000) 3 example_pit).
Proof.
  destruct (Pit_Sleep_ends 0xfee00000 example_ioapic 0x1000 3 example_pit
    ltac:(unfold running; split_and!; [done..|by eexists|split; by vm_compute])
    ltac:(lia) ltac:(by vm_compute)) as [Hs _].
  exact Hs.
Defined.
