(* ===== verification/Processor.v ===== *)
(** * Processors, their timers and their domain

    The object of a processor (src/arch/x64/smp/cpu.cpp), its timer
    (src/arch/x64/timer/lapic-timer.cpp) and the calibration of the timers
    (timer/module.cpp), the domain that holds the processors
    (src/arch/x64/domains/domain.cpp) and the routing of allocations over
    domains (src/arch/api/domain.cpp).  Objects live in a store by address;
    the current processor is the one its GS base points to. *)

From stdpp Require Import base numbers list gmap strings.
From Stdlib Require Import ZArith Lia.
From S2P Require Import Prelude Machine Concrete Interrupts Devices Acpi AcpiRoot Apic Segments Clock.
#[local] Open Scope Z_scope.

(** ** Domains

    What a domain offers, and the operations of [anarch::Domain] over a list
    of them: the domain itself first, then its siblings in order. *)

Module ApiDomain.

Record Allocators {A : Type} : Type := mk {
  VirtualAlloc : Z → M (machine A) (option Z);
  VirtualFree : Z → M (machine A) unit;
  VirtualOwns : Z → M (machine A) bool;
  PhysAlloc : Z → Z → M (machine A) (option Z);
  PhysFree : Z → M (machine A) unit;
  PhysOwns : Z → M (machine A) bool;
}.
Arguments Allocators : clear implicits.

Section Ops.
Context {A : Type}.

(** The first domain of the list that can serve the request. *)
Fixpoint first_alloc (f : Allocators A → M (machine A) (option Z)) (l : list (Allocators A))
  : M (machine A) (option Z) :=
  match l with
  | [] => mret None
  | d :: l' =>
      r ← f d;
      match r with
      | Some p => mret (Some p)
      | None => first_alloc f l'
      end
  end.

(** The first domain of the list that owns the memory frees it. *)
Fixpoint first_free (owns : Allocators A → M (machine A) bool)
    (free : Allocators A → M (machine A) unit) (what : string) (l : list (Allocators A))
  : M (machine A) unit :=
  match l with
  | [] => panic what
  | d :: l' =>
      b ← owns d;
      if (b : bool) then free d else first_free owns free what l'
  end.

Definition Alloc (own : Allocators A) (siblings : list (Allocators A)) (size : Z)
  : M (machine A) (option Z) :=
  first_alloc (λ d, d.(VirtualAlloc) size) (own :: siblings).

Definition Free (own : Allocators A) (siblings : list (Allocators A)) (ptr : Z)
  : M (machine A) unit :=
  first_free (λ d, d.(VirtualOwns) ptr) (λ d, d.(VirtualFree) ptr)
    "Domain::Free() - no Domain owns the specified memory" (own :: siblings).

Definition AllocPhys (own : Allocators A) (siblings : list (Allocators A)) (size align : Z)
  : M (machine A) (option Z) :=
  first_alloc (λ d, d.(PhysAlloc) size align) (own :: siblings).

Definition FreePhys (own : Allocators A) (siblings : list (Allocators A)) (addr : Z)
  : M (machine A) unit :=
  first_free (λ d, d.(PhysOwns) addr) (λ d, d.(PhysFree) addr)
    "Domain::FreePhys() - no Domain owns the physical address" (own :: siblings).

(** [New<T>(args)]: the object and its address; [None] is the null pointer. *)
Definition New {T} (own : Allocators A) (siblings : list (Allocators A)) (size : Z)
    (construct : M (machine A) T) : M (machine A) (option (Z * T)) :=
  buf ← Alloc own siblings size;
  match buf with
  | None => mret None
  | Some buf => x ← construct; mret (Some (buf, x))
  end.

Definition Delete {T} (own : Allocators A) (siblings : list (Allocators A))
    (destroy : T → M (machine A) unit) (ptr : Z) (x : T) : M (machine A) unit :=
  _ ← destroy x; Free own siblings ptr.
End Ops.

End ApiDomain.

(** ** The timer of a processor *)

Module LapicTimer.

Record t `{AnsaRational} : Type := mk {
  ticksPerMicro : rational;
  calibrated : bool;
  isExpecting : bool;
  callbackFunction : Z;
  callbackArg : Z;
}.

Section Ops.
Context `{AnsaRational}.

(** The constructor leaves the callback of the memory it is given. *)
Definition new (old : t) : t :=
  mk _ (Rational 1 0) false false old.(callbackFunction) old.(callbackArg).

Definition GetTicksPerMicro (timer : t) : rational := timer.(ticksPerMicro).

Definition expect (fn arg : Z) (timer : t) : t :=
  mk _ timer.(ticksPerMicro) timer.(calibrated) true fn arg.
Definition unexpect (timer : t) : t :=
  mk _ timer.(ticksPerMicro) timer.(calibrated) false timer.(callbackFunction) timer.(callbackArg).
Definition calibrate (r : rational) (timer : t) : t :=
  mk _ r true timer.(isExpecting) timer.(callbackFunction) timer.(callbackArg).
End Ops.
End LapicTimer.

(** ** The processor object *)

Module Cpu.

Record t `{AnsaRational} : Type := mk {
  wakeupFunction : Z;          (* 0: NULL *)
  wakeupArg : Z;
  x2 : bool;                   (* which object [lapic] refers to *)
  lapicTimer : LapicTimer.t;
  thisCpu : Z; syscallStack : Z; userData : Z; (* localData *)
  taskSegment : Tss;
  apicId : Z;
  stackTop : Z;
}.

Definition StackSize : Z := 0x10000.

Section Set_.
Context `{AnsaRational}.
Definition set_wakeup (f a : Z) (c : t) : t :=
  mk _ f a c.(x2) c.(lapicTimer) c.(thisCpu) c.(syscallStack) c.(userData) c.(taskSegment)
    c.(apicId) c.(stackTop).
Definition set_timer (l : LapicTimer.t) (c : t) : t :=
  mk _ c.(wakeupFunction) c.(wakeupArg) c.(x2) l c.(thisCpu) c.(syscallStack) c.(userData)
    c.(taskSegment) c.(apicId) c.(stackTop).
Definition set_userData (v : Z) (c : t) : t :=
  mk _ c.(wakeupFunction) c.(wakeupArg) c.(x2) c.(lapicTimer) c.(thisCpu) c.(syscallStack) v
    c.(taskSegment) c.(apicId) c.(stackTop).
(** [taskSegment.rsp[0] = stack; localData.syscallStack = stack] *)
Definition set_kernel_top (stack : Z) (c : t) : t :=
  mk _ c.(wakeupFunction) c.(wakeupArg) c.(x2) c.(lapicTimer) c.(thisCpu) stack c.(userData)
    (mkTss (<[0%nat := stack]> c.(taskSegment).(rsp)) c.(taskSegment).(ist)
      c.(taskSegment).(ioplBase)) c.(apicId) c.(stackTop).
End Set_.
End Cpu.

(** The domain: the memory of its processors, and how many there are. *)
Module Domain.
Record t : Type := mk { cpuData : Z; capacity : Z; count : Z }.
End Domain.

(** The module of the system calls: their handler (0: none), and the
    processors whose registers are not set yet. *)
Module SyscallModule.
Record t : Type := mk { handler : Z; initCount : Z }.
Definition new : t := mk 0 0.
End SyscallModule.

(** The state of the components that processors use. *)
Record smp `{AnsaRational} : Type := mkSmp {
  cpus : gmap Z Cpu.t;         (* by address *)
  gdt : Gdt.t;
  idt : Idt.t;
  clocks : Pit.state;          (* and the interrupt table *)
  mainDomain : option Domain.t;
  initFlag : bool;             (* DomainList::initFlag *)
  syscall : SyscallModule.t;
  panicCount : Z;              (* PanicModule::panicCount *)
}.

Section Parts.
Context `{AnsaRational}.
Definition set_cpus x (w : smp) : smp :=
  mkSmp _ x w.(gdt) w.(idt) w.(clocks)
    w.(mainDomain) w.(initFlag) w.(syscall) w.(panicCount).
Definition set_gdt x (w : smp) : smp :=
  mkSmp _ w.(cpus) x w.(idt) w.(clocks)
    w.(mainDomain) w.(initFlag) w.(syscall) w.(panicCount).
Definition set_idt x (w : smp) : smp :=
  mkSmp _ w.(cpus) w.(gdt) x w.(clocks)
    w.(mainDomain) w.(initFlag) w.(syscall) w.(panicCount).
Definition set_clocks x (w : smp) : smp :=
  mkSmp _ w.(cpus) w.(gdt) w.(idt) x
    w.(mainDomain) w.(initFlag) w.(syscall) w.(panicCount).
Definition set_domain x (w : smp) : smp :=
  mkSmp _ w.(cpus) w.(gdt) w.(idt) w.(clocks)
    x w.(initFlag) w.(syscall) w.(panicCount).
Definition set_initFlag x (w : smp) : smp :=
  mkSmp _ w.(cpus) w.(gdt) w.(idt) w.(clocks)
    w.(mainDomain) x w.(syscall) w.(panicCount).
Definition set_syscall x (w : smp) : smp :=
  mkSmp _ w.(cpus) w.(gdt) w.(idt) w.(clocks)
    w.(mainDomain) w.(initFlag) x w.(panicCount).
Definition set_panicCount x (w : smp) : smp :=
  mkSmp _ w.(cpus) w.(gdt) w.(idt) w.(clocks)
    w.(mainDomain) w.(initFlag) w.(syscall) x.

Definition update (f : smp → smp) : M (machine smp) unit :=
  modify (λ s, set_alloc (f s.(alloc)) s).
Definition on_gdt {X} : M (machine Gdt.t) X → M (machine smp) X := zoom gdt set_gdt.
Definition on_idt {X} (m : M Idt.t X) : M (machine smp) X := λ s,
  match m s.(alloc).(idt) with
  | Ok (x, i) => Ok (x, set_alloc (set_idt i s.(alloc)) s)
  | Stop f => Stop f
  end.
Definition set_routine (vector routine : Z) : M (machine smp) unit :=
  update (λ w, set_clocks (Pit.set_irt (Irt.Set_ vector routine w.(clocks).(Pit.irt)) w.(clocks)) w).
End Parts.

Section Ops.
Context `{AnsaRational} `{WindowMap smp, AnsaLock smp, Device, Cpuid, VirtualAllocator smp, World smp}.

(** The object of the memory-mapped local APIC, the clock, the offsets of
    [localData] and [taskSegment] in a processor object and its size, what
    fresh memory holds, and the physical allocator. *)
Context (xapic : XApic.t) (clk : Clock smp).
Context (offLocalData offTaskSegment sizeof_Cpu : Z) (junk : Cpu.t).
Context (physAlloc : Z → Z → M (machine smp) (option Z)) (physFree : Z → M (machine smp) unit)
  (physOwns : Z → M (machine smp) bool).
(** Calling a function with an argument. *)
Context (call : Z → Z → M (machine smp) unit).

Definition lapic_of (x2 : bool) : Lapic.Lapic smp := LapicModule.object xapic x2.

Definition load (this : Z) : M (machine smp) Cpu.t :=
  s ← get;
  match s.(alloc).(cpus) !! this with
  | Some c => mret c
  | None => stop (Undefined "no processor at the address")
  end.

Definition store (this : Z) (c : Cpu.t) : M (machine smp) unit :=
  update (λ w, set_cpus (<[this := c]> w.(cpus)) w).

(** [mov %gs:0, ptr]: the GS base points to the local data of an object. *)
Definition gs_object : M (machine smp) Z :=
  gets (λ s, default 0 (s.(msrs) !! 0xc0000101) - offLocalData).

Definition GetCurrent : M (machine smp) Z :=
  this ← gs_object; c ← load this; mret c.(Cpu.thisCpu).

Definition GetUserInfo : M (machine smp) Z :=
  this ← gs_object; c ← load this; mret c.(Cpu.userData).

Definition SetUserInfo (info : Z) : M (machine smp) unit :=
  this ← gs_object; c ← load this; store this (Cpu.set_userData info c).

(** *** The domain *)

(** [DomainList::GetGlobal()[0]] *)
Definition GetDomain : M (machine smp) Domain.t :=
  s ← get;
  match s.(alloc).(mainDomain) with
  | Some d => mret d
  | None => stop (Undefined "no domain")
  end.

Definition GetCount : Z := 1.

Definition main_allocators : ApiDomain.Allocators smp :=
  ApiDomain.mk _ VAlloc VFree VOwns physAlloc physFree physOwns.

(** The [GetCount() - 1] siblings: none. *)
Definition siblings : list (ApiDomain.Allocators smp) := [].

Definition GetCpu (d : Domain.t) (idx : Z) : Z := d.(Domain.cpuData) +u sizeof_Cpu *u idx.

Definition new_Domain (capacity : Z) : M (machine smp) Domain.t :=
  data ← VAlloc (sizeof_Cpu *u capacity);
  match data with
  | None => panic "Domain::Domain() - failed to allocate CPUs"
  | Some data => mret (Domain.mk data capacity 0)
  end.

Definition delete_Domain (d : Domain.t) : M (machine smp) unit := VFree d.(Domain.cpuData).

(** [GetSibling] of the only domain. *)
Definition GetSibling (i : Z) : M (machine smp) Domain.t :=
  panic "Domain::GetSibling() - not supported by x64".

(** *** The processor object *)

(** [GetLapicCritical()] *)
Definition GetLapicCritical : M (machine smp) bool := ScopedCritical LapicModule.IsX2.

(** The constructor. *)
Definition new_Cpu (this : Z) : M (machine smp) unit :=
  x2 ← GetLapicCritical;
  old ← gets (λ s, default junk (s.(alloc).(cpus) !! this));
  _ ← store this (Cpu.mk _ old.(Cpu.wakeupFunction) old.(Cpu.wakeupArg) x2
        (LapicTimer.new old.(Cpu.lapicTimer)) this old.(Cpu.syscallStack) 0
        old.(Cpu.taskSegment) old.(Cpu.apicId) old.(Cpu.stackTop));
  _ ← GetDomain;
  stack ← ApiDomain.Alloc main_allocators siblings Cpu.StackSize;
  match stack with
  | None => panic "Cpu::Cpu() - failed to allocate stack"
  | Some stack =>
      let top := stack +u Cpu.StackSize in
      ScopedCritical (
        _ ← LocalSegment.Write (this +u offLocalData);
        c ← load this;
        let tss := mkTss c.(Cpu.taskSegment).(rsp) (replicate 7 top) c.(Cpu.taskSegment).(ioplBase) in
        let desc := new_tss (this +u offTaskSegment) in
        seg ← on_gdt (Gdt.PushTssDescriptor desc);
        _ ← emit (EvLtr seg);
        id ← (lapic_of c.(Cpu.x2)).(Lapic.GetId);
        store this (Cpu.mk _ c.(Cpu.wakeupFunction) c.(Cpu.wakeupArg) c.(Cpu.x2)
          c.(Cpu.lapicTimer) c.(Cpu.thisCpu) c.(Cpu.syscallStack) c.(Cpu.userData) tss id top))
  end.

Definition delete_Cpu : M (machine smp) unit :=
  panic "Cpu::~Cpu() - CPU cannot be destroyed!".

Definition SetAsyncKernelTop (this stack : Z) : M (machine smp) unit :=
  c ← load this; store this (Cpu.set_kernel_top stack c).

Definition GetStackTop (this : Z) : M (machine smp) Z := c ← load this; mret c.(Cpu.stackTop).
Definition GetApicId (this : Z) : M (machine smp) Z := c ← load this; mret c.(Cpu.apicId).
Definition GetPriority : Z := 0.

Definition InitNewCpu : M (machine smp) Z :=
  _ ← AssertNoncritical;
  d ← GetDomain;
  _ ← assert (d.(Domain.count) <? d.(Domain.capacity)) "count < capacity";
  _ ← new_Cpu (GetCpu d d.(Domain.count));
  d ← GetDomain;
  _ ← update (set_domain (Some (Domain.mk d.(Domain.cpuData) d.(Domain.capacity) (d.(Domain.count) + 1))));
  mret d.(Domain.count).

(** *** Messages *)

Definition RunAsync (this func arg : Z) : M (machine smp) unit :=
  _ ← AssertCritical;
  _ ← CriticalLock_Seize (WakeupLock this);
  c ← load this;
  _ ← store this (Cpu.set_wakeup func arg c);
  _ ← CriticalLock_Release (WakeupLock this);
  c ← load this;
  (lapic_of c.(Cpu.x2)).(Lapic.SendIpi) c.(Cpu.apicId) IntVectors.Wakeup 0 1 0.

Definition HandleWakeup : M (machine smp) unit :=
  _ ← AssertCritical;
  lapic ← LapicModule.GetLapic xapic;
  _ ← Lapic.SendEoi lapic;
  cur ← GetCurrent;
  _ ← CriticalLock_Seize (WakeupLock cur);
  c ← load cur;
  let func := c.(Cpu.wakeupFunction) in
  let arg := c.(Cpu.wakeupArg) in
  _ ← store cur (Cpu.set_wakeup 0 arg c);
  _ ← CriticalLock_Release (WakeupLock cur);
  if negb (truthy func) then mret tt else call func arg.

(** *** The timer *)

Definition GeneralTimerCallback : M (machine smp) unit :=
  _ ← AssertCritical;
  thisCpu ← GetCurrent;
  c ← load thisCpu;
  let lapic := lapic_of c.(Cpu.x2) in
  let timer := c.(Cpu.lapicTimer) in
  if negb timer.(LapicTimer.isExpecting) then Lapic.SendEoi lapic
  else
    running ← Lapic.IsTimerRunning lapic;
    go ← (if (running : bool) then
            _ ← Lapic.SendEoi lapic;
            in_service ← Lapic.IsInService lapic IntVectors.LapicTimer;
            if (in_service : bool) then mret false
            else requested ← Lapic.IsRequested lapic IntVectors.LapicTimer; mret (negb requested)
          else _ ← Lapic.SendEoi lapic; mret true);
    if (go : bool) then
      c ← load thisCpu;
      _ ← store thisCpu (Cpu.set_timer (LapicTimer.unexpect c.(Cpu.lapicTimer)) c);
      call timer.(LapicTimer.callbackFunction) timer.(LapicTimer.callbackArg)
    else mret tt.

(** [SetTimeout] and [ClearTimeout] on the timer of the object [this]. *)
Definition SetTimeout (this ticks fn arg : Z) : M (machine smp) unit :=
  _ ← AssertCritical;
  _ ← assert (ticks <? 0x100000000) "ticks < 0x100000000";
  cur ← GetCurrent;
  c ← load cur;
  _ ← Lapic.SetTimeout (lapic_of c.(Cpu.x2)) IntVectors.LapicTimer (u32 ticks);
  c ← load this;
  store this (Cpu.set_timer (LapicTimer.expect fn arg c.(Cpu.lapicTimer)) c).

Definition ClearTimeout (this : Z) : M (machine smp) unit :=
  _ ← AssertCritical;
  cur ← GetCurrent;
  c ← load cur;
  _ ← Lapic.ClearTimeout (lapic_of c.(Cpu.x2));
  c ← load this;
  store this (Cpu.set_timer (LapicTimer.unexpect c.(Cpu.lapicTimer)) c).

(** [WaitTimeout] halts until interrupts take over; it does not return. *)
Definition WaitTimeout : M (machine smp) unit :=
  _ ← AssertCritical;
  _ ← SetCritical false;
  stop (Hang "hlt").

(** *** Calibration *)

(** [fuel] bounds the turns of the sleep. *)
Definition CalibrateMethod (fuel : nat) : M (machine smp) unit :=
  _ ← AssertCritical;
  cur ← GetCurrent;
  lapic ← LapicModule.GetLapic xapic;
  _ ← lapic.(Lapic.WriteReg) Lapic.RegLvtTimer 0xff;
  _ ← lapic.(Lapic.WriteReg) Lapic.RegTimerInitCount 0xffffffff;
  _ ← SetCritical false;
  _ ← MicroSleep clk fuel 500000;
  _ ← SetCritical true;
  value ← lapic.(Lapic.ReadReg) Lapic.RegTimerCurrCount;
  _ ← Lapic.ClearTimeout lapic;
  _ ← assert (0 <? value) "value > 0";
  let ticksPerSec := (0xffffffff -u value) *u 2 in
  c ← load cur;
  store cur (Cpu.set_timer (LapicTimer.calibrate (Rational ticksPerSec 1000000) c.(Cpu.lapicTimer)) c).

(** [for (i = 0; i < domain.GetThreadCount(); i++)]: the messages, and the
    wait for each processor. *)
Definition send_loop (d : Domain.t) (func : Z) : M (machine smp) unit :=
  for_loop (Z.to_nat d.(Domain.count)) 0 (λ i,
    cur ← GetCurrent;
    if GetCpu d i =? cur then mret tt else RunAsync (GetCpu d i) func 0).

(** [while (!timer.calibrated) pause;] *)
Fixpoint calibrated_wait (fuel : nat) (this : Z) : M (machine smp) unit :=
  match fuel with
  | O => stop OutOfFuel
  | S fuel' =>
      c ← load this;
      if c.(Cpu.lapicTimer).(LapicTimer.calibrated) then mret tt
      else _ ← modify advance; calibrated_wait fuel' this
  end.

Definition wait_calibrated (fuel : nat) (d : Domain.t) : M (machine smp) unit :=
  for_loop (Z.to_nat d.(Domain.count)) 0 (λ i,
    _ ← SetCritical false;
    _ ← calibrated_wait fuel (GetCpu d i);
    SetCritical true).

(** [TimerModule::Initialize]; the addresses of [CalibrateMethod] and of
    [GeneralTimerCallback]. *)
Definition TimerModule_Initialize (fuel : nat) (calibrate callback : Z) : M (machine smp) unit :=
  ScopedCritical (
    _ ← put_text "Initializing LAPIC timer subsystem...";
    d ← GetDomain;
    _ ← send_loop d calibrate;
    _ ← CalibrateMethod fuel;
    _ ← wait_calibrated fuel d;
    _ ← set_routine IntVectors.LapicTimer callback;
    _ ← put_text " [OK]";
    put_endl).
End Ops.

(** ** A processor that is set up *)

Lemma msr_value v : is_u64 v → (u32 (v .>> 0x20) .<< 32) .| u32 (v .& 0xffffffff) = v.
Proof.
  intros Hv. unfold is_u64 in Hv. rewrite Z.lor_comm. change 0xffffffff with (Z.ones 32).
  rewrite Z.land_ones, Z.shiftr_div_pow2 by lia. unfold u32.
  rewrite lor_shiftl_add by (try lia; by apply Z.mod_pos_bound). zlia.
Qed.

Section InitFacts.
Context `{AnsaRational} `{WindowMap smp, AnsaLock smp, Device, Cpuid, VirtualAllocator smp}.
Context (base offLocalData offTaskSegment sizeof_Cpu : Z) (junk : Cpu.t).
Context (physAlloc : Z → Z → M (machine smp) (option Z)) (physFree : Z → M (machine smp) unit)
  (physOwns : Z → M (machine smp) bool).
Implicit Types (s : machine smp).

Definition the_xapic : XApic.t := XApic.mk (Window base 0x1000) base.

Definition set_msr (cell v : Z) s : machine smp :=
  set_msrs (<[cell := v]> s.(msrs)) (push_event (EvMsr cell v) s).

Lemma run_WriteMsr cell v s : critical s → is_u64 v → WriteMsr cell v s = Ok (tt, set_msr cell v s).
Proof.
  intros Hc Hv. unfold WriteMsr. run run_AssertCritical; [|done]. run run_modify.
  rewrite run_modify. by rewrite msr_value.
Qed.

(** Reading the identifier of a local APIC changes nothing. *)
Lemma run_GetId x2 s : critical s →
  ∃ id, (LapicModule.object the_xapic x2).(Lapic.GetId) s = Ok (id, s).
Proof.
  intros Hc. destruct x2; cbn [LapicModule.object Lapic.GetId X2Apic.lapic XApic.lapic].
  - assert (∃ v, X2Apic.ReadReg Lapic.RegApicId s = Ok (v, s)) as [v Hv].
    { unfold X2Apic.ReadReg, ReadMsr. eexists. by do 2 (run run_AssertCritical; [|done]). }
    unfold X2Apic.GetId. eexists. run run_AssertCritical; [|done]. by run Hv.
  - unfold XApic.GetId, XApic.ReadReg. eexists.
    run run_AssertCritical; [|done].
    erewrite run_bind; [|run run_AssertCritical; [|done]; apply run_mmio_read; by vm_compute].
    reflexivity.
Qed.

Local Abbreviation InitNewCpu_ := (InitNewCpu the_xapic offLocalData offTaskSegment sizeof_Cpu junk
  physAlloc physFree physOwns).
Local Abbreviation new_Cpu_ := (new_Cpu the_xapic offLocalData offTaskSegment junk
  physAlloc physFree physOwns).

(** What the constructor leaves in the object. *)
Record built s (this stack sel : Z) (w : smp) : Prop := {
  built_cpu : ∃ c, w.(cpus) !! this = Some c ∧ c.(Cpu.thisCpu) = this ∧
    c.(Cpu.stackTop) = stack + Cpu.StackSize ∧ c.(Cpu.userData) = 0 ∧
    c.(Cpu.taskSegment).(ist) = replicate 7 (stack + Cpu.StackSize) ∧
    c.(Cpu.lapicTimer).(LapicTimer.calibrated) = false;
  built_others : ∀ a, a ≠ this → w.(cpus) !! a = s.(alloc).(cpus) !! a;
  built_gdt : w.(gdt) = appended (tss_bytes (new_tss (this + offTaskSegment))) s.(alloc).(gdt);
  built_rest : w.(clocks) = s.(alloc).(clocks) ∧ w.(idt) = s.(alloc).(idt) ∧ w.(mainDomain) = s.(alloc).(mainDomain) ∧
    w.(initFlag) = s.(alloc).(initFlag);
  built_sel : sel = s.(alloc).(gdt).(Gdt.amountUsed);
}.

(** The events of the constructor, newest first. *)
Definition built_events (this sel : Z) : list event :=
  [EvLtr sel; EvMsr 0xc0000101 (this + offLocalData)].

Lemma enter_alloc s : (enter_critical s).(alloc) = s.(alloc).
Proof. unfold enter_critical. by destruct (critical_loaded s). Qed.

(** The part of the constructor that runs in a critical section. *)
Definition body_result s this stack (c : Cpu.t) (id : Z) : smp :=
  let top := stack + Cpu.StackSize in
  set_cpus (<[this := Cpu.mk _ c.(Cpu.wakeupFunction) c.(Cpu.wakeupArg) c.(Cpu.x2)
      c.(Cpu.lapicTimer) c.(Cpu.thisCpu) c.(Cpu.syscallStack) c.(Cpu.userData)
      (mkTss c.(Cpu.taskSegment).(rsp) (replicate 7 top) c.(Cpu.taskSegment).(ioplBase))
      id top]> s.(alloc).(cpus))
    (set_gdt (appended (tss_bytes (new_tss (this + offTaskSegment))) s.(alloc).(gdt)) s.(alloc)).

Definition after_events s this sel : machine smp :=
  set_trace (built_events this sel ++ s.(trace))
    (set_msrs (<[0xc0000101 := this + offLocalData]> s.(msrs)) s).

Lemma run_body s this stack c :
  critical s → s.(alloc).(cpus) !! this = Some c →
  is_u64 (this + offLocalData) →
  0 ≤ s.(alloc).(gdt).(Gdt.amountUsed) ≤ 0x10000 - 0x10 →
  let sel := s.(alloc).(gdt).(Gdt.amountUsed) in
  let top := stack + Cpu.StackSize in
  ∃ id, (_ ← LocalSegment.Write (this + offLocalData);
     c ← load this;
     let tss := mkTss c.(Cpu.taskSegment).(rsp) (replicate 7 top) c.(Cpu.taskSegment).(ioplBase) in
     seg ← on_gdt (Gdt.PushTssDescriptor (new_tss (this + offTaskSegment)));
     _ ← emit (EvLtr seg);
     id ← (lapic_of the_xapic c.(Cpu.x2)).(Lapic.GetId);
     store this (Cpu.mk _ c.(Cpu.wakeupFunction) c.(Cpu.wakeupArg) c.(Cpu.x2)
       c.(Cpu.lapicTimer) c.(Cpu.thisCpu) c.(Cpu.syscallStack) c.(Cpu.userData) tss id top)) s
  = Ok (tt, set_alloc (body_result s this stack c id) (after_events s this sel)).
Proof.
  intros Hc Hthis Hu Hg sel top.
  set (s1 := set_msr 0xc0000101 (this + offLocalData) s).
  set (g1 := with_alloc (s.(alloc).(gdt)) s1 : machine Gdt.t).
  set (s2 := push_event (EvLtr sel) (set_alloc
    (set_gdt (appended (tss_bytes (new_tss (this + offTaskSegment))) s.(alloc).(gdt)) s.(alloc)) s1)).
  destruct (run_GetId c.(Cpu.x2) s2 Hc) as [id Hid]. exists id.
  erewrite run_bind; [|unfold LocalSegment.Write; run run_AssertCritical; [|done];
    by apply run_WriteMsr]. fold s1.
  erewrite run_bind; [|unfold load; unfold_m; cbn [alloc s1 set_msr set_msrs push_event];
    rewrite Hthis; reflexivity].
  cbn beta zeta.
  erewrite run_bind; [|apply run_zoom, (run_push _ _ g1); cbn; rewrite ?length_tss_bytes; lia].
  erewrite run_bind; [|apply run_modify]. fold sel. fold s2.
  erewrite run_bind; [|exact Hid]. done.
Qed.

Lemma run_new_Cpu s this stack :
  noncritical s → s.(critical_loaded) = true → is_Some s.(alloc).(mainDomain) →
  (∀ s', VAlloc Cpu.StackSize s' = Ok (Some stack, s')) →
  is_u64 (this + offLocalData) → is_u64 (this + offTaskSegment) →
  is_u64 (stack + Cpu.StackSize) →
  0 ≤ s.(alloc).(gdt).(Gdt.amountUsed) ≤ 0x10000 - 0x10 →
  ∃ sel w, new_Cpu_ this s = Ok (tt, set_alloc w (after_events s this sel)) ∧
    built s this stack sel w.
Proof.
  intros Hn Hl [d Hd] Hs Hu1 Hu2 Hu3 Hg.
  assert (iflag s = true) as Hi by (destruct Hn; congruence).
  unfold new_Cpu, GetLapicCritical.
  erewrite run_bind; [|apply run_ScopedCritical, LapicModule.run_IsX2, enter_critical_critical].
  assert (leave_critical s (enter_critical s) = s) as ->
    by (by destruct s as [? ? [] [] ? ? ? ?]).
  run run_gets. set (old := default junk _). run run_modify.
  set (s1 := set_alloc _ s).
  erewrite run_bind; [|unfold GetDomain; unfold_m; cbn [alloc s1 set_alloc mainDomain set_cpus];
    rewrite Hd; reflexivity].
  erewrite run_bind; [|unfold ApiDomain.Alloc; cbn [ApiDomain.first_alloc];
    run Hs; reflexivity].
  cbn beta iota. rewrite !u64_small by done.
  destruct (run_body (enter_critical s1) this stack (Cpu.mk _ old.(Cpu.wakeupFunction)
    old.(Cpu.wakeupArg) LapicModule.has_x2 (LapicTimer.new old.(Cpu.lapicTimer)) this
    old.(Cpu.syscallStack) 0 old.(Cpu.taskSegment) old.(Cpu.apicId) old.(Cpu.stackTop)))
    as [id Hid]; [apply enter_critical_critical|..].
  { rewrite enter_alloc. cbn [alloc s1 set_alloc set_cpus cpus]. apply lookup_insert_eq. }
  { done. }
  { by rewrite enter_alloc. }
  rewrite enter_alloc in Hid. cbn [alloc s1 set_alloc set_cpus gdt] in Hid.
  exists s.(alloc).(gdt).(Gdt.amountUsed), (body_result s1 this stack (Cpu.mk _ old.(Cpu.wakeupFunction)
    old.(Cpu.wakeupArg) LapicModule.has_x2 (LapicTimer.new old.(Cpu.lapicTimer)) this
    old.(Cpu.syscallStack) 0 old.(Cpu.taskSegment) old.(Cpu.apicId) old.(Cpu.stackTop)) id).
  split.
  - erewrite run_ScopedCritical; [|exact Hid]. unfold body_result. rewrite enter_alloc. unfold s1.
    clearbody old. destruct s as [? ? [] [] ? ? ? ?]; done.
  - split; cbn.
    + rewrite lookup_insert_eq. eexists. split; [reflexivity|]. done.
    + intros a Ha. by rewrite !lookup_insert_ne by done.
    + done.
    + done.
    + done.
Qed.

(** The new processor has the next index. *)
Lemma run_InitNewCpu s (d : Domain.t) stack :
  noncritical s → s.(critical_loaded) = true → s.(alloc).(mainDomain) = Some d →
  d.(Domain.count) < d.(Domain.capacity) →
  (∀ s', VAlloc Cpu.StackSize s' = Ok (Some stack, s')) →
  let this := GetCpu sizeof_Cpu d d.(Domain.count) in
  is_u64 (this + offLocalData) → is_u64 (this + offTaskSegment) →
  is_u64 (stack + Cpu.StackSize) →
  0 ≤ s.(alloc).(gdt).(Gdt.amountUsed) ≤ 0x10000 - 0x10 →
  ∃ sel w, InitNewCpu_ s = Ok (d.(Domain.count), set_alloc (set_domain
      (Some (Domain.mk d.(Domain.cpuData) d.(Domain.capacity) (d.(Domain.count) + 1))) w)
      (after_events s this sel)) ∧
    built s this stack sel w.
Proof.
  intros Hn Hl Hd Hlt Hs this Hu1 Hu2 Hu3 Hg. unfold InitNewCpu, GetDomain.
  run run_AssertNoncritical; [|done].
  erewrite run_bind; [|unfold_m; rewrite Hd; reflexivity].
  run_assert ltac:(by apply Z.ltb_lt). fold this.
  destruct (run_new_Cpu s this stack) as (sel & w & Hr & Hb); [done|done|by eexists|done..|].
  run Hr. pose proof (built_rest _ _ _ _ _ Hb) as (_ & _ & Hdm & _).
  erewrite run_bind; [|unfold_m; cbn [alloc set_alloc]; rewrite Hdm, Hd; reflexivity].
  run run_modify. by exists sel, w.
Qed.

(** The object is the one the GS base points to. *)
Lemma run_GetCurrent_new s this stack sel w d : built s this stack sel w →
  let s' := set_alloc (set_domain d w) (after_events s this sel) in
  GetCurrent offLocalData s' = Ok (this, s').
Proof.
  intros [(c & Hc & Hthis & _) _ _ _ _] s'. unfold GetCurrent, gs_object. run run_gets.
  unfold load, s'. unfold_m. cbn [alloc set_alloc set_domain cpus msrs set_msrs after_events set_trace].
  rewrite lookup_insert_eq. cbn [default from_option id].
  replace (this + offLocalData - offLocalData) with this by lia. by rewrite Hc, Hthis.
Qed.

Lemma GetCurrent_same s s' this :
  GetCurrent offLocalData s = Ok (this, s) → s'.(msrs) = s.(msrs) →
  s'.(alloc).(cpus) = s.(alloc).(cpus) → GetCurrent offLocalData s' = Ok (this, s').
Proof.
  unfold GetCurrent, gs_object, load. unfold_m. intros Hc -> ->.
  destruct (cpus (alloc s) !! _) as [c|]; [|done]. by injection Hc as ->.
Qed.

(** C27. Domain::InitNewCpu makes the next processor of the domain its own: it
    builds the object in the next slot, below the capacity, with a stack of
    64 KiB that every interrupt stack of its task segment ends at, pushes a
    task descriptor that the processor reads back as the address of that task
    segment, loads it, and points the GS base at the object, so that
    Thread::GetCurrent returns it; no other processor, descriptor, clock or
    interrupt routine changes.  A full domain stops. *)
Theorem InitNewCpu_correct (s : machine smp) (d : Domain.t) (stack : Z)
  (Hl : s.(critical_loaded) = true) (Hi : s.(iflag) = true)
  (Hd : s.(alloc).(mainDomain) = Some d)
  (Hs : ∀ s', VAlloc Cpu.StackSize s' = Ok (Some stack, s'))
  (Hg : 0 ≤ s.(alloc).(gdt).(Gdt.amountUsed) ≤ 0x10000 - 0x10)
  (Ha : s.(alloc).(gdt).(Gdt.amountUsed) mod 8 = 0) :
  let this := GetCpu sizeof_Cpu d d.(Domain.count) in
  let sel := s.(alloc).(gdt).(Gdt.amountUsed) in
  is_u64 (this + offLocalData) → is_u64 (this + offTaskSegment) →
  is_u64 (stack + Cpu.StackSize) →
  if d.(Domain.count) <? d.(Domain.capacity) then
    ∃ s' c, InitNewCpu_ s = Ok (d.(Domain.count), s') ∧
      s'.(alloc).(mainDomain)
        = Some (Domain.mk d.(Domain.cpuData) d.(Domain.capacity) (d.(Domain.count) + 1)) ∧
      s'.(alloc).(cpus) !! this = Some c ∧ c.(Cpu.stackTop) = stack + Cpu.StackSize ∧
      c.(Cpu.taskSegment).(ist) = replicate 7 (stack + Cpu.StackSize) ∧
      s'.(trace) = EvLtr sel :: EvMsr 0xc0000101 (this + offLocalData) :: s.(trace) ∧
      system_base s'.(alloc).(gdt) sel = this + offTaskSegment ∧
      GetCurrent offLocalData s' = Ok (this, s') ∧
      (∀ a, a ≠ this → s'.(alloc).(cpus) !! a = s.(alloc).(cpus) !! a) ∧
      (∀ off, off < sel → byte_at s'.(alloc).(gdt) off = byte_at s.(alloc).(gdt) off) ∧
      s'.(alloc).(clocks) = s.(alloc).(clocks) ∧
      s'.(iflag) = true ∧ s'.(held) = s.(held) ∧ s'.(mem) = s.(mem)
  else InitNewCpu_ s = Stop (AssertFail "count < capacity").
Proof.
  intros this sel Hu1 Hu2 Hu3.
  destruct (Z.ltb_spec d.(Domain.count) d.(Domain.capacity)) as [Hlt|Hge].
  2:{ unfold InitNewCpu, GetDomain. run run_AssertNoncritical; [|by right].
      erewrite run_bind; [|unfold_m; rewrite Hd; reflexivity].
      apply run_bind_stop, run_assert_fail. by apply Z.ltb_ge. }
  destruct (run_InitNewCpu s d stack) as (sel' & w & Hr & Hb); [by right|done..|].
  fold this in Hr, Hb. pose proof Hb as [(c & Hc & Hthis & Htop & _ & Hist & _) Ho Hgdt (Hck & _ & Hdm & _) ->].
  fold sel in Hr, Hgdt |- *. eexists _, c. split; [exact Hr|].
  cbn [alloc set_alloc set_domain mainDomain cpus clocks gdt iflag held mem trace after_events].
  split_and!; try done.
  - rewrite Hgdt. apply tss_base_read; [done|done|unfold sel; lia|apply write_bytes_holds].
  - by apply run_GetCurrent_new with (stack := stack).
  - intros off Hoff. rewrite Hgdt. unfold byte_at, appended. cbn [Gdt.bytes].
    by rewrite write_bytes_other by (fold sel; lia).
Qed.
End InitFacts.

(** A machine with a domain of two processors, none of them set up. *)
Definition no_timer : LapicTimer.t := LapicTimer.mk _ (Rational 1 0) false false 0 0.
Definition blank_cpu : Cpu.t := Cpu.mk _ 0 0 false no_timer 0 0 0 (mkTss [] [] 0) 0 0.

Definition example_smp : machine smp :=
  idle_machine (mkSmp _ ∅ (Gdt.mk 0x200000 0x28 ∅) Idt.new (Pit.mkState ∅ None (replicate 256 0))
    (Some (Domain.mk 0x300000 2 0)) false
    SyscallModule.new 0).

Definition no_phys_alloc (size align : Z) : M (machine smp) (option Z) := mret None.
Definition no_phys_free (addr : Z) : M (machine smp) unit := mret tt.
Definition no_phys_owns (addr : Z) : M (machine smp) bool := mret false.

Lemma InitNewCpu_correct_witness :
  ∃ s', InitNewCpu (the_xapic 0xfee00000) 0x40 0x58 0x100 blank_cpu
      no_phys_alloc no_phys_free no_phys_owns example_smp = Ok (0, s') ∧
    GetCurrent 0x40 s' = Ok (0x300000, s').
Proof.
  destruct (InitNewCpu_correct 0xfee00000 0x40 0x58 0x100 blank_cpu no_phys_alloc no_phys_free
    no_phys_owns example_smp (Domain.mk 0x300000 2 0) 0x100000 eq_refl eq_refl eq_refl
    ltac:(done) ltac:(split; by vm_compute) eq_refl
    ltac:(split; by vm_compute) ltac:(split; by vm_compute) ltac:(split; by vm_compute))
    as (s' & c & Hr & _ & _ & _ & _ & _ & _ & Hc & _).
  exists s'. split; [exact Hr|exact Hc].
Defined.
