(* ===== verification/UserSpace.v ===== *)
(** * The life of a user address space

    [UserMap::New], the constructor and [Delete] put together
    (src/arch/x64/vmm/user/user-map.cpp): the PML4 of a new map is filled through
    an [EasyMap], i.e. through a window that the kernel map makes for it and
    takes away again, and [Delete] gives the tables and the object back.  The
    window is the one that Devices.v takes as given: here it is made by the page
    tables. *)

From stdpp Require Import base numbers list gmap strings.
From Stdlib Require Import ZArith Lia.
From S2P Require Import Prelude Machine Mmu PageTable PageTree PageTableProofs PageTableList Concrete PageTableProps FreeList GlobalMap GlobalMapProofs UserMap UserMapProofs Devices FreeTable KernelMap Processor.
#[local] Open Scope Z_scope.

(** ** New and Delete *)

(** A map in the memory of its object. *)
Record user_map : Type := mkUserMap { um_pml4 : Z; um_free : list FreeList.Region }.

Section Ops.
Context {A : Type} `{PhysAllocator A, AnsaBzero A, AnsaLock A, AnsaMemcpy A, DomainHeap A, WindowMap A}.
(** The current domain and its siblings, and the size of the object. *)
Context (own : ApiDomain.Allocators A) (siblings : list (ApiDomain.Allocators A)) (object : Z).

Definition New (gpml4 : Z) (gf : FreeFinder.state) (pdpt : Z)
  : M (machine A) (Z * user_map * FreeFinder.state) :=
  r ← ApiDomain.New own siblings object (UserMap.new gpml4 gf pdpt);
  match r with
  | None => stop (Undefined "null reference")
  | Some (this, (pml4, l, gf)) => mret (this, mkUserMap pml4 l, gf)
  end.

Definition Delete (this : Z) (map : user_map) : M (machine A) unit :=
  ApiDomain.Delete own siblings (λ map, UserMap_delete map.(um_pml4)) this map.
End Ops.

(** ** A window on a page *)

(** The tables do not depend on the other words. *)
Lemma tree_agree m m' root T :
  tree_ok m root T →
  (∀ p g i, T !! p = Some g → 0 ≤ i < 512 → read64 m' (slot g i) = read64 m (slot g i)) →
  tree_ok m' root T.
Proof.
  intros [Hr Hf Hp Hi Hc Hcl Hpa] Ha. split; try done.
  - by rewrite (Ha [] root 511).
  - intros p g i Hg Hl Hi' Hn. rewrite (Ha p g i) by done. by apply Hc.
  - intros p g i Hg Hl Hi' Hn. rewrite (Ha p g i) by done. by apply (Hcl p).
Qed.

Section Window.
Context {A : Type} `{FreeLaws A, BzeroLaws A, LockLaws A, AnsaMemcpy A}.
Implicit Types (s : machine A) (T : gmap (list Z) Z) (f : FreeFinder.state).
Context (root p : Z) (Hp : p mod 4096 = 0).
Abbreviation KE := PageTable.KernelEnd.

(** The page at [a] is mapped to [p], which is not a table. *)
Record window_on s T (a : Z) : Prop := {
  wo_pt : pt_state s root T;
  wo_off : ∀ q, T !! q ≠ Some p;
  wo_map : ∀ j, 0 ≤ j < 512 → translate s.(mem) root (a + 8 * j) = Some (slot p j);
}.

(** From [s] to [s'] only words of [p] change. *)
Definition page_write s s' : Prop :=
  ∃ m, s' = set_mem m s ∧ ∀ x, (∀ j, 0 ≤ j < 512 → x ≠ slot p j) → read64 m x = read64 s.(mem) x.

Lemma page_write_trans s1 s2 s3 : page_write s1 s2 → page_write s2 s3 → page_write s1 s3.
Proof using.
  intros (m & -> & Hm) (m' & -> & Hm'). exists m'. split; [done|]. intros x Hx.
  rewrite Hm' by done. by apply Hm.
Qed.

Lemma table_word s T q g i j : pt_state s root T → (∀ q, T !! q ≠ Some p) →
  T !! q = Some g → 0 ≤ i < 512 → 0 ≤ j < 512 → slot g i ≠ slot p j.
Proof using Hp.
  intros Hps Hno Hq Hi Hj Heq. apply (Hno q). rewrite Hq. f_equal.
  destruct (t_page _ _ _ (ps_tree _ _ _ Hps) _ _ Hq) as [Hg _]. unfold slot in Heq. zlia.
Qed.

Lemma page_write_leaf s s' T w : pt_state s root T → (∀ q, T !! q ≠ Some p) → page_write s s' →
  idx w 0 ≠ 511 → leaf4 s'.(mem) root w = leaf4 s.(mem) root w.
Proof using Hp.
  intros Hps Hno (m & -> & Hm) Hw. apply (leaf_sim _ _ _ T); [apply (ps_tree _ _ _ Hps)|done|].
  intros n h Hh. left. apply Hm. intros j Hj. eapply table_word; eauto with anarch.
Qed.

Lemma page_write_pt s s' T : pt_state s root T → (∀ q, T !! q ≠ Some p) → page_write s s' →
  pt_state s' root T.
Proof using Hp.
  intros Hps Hno (m & -> & Hm). split; [apply Hps|apply Hps| |apply (ps_owned _ _ _ Hps)].
  apply (tree_agree s.(mem)); [apply (ps_tree _ _ _ Hps)|]. intros q g i Hq Hi. apply Hm.
  intros j Hj. by eapply table_word.
Qed.

(** Addresses of a page of the kernel. *)
Lemma kernel_offset a j : 0 ≤ a → a + 4096 ≤ KE → 0 ≤ j < 512 → idx (a + 8 * j) 0 ≠ 511.
Proof using. intros. apply idx0_kernel. lia. Qed.

Lemma page_write_window s s' T a : 0 ≤ a → a + 4096 ≤ KE →
  window_on s T a → page_write s s' → window_on s' T a.
Proof using Hp.
  intros Ha Hae [Hps Hno Hmap] Hw. pose proof (page_write_pt _ _ _ Hps Hno Hw) as Hps'.
  split; [done..|]. intros j Hj. rewrite <-(Hmap j Hj), !(pt_translate _ root T) by done.
  by rewrite (page_write_leaf s s' T) by auto using kernel_offset.
Qed.

(** A store through the window. *)
Lemma run_window_store s T a j v : 0 ≤ a → a + 4096 ≤ KE → 0 ≤ j < 512 → window_on s T a →
  let s' := set_mem (write64 s.(mem) (slot p j) v) s in
  store64 (a + 8 * j) v s = Ok (tt, s') ∧ window_on s' T a ∧ page_write s s'.
Proof using Hp.
  intros Ha Hae Hj Hwo s'.
  assert (page_write s s') as Hpw.
  { eexists. split; [done|]. intros x Hx. apply read_write_ne. intros <-. by apply (Hx j). }
  split_and!; [|by eapply page_write_window|done].
  apply run_store64. rewrite (ps_cr3 _ _ _ (wo_pt _ _ _ Hwo)). by apply (wo_map _ _ _ Hwo).
Qed.

(** The loop of the constructor. *)
Lemma run_clear_slots n a i s T : 0 ≤ a → a + 4096 ≤ KE → 0 ≤ i → i + Z.of_nat n ≤ 512 →
  window_on s T a →
  ∃ s', UserMap.clear_slots n a i s = Ok (tt, s') ∧ window_on s' T a ∧ page_write s s'
    ∧ ∀ j, 0 ≤ j < 512 → read64 s'.(mem) (slot p j) =
        if decide (i ≤ j < i + Z.of_nat n) then 0 else read64 s.(mem) (slot p j).
Proof using Hp.
  intros Ha Hae. revert i s. induction n as [|n IH]; intros i s Hi Hn Hwo.
  { exists s. split_and!; [done|done| |].
    - exists s.(mem). split; [by destruct s|done].
    - intros j Hj. by rewrite decide_False by lia. }
  cbn [UserMap.clear_slots].
  destruct (run_window_store s T a i 0) as (Hr & Hwo1 & Hpw1); [done|done|lia|done|].
  run Hr. destruct (IH (i + 1) _ ltac:(lia) ltac:(lia) Hwo1) as (s' & Hr' & Hwo' & Hpw & Hw).
  exists s'. split_and!; [exact Hr'|done|by eapply page_write_trans|].
  intros j Hj. rewrite Hw by done. cbn [mem set_mem].
  destruct (decide (i + 1 ≤ j < i + 1 + Z.of_nat n)).
  { by rewrite decide_True by lia. }
  destruct (decide (j = i)) as [->|Hne].
  - rewrite decide_True by lia. apply read_write_eq.
  - rewrite decide_False by lia. apply read_write_ne. unfold slot. lia.
Qed.

(** ** The kernel map makes the window and takes it away *)

Lemma run_EasyMap_page s T f :
  map_ok s root T f → f.(FreeFinder.freeStart) mod 4096 = 0 → 4096 ≤ f.(FreeFinder.freeSize) →
  (3 ≤ avail s.(alloc))%nat → 0 ≤ p < 2 ^ 52 → p ∈ owned s.(alloc) → (∀ q, T !! q ≠ Some p) →
  let a := f.(FreeFinder.freeStart) in
  ∃ s' T', EasyMap.new root f p 0x1000 s
      = Ok ((EasyMap.mk a a 0x1000 1, FreeFinder.mkState (a + 4096) (f.(FreeFinder.freeSize) - 4096)), s')
    ∧ window_on s' T' a ∧ same_cpu s s' ∧ spared s s' T T' ∧ (leaf4 s'.(mem) root a).1 = 3
    ∧ (∀ q g, (length q ≤ 3)%nat → T !! q = Some g → T' !! q = Some g)
    ∧ (∀ w, idx w 0 ≠ 511 → ¬ covers a 3 w → leaf_keep 3 s.(mem) s'.(mem) root w).
Proof using All.
  intros [Hps Hlock [Hf Hgap]] Hal Hsz Hav Hpb Hpo Hno a. unfold region_in_range in Hf.
  destruct f as [fs fz]. cbn [FreeFinder.freeStart FreeFinder.freeSize] in *. subst a.
  assert (HKE : KE = 2 ^ 39) by done.
  assert (Htake : FreeFinder.take (FreeFinder.mkState fs fz) 0x1000 1
    = (fs, FreeFinder.mkState (fs + 4096) (fz - 4096))).
  { unfold FreeFinder.take. cbn [FreeFinder.freeStart FreeFinder.freeSize]. rewrite Z.mod_1_r. cbn [truthy Z.eqb negb].
    by rewrite Z.add_0_r, Z.sub_0_r, (u64_small fs), (u64_small fz), !u64_small by (unfold is_u64; lia). }
  assert (Hcan : FreeFinder.CanAllocate (FreeFinder.mkState fs fz) 0x1000 1 = true).
  { unfold FreeFinder.CanAllocate. cbn [FreeFinder.freeStart FreeFinder.freeSize]. rewrite Z.mod_1_r.
    cbn [truthy Z.eqb negb]. destruct (Z.leb_spec fz 0); [lia|].
    rewrite Z.sub_0_r, u64_small by (unfold is_u64; lia). by apply Z.leb_le. }
  destruct (page_entry_eq p Hp Hpb) as (He0 & He1 & Hpr & Hfr).
  pose proof (run_Map s root T (FreeFinder.mkState fs fz) p 3 1 default_attributes Hps Hlock
    ltac:(lia) ltac:(lia)) as Hmap. change (Bytes (mkSize (span 3) (Z.of_nat 1))) with 0x1000 in Hmap.
  change (Z.of_nat 1) with 1 in Hmap. change (span 3) with 0x1000 in Hmap.
  specialize (Hmap Hcan). rewrite Htake in Hmap.
  set (e := p .| PageTable.CalcMask 0x1000 true default_attributes) in *.
  destruct Hmap as (s' & T' & Hr & Hps' & Hcpu & Hsp & Hsub & Hh & Hk).
  { split; change (span 3) with 4096; [done|lia|lia|lia| |by left]. intros i Hi. apply idx0_kernel. lia. }
  { lia. }
  { intros i Hi (_ & Hpr0 & _). assert (i = 0) as -> by lia. specialize (Hgap fs).
    unfold walks_free, fend in Hgap. cbn [FreeFinder.freeStart FreeFinder.freeSize] in Hgap.
    rewrite Z.add_0_r in Hpr0. rewrite Hpr0 in Hgap. by specialize (Hgap ltac:(lia)). }
  assert (Hone : ∀ w, covers fs 3 w → leaf4 s'.(mem) root w = (3, e)).
  { intros w Hc. rewrite (Hh w 0); [by rewrite Z.add_0_r|lia|by rewrite Z.add_0_r]. }
  exists s', T'. split_and!; [|split|done|done|by rewrite (Hone fs)|exact Hsub| ].
  - unfold EasyMap.new. run run_AssertNoncritical; [|apply (ps_noncritical _ _ _ Hps)].
    erewrite run_bind; [cbn beta|reflexivity]. erewrite run_bind; [cbn beta|reflexivity].
    cbn [Z.eqb]. change (if 0 =? 0 then 4096 else 2097152) with 4096. rewrite Hp.
    cbn [truthy Z.eqb negb]. change (4096 / 4096 +u 0) with 1. run Hr. cbn beta iota.
    by rewrite Z.add_0_r, u64_small by (unfold is_u64; lia).
  - done.
  - apply Hsp; [done|done|done].
  - intros j Hj. rewrite (pt_translate _ root T') by done.
    assert (canonical (fs + 8 * j) = true) as ->.
    { unfold canonical. apply orb_true_intro. left. apply Z.ltb_lt. lia. }
    rewrite Hone.
    + unfold leaf_frame. rewrite Hpr. cbn [andb negb Z.eqb Pos.eqb]. f_equal. unfold in_page.
      rewrite Hfr. change (span 3) with 4096. unfold slot. zlia.
    + apply covers_kernel; [lia|lia|]. zlia.
  - intros w Hw Hc. apply Hk; [done|]. intros i Hi. assert (i = 0) as -> by lia. by rewrite Z.add_0_r.
Qed.

Lemma run_Unmap_page s T f a :
  pt_state s root T → GlobalMapLock ∉ s.(held) → a mod 4096 = 0 → 0 ≤ a → a + 4096 ≤ KE →
  (leaf4 s.(mem) root a).1 = 3 →
  ∃ s' T', GlobalMap.Unmap root f a (mkSize 0x1000 1) s = Ok (FreeFinder.Free f a 0x1000, s')
    ∧ pt_state s' root T' ∧ same_cpu s s' ∧ spared s s' T T'
    ∧ (∀ q g, T' !! q = Some g → T !! q = Some g)
    ∧ (∀ w, covers a 3 w → (leaf4 s'.(mem) root w).2 = 0)
    ∧ (∀ w, idx w 0 ≠ 511 → ¬ covers a 3 w → leaf_drop s.(mem) s'.(mem) root w).
Proof using -(p Hp).
  intros Hps Hlock Ha Ha0 Hae Hd. set (s1 := set_held (GlobalMapLock :: s.(held)) s).
  assert (Hps1 : pt_state s1 root T) by (by apply pt_state_held).
  pose proof (run_Unset a s1 root T Hps1 ltac:(apply idx0_kernel; lia) Ha) as Hu.
  change (mem s1) with (mem s) in Hu. destruct (leaf4 s.(mem) root a) as [d e]. cbn [fst] in Hd. subst d.
  cbn [Z.eqb Pos.eqb orb] in Hu. destruct Hu as (s2 & T' & Hr & [Hps2 Hcpu Hh He [Hsub _] _ _ Hsp]).
  set (s3 := push_event (EvInvlpg a (Bytes (mkSize 0x1000 1))) s2).
  assert (Hbody : (_ ← GlobalMap.unset_pages root a (mkSize 0x1000 1);
    let f := FreeFinder.Free f a (Bytes (mkSize 0x1000 1)) in
    _ ← emit (EvInvlpg a (Bytes (mkSize 0x1000 1))); mret f) s1
    = Ok (FreeFinder.Free f a 0x1000, s3)).
  { unfold GlobalMap.unset_pages. cbn [pageCount pageSize].
    change (Z.to_nat 1) with 1%nat. cbn [GlobalMap.unset_loop].
    erewrite run_bind; [reflexivity|]. by run Hr. }
  destruct (locked_run _ root T s _ _ s3 T' Hps Hlock Hbody) as (Hrun & Hps3 & Hcpu3).
  { destruct Hps2; by split. }
  { destruct Hcpu; by split. }
  exists (set_held s.(held) s3), T'. split_and!; try done.
  unfold GlobalMap.Unmap. run run_AssertNoncritical; [exact Hrun|apply (ps_noncritical _ _ _ Hps)].
Qed.
End Window.

(** ** The constructor *)

Section Constructor.
Context {A : Type} `{FreeLaws A, BzeroLaws A, LockLaws A, AnsaMemcpy A}.
Implicit Types (s : machine A) (T : gmap (list Z) Z) (f : FreeFinder.state).
Context (root : Z).

(** The words of the PML4 of a new map. *)
Definition pml4_words (m : gmap Z Z) (p pdpt : Z) : Prop :=
  read64 m (slot p 0) = pdpt .| 3 ∧ read64 m (slot p 511) = p .| 3
  ∧ ∀ i, 1 ≤ i < 511 → read64 m (slot p i) = 0.

Lemma spared_page_write s s1 s2 T T1 p : p mod 4096 = 0 → p ∉ owned s.(alloc) →
  spared s s1 T T1 → page_write p s1 s2 → spared s s2 T T1.
Proof.
  intros Hp Hpo Hsp (m & -> & Hm) h Hh Hho Hno. destruct (Hsp h Hh Hho Hno) as (? & ? & Hw).
  split_and!; [done..|]. intros j Hj. rewrite <-Hw by done. apply Hm. intros i Hi Heq.
  apply Hpo. assert (p = h) as -> by (unfold slot in Heq; zlia). done.
Qed.

(** The stores of the constructor through the window. *)
Lemma run_fill s T a p pdpt : p mod 4096 = 0 → 0 ≤ a → a + 4096 ≤ PageTable.KernelEnd →
  window_on root p s T a →
  ∃ s', (∀ B (k : M (machine A) B), (_ ← store64 a (pdpt .| 3);
      _ ← store64 (a + 8 * 0x1ff) (p .| 3);
      _ ← UserMap.clear_slots 0x1fe a 1; k) s = k s')
    ∧ window_on root p s' T a ∧ page_write p s s' ∧ pml4_words s'.(mem) p pdpt.
Proof.
  intros Hp Ha Hae Hwo.
  destruct (run_window_store root p Hp s T a 0 (pdpt .| 3) Ha Hae ltac:(lia) Hwo)
    as (Hr1 & Hwo1 & Hpw1). set (s1 := set_mem _ s) in *.
  destruct (run_window_store root p Hp s1 T a 511 (p .| 3) Ha Hae ltac:(lia) Hwo1)
    as (Hr2 & Hwo2 & Hpw2). set (s2 := set_mem _ s1) in *.
  destruct (run_clear_slots root p Hp 0x1fe a 1 s2 T Ha Hae ltac:(lia) ltac:(lia) Hwo2)
    as (s3 & Hr3 & Hwo3 & Hpw3 & Hw).
  exists s3. split_and!; [|done|by do 2 (eapply page_write_trans; [done|])|split_and!].
  - intros B k. rewrite Z.mul_0_r, Z.add_0_r in Hr1. run Hr1. run Hr2. by run Hr3.
  - rewrite Hw by lia. rewrite decide_False by lia. cbn [s2 s1 mem set_mem].
    rewrite read_write_ne by (unfold slot; lia). apply read_write_eq.
  - rewrite Hw by lia. rewrite decide_False by lia. apply read_write_eq.
  - intros i Hi. rewrite Hw by lia. by rewrite decide_True by lia.
Qed.

(** The finder gets back the page it handed out last. *)
Lemma finder_give_back f : 0 ≤ f.(FreeFinder.freeStart) → 4096 ≤ f.(FreeFinder.freeSize) →
  f.(FreeFinder.freeStart) + f.(FreeFinder.freeSize) ≤ PageTable.KernelEnd →
  FreeFinder.Free (FreeFinder.mkState (f.(FreeFinder.freeStart) + 4096) (f.(FreeFinder.freeSize) - 4096))
    f.(FreeFinder.freeStart) 0x1000 = f.
Proof using.
  destruct f as [fs fz]. cbn [FreeFinder.freeStart FreeFinder.freeSize]. intros Hs Hz He.
  assert (PageTable.KernelEnd = 2 ^ 39) as HKE by done.
  unfold FreeFinder.Free. cbn [FreeFinder.freeStart FreeFinder.freeSize].
  rewrite (u64_small (fs + 4096 + (fz - 4096))), (u64_small (fs + 0x1000)) by (unfold is_u64; lia).
  destruct (Z.eqb_spec fs (fs + 4096 + (fz - 4096))); [lia|].
  destruct (Z.eqb_spec (fs + 4096) (fs + 4096)); [|done]. rewrite !u64_small by (unfold is_u64; lia).
  f_equal; lia.
Qed.

(** A page of the kernel that was unmapped is free again, the others as before. *)
Lemma window_gone s s1 s2 s' T T1 T' f :
  finder_ok s root f → pt_state s root T → pt_state s1 root T1 → pt_state s' root T' →
  let a := f.(FreeFinder.freeStart) in 4096 ≤ f.(FreeFinder.freeSize) → a mod 4096 = 0 →
  (∀ w, idx w 0 ≠ 511 → ¬ covers a 3 w → leaf_keep 3 s.(mem) s1.(mem) root w) →
  (∀ w, idx w 0 ≠ 511 → leaf4 s2.(mem) root w = leaf4 s1.(mem) root w) →
  (∀ w, covers a 3 w → (leaf4 s'.(mem) root w).2 = 0) →
  (∀ w, idx w 0 ≠ 511 → ¬ covers a 3 w → leaf_drop s2.(mem) s'.(mem) root w) →
  finder_ok s' root f ∧
  ∀ w, is_u64 w → idx w 0 ≠ 511 → translate s'.(mem) root w = translate s.(mem) root w.
Proof using.
  intros [Hf Hgap] Hps Hps1 Hps' a Hsz Ha Hk Heq Hz Hd.
  unfold region_in_range, fend in *. assert (HKE : PageTable.KernelEnd = 2 ^ 39) by done.
  assert (Hcov : ∀ w, 0 ≤ w < PageTable.KernelEnd → covers a 3 w → a ≤ w < a + 4096).
  { intros w Hw Hc. assert (0 ≤ a < PageTable.KernelEnd) as Ha0. { unfold a. lia. } clearbody a.
    apply (covers_kernel a w Ha0 Hw) in Hc. clear -Hc Ha. zlia. }
  split.
  - split; [done|]. intros w Hw. unfold fend in Hw. assert (Hw0 : idx w 0 ≠ 511) by (apply idx0_kernel; lia).
    destruct (decide (covers a 3 w)) as [Hc|Hc].
    { unfold walks_free. rewrite (Hz w Hc). by vm_compute. }
    pose proof (walks_free_keep 3 _ _ root w (Hgap w Hw) (Hk w Hw0 Hc)) as Hf1.
    unfold walks_free in *. destruct (Hd w Hw0 Hc) as [->|[_ ->]]; [|by vm_compute].
    by rewrite Heq.
  - intros w Hu Hw. destruct (decide (covers a 3 w)) as [Hc|Hc].
    + rewrite (unmapped_translate s'.(mem) root T' w s') by (done || by rewrite Hz).
      symmetry. destruct (canonical w) eqn:Hcan; [|by unfold translate; rewrite Hcan].
      eapply unmapped_translate; [exact Hps|done|].
      assert (Hin : a ≤ w < a + 4096).
      { apply Hcov; [|done]. unfold covers in Hc. change (span 3) with 4096 in Hc.
        unfold canonical, is_u64 in *. apply orb_prop in Hcan.
        assert (0 ≤ a < 2 ^ 39 - 4095) as Hab by (unfold a; lia). clearbody a.
        destruct Hcan as [?%Z.ltb_lt|?%Z.leb_le]; revert Hc; eval_pow; intros; zlia. }
      specialize (Hgap w). unfold walks_free, fend in Hgap. fold a in Hgap.
      specialize (Hgap ltac:(lia)). by apply orb_false_iff in Hgap as [? _].
    + rewrite <-(keep_translate 3 s s1 root T T1 w Hps Hps1 (Hk w Hw Hc)).
      eapply drop_translate; [exact Hps1|exact Hps'|]. unfold leaf_drop.
      rewrite <-(Heq w Hw). by apply Hd.
Qed.

(** Allocating a page that is no table. *)
Lemma run_alloc_pml4 s T : pt_state s root T → (0 < avail s.(alloc))%nat →
  ∃ p s', PageTable.alloc_op (Alloc 0x1000 0x1000) s = Ok (Some p, s')
    ∧ p mod 4096 = 0 ∧ 0 < p < 2 ^ 52 ∧ p ∉ owned s.(alloc) ∧ p ∈ owned s'.(alloc)
    ∧ (∀ q, T !! q ≠ Some p) ∧ pt_state s' root T ∧ same_cpu s s' ∧ s'.(mem) = s.(mem)
    ∧ spared s s' T T ∧ (avail s.(alloc) ≤ Datatypes.S (avail s'.(alloc)))%nat.
Proof.
  intros Hps Hav. destruct (alloc_avail _ Hav) as (p & a' & Ha & Hle).
  destruct (alloc_some _ _ _ Ha) as (Hal & Hb & Hfr & Hown).
  exists p, (set_alloc a' s). split_and!; try done; try lia.
  - unfold PageTable.alloc_op. by rewrite Ha.
  - cbn. rewrite Hown. by apply elem_of_union_l, elem_of_singleton_2.
  - intros q Hq. apply Hfr. by eapply (ps_owned _ _ _ Hps).
  - destruct Hps as [? ? ? Ho]. split; try done. intros q g Hq. cbn. rewrite Hown.
    apply elem_of_union_r. by eapply Ho.
  - intros h Hh Hho Hno. cbn. rewrite Hown. split_and!; [by apply elem_of_union_r|done|done].
Qed.

Lemma run_new_pml4 s T f pdpt :
  map_ok s root T f → f.(FreeFinder.freeStart) mod 4096 = 0 → 4096 ≤ f.(FreeFinder.freeSize) →
  (4 ≤ avail s.(alloc))%nat →
  ∃ p s' T1 T', UserMap.new_pml4 root f pdpt s = Ok ((p, f), s')
    ∧ p mod 4096 = 0 ∧ 0 < p < 2 ^ 52 ∧ p ∉ owned s.(alloc) ∧ p ∈ owned s'.(alloc)
    ∧ (∀ q, T' !! q ≠ Some p) ∧ pml4_words s'.(mem) p pdpt
    ∧ map_ok s' root T' f ∧ same_cpu s s' ∧ spared s s' T T'
    ∧ (∀ q g, (length q ≤ 3)%nat → T !! q = Some g → T1 !! q = Some g)
    ∧ (∀ q g, T' !! q = Some g → T1 !! q = Some g)
    ∧ ∀ w, is_u64 w → idx w 0 ≠ 511 → translate s'.(mem) root w = translate s.(mem) root w.
Proof.
  intros [Hps Hlock Hfo] Hal Hsz Hav. set (a := f.(FreeFinder.freeStart)) in *.
  assert (Hf : 0 ≤ a ∧ a + f.(FreeFinder.freeSize) ≤ PageTable.KernelEnd) by (destruct Hfo as [[? ?] _]; lia).
  destruct (run_alloc_pml4 s T Hps ltac:(lia))
    as (p & s0 & Hr0 & Hp & Hpb & Hpo & Hpo0 & Hno & Hps0 & Hcpu0 & Hm0 & Hsp0 & Hav0).
  assert (Hmo0 : map_ok s0 root T f).
  { split; [done|by rewrite (sc_held _ _ Hcpu0)|]. destruct Hfo as [? Hg]. split; [done|].
    unfold free_gap in *. by rewrite Hm0. }
  destruct (run_EasyMap_page root p Hp s0 T f Hmo0 Hal Hsz ltac:(lia) ltac:(lia) Hpo0 Hno)
    as (s1 & T1 & Hr1 & Hwo1 & Hcpu1 & Hsp1 & Hd1 & Hsub1 & Hk1).
  fold a in Hr1, Hwo1, Hd1, Hk1.
  destruct (run_fill s1 T1 a p pdpt Hp ltac:(lia) ltac:(lia) Hwo1) as (s2 & Hr2 & Hwo2 & Hpw & Hwords).
  assert (Hleaf : ∀ w, idx w 0 ≠ 511 → leaf4 s2.(mem) root w = leaf4 s1.(mem) root w).
  { intros w Hw. apply (page_write_leaf root p Hp s1 s2 T1); [apply Hwo1|apply Hwo1|done|done]. }
  assert (Ha0 : idx a 0 ≠ 511) by (apply idx0_kernel; lia).
  assert (Hcpu2 : same_cpu s1 s2) by (destruct Hpw as (? & -> & _); by split).
  destruct (run_Unmap_page root s2 T1 (FreeFinder.mkState (a + 4096) (f.(FreeFinder.freeSize) - 4096)) a)
    as (s' & T' & Hr3 & Hps' & Hcpu3 & Hsp3 & Hsub3 & Hz & Hd3); [apply Hwo2| |done|lia|lia| |].
  { rewrite (sc_held _ _ Hcpu2), (sc_held _ _ Hcpu1). apply Hmo0. }
  { by rewrite Hleaf. }
  pose proof (finder_give_back f) as Hgb. fold a in Hgb. rewrite Hgb in Hr3 by lia.
  destruct (Hsp1 p Hp Hpo0 Hno) as (Hpo1 & Hno1 & _).
  destruct (Hsp3 p Hp) as (Hpo3 & Hno3 & Hw3); [by destruct Hpw as (? & -> & _)|done|].
  destruct (window_gone s0 s1 s2 s' T T1 T' f (mo_finder _ _ _ _ Hmo0) Hps0 (wo_pt _ _ _ _ _ Hwo1)
    Hps' Hsz Hal Hk1 Hleaf Hz Hd3) as (Hfo' & Htr).
  assert (Hcpu : same_cpu s s') by (do 3 (etrans; [done|]); done).
  exists p, s', T1, T'. split_and!; try done; try lia.
  - unfold UserMap.new_pml4. run Hr0. cbn beta iota. run Hr1. cbn beta iota zeta.
    cbn [EasyMap.start]. rewrite Hr2. unfold EasyMap.delete.
    erewrite run_bind; [reflexivity|]. run run_AssertNoncritical; [exact Hr3|].
    apply (ps_noncritical _ _ _ (wo_pt _ _ _ _ _ Hwo2)).
  - destruct Hwords as (Hw0 & Hwf & Hwz). split_and!.
    + by rewrite Hw3 by lia.
    + by rewrite Hw3 by lia.
    + intros i Hi. rewrite Hw3 by lia. by apply Hwz.
  - split; [done|by rewrite (sc_held _ _ Hcpu)|done].
  - eapply spared_trans; [|exact Hsp3]. apply (spared_page_write s s1 s2 T T1 p); [done|done| |done].
    by eapply spared_trans.
  - intros w Hu Hw. rewrite Htr by done. by rewrite Hm0.
Qed.
End Constructor.

(** ** What the new map translates *)

Section NewMap.
Context (m : gmap Z Z) (root : Z) (T : gmap (list Z) Z) (HT : tree_ok m root T).
Context (p pdpt : Z) (Hp : p mod 4096 = 0) (Hpb : 0 < p < 2 ^ 52) (Hno : ∀ q, T !! q ≠ Some p).
Context (Hk : T !! [0] = Some pdpt) (Hw : pml4_words m p pdpt).

(** The new PML4 and the kernel's tables below its first slot. *)
Definition user_tables : gmap (list Z) Z :=
  <[[] := p]> (filter (λ kv, [0] `suffix_of` kv.1) T).

Lemma user_tables_Some q g :
  user_tables !! q = Some g ↔ q = [] ∧ g = p ∨ [0] `suffix_of` q ∧ T !! q = Some g.
Proof using.
  unfold user_tables. destruct (decide (q = [])) as [->|Hq].
  - rewrite lookup_insert_eq. split; [intros [= <-]; by left|].
    intros [[_ ->]|[Hs _]]; [done|]. by apply suffix_nil_inv in Hs.
  - rewrite lookup_insert_ne by done. rewrite map_lookup_filter_Some. cbn [fst]. split.
    + intros [? ?]. by right.
    + by intros [[? _]|[? ?]].
Qed.

Lemma table_of h : h mod 4096 = 0 → 0 ≤ h < 2 ^ 52 →
  is_table (h .| 3) = true ∧ frame (h .| 3) = h ∧ code_frame (h .| 3) = h.
Proof using.
  intros Hh Hb. split_and!.
  - by apply (is_table_lor _ flags_3), bit7_page.
  - by rewrite (frame_lor _ flags_3), frame_page.
  - by rewrite (code_frame_lor _ flags_3), code_frame_page.
Qed.

Lemma kernel_slot : is_table (read64 m (slot root 0)) = true ∧ frame (read64 m (slot root 0)) = pdpt.
Proof using HT Hk.
  pose proof (t_child _ _ _ HT [] root 0 (t_root _ _ _ HT) ltac:(cbn; lia) ltac:(lia)
    ltac:(by intros [_ ?])) as Hc.
  rewrite Hk in Hc. destruct (is_table _); [|done]. by injection Hc.
Qed.

(** The children of the new PML4. *)
Lemma user_slot i : 0 ≤ i < 511 →
  user_tables !! [i] = (if is_table (read64 m (slot p i)) then Some (frame (read64 m (slot p i))) else None)
  ∧ (is_table (read64 m (slot p i)) = true →
     code_frame (read64 m (slot p i)) = frame (read64 m (slot p i))).
Proof using HT Hk Hw.
  intros Hi. destruct Hw as (H0 & _ & Hz). destruct (decide (i = 0)) as [->|Hne].
  - destruct (t_page _ _ _ HT _ _ Hk) as [Ha Hb]. destruct (table_of pdpt Ha Hb) as (Ht & Hf & Hc).
    rewrite H0, Ht, Hf, Hc. split; [|done]. apply user_tables_Some. by right.
  - rewrite Hz by lia. split; [|done]. change (is_table 0) with false. cbn beta iota.
    destruct (user_tables !! [i]) as [g|] eqn:E; [|done].
    apply user_tables_Some in E as [[? _]|[Hs _]]; [done|].
    apply suffix_cons_inv in Hs as [[= Hx]|Hs]; [by rewrite Hx in Hne|by apply suffix_nil_inv in Hs].
Qed.

Lemma user_tables_ok : tree_ok m p user_tables.
Proof using HT Hk Hw Hp Hpb Hno.
  destruct (table_of p Hp ltac:(lia)) as (Htp & Hfp & _).
  assert (Hdeep : ∀ q i, [0] `suffix_of` q → user_tables !! (i :: q) = T !! (i :: q)).
  { intros q i Hs. apply option_eq. intros g. rewrite user_tables_Some. split.
    - by intros [[? _]|[_ ?]].
    - intros ?. right. split; [by apply suffix_cons_r|done]. }
  assert (Hroot : ∀ i, 0 ≤ i < 512 → ¬ fractal [] i → 0 ≤ i < 511).
  { intros i Hi Hf. destruct (decide (i = 511)) as [->|]; [by destruct Hf|lia]. }
  split.
  - apply user_tables_Some. by left.
  - destruct Hw as (_ & Hf & _). by rewrite Hf, Htp, Hfp.
  - intros q g [[-> ->]|[_ Hq]]%user_tables_Some; [lia|by apply (t_page _ _ _ HT q)].
  - intros q q' g [[-> ->]|[_ Hq]]%user_tables_Some [[-> Hx]|[_ Hq']]%user_tables_Some.
    + done.
    + by destruct (Hno q').
    + subst g. by destruct (Hno q).
    + by apply (t_inj _ _ _ HT _ _ g).
  - intros q g i [[-> ->]|[Hs Hq]]%user_tables_Some Hl Hi Hf; [by apply user_slot, Hroot|].
    rewrite Hdeep by done. by apply (t_child _ _ _ HT).
  - intros q g i [[-> ->]|[Hs Hq]]%user_tables_Some Hl Hi Hf; [by apply user_slot, Hroot|].
    by apply (t_clean _ _ _ HT q g).
  - intros i q g [[? _]|[Hs Hq]]%user_tables_Some; [done|].
    destruct (t_parent _ _ _ HT _ _ _ Hq) as (Hl & Hi & Hf & [h Hh]). split_and!; try done; try lia.
    destruct (decide (q = [])) as [->|Hne]; [exists p; apply user_tables_Some; by left|].
    exists h. apply user_tables_Some. right. split; [|done].
    apply suffix_cons_inv in Hs as [[= _ Hx]|Hs]; [by subst|done].
Qed.

(** The kernel's addresses translate as in the kernel's map, the others not. *)
Lemma user_translate w : idx w 0 ≠ 511 →
  translate m p w = if idx w 0 =? 0 then translate m root w else None.
Proof using HT Hk Hw Hp Hpb.
  intros Hi. destruct (t_page _ _ _ HT _ _ (t_root _ _ _ HT)) as [Hra Hrb].
  unfold translate. rewrite (frame_page root Hra Hrb), (frame_page p Hp) by lia.
  destruct (canonical w); [|by destruct (_ =? _)]. unfold leaf4. rewrite !leaf_unfold. cbn zeta.
  fold (slot p (idx w 0)) (slot root (idx w 0)). pose proof (idx_range w 0) as Hr.
  destruct Hw as (H0 & _ & Hz). destruct (Z.eqb_spec (idx w 0) 0) as [E|E].
  - rewrite E, H0. destruct (t_page _ _ _ HT _ _ Hk) as [Ha Hb].
    destruct (table_of pdpt Ha Hb) as (Ht & Hf & _), kernel_slot as [Ht' Hf'].
    by rewrite Ht, Ht', Hf, Hf'.
  - rewrite Hz by lia. done.
Qed.
End NewMap.

(** ** Delete *)

Section Properties.
Context {A : Type} `{FreeLaws A, BzeroLaws A, LockLaws A, AnsaMemcpy A, HeapLaws A, WindowMap A}.
Implicit Types (s : machine A) (T : gmap (list Z) Z) (f : FreeFinder.state).

(** A map without tables of its own has nothing to free but its PML4. *)
Lemma run_empty_slots n p k i s : p mod 4096 = 0 → 0 ≤ i → i + Z.of_nat k ≤ 512 →
  (∀ j, i ≤ j < i + Z.of_nat k → read64 s.(mem) (slot p j) = 0) →
  for_loop k i (λ i,
    entry ← window_read (Window p 0x1000) (8 * i) 8;
    if negb (truthy entry) || truthy (entry .& 0x80) then mret tt
    else FreeTableRecursive n (entry .& 0x7FFFFFFFFFFFF000) 0 0x200) s = Ok (tt, s).
Proof.
  intros Hp. revert i. induction k as [|k IH]; intros i Hi Hk Hz; [done|]. cbn [for_loop].
  assert (Hr : window_read (Window p 0x1000) (8 * i) 8 s = Ok (0, s)).
  { unfold window_read. rewrite in_window_size by (cbn; lia). rewrite run_gets. cbn [wbase].
    rewrite le_read64; fold (slot p i); rewrite ?(Hz i) by lia; [done|unfold slot; zlia|by vm_compute]. }
  erewrite run_bind; [|by run Hr]. apply IH; [lia|lia|]. intros j Hj. apply Hz. lia.
Qed.

Lemma run_UserMap_delete p s : noncritical s → s.(cr3) ≠ p → p mod 4096 = 0 →
  can_map s p 0x1000 = true → p ∈ owned s.(alloc) →
  (∀ i, 1 ≤ i < 511 → read64 s.(mem) (slot p i) = 0) →
  ∃ a, UserMap_delete p s = Ok (tt, set_alloc a s) ∧ owned a = owned s.(alloc) ∖ {[p]}.
Proof.
  intros Hn Hne Hp Hmap Ho Hz. destruct (free_page s.(alloc) p Ho) as (a & Hf & Ha).
  exists a. split; [|done]. unfold UserMap_delete, FreeTable, PageTable.IsSet.
  run run_AssertNoncritical; [|done]. run run_gets.
  run_assert ltac:(by apply negb_true_iff, Z.eqb_neq).
  cbn [FreeTableRecursive]. run run_AssertNoncritical; [|done].
  erewrite run_bind.
  2:{ run run_open_window; [|done|done]. change (Z.to_nat (0x1ff - 1)) with 510%nat.
      erewrite run_bind; [by apply run_AssertNoncritical|].
      apply (run_empty_slots 2 p 510 1); [done|lia|lia|]. intros j Hj. apply Hz. lia. }
  unfold PageTable.alloc_op. by rewrite Hf.
Qed.

(** ** The whole life *)

(** The kernel's tables are still where they were. *)
Lemma kernel_stays s root T1 T' pdpt k :
  pt_state s root T' → T1 !! [0] = Some pdpt → (∀ q g, T' !! q = Some g → T1 !! q = Some g) →
  0 ≤ k < PageTable.KernelEnd → is_Some (translate s.(mem) root k) → T' !! [0] = Some pdpt.
Proof.
  intros Hps Hk Hsub Hkk [x Hx]. rewrite (pt_translate _ root T') in Hx by done.
  destruct (canonical k); [|done]. destruct (leaf4 s.(mem) root k) as [d e] eqn:Hl.
  unfold leaf_frame in Hx. destruct (leaf4_props _ _ _ _ _ Hl) as [Hd _].
  destruct (Z.eqb_spec d 0); [by rewrite andb_false_r in Hx|].
  destruct (leaf_table _ _ _ _ _ _ (ps_tree _ _ _ Hps) (idx0_kernel k Hkk) Hl) as (g & Hg & _).
  destruct (tree_up _ _ _ _ _ 1 _ (ps_tree _ _ _ Hps) Hg) as [h Hh]; [lia|].
  assert (vpath k 1 = [0]) as Hv.
  { cbn. f_equal. unfold idx, span, PageTable.KernelEnd in *. revert Hkk. eval_pow. intros. zlia. }
  rewrite Hv in Hh. rewrite Hh. f_equal. apply Hsub in Hh. congruence.
Qed.

(** [New] once the object and the PML4 are there. *)
Lemma run_New_object own siblings object this root f pdpt p s0 s s1 :
  ApiDomain.Alloc own siblings object s0 = Ok (Some this, s) →
  UserMap.new_pml4 root f pdpt s = Ok ((p, f), s1) →
  New own siblings object root f pdpt s0
  = (l ← UserMap.initial_free; mret (this, mkUserMap p l, f)) s1.
Proof.
  intros Hobj Hr. unfold New, ApiDomain.New, UserMap.new.
  destruct (UserMap.initial_free s1) as [[l s2]|fl] eqn:Hl.
  - erewrite run_bind; [|run Hobj; cbn beta iota; erewrite run_bind; [reflexivity|]; run Hr; cbn beta iota; by run Hl].
    cbn beta iota. by run Hl.
  - rewrite (run_bind_stop _ _ s1 fl Hl). apply run_bind_stop. run Hobj. cbn beta iota.
    apply run_bind_stop. run Hr. cbn beta iota. by apply run_bind_stop.
Qed.

(** C10. A new user map is an object of the domain's heap with a PML4 that was
    not in use before.  Its translations are the kernel's below KernelEnd and
    nothing else, and the range it can hand out is free; the loaded address
    space translates as before, the kernel map has its window back, and no page
    that was in use, other than the loaded tables, is written.  When nothing was
    mapped in it, [Delete] gives back the PML4 and the object, and no table of
    the kernel. *)
Theorem New_Delete own siblings object this s0 s root T f pdpt k :
  ApiDomain.Alloc own siblings object s0 = Ok (Some this, s) →
  map_ok s root T f → f.(FreeFinder.freeStart) mod 4096 = 0 → 4096 ≤ f.(FreeFinder.freeSize) →
  (4 ≤ avail s.(alloc))%nat → T !! [0] = Some pdpt →
  0 ≤ k < PageTable.KernelEnd → is_Some (translate s.(mem) root k) →
  ∃ p l s1 s2 T1, New own siblings object root f pdpt s0 = Ok ((this, mkUserMap p l, f), s2)
    ∧ heap_step s1 s2 ∧ fl_inv l
    ∧ (∀ a, is_free l a ↔ PageTable.KernelEnd ≤ a < 2 ^ 47
         ∨ 0xFFFF800000000000 ≤ a < 0xFFFF800000000000 + 0x7F800000000)
    ∧ map_ok s1 root T1 f ∧ same_cpu s s1 ∧ spared s s1 T T1
    ∧ p ∉ owned s.(alloc) ∧ p ∈ owned s1.(alloc) ∧ tree_ok s1.(mem) p (user_tables T1 p)
    ∧ (∀ w, is_u64 w → idx w 0 ≠ 511 →
         translate s1.(mem) root w = translate s.(mem) root w
         ∧ translate s1.(mem) p w = if idx w 0 =? 0 then translate s.(mem) root w else None)
    ∧ ∀ l' s', noncritical s' → s'.(cr3) ≠ p → can_map s' p 0x1000 = true → p ∈ owned s'.(alloc) →
        (∀ j, 0 ≤ j < 512 → read64 s'.(mem) (slot p j) = read64 s1.(mem) (slot p j)) →
        ∃ a, Delete own siblings this (mkUserMap p l') s'
            = ApiDomain.Free own siblings this (set_alloc a s')
          ∧ owned a = owned s'.(alloc) ∖ {[p]}.
Proof.
  intros Hobj Hmo Hal Hsz Hav Hk Hkk Hkt.
  destruct (run_new_pml4 root s T f pdpt Hmo Hal Hsz Hav)
    as (p & s1 & T1 & T' & Hr & Hp & Hpb & Hpo & Hpo' & Hno & Hw & Hmo' & Hcpu & Hsp & Hsub & Hsub' & Htr).
  assert (Hk' : T' !! [0] = Some pdpt).
  { apply (kernel_stays s1 root T1 T' pdpt k); [apply Hmo'|by apply Hsub; [cbn; lia|]|done|done|].
    rewrite Htr; [done|unfold is_u64, PageTable.KernelEnd in *; lia|by apply idx0_kernel]. }
  pose proof (ps_tree _ _ _ (mo_pt _ _ _ _ Hmo')) as HT'.
  destruct (UserMap_initial_free s1) as (l & s2 & Hl & Hstep & Hinv & Hfree); [apply (mo_pt _ _ _ _ Hmo')|].
  exists p, l, s1, s2, T'. split_and!; try done.
  - rewrite (run_New_object own siblings object this root f pdpt p s0 s s1) by done. by run Hl.
  - by apply (user_tables_ok s1.(mem) root T' HT' p pdpt).
  - intros w Hu Hi. split; [by apply Htr|].
    rewrite (user_translate s1.(mem) root T' HT' p pdpt Hp Hpb Hk' Hw w Hi).
    destruct (_ =? _); [by apply Htr|done].
  - intros l' s' Hn Hne Hmap Ho Hw2.
    destruct (run_UserMap_delete p s' Hn Hne Hp Hmap Ho) as (a & Hd & Ha).
    { intros i Hi. rewrite Hw2 by lia. by apply Hw. }
    exists a. split; [|done]. unfold Delete, ApiDomain.Delete. by run Hd.
Qed.
End Properties.

(** ** A kernel with its first gigabyte mapped *)

Section Witness.
#[local] Existing Instance ample_heap.
#[local] Existing Instance ample_heap_laws.
#[local] Instance fill_memcpy : AnsaMemcpy PageSet := {| Memcpy _ _ _ := mret tt |}.

Definition kernel_words : gmap Z Z := <[0x9000 := 0x83]> (<[0x8000 := 0x9003]> {[0x8ff8 := 0x8003]}).
Definition kernel_tree : gmap (list Z) Z := <[[0] := 0x9000]> {[ [] := 0x8000 ]}.
Definition kernel_machine : machine PageSet :=
  Machine _ kernel_words 0x8000 true true ∅ [] [] {[0x8000; 0x9000]}.
Definition kernel_finder : FreeFinder.state := FreeFinder.mkState 0x40000000 0x10000.

Lemma kernel_words_ok : tree_ok kernel_words 0x8000 kernel_tree.
Proof.
  pose proof (tree_leaf (<[0x8000 := 0x9003]> {[0x8ff8 := 0x8003]}) kernel_words 0x8000 kernel_tree
    [0] 0x9000 0 kernel_tree_ok) as Ht.
  rewrite (prune_none _ _ _ _ kernel_tree_ok) in Ht by done. apply Ht; [|done| |by right].
  - change kernel_words with (write64 (<[0x8000 := 0x9003]> {[0x8ff8 := 0x8003]}) (slot 0x9000 0) 0x83).
    by apply (agree_write _ 0x8000 kernel_tree [0] 0x9000); [apply kernel_tree_ok|..].
  - by intros [? _].
Qed.

Lemma kernel_machine_ok : map_ok kernel_machine 0x8000 kernel_tree kernel_finder.
Proof.
  split; [split| |split].
  - done.
  - by right.
  - apply kernel_words_ok.
  - intros q g Hq. unfold kernel_tree in Hq.
    apply lookup_insert_Some in Hq as [[_ <-]|[_ [_ <-]%lookup_singleton_Some]]; by apply (bool_decide_unpack _).
  - apply not_elem_of_nil.
  - by vm_compute.
  - intros v Hv. unfold fend in Hv. cbn in Hv. unfold walks_free.
    assert (idx v 0 = 0) as H0 by (unfold idx, span; eval_pow; zlia).
    assert (idx v 1 = 1) as H1 by (unfold idx, span; eval_pow; zlia).
    unfold leaf4. rewrite leaf_unfold, H0. cbn zeta.
    change (read64 kernel_machine.(mem) (0x8000 + 8 * 0)) with 0x9003. change (is_table 0x9003) with true.
    change (frame 0x9003) with 0x9000. cbn beta iota. change (0 + 1) with 1. rewrite leaf_unfold, H1. by vm_compute.
Qed.

Definition bump_domain : ApiDomain.Allocators PageSet :=
  ApiDomain.mk _ (λ _ s, Ok (Some 0x100000, s)) (λ _ s, Ok (tt, s)) (λ _ s, Ok (true, s))
    (λ _ _ s, Ok (None, s)) (λ _ s, Ok (tt, s)) (λ _ s, Ok (false, s)).

(** A map is made, and taken down again while the kernel's is loaded. *)
Lemma New_Delete_witness :
  ∃ p l s1 s2 a, New bump_domain [] 0x80 0x8000 kernel_finder 0x9000 kernel_machine
      = Ok ((0x100000, mkUserMap p l, kernel_finder), s2)
    ∧ translate s1.(mem) p 0x1234 = Some 0x1234 ∧ translate s1.(mem) p 0x8000000000 = None
    ∧ Delete bump_domain [] 0x100000 (mkUserMap p l) s1 = Ok (tt, set_alloc a s1) ∧ p ∉ a.
Proof.
  destruct (New_Delete bump_domain [] 0x80 0x100000 kernel_machine kernel_machine 0x8000 kernel_tree
    kernel_finder 0x9000 0x1000 eq_refl kernel_machine_ok eq_refl) as
    (p & l & s1 & s2 & T1 & Hr & _ & _ & _ & Hmo & Hcpu & _ & Hpo & Hpo1 & _ & Htr & Hd).
  - vm_compute. discriminate.
  - vm_compute. lia.
  - reflexivity.
  - unfold PageTable.KernelEnd. lia.
  - exists 0x1000. vm_compute. reflexivity.
  - destruct (Hd l s1) as (a & Hd1 & Ha).
    + apply (mo_pt _ _ _ _ Hmo).
    + rewrite (sc_cr3 _ _ Hcpu). intros Heq. apply Hpo. rewrite <-Heq. by apply (bool_decide_unpack _).
    + done.
    + done.
    + done.
    + exists p, l, s1, s2, a. split_and!; [exact Hr| | | |].
      * etrans; [apply (Htr 0x1234); [unfold is_u64; lia|vm_compute; discriminate]|vm_compute; reflexivity].
      * etrans; [apply (Htr 0x8000000000); [unfold is_u64; lia|vm_compute; discriminate]|vm_compute; reflexivity].
      * rewrite Hd1. reflexivity.
      * change (owned a) with a in Ha. rewrite Ha. intros [_ Hx]%elem_of_difference.
        by apply Hx, elem_of_singleton_2.
Defined.
End Witness.
