(* ===== verification/Wakeup.v ===== *)
(** * Messages to a processor

    [Cpu::RunAsync] and [Cpu::HandleWakeup] (src/arch/x64/smp/cpu.cpp) run at
    the same time on several processors.  Processor.v has them as
    computations; here every access to what they share, the slot of the
    message, its lock and the pending interrupt of the receiver, is a step of
    its own, so that all interleavings are covered. *)

From stdpp Require Import base numbers list relations.
From Stdlib Require Import ZArith Lia.
From S2P Require Import Prelude.
#[local] Open Scope Z_scope.

(** A function and its argument; a null function is no message. *)
Definition message : Type := Z * Z.

(** How far a [RunAsync] is: before it has the lock, with the lock, with the
    message stored, after the release, and after the interrupt was sent. *)
Inductive sender_pc : Type := SStart | SSeized | SStored | SReleased | SDone.

(** How far the handler is: the interrupt is accepted, acknowledged, the lock
    is held, the message is read and the slot cleared, the lock is released. *)
Inductive handler_pc : Type :=
  | HIdle | HEntered | HAcked | HSeized
  | HRead (m : message)
  | HCall (m : message).

Inductive holder : Type := BySender (i : nat) | ByHandler.

Record world : Type := mkWorld {
  senders : list (message * sender_pc);
  slot : message;              (* wakeupFunction, wakeupArg *)
  lock : option holder;        (* wakeupLock *)
  pending : bool;              (* the receiver's Wakeup interrupt *)
  handler : handler_pc;
  posted : list message;       (* the messages stored so far, newest first *)
  ran : list message;          (* the messages run so far, newest first *)
}.

Definition set_sender (i : nat) (x : message * sender_pc) (w : world) : world :=
  mkWorld (<[i := x]> w.(senders)) w.(slot) w.(lock) w.(pending) w.(handler) w.(posted) w.(ran).
Definition set_slot (m : message) (w : world) : world :=
  mkWorld w.(senders) m w.(lock) w.(pending) w.(handler) w.(posted) w.(ran).
Definition set_lock (l : option holder) (w : world) : world :=
  mkWorld w.(senders) w.(slot) l w.(pending) w.(handler) w.(posted) w.(ran).
Definition set_pending (b : bool) (w : world) : world :=
  mkWorld w.(senders) w.(slot) w.(lock) b w.(handler) w.(posted) w.(ran).
Definition set_handler (h : handler_pc) (w : world) : world :=
  mkWorld w.(senders) w.(slot) w.(lock) w.(pending) h w.(posted) w.(ran).
Definition post (m : message) (w : world) : world :=
  mkWorld w.(senders) m w.(lock) w.(pending) w.(handler) (m :: w.(posted)) w.(ran).

(** [if (!func) return; func(arg);] *)
Definition run_message (m : message) (w : world) : world :=
  if m.1 =? 0 then w
  else mkWorld w.(senders) w.(slot) w.(lock) w.(pending) w.(handler) w.(posted) (m :: w.(ran)).

Inductive step (w : world) : world → Prop :=
  (** [wakeupLock.Seize()] of a sender *)
  | step_seize i m :
      w.(senders) !! i = Some (m, SStart) → w.(lock) = None →
      step w (set_lock (Some (BySender i)) (set_sender i (m, SSeized) w))
  (** [wakeupFunction = func; wakeupArg = arg;] *)
  | step_store i m :
      w.(senders) !! i = Some (m, SSeized) →
      step w (post m (set_sender i (m, SStored) w))
  (** [wakeupLock.Release()] *)
  | step_release i m :
      w.(senders) !! i = Some (m, SStored) →
      step w (set_lock None (set_sender i (m, SReleased) w))
  (** [GetLapic().SendIpi(GetApicId(), IntVectors::Wakeup)] *)
  | step_ipi i m :
      w.(senders) !! i = Some (m, SReleased) →
      step w (set_pending true (set_sender i (m, SDone) w))
  (** The receiver accepts the interrupt. *)
  | step_enter :
      w.(pending) = true → w.(handler) = HIdle →
      step w (set_pending false (set_handler HEntered w))
  (** [SendEoi()] *)
  | step_eoi : w.(handler) = HEntered → step w (set_handler HAcked w)
  (** [cur.wakeupLock.Seize()] *)
  | step_handler_seize :
      w.(handler) = HAcked → w.(lock) = None →
      step w (set_lock (Some ByHandler) (set_handler HSeized w))
  (** [func = cur.wakeupFunction; arg = cur.wakeupArg; cur.wakeupFunction = NULL] *)
  | step_read :
      w.(handler) = HSeized →
      step w (set_slot (0, w.(slot).2) (set_handler (HRead w.(slot)) w))
  (** [cur.wakeupLock.Release()] *)
  | step_handler_release m :
      w.(handler) = HRead m → step w (set_lock None (set_handler (HCall m) w))
  (** The call, if there is one, and the end of the handler. *)
  | step_call m :
      w.(handler) = HCall m → step w (run_message m (set_handler HIdle w)).

(** Before the first message: calls of [RunAsync] about to start, each with a
    function. *)
Definition initial (w : world) : Prop :=
  (∀ i m pc, w.(senders) !! i = Some (m, pc) → pc = SStart ∧ m.1 ≠ 0) ∧
  w.(slot).1 = 0 ∧ w.(lock) = None ∧ w.(pending) = false ∧ w.(handler) = HIdle ∧
  w.(posted) = [] ∧ w.(ran) = [].

(** ** The invariant *)

(** The message the handler has taken but not run. *)
Definition taken (h : handler_pc) : list message :=
  match h with
  | HRead m | HCall m => if m.1 =? 0 then [] else [m]
  | _ => []
  end.

Definition locked_sender (pc : sender_pc) : bool :=
  match pc with SSeized | SStored => true | _ => false end.
Definition locked_handler (h : handler_pc) : bool :=
  match h with HSeized | HRead _ => true | _ => false end.
(** The senders whose interrupt is to come, and the handler that will look. *)
Definition will_send (pc : sender_pc) : bool :=
  match pc with SStored | SReleased => true | _ => false end.
Definition will_look (h : handler_pc) : bool :=
  match h with HEntered | HAcked | HSeized => true | _ => false end.
Definition has_stored (pc : sender_pc) : bool :=
  match pc with SStart | SSeized => false | _ => true end.

Record inv (w : world) : Prop := {
  inv_real : ∀ i m pc, w.(senders) !! i = Some (m, pc) → m.1 ≠ 0;
  inv_lock_sender : ∀ i m pc, w.(senders) !! i = Some (m, pc) →
    locked_sender pc = true ↔ w.(lock) = Some (BySender i);
  inv_lock_handler : locked_handler w.(handler) = true ↔ w.(lock) = Some ByHandler;
  inv_lock_real : ∀ i, w.(lock) = Some (BySender i) → is_Some (w.(senders) !! i);
  inv_full : w.(slot).1 ≠ 0 → ∃ older, w.(posted) = w.(slot) :: older ∧
    (taken w.(handler) ++ w.(ran)) `sublist_of` older;
  inv_empty : w.(slot).1 = 0 →
    (taken w.(handler) ++ w.(ran)) `sublist_of` w.(posted) ∧
    head (taken w.(handler) ++ w.(ran)) = head w.(posted);
  inv_wake : w.(slot).1 ≠ 0 → w.(pending) = true ∨ will_look w.(handler) = true ∨
    ∃ i m pc, w.(senders) !! i = Some (m, pc) ∧ will_send pc = true;
  inv_stored : ∀ i m pc, w.(senders) !! i = Some (m, pc) → has_stored pc = true →
    m ∈ w.(posted);
}.

Lemma wakeup_initial_inv w : initial w → inv w.
Proof.
  intros (Hs & Hslot & Hl & Hp & Hh & Hpo & Hr). split.
  - intros i m pc Hi. by apply Hs in Hi as [_ ?].
  - intros i m pc Hi. apply Hs in Hi as [-> _]. by rewrite Hl.
  - by rewrite Hl, Hh.
  - by rewrite Hl.
  - done.
  - by rewrite Hh, Hr, Hpo.
  - done.
  - intros i m pc Hi. by apply Hs in Hi as [-> _].
Qed.

(** *** Every step keeps it *)

(** A sender of the list after one of them moved on. *)
Lemma sender_cases (l : list (message * sender_pc)) i x j m pc :
  <[i := x]> l !! j = Some (m, pc) →
  j = i ∧ x = (m, pc) ∧ is_Some (l !! i) ∨ j ≠ i ∧ l !! j = Some (m, pc).
Proof.
  intros Hj. apply list_lookup_insert_Some in Hj as [(<- & -> & Hlt)|[Hne Hj]]; [left|by right].
  split_and!; [done..|]. by apply lookup_lt_is_Some.
Qed.

Ltac senders :=
  repeat match goal with
  | H : <[_ := _]> _ !! _ = Some (_, _) |- _ =>
      apply sender_cases in H as [(? & ? & ?)|(? & ?)]; simplify_eq/=
  end.

(** What a move of a sender that stores nothing has to show. *)
Lemma sender_move w i m pc pc' (l : option holder) (p : bool) :
  inv w → w.(senders) !! i = Some (m, pc) →
  (locked_sender pc' = true ↔ l = Some (BySender i)) →
  (∀ h, h ≠ BySender i → l = Some h ↔ w.(lock) = Some h) →
  (has_stored pc' = true → has_stored pc = true) →
  (w.(pending) = true → p = true) →
  (will_send pc = true → will_send pc' = true ∨ p = true) →
  inv (mkWorld (<[i := (m, pc')]> w.(senders)) w.(slot) l p w.(handler) w.(posted) w.(ran)).
Proof.
  intros [Hre Hls Hlh Hlr Hfull Hempty Hwake Hst] Hi Hl Hlo Hs Hp Hw.
  assert (i < length w.(senders))%nat by (by eapply lookup_lt_Some).
  split; cbn [senders slot lock pending handler posted ran]; try done.
  - intros j m' pc'' Hj. senders; [by eapply Hre|by eapply Hre].
  - intros j m' pc'' Hj. senders; [done|]. rewrite (Hlo (BySender j)) by congruence. by eapply Hls.
  - rewrite (Hlo ByHandler) by done. done.
  - intros j Hj. destruct (decide (j = i)) as [->|Hne].
    + by rewrite list_lookup_insert_eq by done.
    + rewrite list_lookup_insert_ne by done. apply Hlr, Hlo; [congruence|done].
  - intros Hne. destruct (Hwake Hne) as [?|[?|(j & m' & pc'' & Hj & Hx)]]; [auto..|].
    destruct (decide (j = i)) as [->|Hji].
    + simplify_eq. destruct (Hw Hx) as [?|?]; [|auto]. right. right.
      eexists i, _, pc'. by rewrite list_lookup_insert_eq by done.
    + right. right. exists j, m', pc''. by rewrite list_lookup_insert_ne by done.
  - intros j m' pc'' Hj Hx. senders; [|by eapply Hst]. eapply Hst; [exact Hi|auto].
Qed.

(** What a move of the handler that leaves the slot alone has to show. *)
Lemma handler_move w (h : handler_pc) (l : option holder) (p : bool) rn :
  inv w → (locked_handler h = true ↔ l = Some ByHandler) →
  (∀ i, l = Some (BySender i) ↔ w.(lock) = Some (BySender i)) →
  taken h ++ rn = taken w.(handler) ++ w.(ran) →
  (w.(pending) = true ∨ will_look w.(handler) = true → p = true ∨ will_look h = true) →
  inv (mkWorld w.(senders) w.(slot) l p h w.(posted) rn).
Proof.
  intros [Hre Hls Hlh Hlr Hfull Hempty Hwake Hst] Hl Hlo Ht Hw.
  split; cbn [senders slot lock pending handler posted ran]; try done.
  - intros j m pc Hj. rewrite Hlo. by eapply Hls.
  - intros j Hj. by apply Hlr, Hlo.
  - by rewrite Ht.
  - by rewrite Ht.
  - intros Hne. destruct (Hwake Hne) as [?|[?|?]]; [destruct Hw; auto..|auto].
Qed.

(** The premises of a move of the handler whose place is known. *)
Ltac handler_side Hh Hlh :=
  cbn; try done; try (by rewrite <-Hlh, Hh); intros; rewrite ?Hh; cbn;
  repeat match goal with
  | X : context [will_look (handler _)] |- _ => rewrite Hh in X; cbn in X
  end; auto; try (intuition done).

(** Storing a message: what was taken was posted before. *)
Lemma store_inv w i m :
  inv w → w.(senders) !! i = Some (m, SSeized) → inv (post m (set_sender i (m, SStored) w)).
Proof.
  intros [Hre Hls Hlh Hlr Hfull Hempty Hwake Hst] Hi.
  assert (i < length w.(senders))%nat by (by eapply lookup_lt_Some).
  split; cbn.
  - intros j m' pc' Hj. senders; [by eapply Hre|by eapply Hre].
  - intros j m' pc' Hj. senders; [exact (Hls i _ _ Hi)|by eapply Hls].
  - done.
  - intros j Hj. destruct (decide (j = i)) as [->|Hne].
    + by rewrite list_lookup_insert_eq by done.
    + rewrite list_lookup_insert_ne by done. by apply Hlr.
  - intros _. exists w.(posted). split; [done|].
    destruct (decide (w.(slot).1 = 0)) as [E|E]; [by apply Hempty|].
    destruct (Hfull E) as (older & -> & Hs). by apply sublist_cons.
  - intros E. by apply Hre in Hi.
  - intros _. right. right. eexists i, m, SStored. by rewrite list_lookup_insert_eq by done.
  - intros j m' pc' Hj Hx. senders; [left|right; by eapply Hst].
Qed.

(** Taking the message out of the slot. *)
Lemma read_inv w :
  inv w → w.(handler) = HSeized →
  inv (set_slot (0, w.(slot).2) (set_handler (HRead w.(slot)) w)).
Proof.
  intros [Hre Hls Hlh Hlr Hfull Hempty Hwake Hst] Hh. rewrite Hh in Hlh, Hfull, Hempty.
  cbn in Hfull, Hempty. split; cbn; try done. intros _.
  destruct (Z.eqb_spec w.(slot).1 0) as [E|E]; [by apply Hempty|].
  destruct (Hfull E) as (older & -> & Hs). split; [by apply sublist_skip|done].
Qed.

Lemma wakeup_step_inv w w' : inv w → step w w' → inv w'.
Proof.
  intros Hinv Hstep. pose proof Hinv as [Hre Hls Hlh Hlr Hfull Hempty Hwake Hst].
  destruct Hstep as [i m Hi Hl|i m Hi|i m Hi|i m Hi|Hp Hh|Hh|Hh Hl|Hh|m Hh|m Hh].
  - apply (sender_move w i m SStart); cbn; try done; auto.
    intros h Hne. rewrite Hl. split; congruence.
  - by apply store_inv.
  - assert (lock w = Some (BySender i)) as Hl by (by eapply Hls).
    apply (sender_move w i m SStored); cbn; try done; auto.
    intros h Hne. rewrite Hl. split; congruence.
  - apply (sender_move w i m SReleased); try done; cbn; auto.
    eapply Hls in Hi. cbn in Hi. exact Hi.
  - apply (handler_move w); handler_side Hh Hlh.
  - apply (handler_move w); handler_side Hh Hlh.
  - apply (handler_move w); handler_side Hh Hlh. rewrite Hl. split; congruence.
  - by apply read_inv.
  - assert (lock w = Some ByHandler) as Hl by (apply Hlh; by rewrite Hh).
    apply (handler_move w); handler_side Hh Hlh. rewrite Hl. split; congruence.
  - unfold run_message. destruct (Z.eqb_spec m.1 0) as [E|E];
      apply (handler_move w); handler_side Hh Hlh.
    + by rewrite E.
    + destruct (Z.eqb_spec m.1 0); done.
Qed.

Lemma wakeup_reachable_inv w0 w : initial w0 → rtc step w0 w → inv w.
Proof.
  intros Hi%wakeup_initial_inv Hr. induction Hr as [|w0 w1 w Hs Hr IH]; [done|].
  by eapply IH, wakeup_step_inv.
Qed.

(** *** Nothing waits for ever *)

(** A state without a next step: every call has returned and the handler is
    done. *)
Definition at_rest (w : world) : Prop := ∀ w', ¬ step w w'.

Lemma at_rest_idle w : inv w → at_rest w →
  w.(lock) = None ∧ w.(pending) = false ∧ w.(handler) = HIdle ∧
  ∀ i m pc, w.(senders) !! i = Some (m, pc) → pc = SDone.
Proof.
  intros [Hre Hls Hlh Hlr Hfull Hempty Hwake Hst] Hrest.
  assert (w.(lock) = None) as Hl.
  { destruct (lock w) as [[i|]|] eqn:E; [| |done]; exfalso.
    - destruct (Hlr i eq_refl) as [[m pc] Hi]. pose proof (proj2 (Hls i m pc Hi) eq_refl) as Hx.
      destruct pc; try done; eapply Hrest; [by eapply step_store|by eapply step_release].
    - pose proof (proj2 Hlh eq_refl) as Hx.
      destruct (handler w) eqn:Eh; try done; eapply Hrest;
        [by eapply step_read|by eapply step_handler_release]. }
  assert (w.(handler) = HIdle) as Hh.
  { destruct (handler w) eqn:Eh; [done|..]; exfalso; eapply Hrest;
      [by eapply step_eoi|by eapply step_handler_seize|by eapply step_read
      |by eapply step_handler_release|by eapply step_call]. }
  split_and!; [done| |done|].
  - destruct (pending w) eqn:Ep; [|done]. exfalso. eapply Hrest. by eapply step_enter.
  - intros i m pc Hi. destruct pc; [..|done]; exfalso; eapply Hrest;
      [by eapply step_seize|by eapply step_store|by eapply step_release|by eapply step_ipi].
Qed.

(** The steps a call and a handler have left, counting the handler that the
    interrupt of a call will start. *)
Definition sender_rank (pc : sender_pc) : nat :=
  match pc with SStart => 11 | SSeized => 10 | SStored => 9 | SReleased => 8 | SDone => 0 end.
Definition handler_rank (h : handler_pc) : nat :=
  match h with
  | HIdle => 0 | HEntered => 5 | HAcked => 4 | HSeized => 3 | HRead _ => 2 | HCall _ => 1
  end.
Fixpoint senders_rank (l : list (message * sender_pc)) : nat :=
  match l with [] => 0 | x :: l' => sender_rank x.2 + senders_rank l' end.
Definition rank (w : world) : nat :=
  senders_rank w.(senders) + handler_rank w.(handler) + (if w.(pending) then 6 else 0).

Lemma senders_rank_insert l i m m' pc pc' :
  l !! i = Some (m, pc) →
  (senders_rank (<[i := (m', pc')]> l) + sender_rank pc = senders_rank l + sender_rank pc')%nat.
Proof.
  revert i. induction l as [|x l IH]; intros [|i] Hi; [done..| |].
  - cbn in Hi. injection Hi as ->. cbn [insert list_insert senders_rank snd]. lia.
  - cbn in Hi. specialize (IH i Hi).
    change (<[S i := (m', pc')]> (x :: l)) with (x :: <[i := (m', pc')]> l).
    cbn [senders_rank]. lia.
Qed.

Lemma step_rank w w' : step w w' → (rank w' < rank w)%nat.
Proof.
  intros Hs. unfold rank.
  destruct Hs as [i m Hi Hl|i m Hi|i m Hi|i m Hi|Hp Hh|Hh|Hh Hl|Hh|m Hh|m Hh];
    cbn [senders handler pending set_lock set_sender post set_pending set_handler set_slot].
  - pose proof (senders_rank_insert _ i m m _ SSeized Hi) as Hx. cbn [sender_rank] in Hx. lia.
  - pose proof (senders_rank_insert _ i m m _ SStored Hi) as Hx. cbn [sender_rank] in Hx. lia.
  - pose proof (senders_rank_insert _ i m m _ SReleased Hi) as Hx. cbn [sender_rank] in Hx. lia.
  - pose proof (senders_rank_insert _ i m m _ SDone Hi) as Hx. cbn [sender_rank] in Hx.
    destruct (pending w); lia.
  - rewrite Hp, Hh. cbn. lia.
  - rewrite Hh. cbn. lia.
  - rewrite Hh. cbn. lia.
  - rewrite Hh. cbn. lia.
  - rewrite Hh. cbn. lia.
  - unfold run_message. rewrite Hh. destruct (m.1 =? 0); cbn; lia.
Qed.

Lemma steps_rank n w w' : nsteps step n w w' → (n + rank w' ≤ rank w)%nat.
Proof. induction 1 as [|n w w1 w' Hs _ IH]; [lia|]. apply step_rank in Hs. lia. Qed.

Lemma initial_rank w : initial w → rank w = (11 * length w.(senders))%nat.
Proof.
  intros (Hs & _ & _ & Hp & Hh & _). unfold rank. rewrite Hp, Hh. cbn.
  assert (∀ l : list (message * sender_pc), (∀ i m pc, l !! i = Some (m, pc) → pc = SStart) →
    senders_rank l = (11 * length l)%nat) as Hl.
  { induction l as [|[m pc] l IH]; intros Hx; [done|]. cbn [senders_rank length snd].
    rewrite IH by (intros i; apply (Hx (S i))). rewrite (Hx 0%nat m pc eq_refl). cbn [sender_rank]. lia. }
  rewrite Hl; [lia|]. intros i m pc Hi. by apply Hs in Hi as [-> _].
Qed.

(** ** Properties *)

(** C28. Messages to a processor, sent by any number of calls of RunAsync at
    the same time, in every interleaving of their steps with those of the
    handler: the messages run are among those stored, in their order, and each
    at most once; every run ends, after at most eleven steps a call; and when
    it has ended, no interrupt is pending, the lock is free, every call has
    returned, and the last message stored has run, so that a processor that
    was sent messages has received at least one. *)
Theorem RunAsync_delivers w0 w n (Hi : initial w0) (Hs : nsteps step n w0 w) :
  w.(ran) `sublist_of` w.(posted) ∧ (n ≤ 11 * length w0.(senders))%nat ∧
  (at_rest w →
    w.(lock) = None ∧ w.(pending) = false ∧ w.(handler) = HIdle ∧
    head w.(ran) = head w.(posted) ∧
    ∀ i m pc, w.(senders) !! i = Some (m, pc) → pc = SDone ∧ m ∈ w.(posted)).
Proof.
  assert (inv w) as Hinv by (eapply wakeup_reachable_inv; [exact Hi|by eapply rtc_nsteps_2]).
  split_and!.
  - destruct Hinv as [_ _ _ _ Hfull Hempty _ _].
    assert ((taken w.(handler) ++ w.(ran)) `sublist_of` w.(posted)) as Ht.
    { destruct (decide (w.(slot).1 = 0)) as [E|E]; [by apply Hempty|].
      destruct (Hfull E) as (older & -> & Ho). by apply sublist_cons. }
    etrans; [|exact Ht]. by apply sublist_inserts_l.
  - pose proof (steps_rank n w0 w Hs). rewrite (initial_rank w0 Hi) in *. lia.
  - intros Hrest. destruct (at_rest_idle w Hinv Hrest) as (Hl & Hp & Hh & Hd).
    destruct Hinv as [_ _ _ _ _ Hempty Hwake Hst]. split_and!; try done.
    + destruct (decide (w.(slot).1 = 0)) as [E|E].
      * destruct (Hempty E) as [_ Hx]. by rewrite Hh in Hx.
      * exfalso. destruct (Hwake E) as [Hx|[Hx|(i & m & pc & Hj & Hx)]].
        -- congruence.
        -- by rewrite Hh in Hx.
        -- apply Hd in Hj as ->. done.
    + intros i m pc Hj. pose proof (Hd i m pc Hj) as ->. split; [done|]. by eapply Hst.
Qed.

(** Two senders, and the run in which the second message replaces the first
    one before the handler looks. *)
Definition two_senders : world :=
  mkWorld [((0x1000, 1), SStart); ((0x2000, 2), SStart)] (0, 0) None false HIdle [] [].

Definition two_sent : world :=
  mkWorld [((0x1000, 1), SDone); ((0x2000, 2), SDone)] (0, 2) None false HIdle
    [(0x2000, 2); (0x1000, 1)] [(0x2000, 2)].

Lemma two_sent_run : nsteps step 14 two_senders two_sent.
Proof.
  eapply nsteps_l; [by eapply (step_seize _ 0)|]. eapply nsteps_l; [by eapply (step_store _ 0)|].
  eapply nsteps_l; [by eapply (step_release _ 0)|]. eapply nsteps_l; [by eapply (step_ipi _ 0)|].
  eapply nsteps_l; [by eapply (step_seize _ 1)|]. eapply nsteps_l; [by eapply (step_store _ 1)|].
  eapply nsteps_l; [by eapply (step_release _ 1)|]. eapply nsteps_l; [by eapply (step_ipi _ 1)|].
  eapply nsteps_l; [by eapply step_enter|]. eapply nsteps_l; [by eapply step_eoi|].
  eapply nsteps_l; [by eapply step_handler_seize|]. eapply nsteps_l; [by eapply step_read|].
  eapply nsteps_l; [by eapply step_handler_release|].
  eapply nsteps_l; [by eapply step_call|]. apply nsteps_O.
Qed.

Lemma two_rest : at_rest two_sent.
Proof.
  intros w' Hs. inversion Hs; subst; try done;
    match goal with Hi : senders two_sent !! ?i = Some _ |- _ =>
      destruct i as [|[|i]]; cbn in Hi; simplify_eq end.
Qed.

Lemma two_initial : initial two_senders.
Proof.
  split_and!; try done. intros [|[|i]] m pc Hi; cbn in Hi; by simplify_eq.
Qed.

Lemma RunAsync_delivers_witness :
  two_sent.(ran) `sublist_of` two_sent.(posted) ∧ (14 ≤ 22)%nat ∧
  head two_sent.(ran) = head two_sent.(posted).
Proof.
  destruct (RunAsync_delivers two_senders two_sent 14 two_initial two_sent_run) as (H1 & H2 & H3).
  destruct (H3 two_rest) as (_ & _ & _ & H4 & _).
  split; [exact H1|]. split; [exact H2|exact H4].
Defined.
