(* ===== verification/Messages.v ===== *)
(** * The threads of a domain

    The interfaces Thread and Timer of src/arch/api/ (thread.hpp, timer.hpp) and
    the processors that implement them (src/arch/x64/smp/cpu.cpp,
    timer/lapic-timer.cpp, domains/domain.cpp), and what a message sent through
    the interface does: the computations [RunAsync] and [HandleWakeup] of
    Processor.v are runs of the steps of Wakeup.v, whatever the other processors
    do while these wait for the lock of the slot and after they release it. *)

From stdpp Require Import base numbers list gmap strings relations.
From Stdlib Require Import ZArith Lia.
From S2P Require Import Prelude Machine Concrete Interrupts Devices Acpi AcpiRoot Apic Segments Clock Processor Wakeup.
#[local] Open Scope Z_scope.

(** ** The interfaces *)

(** The virtual methods; a method without an argument for the function passes 0. *)
Record Timer (A : Type) `{AnsaRational} : Type := mkTimer {
  GetTicksPerMicro : M (machine A) rational;
  SetTimeout : Z → Z → Z → M (machine A) unit;
  ClearTimeout : M (machine A) unit;
  WaitTimeout : M (machine A) unit;
}.

Record Thread (A : Type) `{AnsaRational} : Type := mkThread {
  GetDomain : M (machine A) Domain.t;
  GetTimer : Timer A;
  GetPriority : Z;
  RunAsync : Z → Z → M (machine A) unit;
}.
Arguments GetTicksPerMicro {A H} _.
Arguments SetTimeout {A H} _ _ _ _.
Arguments ClearTimeout {A H} _.
Arguments WaitTimeout {A H} _.
Arguments GetDomain {A H} _.
Arguments GetTimer {A H} _.
Arguments GetPriority {A H} _.
Arguments RunAsync {A H} _ _ _.

(** ** The processors *)

Section Objects.
Context `{AnsaRational} `{WindowMap smp, AnsaLock smp, Device, Cpuid, VirtualAllocator smp}.
Context (xapic : XApic.t) (offLocalData sizeof_Cpu : Z).

(** The timer of the object [this]. *)
Definition GetLapicTimer (this : Z) : Timer smp :=
  mkTimer smp _ (c ← load this; mret (LapicTimer.GetTicksPerMicro c.(Cpu.lapicTimer)))
    (Processor.SetTimeout xapic offLocalData this) (Processor.ClearTimeout xapic offLocalData this)
    Processor.WaitTimeout.

Definition Cpu_thread (this : Z) : Thread smp :=
  mkThread smp _ Processor.GetDomain (GetLapicTimer this) Processor.GetPriority
    (Processor.RunAsync xapic this).

Definition GetThreadCount (d : Domain.t) : Z := d.(Domain.count).
Definition GetThread (d : Domain.t) (idx : Z) : Thread smp := Cpu_thread (GetCpu sizeof_Cpu d idx).
End Objects.

(** ** The local APIC *)

(** Registers of devices and of the processor were written, the GS base aside. *)
Definition after_io {A} (ms : gmap Z Z) (tr : list event) (s : machine A) : machine A :=
  set_msrs ms (set_trace tr s).

Lemma after_io_trace {A} tr (s : machine A) : after_io s.(msrs) tr s = set_trace tr s.
Proof. by destruct s. Qed.

Section Refine.
Context `{AnsaRational} `{WindowMap smp, Device, Cpuid}.
Context (base offLocalData : Z).
Implicit Types (s : machine smp) (c : Cpu.t).

Lemma run_SendIpi (x2 : bool) cpu vector s :
  critical s → ipi_ok (if x2 then 2 ^ 32 else 2 ^ 8) cpu vector 0 1 0 →
  ∃ ms tr, (LapicModule.object (the_xapic base) x2).(Lapic.SendIpi) cpu vector 0 1 0 s
      = Ok (tt, after_io ms tr s) ∧ ms !! 0xc0000101 = s.(msrs) !! 0xc0000101
    ∧ sent base tr = Ipi cpu vector 0 1 0 :: sent base s.(trace).
Proof.
  intros Hc Hi. destruct x2; cbn [LapicModule.object Lapic.SendIpi X2Apic.lapic XApic.lapic].
  - by apply run_X2Apic_SendIpi.
  - destruct (run_XApic_SendIpi base cpu vector 0 1 0 s Hc Hi) as (tr & Hs & Ht).
    exists s.(msrs), tr. by rewrite after_io_trace.
Qed.

(** An acknowledgement is no command. *)
Lemma run_Eoi_smp s : critical s →
  ∃ ms tr, Lapic.SendEoi (LapicModule.object (the_xapic base) LapicModule.has_x2) s
      = Ok (tt, after_io ms tr s) ∧ ms !! 0xc0000101 = s.(msrs) !! 0xc0000101
    ∧ sent base tr = sent base s.(trace).
Proof.
  intros Hc. unfold Lapic.SendEoi. run run_AssertCritical; [|done].
  destruct LapicModule.has_x2; cbn [LapicModule.object]; cbn [Lapic.WriteReg X2Apic.lapic XApic.lapic].
  - unfold X2Apic.WriteReg, WriteMsr. do 2 (run run_AssertCritical; [|done]).
    run run_modify. rewrite run_modify. eexists _, _. split; [reflexivity|].
    split; [by rewrite lookup_insert_ne|]. reflexivity.
  - unfold XApic.WriteReg. run run_AssertCritical; [|done].
    change (negb (Lapic.RegEoi =? Lapic.RegIcr)) with true. cbn iota.
    run_assert ltac:(done). rewrite run_mmio_write by (by vm_compute).
    eexists s.(msrs), _. split; [by rewrite after_io_trace|]. split; [done|].
    cbn [sent trace push_event wbase XApic.map the_xapic]. change (Lapic.RegEoi * 4 * 4) with 0xb0.
    destruct (Z.eqb_spec (base + 0xb0) (base + 0x300)); [lia|done].
Qed.

Lemma run_load_cpu this c s : s.(alloc).(cpus) !! this = Some c → load this s = Ok (c, s).
Proof. intros Hc. unfold load. unfold_m. by rewrite Hc. Qed.

(** The object at [this] after a store. *)
Definition stored (this : Z) c s : machine smp :=
  set_alloc (set_cpus (<[this := c]> s.(alloc).(cpus)) s.(alloc)) s.

Lemma GetCurrent_eq s : GetCurrent offLocalData s =
  match s.(alloc).(cpus) !! (default 0 (s.(msrs) !! 0xc0000101) - offLocalData) with
  | Some c => Ok (c.(Cpu.thisCpu), s)
  | None => Stop (Undefined "no processor at the address")
  end.
Proof. unfold GetCurrent, gs_object, load. unfold_m. by destruct (_ !! _). Qed.
End Refine.

(** ** The other processors *)

(** What they may do to the state this processor sees: anything to the memory
    and to the slots, nothing to its registers, its devices, the locks it holds
    and the fields that are fixed when a processor object is built. *)
Record interfered `{AnsaRational} (s s' : machine smp) : Prop := {
  if_held : s'.(held) = s.(held);
  if_iflag : s'.(iflag) = s.(iflag);
  if_loaded : s'.(critical_loaded) = s.(critical_loaded);
  if_msrs : s'.(msrs) = s.(msrs);
  if_trace : s'.(trace) = s.(trace);
  if_objects : ∀ o c, s.(alloc).(cpus) !! o = Some c → ∃ c', s'.(alloc).(cpus) !! o = Some c'
    ∧ c'.(Cpu.x2) = c.(Cpu.x2) ∧ c'.(Cpu.apicId) = c.(Cpu.apicId);
}.

Lemma interfered_critical `{AnsaRational} (s s' : machine smp) :
  interfered s s' → critical s → critical s'.
Proof. intros []. unfold critical. congruence. Qed.

(** A lock among other processors: until it is got the state becomes [waits] of
    what it was, and [passes] of it once it is released and others can have it.
    A second [Seize] of a lock this processor holds never ends. *)
Definition interfering_lock `{AnsaRational} (waits passes : machine smp → machine smp)
  : AnsaLock smp := {|
  Seize l s :=
    if decide (l ∈ s.(held)) then Stop (Hang "the lock is held")
    else Ok (tt, set_held (l :: (waits s).(held)) (waits s));
  Release l s :=
    match s.(held) with
    | l' :: ls => if decide (l' = l) then Ok (tt, passes (set_held ls s))
                  else Stop (Undefined "release of a lock that is not held")
    | [] => Stop (Undefined "release of a lock that is not held")
    end;
|}.

Section Interference.
Context `{AnsaRational} `{WindowMap smp, Device, Cpuid, VirtualAllocator smp}.
Context (base offLocalData : Z) (call : Z → Z → M (machine smp) unit).
Context (waits passes : machine smp → machine smp).
Context (Hwaits : ∀ s, interfered s (waits s)) (Hpasses : ∀ s, interfered s (passes s)).
#[local] Instance among_others : AnsaLock smp := interfering_lock waits passes.
Implicit Types (s : machine smp) (c : Cpu.t) (w : world).

(** The object at [this] and a world of Wakeup.v agree: the slot is the one of
    the object, and the lock is this processor's in one exactly when it is in
    the other; in the world this processor is [who]. *)
Record shows (who : holder) (this : Z) c s w : Prop := {
  sh_object : s.(alloc).(cpus) !! this = Some c;
  sh_slot : w.(slot) = (c.(Cpu.wakeupFunction), c.(Cpu.wakeupArg));
  sh_lock : WakeupLock this ∈ s.(held) ↔ w.(lock) = Some who;
}.

(** The block between the lock and its release: what is read and stored is the
    object as the processors that had the lock before left it, and what follows
    starts from what the next ones leave. *)
Lemma run_slot {B} this c (g : Cpu.t → Cpu.t) s (k : Cpu.t → M (machine smp) B) :
  critical s → (waits s).(alloc).(cpus) !! this = Some c → WakeupLock this ∉ s.(held) →
  (_ ← CriticalLock_Seize (WakeupLock this);
   x ← load this;
   _ ← store this (g x);
   _ ← CriticalLock_Release (WakeupLock this); k x) s = k c (passes (stored this (g c) (waits s))).
Proof using Hwaits.
  intros Hc Hthis Hl. pose proof (interfered_critical _ _ (Hwaits s) Hc) as Hcw.
  unfold CriticalLock_Seize, CriticalLock_Release.
  erewrite run_bind; [|run run_AssertCritical; [|exact Hc]; unfold Seize; cbn;
    by rewrite decide_False by done].
  run run_load_cpu; [|exact Hthis]. unfold store. run run_modify.
  erewrite run_bind; [|run run_AssertCritical; [|exact Hcw]; unfold Release; cbn;
    by rewrite decide_True by done].
  unfold stored. by destruct (waits s).
Qed.

(** ** RunAsync *)

Lemma run_RunAsync this f a c s :
  critical s → (waits s).(alloc).(cpus) !! this = Some c → WakeupLock this ∉ s.(held) →
  ipi_ok (if c.(Cpu.x2) then 2 ^ 32 else 2 ^ 8) c.(Cpu.apicId) IntVectors.Wakeup 0 1 0 →
  let s2 := stored this (Cpu.set_wakeup f a c) (waits s) in
  ∃ ms tr, Processor.RunAsync (the_xapic base) this f a s = Ok (tt, after_io ms tr (passes s2))
    ∧ ms !! 0xc0000101 = s.(msrs) !! 0xc0000101
    ∧ sent base tr = Ipi c.(Cpu.apicId) IntVectors.Wakeup 0 1 0 :: sent base s.(trace).
Proof using Hwaits Hpasses.
  intros Hc Hthis Hl Hi s2. unfold Processor.RunAsync. run run_AssertCritical; [|exact Hc].
  rewrite (run_slot this c (Cpu.set_wakeup f a) s (λ _, _)) by done. fold s2.
  destruct (if_objects _ _ (Hpasses s2) this (Cpu.set_wakeup f a c)) as (c3 & Hc3 & Hx & Ha);
    [apply lookup_insert_eq|]. cbn in Hx, Ha.
  run run_load_cpu; [|exact Hc3].
  assert (critical (passes s2)) as Hc2.
  { eapply interfered_critical; [apply Hpasses|]. by apply (interfered_critical _ _ (Hwaits s)). }
  destruct (run_SendIpi base c3.(Cpu.x2) c3.(Cpu.apicId) IntVectors.Wakeup (passes s2) Hc2) as (ms & tr & Hr & Hg & Hs);
    [by rewrite Hx, Ha|].
  exists ms, tr. split; [exact Hr|].
  rewrite (if_msrs _ _ (Hpasses s2)) in Hg. rewrite (if_trace _ _ (Hpasses s2)), Ha in Hs.
  change (msrs s2) with (msrs (waits s)) in Hg. change (trace s2) with (trace (waits s)) in Hs.
  rewrite (if_msrs _ _ (Hwaits s)) in Hg. by rewrite (if_trace _ _ (Hwaits s)) in Hs.
Qed.

(** The steps of a call under the lock, from when it is free. *)
Lemma sender_steps i f a w :
  w.(senders) !! i = Some ((f, a), SStart) → w.(lock) = None →
  ∃ w', nsteps step 3 w w' ∧ w'.(senders) = <[i := ((f, a), SReleased)]> w.(senders)
    ∧ w'.(slot) = (f, a) ∧ w'.(lock) = None ∧ w'.(pending) = w.(pending) ∧ w'.(handler) = w.(handler)
    ∧ w'.(posted) = (f, a) :: w.(posted) ∧ w'.(ran) = w.(ran).
Proof using.
  intros Hi Hl. assert (i < length w.(senders))%nat as Hlt by (by eapply lookup_lt_Some).
  eexists. split.
  { eapply nsteps_l; [by apply (step_seize _ i)|].
    eapply nsteps_l; [apply (step_store _ i); by apply list_lookup_insert_eq|].
    eapply nsteps_l; [apply (step_release _ i); cbn; apply list_lookup_insert_eq; by rewrite length_insert|].
    apply nsteps_O. }
  cbn. by rewrite !list_insert_insert_eq.
Qed.

(** ** HandleWakeup *)

Lemma run_HandleWakeup this s :
  critical s → GetCurrent offLocalData s = Ok (this, s) → WakeupLock this ∉ s.(held) →
  ∃ ms tr, let s1 := after_io ms tr s in
    ms !! 0xc0000101 = s.(msrs) !! 0xc0000101 ∧ sent base tr = sent base s.(trace)
    ∧ ∀ c, (waits s1).(alloc).(cpus) !! this = Some c →
      let s2 := stored this (Cpu.set_wakeup 0 c.(Cpu.wakeupArg) c) (waits s1) in
      Processor.HandleWakeup (the_xapic base) offLocalData call s
      = (if truthy c.(Cpu.wakeupFunction) then call c.(Cpu.wakeupFunction) c.(Cpu.wakeupArg) (passes s2)
         else Ok (tt, passes s2)).
Proof using Hwaits.
  intros Hc Hcur Hl. destruct (run_Eoi_smp base s Hc) as (ms & tr & Hr & Hg & Hs). exists ms, tr.
  set (s1 := after_io ms tr s). split; [done|]. split; [done|]. intros c Hthis s2.
  assert (Hcur1 : GetCurrent offLocalData s1 = Ok (this, s1)).
  { rewrite GetCurrent_eq in Hcur |- *. cbn [s1 after_io msrs alloc set_msrs set_trace]. rewrite Hg.
    destruct (cpus (alloc s) !! (_ - _)) as [x|]; [|done]. by injection Hcur as ->. }
  unfold Processor.HandleWakeup. run run_AssertCritical; [|exact Hc].
  run LapicModule.run_GetLapic; [|exact Hc]. run Hr. run Hcur1.
  rewrite (run_slot this c (λ x, Cpu.set_wakeup 0 x.(Cpu.wakeupArg) x) s1 (λ x,
    if negb (truthy x.(Cpu.wakeupFunction)) then mret tt
    else call x.(Cpu.wakeupFunction) x.(Cpu.wakeupArg))) by done.
  fold s2. by destruct (truthy _).
Qed.

(** The steps of the handler under the lock, from when it is free. *)
Lemma handler_steps w :
  w.(handler) = HAcked → w.(lock) = None →
  ∃ w', nsteps step 3 w w' ∧ w'.(senders) = w.(senders) ∧ w'.(slot) = (0, w.(slot).2)
    ∧ w'.(lock) = None ∧ w'.(pending) = w.(pending) ∧ w'.(handler) = HCall w.(slot)
    ∧ w'.(posted) = w.(posted) ∧ w'.(ran) = w.(ran).
Proof using.
  intros Hh Hl. eexists. split.
  { eapply nsteps_l; [by apply step_handler_seize|]. eapply nsteps_l; [by apply step_read|].
    eapply nsteps_l; [by apply step_handler_release|]. apply nsteps_O. }
  done.
Qed.

(** ** Properties *)

(** C29. The code of messages refines its steps among other processors, whatever
    these do to the slots and the memory while the code waits for the lock
    ([waits]) and once it has released it ([passes]).  (1) A call of RunAsync
    through the interface of threads takes the slot as the others left it when
    it gets the lock: if the object and a world of Wakeup.v agree there, the
    lock free, the seizure, the store and the release are three steps of the
    sender, after which object and world still agree, the message is in the
    slot and no interrupt has been sent.  The call then sends one, the Wakeup
    vector to that processor, and returns; this is the step of the sender from
    any world that agrees with what the others made of the state since the
    release, and changes no object.  (2) HandleWakeup first acknowledges the
    interrupt, the first two steps of the handler; if object and world agree
    when it then gets the lock, its seizure, its read and clear, and its
    release are three more steps, and it calls the function that was in the
    slot then, if there was one, with its argument, after the release. *)
Theorem messages_refine this s :
  critical s → WakeupLock this ∉ s.(held) →
  (∀ i f a c w1,
    let s1 := waits s in
    let c' := Cpu.set_wakeup f a c in
    let s2 := stored this c' s1 in
    ipi_ok (if c.(Cpu.x2) then 2 ^ 32 else 2 ^ 8) c.(Cpu.apicId) IntVectors.Wakeup 0 1 0 →
    shows (BySender i) this c s1 w1 → w1.(lock) = None →
    w1.(senders) !! i = Some ((f, a), SStart) →
    (∃ w2, nsteps step 3 w1 w2 ∧ shows (BySender i) this c' s2 w2
      ∧ w2.(senders) = <[i := ((f, a), SReleased)]> w1.(senders)
      ∧ w2.(slot) = (f, a) ∧ w2.(lock) = None ∧ w2.(posted) = (f, a) :: w1.(posted)
      ∧ w2.(pending) = w1.(pending) ∧ sent base s2.(trace) = sent base s.(trace))
    ∧ ∃ ms tr, let s4 := after_io ms tr (passes s2) in
      (Cpu_thread (the_xapic base) offLocalData this).(RunAsync) f a s = Ok (tt, s4)
      ∧ sent base s4.(trace) = Ipi c.(Cpu.apicId) IntVectors.Wakeup 0 1 0 :: sent base s.(trace)
      ∧ s4.(msrs) !! 0xc0000101 = s.(msrs) !! 0xc0000101 ∧ critical s4 ∧ s4.(held) = s.(held)
      ∧ ∀ c3 w3, shows (BySender i) this c3 (passes s2) w3 →
          w3.(senders) !! i = Some ((f, a), SReleased) →
          ∃ w4, step w3 w4 ∧ shows (BySender i) this c3 s4 w4 ∧ w4.(pending) = true
            ∧ w4.(senders) = <[i := ((f, a), SDone)]> w3.(senders))
  ∧ (∀ w, w.(pending) = true → w.(handler) = HIdle → GetCurrent offLocalData s = Ok (this, s) →
    ∃ sE wE, nsteps step 2 w wE ∧ wE.(handler) = HAcked ∧ wE.(pending) = false
      ∧ sE.(alloc) = s.(alloc) ∧ sE.(mem) = s.(mem) ∧ sent base sE.(trace) = sent base s.(trace)
      ∧ sE.(msrs) !! 0xc0000101 = s.(msrs) !! 0xc0000101 ∧ critical sE ∧ sE.(held) = s.(held)
      ∧ ∀ c w1,
          let s1 := waits sE in
          let c' := Cpu.set_wakeup 0 c.(Cpu.wakeupArg) c in
          let s2 := stored this c' s1 in
          shows ByHandler this c s1 w1 → w1.(lock) = None → w1.(handler) = HAcked →
          ∃ w2, nsteps step 3 w1 w2 ∧ shows ByHandler this c' s2 w2
            ∧ w2.(handler) = HCall w1.(slot) ∧ w2.(lock) = None
            ∧ w2.(senders) = w1.(senders) ∧ w2.(pending) = w1.(pending)
            ∧ Processor.HandleWakeup (the_xapic base) offLocalData call s
              = (if truthy w1.(slot).1 then call w1.(slot).1 w1.(slot).2 (passes s2)
                 else Ok (tt, passes s2))).
Proof using Hwaits Hpasses.
  intros Hc Hl. split.
  - intros i f a c w1 s1 c' s2 Hi [Hthis Hslot Hmine] Hlock Hs.
    assert (Hfree : WakeupLock this ∉ s1.(held)) by (pose proof (if_held _ _ (Hwaits s)) as Hh; fold s1 in Hh; by rewrite Hh).
    split.
    + destruct (sender_steps i f a w1 Hs Hlock) as (w2 & Hn & Hse & Hsl & Hl2 & Hp & _ & Hpo & _).
      exists w2. split_and!; try done.
      * split; [apply lookup_insert_eq|done|]. rewrite Hl2. by split; [intros ?%Hfree|].
      * change (trace s2) with (trace (waits s)). by rewrite (if_trace _ _ (Hwaits s)).
    + destruct (run_RunAsync this f a c s Hc Hthis Hl Hi) as (ms & tr & Hr & Hg & Ht). fold c' s1 s2 in Hr.
      exists ms, tr. split; [exact Hr|]. split; [exact Ht|]. split; [exact Hg|].
      assert (Hc2 : critical (passes s2)).
      { eapply interfered_critical; [apply Hpasses|]. by apply (interfered_critical _ _ (Hwaits s)). }
      split; [exact Hc2|]. split.
      { transitivity (held s2); [apply Hpasses|]. apply Hwaits. }
      intros c3 w3 [Ho3 Hsl3 Hm3] Hs3. eexists. split; [by apply (step_ipi _ i)|]. done.
  - intros w Hp Hh Hcur.
    destruct (run_HandleWakeup this s Hc Hcur Hl) as (ms & tr & Hg & Ht & Hr).
    eexists (after_io ms tr s), _. split.
    { eapply nsteps_l; [by apply step_enter|]. eapply nsteps_l; [by apply step_eoi|]. apply nsteps_O. }
    split_and!; try done. intros c w1 s1 c' s2 [Hthis Hslot Hmine] Hlock Hh1.
    destruct (handler_steps w1 Hh1 Hlock) as (w2 & Hn & Hse & Hsl & Hl2 & Hp2 & Hh2 & _).
    exists w2. split_and!; try done.
    + split; [apply lookup_insert_eq|by rewrite Hsl, Hslot|]. rewrite Hl2, <-Hlock. exact Hmine.
    + rewrite Hslot. exact (Hr c Hthis).
Qed.
End Interference.

(** ** Example *)

(** A processor at 0x300000 that is sent the message (0x1000, 7), by a processor
    that waits while another one stores (0x2000, 9), and after whose release the
    receiver takes what it finds. *)
Definition sleeping_cpu : Cpu.t :=
  Cpu.mk _ 0 0 false no_timer 0x300000 0 0 (mkTss [] [] 0) 3 0.
Definition sleeping : machine smp :=
  Machine _ ∅ 0x1000 false true {[0xc0000101 := 0x300040]} [] []
    (set_cpus {[0x300000 := sleeping_cpu]} example_smp.(alloc)).
Definition alter_slot (f a : Z) (s : machine smp) : machine smp :=
  set_alloc (set_cpus (alter (Cpu.set_wakeup f a) 0x300000 s.(alloc).(cpus)) s.(alloc)) s.

Lemma alter_slot_interfered f a s : interfered s (alter_slot f a s).
Proof.
  split; try done. intros o c Ho. cbn. destruct (decide (o = 0x300000)) as [->|].
  - rewrite lookup_alter_eq, Ho. cbn. by eexists.
  - rewrite lookup_alter_ne by done. by exists c.
Qed.

Definition two_senders : world :=
  mkWorld [((0x1000, 7), SStart); ((0x2000, 9), SReleased)] (0x2000, 9) None false HIdle [(0x2000, 9)] [].
Definition taken_already : world :=
  mkWorld [((0x1000, 7), SReleased); ((0x2000, 9), SDone)] (0, 7) None false (HCall (0x1000, 7))
    [(0x1000, 7); (0x2000, 9)] [].

Lemma messages_refine_witness :
  let run := (Cpu_thread (H1 := interfering_lock (alter_slot 0x2000 9) (alter_slot 0 7))
    (the_xapic 0xfee00000) 0x40 0x300000).(RunAsync) 0x1000 7 sleeping in
  ∃ s4 w2 w4, run = Ok (tt, s4)
    ∧ nsteps step 3 two_senders w2 ∧ w2.(slot) = (0x1000, 7)
    ∧ step taken_already w4 ∧ w4.(pending) = true ∧ w4.(slot) = (0, 7)
    ∧ sent 0xfee00000 s4.(trace) = [Ipi 3 0x23 0 1 0].
Proof.
  destruct (messages_refine 0xfee00000 0x40 (λ _ _, mret tt) (alter_slot 0x2000 9) (alter_slot 0 7)
    (alter_slot_interfered _ _) (alter_slot_interfered _ _) 0x300000 sleeping
    ltac:(right; reflexivity) (not_elem_of_nil _)) as [Hsend _].
  destruct (Hsend 0%nat 0x1000 7 (Cpu.set_wakeup 0x2000 9 sleeping_cpu) two_senders) as
    [(w2 & Hn & _ & _ & Hsl & _) (ms & tr & Hr & Ht & _ & _ & _ & Hipi)].
  - split_and!; by vm_compute.
  - split; [reflexivity|reflexivity|]. split; [by intros ?%not_elem_of_nil|discriminate].
  - reflexivity.
  - reflexivity.
  - destruct (Hipi (Cpu.set_wakeup 0 7 sleeping_cpu) taken_already) as (w4 & Hw4 & [_ Hs4 _] & Hp4 & _).
    + split; [reflexivity|reflexivity|]. split; [by intros ?%not_elem_of_nil|discriminate].
    + reflexivity.
    + eexists _, w2, w4. exact (conj Hr (conj Hn (conj Hsl (conj Hw4 (conj Hp4 (conj Hs4 Ht)))))).
Defined.
