(* ===== verification/Shootdown.v ===== *)
(** * The invalidation of translations on other processors

    [Tlb::DistributeInvlpg], its two halves and the handler of the interrupt
    (src/arch/x64/vmm/tlb.cpp) as computations over the processors of
    Processor.v; they are runs of the steps of Tlb.v. *)

From stdpp Require Import base numbers list gmap strings relations functions.
From Stdlib Require Import ZArith Lia.
From S2P Require Import Prelude Machine PageTable GlobalMap UserMap Concrete Tlb Interrupts Devices Acpi AcpiRoot Apic Messages Segments Clock Processor.
#[local] Open Scope Z_scope.

(** ** The module *)

(** The processors, the map that each has loaded ([Cpu::currentMap], by object),
    what this processor has cached, whether the module is initialized, and the
    variables of tlb.cpp. *)
Record state `{AnsaRational} : Type := mkState {
  procs : smp;
  maps : gmap Z Z;
  cache : tlb;
  initialized : bool;
  address : Z;                 (* invlAddress *)
  length_ : Z;                 (* invlSize *)
  ipis : Z;                    (* ipiCount *)
}.

Section Parts.
Context `{AnsaRational}.
Definition set_procs x (t : state) : state :=
  mkState _ x t.(maps) t.(cache) t.(initialized) t.(address) t.(length_) t.(ipis).
Definition set_map cpu m (t : state) : state :=
  mkState _ t.(procs) (<[cpu := m]> t.(maps)) t.(cache) t.(initialized) t.(address) t.(length_) t.(ipis).
Definition set_cache x (t : state) : state :=
  mkState _ t.(procs) t.(maps) x t.(initialized) t.(address) t.(length_) t.(ipis).
Definition set_count n (t : state) : state :=
  mkState _ t.(procs) t.(maps) t.(cache) t.(initialized) t.(address) t.(length_) n.
Definition set_request a b (t : state) : state :=
  mkState _ t.(procs) t.(maps) t.(cache) t.(initialized) a b 0.

Definition on_procs {X} : M (machine smp) X → M (machine state) X := zoom procs set_procs.
Definition on_cache {X} : M (machine tlb) X → M (machine state) X := zoom cache set_cache.
Definition change (f : state → state) : M (machine state) unit :=
  modify (λ s, set_alloc (f s.(alloc)) s).

(** The map of a processor; the constructor stores [NULL]. *)
Definition map_of (t : state) (cpu : Z) : Z := default 0 (t.(maps) !! cpu).
End Parts.

Section Ops.
Context `{AnsaRational} `{WindowMap smp, Device, Cpuid} `{AnsaLock state, World state}.
Context (xapic : XApic.t) (offLocalData sizeof_Cpu : Z).

Definition WillSetAddressSpace (map : Z) : M (machine state) unit :=
  _ ← AssertCritical;
  t ← gets alloc;
  if negb t.(initialized) then mret tt
  else
    this ← on_procs (GetCurrent offLocalData);
    change (set_map this map).

(** The body of the loops over the processors; [None]: any map. *)
Definition notify (current : Z) (x2 : bool) (map : option Z) (cpu : Z) : M (machine state) unit :=
  t ← gets alloc;
  if match map with Some m => negb (map_of t cpu =? m) | None => false end || (cpu =? current)
  then mret tt
  else
    c ← on_procs (load cpu);
    _ ← on_procs ((lapic_of xapic x2).(Lapic.SendIpi) c.(Cpu.apicId) IntVectors.Invlpg 0 1 0);
    change (λ t, set_count (t.(ipis) + 1) t).

Definition notify_all (current : Z) (x2 : bool) (map : option Z) : M (machine state) unit :=
  for_loop (Z.to_nat GetCount) 0 (λ _,
    d ← on_procs GetDomain;
    for_loop (Z.to_nat d.(Domain.count)) 0 (λ j, notify current x2 map (GetCpu sizeof_Cpu d j))).

(** [while (ipiCount) {}] *)
Fixpoint count_wait (fuel : nat) : M (machine state) unit :=
  match fuel with
  | O => stop OutOfFuel
  | S fuel' =>
      t ← gets alloc;
      if truthy t.(ipis) then _ ← modify advance; count_wait fuel' else mret tt
  end.

Definition DistributeKernel (fuel : nat) (a b : Z) : M (machine state) unit :=
  _ ← change (set_request a b);
  current ← on_procs (GetCurrent offLocalData);
  c ← on_procs (load current);
  _ ← notify_all current c.(Cpu.x2) None;
  count_wait fuel.

Definition DistributeUser (fuel : nat) (a b : Z) : M (machine state) unit :=
  current ← on_procs (GetCurrent offLocalData);
  t ← gets alloc;
  _ ← change (set_request a b);
  c ← on_procs (load current);
  _ ← notify_all current c.(Cpu.x2) (Some (map_of t current));
  count_wait fuel.

Definition DistributeInvlpg (fuel : nat) (start size : Z) : M (machine state) unit :=
  _ ← AssertNoncritical;
  t ← gets alloc;
  if negb t.(initialized) then ScopedCritical (on_cache (Tlb.Invlpgs start size))
  else
    ScopedLock TlbLock (ScopedCritical (
      _ ← on_cache (Tlb.Invlpgs start size);
      if start <? PageTable.KernelEnd then DistributeKernel fuel start size
      else DistributeUser fuel start size)).

(** The module's [Initialize]; [handler] is the address of [HandleNotification]. *)
Definition Initialize (handler : Z) : M (machine state) unit :=
  on_procs (set_routine IntVectors.Invlpg handler).

Definition HandleNotification : M (machine state) unit :=
  _ ← AssertCritical;
  t ← gets alloc;
  _ ← on_cache (Tlb.Invlpgs t.(address) t.(length_));
  _ ← change (λ t, set_count (t.(ipis) - 1) t);
  lapic ← on_procs (LapicModule.GetLapic xapic);
  on_procs (Lapic.SendEoi lapic).
End Ops.

(** ** A processor and the world of its translations *)

Section Facts.
Context `{AnsaRational} `{WindowMap smp, Device, Cpuid} `{AnsaLock state, !LockLaws state, World state}.
Context (base offLocalData sizeof_Cpu : Z).
Implicit Types (s : machine state) (t : state) (w : Tlb.world).

(** The machine of Processor.v inside. *)
Definition here s : machine smp := with_alloc s.(alloc).(procs) s.

(** The processor objects of the domain, and their local APIC ids. *)
Definition members (p : smp) : list Z :=
  match p.(mainDomain) with
  | Some d => GetCpu sizeof_Cpu d <$> seqZ 0 d.(Domain.count)
  | None => []
  end.
Definition id_of (p : smp) (cpu : Z) : Z :=
  match p.(Processor.cpus) !! cpu with Some c => c.(Cpu.apicId) | None => 0 end.

(** The processor [this], which runs the code, and the others as a world of
    Tlb.v. *)
Record agrees (this : Z) s w : Prop := {
  ag_this : this ∈ members s.(alloc).(procs);
  ag_objects : ∀ o, o ∈ members s.(alloc).(procs) → is_Some (s.(alloc).(procs).(Processor.cpus) !! o);
  ag_cpus : w.(Tlb.cpus) = id_of s.(alloc).(procs) <$> members s.(alloc).(procs);
  ag_nodup : NoDup w.(Tlb.cpus);
  ag_maps : ∀ o, o ∈ members s.(alloc).(procs) →
    w.(Tlb.currentMap) (id_of s.(alloc).(procs) o) = map_of s.(alloc) o;
  ag_cache : w.(Tlb.tlbs) (id_of s.(alloc).(procs) this) = s.(alloc).(cache);
  ag_request : w.(Tlb.invlAddress) = s.(alloc).(address) ∧ w.(Tlb.invlSize) = s.(alloc).(length_)
    ∧ w.(Tlb.ipiCount) = s.(alloc).(ipis);
  ag_self : GetCurrent offLocalData (here s) = Ok (this, here s);
}.

(** What the code does not touch. *)
Record quiet s s' : Prop := {
  qu_procs : s'.(alloc).(procs) = s.(alloc).(procs);
  qu_maps : s'.(alloc).(maps) = s.(alloc).(maps);
  qu_init : s'.(alloc).(initialized) = s.(alloc).(initialized);
  qu_held : s'.(held) = s.(held);
  qu_iflag : s'.(iflag) = s.(iflag);
  qu_loaded : s'.(critical_loaded) = s.(critical_loaded);
  qu_gs : s'.(msrs) !! 0xc0000101 = s.(msrs) !! 0xc0000101;
}.

#[export] Instance quiet_preorder : PreOrder quiet.
Proof.
  split; [by intros s; split|]. intros s1 s2 s3 [] []. split; congruence.
Qed.

Lemma quiet_critical s s' : quiet s s' → critical s → critical s'.
Proof. intros [] Hc. unfold critical in *. by rewrite qu_loaded0, qu_iflag0. Qed.

Lemma agrees_move this s s' w w' :
  agrees this s w →
  s'.(alloc).(procs) = s.(alloc).(procs) → s'.(alloc).(maps) = s.(alloc).(maps) →
  s'.(msrs) !! 0xc0000101 = s.(msrs) !! 0xc0000101 →
  w'.(Tlb.cpus) = w.(Tlb.cpus) → w'.(Tlb.currentMap) = w.(Tlb.currentMap) →
  w'.(Tlb.tlbs) (id_of s.(alloc).(procs) this) = s'.(alloc).(cache) →
  w'.(Tlb.invlAddress) = s'.(alloc).(address) ∧ w'.(Tlb.invlSize) = s'.(alloc).(length_)
    ∧ w'.(Tlb.ipiCount) = s'.(alloc).(ipis) →
  agrees this s' w'.
Proof.
  intros [] Hp Hm Hg Hc Hcm Ht Hr. split; rewrite ?Hp, ?Hc, ?Hcm; try done.
  - intros o Ho. unfold map_of. rewrite Hm. by apply ag_maps0.
  - rewrite GetCurrent_eq in ag_self0 |- *. unfold here in *. cbn [alloc with_alloc msrs] in *.
    rewrite Hg, Hp. destruct (Processor.cpus _ !! _); [|done]. by injection ag_self0 as ->.
Qed.

Lemma id_inj this s w o o' :
  agrees this s w → let p := s.(alloc).(procs) in o ∈ members p → o' ∈ members p →
  id_of p o = id_of p o' → o = o'.
Proof.
  intros Ha p Ho Ho' Heq. pose proof (ag_nodup _ _ _ Ha) as Hnd. rewrite (ag_cpus _ _ _ Ha) in Hnd.
  apply list_elem_of_lookup in Ho as [i Hi], Ho' as [j Hj].
  assert (i = j) as ->; [|congruence].
  eapply (NoDup_lookup _ _ _ (id_of p o) Hnd); rewrite list_lookup_fmap; fold p;
    [by rewrite Hi|by rewrite Hj, Heq].
Qed.

(** ** The parts on the machine *)

Lemma run_on_procs {X} (m : M (machine smp) X) s x :
  m (here s) = Ok (x, here s) → on_procs m s = Ok (x, s).
Proof. intros Hm. unfold on_procs. erewrite run_zoom by exact Hm. by destruct s as [???????[]]. Qed.

Lemma run_on_procs_io {X} (m : M (machine smp) X) ms tr s x :
  m (here s) = Ok (x, after_io ms tr (here s)) → on_procs m s = Ok (x, after_io ms tr s).
Proof. intros Hm. unfold on_procs. erewrite run_zoom by exact Hm. by destruct s as [???????[]]. Qed.

Lemma run_change f s : change f s = Ok (tt, set_alloc (f s.(alloc)) s).
Proof. unfold change. by rewrite run_modify. Qed.

(** The flush of a processor is the one of the steps. *)
Lemma invlpg_loop_frame fuel a e (m : machine tlb) :
  Tlb.invlpg_loop fuel a e m = match Tlb.invlpg_loop fuel a e (on_cpu m.(alloc)) with
    | Ok (x, m') => Ok (x, set_alloc m'.(alloc) m)
    | Stop f => Stop f
    end.
Proof.
  revert a m. induction fuel as [|fuel IH]; intros a m; cbn [Tlb.invlpg_loop];
    (destruct (a <? e); [|by destruct m]); [done|].
  unfold Tlb.invlpg. run run_modify. run run_modify. rewrite IH. cbn [alloc set_alloc on_cpu].
  rewrite (IH _ (set_alloc _ (on_cpu _))). cbn [alloc set_alloc on_cpu].
  by destruct (Tlb.invlpg_loop _ _ _ _) as [[]|].
Qed.

Lemma Invlpgs_frame st n (m : machine tlb) c' :
  critical m → Tlb.Invlpgs st n (on_cpu m.(alloc)) = Ok (tt, on_cpu c') →
  Tlb.Invlpgs st n m = Ok (tt, set_alloc c' m).
Proof.
  intros Hc. unfold Tlb.Invlpgs. run run_AssertCritical; [|by right]. run run_AssertCritical; [|exact Hc].
  case_match; [case_match; unfold Tlb.toggle_pge, Tlb.reload_cr3; rewrite !run_modify; by intros [= <-]|].
  intros Hl. rewrite invlpg_loop_frame, Hl. done.
Qed.

Lemma run_Invlpgs_here st n s : critical s → range_ok st n →
  ∃ c', Tlb.Invlpgs st n (on_cpu s.(alloc).(cache)) = Ok (tt, on_cpu c')
    ∧ flushed st n s.(alloc).(cache) c'
    ∧ on_cache (Tlb.Invlpgs st n) s = Ok (tt, set_alloc (set_cache c' s.(alloc)) s).
Proof.
  intros Hc Hr. destruct (run_Invlpgs st n s.(alloc).(cache) Hr) as (c' & Hi & Hf).
  exists c'. split; [exact Hi|]. split; [exact Hf|]. unfold on_cache.
  erewrite run_zoom; [|by apply Invlpgs_frame; [exact Hc|exact Hi]]. by destruct s as [???????[]].
Qed.

(** ** The loop over the processors *)

(** The processors of [ids] that the round skips not, the last one first. *)
Definition told (r : round) (maps : Z → Z) (ids : list Z) : list Z :=
  rev (List.filter (λ c, negb (skips r maps c)) ids).

Definition invlpg_ipi (c : Z) : ipi := Ipi c IntVectors.Invlpg 0 1 0.

(** The round with more processors asked and [ids] to come. *)
Definition goes_on (r : round) (new ids : list Z) : round :=
  mkRound r.(Tlb.current) r.(Tlb.start) r.(Tlb.size) r.(Tlb.map) (new ++ r.(Tlb.sent)) ids false.

(** What the loop does: quietly it asks the processors in [new]. *)
Record asks (this : Z) (new ids : list Z) (r : round) s w s' w' : Prop := {
  as_quiet : quiet s s';
  as_steps : rtc step w w';
  as_agrees : agrees this s' w';
  as_maps : w'.(Tlb.currentMap) = w.(Tlb.currentMap);
  as_phase : w'.(ph) = Sending (goes_on r new ids);
  as_sent : sent base s'.(trace) = (invlpg_ipi <$> new) ++ sent base s.(trace);
  as_cache : s'.(alloc).(cache) = s.(alloc).(cache);
  as_count : s'.(alloc).(ipis) = s.(alloc).(ipis) + Z.of_nat (length new);
}.

Section Loop.
Context (this : Z) (x2 : bool).
Abbreviation lim := (if x2 then 2 ^ 32 else 2 ^ 8).

Lemma skips_code s w r o :
  agrees this s w → o ∈ members s.(alloc).(procs) → r.(Tlb.current) = id_of s.(alloc).(procs) this →
  skips r w.(Tlb.currentMap) (id_of s.(alloc).(procs) o)
  = match r.(Tlb.map) with Some m => negb (map_of s.(alloc) o =? m) | None => false end || (o =? this).
Proof.
  intros Ha Ho Hcur. unfold skips. rewrite orb_comm, (ag_maps _ _ _ Ha) by done. f_equal.
  rewrite Hcur. apply eq_bool_prop_intro. rewrite !Is_true_true, !Z.eqb_eq. split; [|by intros ->].
  intros Heq. by eapply id_inj, Heq; [exact Ha|..|apply (ag_this _ _ _ Ha)].
Qed.

Lemma run_notify s w r o rest :
  critical s → agrees this s w → o ∈ members s.(alloc).(procs) →
  ipi_ok lim (id_of s.(alloc).(procs) o) IntVectors.Invlpg 0 1 0 →
  w.(ph) = Sending r → r.(Tlb.current) = id_of s.(alloc).(procs) this →
  r.(Tlb.rest) = id_of s.(alloc).(procs) o :: rest → r.(Tlb.mid) = false →
  ∃ s' w', notify (the_xapic base) this x2 r.(Tlb.map) o s = Ok (tt, s') ∧
    asks this (told r w.(Tlb.currentMap) [id_of s.(alloc).(procs) o]) rest r s w s' w'.
Proof.
  intros Hc Ha Ho Hi Hph Hcur Hrest Hmid. pose proof (skips_code s w r o Ha Ho Hcur) as Hsk.
  unfold notify, told. run run_gets. rewrite <-Hsk. cbn [List.filter].
  destruct (skips r w.(Tlb.currentMap) _) eqn:E; cbn [negb rev app].
  - eexists s, _. split; [done|].
    split; [done|by eapply rtc_once, step_skip| |done|reflexivity|done|done|cbn; lia].
    by eapply agrees_move; [exact Ha|..]; try done; apply Ha.
  - destruct (ag_objects _ _ _ Ha o Ho) as [c Hlk].
    assert (Hid : id_of s.(alloc).(procs) o = c.(Cpu.apicId)) by (unfold id_of; by rewrite Hlk).
    rewrite Hid in *.
    destruct (run_SendIpi base x2 c.(Cpu.apicId) IntVectors.Invlpg (here s) Hc Hi) as (ms & tr & Hs & Hg & Ht).
    run run_on_procs; [|by apply run_load_cpu]. run run_on_procs_io; [|exact Hs].
    rewrite run_change. eexists _, _. split; [done|]. split.
    + by split.
    + eapply rtc_l; [by eapply step_send|]. apply rtc_once. by eapply step_count.
    + eapply agrees_move; [exact Ha|done|done|exact Hg|done|done|apply Ha|]. cbn.
      destruct (ag_request _ _ _ Ha) as (? & ? & ->). done.
    + done.
    + reflexivity.
    + exact Ht.
    + done.
    + done.
Qed.

Lemma told_cons r maps c ids : told r maps (c :: ids) = told r maps ids ++ told r maps [c].
Proof. unfold told. cbn [List.filter]. destruct (negb _); cbn [rev app]; by rewrite ?app_nil_r. Qed.

Lemma goes_on_twice r a b l l' : goes_on (goes_on r a l) b l' = goes_on r (b ++ a) l'.
Proof. unfold goes_on. cbn. by rewrite app_assoc. Qed.

Lemma asks_nil s w r : agrees this s w → w.(ph) = Sending r → r.(Tlb.rest) = [] → r.(Tlb.mid) = false →
  asks this [] [] r s w s w.
Proof.
  intros Ha Hph Hr Hm. split; try done; [|cbn; lia]. rewrite Hph. unfold goes_on. destruct r; cbn in *. by subst.
Qed.

Lemma asks_trans a b l l' r s1 w1 s2 w2 s3 w3 :
  asks this a l r s1 w1 s2 w2 → asks this b l' (goes_on r a l) s2 w2 s3 w3 →
  asks this (b ++ a) l' r s1 w1 s3 w3.
Proof.
  intros [] []. split; [by etrans|by etrans|done|congruence| | |congruence|].
  - by rewrite as_phase1, goes_on_twice.
  - rewrite as_sent1, as_sent0, fmap_app. by rewrite app_assoc.
  - rewrite as_count1, as_count0, length_app. lia.
Qed.

Lemma run_notify_loop d l : ∀ i s w r,
  critical s → agrees this s w →
  (∀ c, c ∈ w.(Tlb.cpus) → ipi_ok lim c IntVectors.Invlpg 0 1 0) →
  w.(ph) = Sending r → r.(Tlb.current) = id_of s.(alloc).(procs) this → r.(Tlb.mid) = false →
  l = GetCpu sizeof_Cpu d <$> seqZ i (Z.of_nat (length l)) →
  (∀ o, o ∈ l → o ∈ members s.(alloc).(procs)) →
  r.(Tlb.rest) = id_of s.(alloc).(procs) <$> l →
  ∃ s' w', for_loop (length l) i (λ j, notify (the_xapic base) this x2 r.(Tlb.map)
      (GetCpu sizeof_Cpu d j)) s = Ok (tt, s')
    ∧ asks this (told r w.(Tlb.currentMap) (id_of s.(alloc).(procs) <$> l)) [] r s w s' w'.
Proof.
  induction l as [|o l IH]; intros i s w r Hc Ha Hi Hph Hcur Hmid Hl Hin Hrest.
  { exists s, w. split; [done|]. by apply asks_nil. }
  cbn [length] in Hl. rewrite seqZ_cons, fmap_cons in Hl by lia. injection Hl as Ho Hl.
  assert (o ∈ members s.(alloc).(procs)) as Hom by (apply Hin; by left).
  destruct (run_notify s w r o (id_of s.(alloc).(procs) <$> l)) as (s1 & w1 & Hr1 & H1s); try done.
  { apply Hi. rewrite (ag_cpus _ _ _ Ha). by apply list_elem_of_fmap_2. }
  cbn [for_loop length]. rewrite <-Ho. run Hr1.
  pose proof (qu_procs _ _ (as_quiet _ _ _ _ _ _ _ _ H1s)) as Hp.
  destruct (IH (i + 1) s1 w1 (goes_on r (told r w.(Tlb.currentMap) [id_of s.(alloc).(procs) o])
      (id_of s.(alloc).(procs) <$> l))) as (s2 & w2 & Hr2 & H2s); try done.
  - eapply quiet_critical; [apply H1s|exact Hc].
  - apply H1s.
  - intros c. rewrite (ag_cpus _ _ _ (as_agrees _ _ _ _ _ _ _ _ H1s)), Hp, <-(ag_cpus _ _ _ Ha). apply Hi.
  - apply H1s.
  - by rewrite Hp.
  - rewrite Hl at 1. do 2 f_equal; lia.
  - intros o' Ho'. rewrite Hp. apply Hin. by right.
  - by rewrite Hp.
  - exists s2, w2. split; [exact Hr2|]. cbn [fmap list_fmap]. rewrite told_cons.
    eapply asks_trans; [exact H1s|]. by rewrite Hp, (as_maps _ _ _ _ _ _ _ _ H1s) in H2s.
Qed.

Lemma run_notify_all s w r :
  critical s → agrees this s w →
  (∀ c, c ∈ w.(Tlb.cpus) → ipi_ok lim c IntVectors.Invlpg 0 1 0) →
  w.(ph) = Sending r → r.(Tlb.current) = id_of s.(alloc).(procs) this → r.(Tlb.mid) = false →
  r.(Tlb.rest) = w.(Tlb.cpus) →
  ∃ s' w', notify_all (the_xapic base) sizeof_Cpu this x2 r.(Tlb.map) s = Ok (tt, s')
    ∧ asks this (told r w.(Tlb.currentMap) w.(Tlb.cpus)) [] r s w s' w'.
Proof.
  intros Hc Ha Hi Hph Hcur Hmid Hrest. rewrite (ag_cpus _ _ _ Ha) in Hrest |- *.
  pose proof (ag_this _ _ _ Ha) as Hthis. unfold members in Hthis.
  destruct (mainDomain s.(alloc).(procs)) as [d|] eqn:Hd; [|by apply not_elem_of_nil in Hthis].
  assert (Hm : members s.(alloc).(procs) = GetCpu sizeof_Cpu d <$> seqZ 0 d.(Domain.count))
    by (unfold members; by rewrite Hd).
  destruct (run_notify_loop d (members s.(alloc).(procs)) 0 s w r) as (s' & w' & Hr & Has); try done.
  { rewrite Hm at 1. rewrite Hm, length_fmap, length_seqZ. unfold seqZ. by rewrite Nat2Z.id. }
  exists s', w'. split; [|exact Has]. unfold notify_all. change (Z.to_nat GetCount) with 1%nat.
  cbn [for_loop]. erewrite run_bind; [reflexivity|].
  run run_on_procs; [|unfold GetDomain, get; unfold_m; cbn; by rewrite Hd].
  rewrite Hm, length_fmap, length_seqZ in Hr. exact Hr.
Qed.
End Loop.

(** ** The distribution up to the wait *)

(** The page tables have changed: what was cached of the range is stale. *)
Definition tables_changed st n s : machine state :=
  set_alloc (set_cache (mark st n s.(alloc).(cache)) s.(alloc)) s.

(** The local APIC of the processor [this] reaches all of the domain. *)
Definition reaches (this : Z) s w : Prop :=
  ∀ c, s.(alloc).(procs).(Processor.cpus) !! this = Some c → ∀ i, i ∈ w.(Tlb.cpus) →
    0 ≤ i < if c.(Cpu.x2) then 2 ^ 32 else 2 ^ 8.

(** The round that starts. *)
Definition first_round (this : Z) st n s w : round :=
  begin_round (id_of s.(alloc).(procs) this) st n w.

(** With the request stored, before the loop. *)
Definition requested st n s : machine state := set_alloc (set_request st n s.(alloc)) s.

Lemma begin_step this st n s w c' :
  agrees this s w → w.(ph) = Idle → range_ok st n →
  Tlb.Invlpgs st n (on_cpu (mark st n s.(alloc).(cache))) = Ok (tt, on_cpu c') →
  ∃ w', step w w' ∧ w'.(ph) = Sending (first_round this st n s w)
    ∧ agrees this (requested st n (set_alloc (set_cache c' s.(alloc)) s)) w'
    ∧ w'.(Tlb.currentMap) = w.(Tlb.currentMap) ∧ w'.(Tlb.cpus) = w.(Tlb.cpus).
Proof.
  intros Ha Hph [Hal [Hpos Hn] Hend Hk] Hi. rewrite <-(ag_cache _ _ _ Ha) in Hi.
  eexists. split.
  { eapply (step_begin _ (id_of s.(alloc).(procs) this) st n _ _ Hph); [|exact Hi|reflexivity|done..].
    rewrite (ag_cpus _ _ _ Ha). apply list_elem_of_fmap_2, (ag_this _ _ _ Ha). }
  split; [done|]. split; [|done].
  eapply agrees_move; [exact Ha|done..| |done]. cbn. by rewrite fn_lookup_insert.
Qed.

(** Both halves of the distribution run the loop on the round that starts. *)
Lemma distribute_eq this fuel st n s w c :
  agrees this s w → s.(alloc).(procs).(Processor.cpus) !! this = Some c →
  (if st <? PageTable.KernelEnd then DistributeKernel (the_xapic base) offLocalData sizeof_Cpu fuel st n
   else DistributeUser (the_xapic base) offLocalData sizeof_Cpu fuel st n) s
  = (_ ← notify_all (the_xapic base) sizeof_Cpu this c.(Cpu.x2) (first_round this st n s w).(Tlb.map);
     count_wait fuel) (requested st n s).
Proof.
  intros Ha Hc. cbn [first_round begin_round Tlb.map].
  assert (Hself : GetCurrent offLocalData (here (requested st n s)) = Ok (this, here (requested st n s))).
  { exact (ag_self _ _ _ Ha). }
  assert (Hload : load this (here (requested st n s)) = Ok (c, here (requested st n s))).
  { by apply run_load_cpu. }
  destruct (st <? PageTable.KernelEnd).
  - unfold DistributeKernel. run run_change. fold (requested st n s).
    run run_on_procs; [|exact Hself]. run run_on_procs; [|exact Hload]. reflexivity.
  - unfold DistributeUser. run run_on_procs; [|exact (ag_self _ _ _ Ha)]. run run_gets.
    run run_change. fold (requested st n s). run run_on_procs; [|exact Hload].
    by rewrite (ag_maps _ _ _ Ha) by apply Ha.
Qed.

Lemma run_distribute this st n s w :
  critical s → agrees this s w → reaches this s w → w.(ph) = Idle → range_ok st n →
  let r := first_round this st n s w in
  let new := told r w.(Tlb.currentMap) w.(Tlb.cpus) in
  ∃ s' w', quiet s s' ∧ rtc step w w' ∧ agrees this s' w' ∧ w'.(ph) = Waiting (goes_on r new [])
    ∧ sent base s'.(trace) = (invlpg_ipi <$> new) ++ sent base s.(trace)
    ∧ s'.(alloc).(ipis) = Z.of_nat (length new)
    ∧ (∀ e, e ∈ s'.(alloc).(cache) → entry_ok e → in_range st n e = false)
    ∧ ∀ fuel, (_ ← on_cache (Tlb.Invlpgs st n);
        if st <? PageTable.KernelEnd then DistributeKernel (the_xapic base) offLocalData sizeof_Cpu fuel st n
        else DistributeUser (the_xapic base) offLocalData sizeof_Cpu fuel st n) (tables_changed st n s)
      = count_wait fuel s'.
Proof.
  intros Hc Ha Hreach Hph Hr r new.
  destruct (run_Invlpgs_here st n (tables_changed st n s) Hc Hr) as (c' & Hi & Hf & Hrun).
  destruct (begin_step this st n s w c' Ha Hph Hr Hi) as (w1 & Hst & Hph1 & Ha1 & Hm1 & Hc1).
  destruct (ag_objects _ _ _ Ha this (ag_this _ _ _ Ha)) as [c Hlk].
  set (s1 := set_alloc (set_cache c' s.(alloc)) s) in *.
  destruct (run_notify_all this c.(Cpu.x2) (requested st n s1) w1 r) as (s2 & w2 & Hr2 & Has); try done.
  { intros i Hin. rewrite Hc1 in Hin. split; [by apply (Hreach c Hlk)|]. split_and!; by vm_compute. }
  rewrite Hm1, Hc1 in Has. fold new in Has. destruct Has.
  exists s2, (set_phase (Waiting (goes_on r new [])) w2).
  split; [by etrans; [|exact as_quiet0]; split|]. split; [|split; [|split; [done|split; [exact as_sent0|split; [exact as_count0|split]]]]].
  - eapply rtc_l; [exact Hst|]. eapply rtc_r; [exact as_steps0|]. by apply step_wait.
  - eapply agrees_move; [exact as_agrees0|done..| |]; apply as_agrees0.
  - intros e He Hok. rewrite as_cache0 in He. by apply Hf in He as [_ Hout]; apply Hout.
  - intros fuel. run Hrun. change (set_alloc _ (tables_changed st n s)) with s1.
    assert (Ha' : agrees this s1 (set_tlbs (<[id_of s.(alloc).(procs) this := c']> w.(Tlb.tlbs)) w)).
    { eapply agrees_move; [exact Ha|done..| |apply Ha]. cbn. by rewrite fn_lookup_insert. }
    rewrite (distribute_eq this fuel st n s1 _ c Ha') by exact Hlk.
    run Hr2. done.
Qed.

(** ** The wait *)

(** After [k] turns of the loop, and not before, every processor that was asked
    has answered; meanwhile interrupts stay off here and the lock is kept. *)
Record answered (k : nat) s : Prop := {
  an_before : ∀ j, (j < k)%nat → (after j s).(alloc).(ipis) ≠ 0;
  an_count : (after k s).(alloc).(ipis) = 0;
  an_held : (after k s).(held) = s.(held);
  an_iflag : (after k s).(iflag) = s.(iflag);
  an_loaded : (after k s).(critical_loaded) = s.(critical_loaded);
}.

Lemma run_count_wait k : ∀ fuel s, (k < fuel)%nat →
  (∀ j, (j < k)%nat → (after j s).(alloc).(ipis) ≠ 0) → (after k s).(alloc).(ipis) = 0 →
  count_wait fuel s = Ok (tt, after k s).
Proof.
  induction k as [|k IH]; intros [|fuel] s Hf Hb Hk; [lia| |lia|]; cbn [count_wait]; run run_gets.
  - cbn [after] in Hk. by rewrite Hk.
  - pose proof (Hb 0%nat ltac:(lia)) as H0'. cbn [after] in H0'. unfold truthy.
    destruct (Z.eqb_spec (ipis (alloc s)) 0); [done|]. cbn [negb]. run run_modify. cbn [after].
    apply IH; [lia|intros j Hj; apply (Hb (S j)); lia|exact Hk].
Qed.

Lemma elem_of_told r m ids c : c ∈ told r m ids ↔ c ∈ ids ∧ skips r m c = false.
Proof.
  unfold told. rewrite list_elem_of_In, <-in_rev, filter_In, <-list_elem_of_In.
  by rewrite negb_true_iff.
Qed.

Lemma told_nodup r m ids : NoDup ids → NoDup (told r m ids).
Proof. rewrite !NoDup_ListNoDup. intros Hnd. by apply List.NoDup_rev, List.NoDup_filter. Qed.

Lemma told_first this st n s w c :
  c ∈ told (first_round this st n s w) w.(Tlb.currentMap) w.(Tlb.cpus) ↔
  c ∈ w.(Tlb.cpus) ∧ c ≠ id_of s.(alloc).(procs) this ∧
    (PageTable.KernelEnd ≤ st → w.(Tlb.currentMap) c = w.(Tlb.currentMap) (id_of s.(alloc).(procs) this)).
Proof.
  rewrite elem_of_told. apply and_iff_compat_l. unfold skips, first_round, begin_round.
  cbn [Tlb.current Tlb.map]. rewrite orb_false_iff, Z.eqb_neq. apply and_iff_compat_l.
  destruct (Z.ltb_spec st PageTable.KernelEnd); [split; [lia|done]|].
  rewrite negb_false_iff, Z.eqb_eq. tauto.
Qed.

(** ** The whole of the operations *)

Lemma run_DistributeInvlpg this st n s w :
  agrees this s w → noncritical s → s.(alloc).(initialized) = true → TlbLock ∉ s.(held) →
  reaches this s w → w.(ph) = Idle → range_ok st n →
  let r := first_round this st n s w in
  let new := told r w.(Tlb.currentMap) w.(Tlb.cpus) in
  ∃ s' w', rtc step w w' ∧ agrees this s' w' ∧ w'.(ph) = Waiting (goes_on r new [])
    ∧ s'.(held) = TlbLock :: s.(held)
    ∧ sent base s'.(trace) = (invlpg_ipi <$> new) ++ sent base s.(trace)
    ∧ s'.(alloc).(ipis) = Z.of_nat (length new)
    ∧ (∀ e, e ∈ s'.(alloc).(cache) → entry_ok e → in_range st n e = false)
    ∧ ∀ fuel k, (k < fuel)%nat → answered k s' →
        DistributeInvlpg (the_xapic base) offLocalData sizeof_Cpu fuel st n (tables_changed st n s)
        = Ok (tt, set_held s.(held) (set_iflag s.(iflag) (after k s'))).
Proof.
  intros Ha Hnc Hinit Hlock Hreach Hph Hr r new.
  set (s0 := enter_critical (set_held (TlbLock :: s.(held)) s)).
  assert (Ha0 : agrees this s0 w).
  { subst s0. unfold enter_critical. case_match; (eapply agrees_move; [exact Ha|done..|apply Ha|apply Ha]). }
  assert (Hs0 : s0.(alloc) = s.(alloc) ∧ s0.(held) = TlbLock :: s.(held) ∧ s0.(trace) = s.(trace)
    ∧ s0.(critical_loaded) = s.(critical_loaded)).
  { subst s0. unfold enter_critical. by case_match. }
  destruct Hs0 as (Hal & Hh & Htr & Hld).
  destruct (run_distribute this st n s0 w) as (s1 & w1 & Hq & Hst & Ha1 & Hph1 & Hsent & Hcnt & Hcl & Hrun);
    [apply enter_critical_critical|exact Ha0|intros c; rewrite Hal; apply Hreach|done|done|].
  unfold first_round in Hph1, Hsent, Hcnt. rewrite Hal in Hph1, Hsent, Hcnt. rewrite Htr in Hsent.
  exists s1, w1. split; [exact Hst|]. split; [exact Ha1|]. split; [exact Hph1|].
  split; [by rewrite (qu_held _ _ Hq)|]. split; [exact Hsent|].
  split; [exact Hcnt|]. split; [exact Hcl|].
  intros fuel k Hk []. unfold DistributeInvlpg. run run_AssertNoncritical; [|exact Hnc]. run run_gets.
  cbn [alloc set_alloc tables_changed initialized set_cache]. rewrite Hinit. cbn [negb].
  set (x := set_held (TlbLock :: s.(held)) (tables_changed st n s)).
  assert (Hx : enter_critical x = tables_changed st n s0).
  { subst x s0. destruct s as [? ? ? []]; reflexivity. }
  rewrite (run_ScopedLock TlbLock _ _ (leave_critical x (after k s1)) tt); [|done| |].
  - rewrite leave_enter; [done| |].
    + rewrite an_loaded0, (qu_loaded _ _ Hq), Hld. done.
    + rewrite an_iflag0, (qu_iflag _ _ Hq), Hx. done.
  - apply run_ScopedCritical. fold x. rewrite Hx, Hrun. by apply run_count_wait.
  - transitivity (after k s1).(held); [|by rewrite an_held0, (qu_held _ _ Hq)].
    unfold leave_critical. by destruct (_ && _).
Qed.

Lemma run_HandleNotification this s w :
  agrees this s w → critical s → inv w →
  let i := id_of s.(alloc).(procs) this in
  i ∈ w.(Tlb.pending) → w.(Tlb.handler) i = HIdle →
  ∃ s' w', HandleNotification (the_xapic base) s = Ok (tt, s') ∧ nsteps step 3 w w'
    ∧ agrees this s' w' ∧ w'.(Tlb.handler) i = HIdle ∧ (i ∉ w'.(Tlb.pending)) ∧ w'.(ph) = w.(ph)
    ∧ quiet s s' ∧ s'.(alloc).(ipis) = s.(alloc).(ipis) - 1 ∧ sent base s'.(trace) = sent base s.(trace)
    ∧ ∀ e, e ∈ s'.(alloc).(cache) → in_range s.(alloc).(address) s.(alloc).(length_) e = false.
Proof.
  intros Ha Hc Hi i Hp Hh. destruct (ag_request _ _ _ Ha) as (Hra & Hrl & Hrc).
  assert (Hr : range_ok s.(alloc).(address) s.(alloc).(length_)).
  { pose proof (in_phase _ Hi) as Hph. pose proof (inv_round w) as Hround.
    destruct (ph w) as [|r|r]; [by destruct (Hph i)|..];
      destruct (Hround r Hi eq_refl) as [[Hx1 Hx2] Hok _ _ _ _ _ _ _]; congruence. }
  destruct (run_Invlpgs_here _ _ s Hc Hr) as (c' & Hinv & Hf & Hrun).
  set (s1 := set_alloc (set_count (s.(alloc).(ipis) - 1) (set_cache c' s.(alloc))) s).
  destruct (run_Eoi_smp base (here s1) Hc) as (ms & tr & Hr2 & Hg & Hs).
  assert (Hst : step w (set_handler (<[i := HFlushed]> w.(Tlb.handler))
      (set_pending (w.(Tlb.pending) ∖ {[i]}) (set_tlbs (<[i := c']> w.(Tlb.tlbs)) w)))).
  { apply (step_flush _ i c' (on_cpu c')); [exact Hp|exact Hh| |reflexivity].
    rewrite Hra, Hrl. unfold i. rewrite (ag_cache _ _ _ Ha). exact Hinv. }
  eexists (after_io ms tr s1), _. split; [|split].
  { unfold HandleNotification. run run_AssertCritical; [|exact Hc]. run run_gets. run Hrun. run run_change.
    fold s1. run run_on_procs; [|by apply LapicModule.run_GetLapic]. by apply run_on_procs_io. }
  { eapply nsteps_l; [exact Hst|]. eapply nsteps_l; [apply (step_decrement _ i); cbn; by rewrite fn_lookup_insert|].
    eapply nsteps_l; [apply (step_eoi _ i); cbn; by rewrite fn_lookup_insert|]. apply nsteps_O. }
  split; [|split_and!].
  - eapply agrees_move; [exact Ha|done|done|exact Hg|done|done| |].
    + cbn. fold i. by rewrite fn_lookup_insert.
    + cbn. by rewrite Hrc.
  - cbn. by rewrite fn_lookup_insert.
  - cbn. set_solver.
  - done.
  - by split.
  - done.
  - exact Hs.
  - intros e He. apply Hf in He as [Hin Hout]. apply Hout. rewrite <-(ag_cache _ _ _ Ha) in Hin.
    by eapply (in_tlbs _ Hi).
Qed.

Lemma run_WillSetAddressSpace this s w m :
  agrees this s w → critical s → s.(alloc).(initialized) = true →
  ∃ s', WillSetAddressSpace offLocalData m s = Ok (tt, s')
    ∧ agrees this s' (Tlb.WillSetAddressSpace (id_of s.(alloc).(procs) this) m w).
Proof.
  intros Ha Hc Hinit. exists (set_alloc (set_map this m s.(alloc)) s). split.
  { unfold WillSetAddressSpace. run run_AssertCritical; [|exact Hc]. run run_gets. rewrite Hinit. cbn [negb].
    run run_on_procs; [|exact (ag_self _ _ _ Ha)]. apply run_change. }
  pose proof (id_inj this s w) as Hinj. pose proof Ha as []. split; try done.
  intros o Ho. cbn. unfold map_of. cbn. destruct (decide (this = o)) as [<-|Hne].
  - by rewrite fn_lookup_insert, lookup_insert_eq.
  - rewrite fn_lookup_insert_ne by (intros Heq; by apply Hne, (Hinj this o Ha)).
    rewrite lookup_insert_ne by done. by apply ag_maps0.
Qed.

(** [GlobalMap::Set] and [UserMap::Set] once the module is initialized: CR3 is
    loaded, and the map is noted, [NULL] for the global one. *)
Lemma run_Set_noted this s w m pml4 :
  agrees this s w → critical s → s.(alloc).(initialized) = true →
  let i := id_of s.(alloc).(procs) this in
  (∃ s', GlobalMap.Set_ (WillSetAddressSpace offLocalData) pml4 s = Ok (tt, s')
    ∧ s'.(cr3) = pml4 ∧ agrees this s' (Tlb.WillSetAddressSpace i 0 w))
  ∧ ∃ s', UserMap.Set_ (WillSetAddressSpace offLocalData) m pml4 s = Ok (tt, s')
    ∧ s'.(cr3) = pml4 ∧ agrees this s' (Tlb.WillSetAddressSpace i m w).
Proof.
  intros Ha Hc Hinit i.
  assert (Hload : ∀ m', ∃ s', (_ ← AssertCritical; _ ← WillSetAddressSpace offLocalData m';
      _ ← emit (EvLoadCr3 pml4); modify (set_cr3 pml4)) s = Ok (tt, s')
    ∧ s'.(cr3) = pml4 ∧ agrees this s' (Tlb.WillSetAddressSpace i m' w)).
  { intros m'. destruct (run_WillSetAddressSpace this s w m' Ha Hc Hinit) as (s1 & Hr & Ha1).
    eexists. split; [run run_AssertCritical; [|exact Hc]; run Hr; unfold emit; by run run_modify|].
    split; [done|]. eapply agrees_move; [exact Ha1|done..| |].
    - exact (ag_cache _ _ _ Ha1).
    - exact (ag_request _ _ _ Ha1). }
  split; apply Hload.
Qed.

(** ** Properties *)

(** C30. The code of the shootdown refines its steps.  On a processor that agrees
    with a world of Tlb.v: (1) a distribution of a range whose tables have changed
    is, up to its wait, a run of the steps with the lock held, in which exactly
    the processors that are to flush, for a user range those with the same map,
    are sent one interrupt each and counted, and after which this processor has
    nothing of the range cached; when they have answered it returns, with the
    lock free and interrupts as before.  (2) The handler is the three steps of a
    flush, an answer and an end, leaves nothing of the range cached and takes one
    off the count.  (3) Noting an address space is the step that does so.  All of
    them end with the processor and the world in agreement. *)
Theorem shootdown_refines this s w (Ha : agrees this s w) :
  let i := id_of s.(alloc).(procs) this in
  (∀ st n, noncritical s → s.(alloc).(initialized) = true → TlbLock ∉ s.(held) →
    reaches this s w → w.(ph) = Idle → range_ok st n →
    ∃ s' w' r, rtc step w w' ∧ agrees this s' w' ∧ w'.(ph) = Waiting r
      ∧ r.(Tlb.current) = i ∧ r.(Tlb.start) = st ∧ r.(Tlb.size) = n
      ∧ NoDup r.(Tlb.sent)
      ∧ (∀ c, c ∈ r.(Tlb.sent) ↔ c ∈ w.(Tlb.cpus) ∧ c ≠ i
          ∧ (PageTable.KernelEnd ≤ st → w.(Tlb.currentMap) c = w.(Tlb.currentMap) i))
      ∧ sent base s'.(trace) = (invlpg_ipi <$> r.(Tlb.sent)) ++ sent base s.(trace)
      ∧ s'.(alloc).(ipis) = Z.of_nat (length r.(Tlb.sent)) ∧ s'.(held) = TlbLock :: s.(held)
      ∧ (∀ e, e ∈ s'.(alloc).(cache) → entry_ok e → in_range st n e = false)
      ∧ ∀ fuel k, (k < fuel)%nat → answered k s' →
          DistributeInvlpg (the_xapic base) offLocalData sizeof_Cpu fuel st n (tables_changed st n s)
          = Ok (tt, set_held s.(held) (set_iflag s.(iflag) (after k s'))))
  ∧ (critical s → reachable w → i ∈ w.(Tlb.pending) → w.(Tlb.handler) i = HIdle →
    ∃ s' w', HandleNotification (the_xapic base) s = Ok (tt, s') ∧ nsteps step 3 w w'
      ∧ agrees this s' w' ∧ w'.(Tlb.handler) i = HIdle ∧ (i ∉ w'.(Tlb.pending)) ∧ w'.(ph) = w.(ph)
      ∧ quiet s s' ∧ s'.(alloc).(ipis) = s.(alloc).(ipis) - 1
      ∧ sent base s'.(trace) = sent base s.(trace)
      ∧ ∀ e, e ∈ s'.(alloc).(cache) → in_range s.(alloc).(address) s.(alloc).(length_) e = false)
  ∧ (∀ m, critical s → s.(alloc).(initialized) = true →
    ∃ s', WillSetAddressSpace offLocalData m s = Ok (tt, s')
      ∧ agrees this s' (Tlb.WillSetAddressSpace i m w)).
Proof.
  intros i. split; [|split].
  - intros st n Hnc Hinit Hlock Hreach Hph Hr.
    destruct (run_DistributeInvlpg this st n s w Ha Hnc Hinit Hlock Hreach Hph Hr)
      as (s' & w' & Hst & Ha' & Hph' & Hh & Hsent & Hcnt & Hcl & Hrun).
    eexists s', w', _. split; [exact Hst|]. split; [exact Ha'|]. split; [exact Hph'|].
    cbn [goes_on first_round begin_round Tlb.current Tlb.start Tlb.size Tlb.sent]. rewrite app_nil_r.
    split_and!; try done; [by apply told_nodup, Ha|]. intros c. apply told_first.
  - intros Hc Hw. apply run_HandleNotification; [done|done|by apply reachable_inv].
  - intros m Hc Hinit. by apply run_WillSetAddressSpace.
Qed.
End Facts.

(** ** Example *)

(** Two processors that are idle but for the first, which runs the code; at each
    turn of its wait another one answers. *)
Definition member (this id : Z) : Cpu.t := Cpu.mk _ 0 0 false no_timer this 0 0 (mkTss [] [] 0) id 0.

Definition two_members : machine state :=
  Machine _ ∅ 0x1000 true true {[0xc0000101 := 0x300040]} [] []
    (mkState _ (set_domain (Some (Domain.mk 0x300000 2 2))
       (Processor.set_cpus {[0x300000 := member 0x300000 0; 0x300100 := member 0x300100 1]}
          example_smp.(alloc)))
     ∅ [] true 0 0 0).

#[local] Instance answers : World state :=
  {| advance s := set_alloc (set_count (s.(alloc).(ipis) - 1) s.(alloc)) s |}.

Lemma two_members_are : members 0x100 two_members.(alloc).(procs) = [0x300000; 0x300100].
Proof. reflexivity. Qed.

Lemma two_members_agree : agrees 0x40 0x100 0x300000 two_members two_cpus.
Proof.
  split; rewrite ?two_members_are.
  - by left.
  - intros o [->|[->|[]%elem_of_nil]%elem_of_cons]%elem_of_cons; by eexists.
  - reflexivity.
  - apply two_cpus_initial.
  - intros o [->|[->|[]%elem_of_nil]%elem_of_cons]%elem_of_cons; reflexivity.
  - reflexivity.
  - by split_and!.
  - reflexivity.
Qed.

Lemma two_members_reach : reaches 0x300000 two_members two_cpus.
Proof.
  intros c Hc i Hi. cbn in Hc. injection Hc as <-. change (Cpu.x2 _) with false. cbn iota.
  apply elem_of_cons in Hi as [->|[->|[]%elem_of_nil]%elem_of_cons]; lia.
Qed.

Lemma shootdown_refines_witness :
  ∃ s', DistributeInvlpg (the_xapic 0xfee00000) 0x40 0x100 2 0x1000 0x1000
      (tables_changed 0x1000 0x1000 two_members) = Ok (tt, s')
    ∧ sent 0xfee00000 s'.(trace) = [Ipi 1 0x22 0 1 0] ∧ s'.(held) = [] ∧ s'.(iflag) = true.
Proof.
  destruct (shootdown_refines 0xfee00000 0x40 0x100 0x300000 two_members two_cpus
    two_members_agree) as (Hd & _).
  destruct (Hd 0x1000 0x1000) as (s' & w' & r & _ & _ & _ & _ & _ & _ & Hnd & Hr & Ht & Hn & _ & _ & Hret);
    [right; reflexivity|reflexivity|apply not_elem_of_nil|exact two_members_reach|reflexivity
    |split; [reflexivity|lia|lia|left; lia]|].
  assert (Hs : Tlb.sent r = [1]).
  { apply Permutation_singleton_r. apply NoDup_Permutation; [exact Hnd|apply NoDup_singleton|].
    intros c. rewrite Hr. cbn. set_solver by lia. }
  rewrite Hs in Ht, Hn. exists (set_held [] (set_iflag true (after 1 s'))).
  split; [|split; [exact Ht|split; reflexivity]]. apply (Hret 2%nat 1%nat); [lia|]. split; try reflexivity.
  - intros [|j] Hj; [|lia]. cbn [after]. rewrite Hn. discriminate.
  - cbn. rewrite Hn. reflexivity.
Defined.
