(* ===== verification/DomainList.v ===== *)
(** * The domain list

    The list of domains (src/arch/x64/domains/domain-list.cpp): its
    initialization, the start of the other processors, and what a started
    processor runs; and the trampoline in low memory that takes a processor
    from its reset to [CpuEntrance] (src/arch/x64/smp/startup-code.cpp).  The
    interleavings of the processors are in Startup.v. *)

From stdpp Require Import base numbers list gmap strings.
From Stdlib Require Import ZArith Lia.
From S2P Require Import Prelude Machine Concrete Interrupts Devices Acpi AcpiRoot Apic Segments Clock GlobalMap Processor.
#[local] Open Scope Z_scope.

(** ** Stores of bytes *)

(** A store of a byte, and of several in a row, to memory of 64-bit words. *)
Definition poke_byte (a b : Z) (m : gmap Z Z) : gmap Z Z :=
  let w := a - a mod 8 in
  let n := 8 * (a mod 8) in
  <[w := Z.ldiff (default 0 (m !! w)) (Z.ones 8 .<< n) .| (b .<< n)]> m.

Fixpoint poke (a : Z) (l : list Z) (m : gmap Z Z) : gmap Z Z :=
  match l with
  | [] => m
  | b :: l' => poke (a + 1) l' (poke_byte a b m)
  end.

(** The [n] bytes from [a]. *)
Fixpoint peek (m : gmap Z Z) (a : Z) (n : nat) : list Z :=
  match n with
  | O => []
  | S n' => phys_byte m a :: peek m (a + 1) n'
  end.

Lemma testbit_u8 x i : 0 ≤ i → Z.testbit (u8 x) i = (i <? 8) && Z.testbit x i.
Proof.
  intros Hi. unfold u8. destruct (Z.ltb_spec i 8); cbn [andb].
  - by rewrite Z.mod_pow2_bits_low by lia.
  - by rewrite Z.mod_pow2_bits_high by lia.
Qed.

Lemma phys_byte_poke_byte a b a' m : 0 ≤ b < 2 ^ 8 →
  phys_byte (poke_byte a b m) a' = if a' =? a then b else phys_byte m a'.
Proof.
  intros Hb. unfold phys_byte, poke_byte.
  destruct (Z.eq_dec (a' - a' mod 8) (a - a mod 8)) as [Hw|Hw].
  2:{ rewrite lookup_insert_ne by congruence. destruct (Z.eqb_spec a' a); [congruence|done]. }
  rewrite Hw, lookup_insert_eq. cbn [default from_option id]. set (old := default 0 _).
  apply Z.bits_inj'. intros i Hi.
  pose proof (Z.mod_pos_bound a 8 ltac:(lia)). pose proof (Z.mod_pos_bound a' 8 ltac:(lia)).
  assert (∀ x, Z.testbit (if a' =? a then b else u8 x) i
    = if a' =? a then (i <? 8) && Z.testbit b i else (i <? 8) && Z.testbit x i) as ->.
  { intros x. destruct (a' =? a); rewrite <-testbit_u8 by done; [|done].
    unfold u8. by rewrite Z.mod_small. }
  rewrite testbit_u8, !Z.shiftr_spec, Z.lor_spec, Z.ldiff_spec, !Z.shiftl_spec by lia.
  destruct (Z.ltb_spec i 8); cbn [andb]; [|by destruct (a' =? a)].
  destruct (Z.eqb_spec a' a) as [->|Hne].
  - replace (i + 8 * (a mod 8) - 8 * (a mod 8)) with i by lia.
    rewrite Z.ones_spec_low by lia. cbn [negb]. by rewrite andb_false_r.
  - assert (a' mod 8 ≠ a mod 8) by zlia.
    destruct (Z.ltb_spec (i + 8 * (a' mod 8)) (8 * (a mod 8))).
    + rewrite !(Z.testbit_neg_r _ (_ - _)) by lia. cbn [negb]. by rewrite andb_true_r, orb_false_r.
    + rewrite Z.ones_spec_high by lia.
      rewrite <-(Z.mod_small b (2 ^ 8)), Z.mod_pow2_bits_high by lia.
      cbn [negb]. by rewrite andb_true_r, orb_false_r.
Qed.

Definition bytes_ok (l : list Z) : Prop := Forall (λ b, 0 ≤ b < 2 ^ 8) l.

Lemma phys_byte_poke a l a' m : bytes_ok l →
  phys_byte (poke a l m) a'
  = if (a <=? a') && (a' <? a + Z.of_nat (length l))
    then default 0 (l !! Z.to_nat (a' - a)) else phys_byte m a'.
Proof.
  revert a m. induction l as [|b l IH]; intros a m Hl; cbn [poke length].
  { destruct (Z.leb_spec a a'), (Z.ltb_spec a' (a + Z.of_nat 0)); cbn [andb]; try done; lia. }
  apply Forall_cons in Hl as [Hb Hl]. rewrite IH, phys_byte_poke_byte by done.
  destruct (Z.eqb_spec a' a) as [->|Hne].
  - destruct (Z.leb_spec (a + 1) a); [lia|]. cbn [andb].
    destruct (Z.leb_spec a a), (Z.ltb_spec a (a + Z.of_nat (S (length l)))); cbn [andb]; try lia.
    by rewrite Z.sub_diag.
  - destruct (Z.leb_spec (a + 1) a'), (Z.leb_spec a a'); cbn [andb]; try done; try lia.
    destruct (Z.ltb_spec a' (a + 1 + Z.of_nat (length l))),
      (Z.ltb_spec a' (a + Z.of_nat (S (length l)))); try done; try lia.
    replace (Z.to_nat (a' - a)) with (S (Z.to_nat (a' - (a + 1)))) by lia. done.
Qed.

Lemma poke_holds a l m : bytes_ok l → holds (phys_byte (poke a l m)) a l.
Proof.
  intros Hl i b Hi. rewrite phys_byte_poke by done. apply lookup_lt_Some in Hi as Hlt.
  destruct (Z.leb_spec a (a + Z.of_nat i)), (Z.ltb_spec (a + Z.of_nat i) (a + Z.of_nat (length l)));
    try lia. cbn [andb]. replace (Z.to_nat (a + Z.of_nat i - a)) with i by lia. by rewrite Hi.
Qed.

(** Bytes that a store elsewhere leaves alone. *)
Lemma poke_keeps a l m a' k : bytes_ok l →
  a' + Z.of_nat (length k) ≤ a ∨ a + Z.of_nat (length l) ≤ a' →
  holds (phys_byte m) a' k → holds (phys_byte (poke a l m)) a' k.
Proof.
  intros Hl Ha Hk. eapply holds_same; [|exact Hk]. intros i Hi. rewrite phys_byte_poke by done.
  destruct (Z.leb_spec a i), (Z.ltb_spec i (a + Z.of_nat (length l))); cbn [andb]; done || lia.
Qed.

Lemma peek_ok m a n : bytes_ok (peek m a n).
Proof.
  revert a. induction n as [|n IH]; intros a; constructor; [apply phys_byte_range|apply IH].
Qed.

Lemma length_peek m a n : length (peek m a n) = n.
Proof. revert a. induction n; intros a; cbn; [done|]. by rewrite IHn. Qed.

Lemma peek_holds m a n : holds (phys_byte m) a (peek m a n).
Proof.
  revert a. induction n as [|n IH]; intros a; cbn [peek]; [by intros []|].
  by apply holds_cons.
Qed.

(** Bytes that were saved and are put back. *)
Lemma poke_peek a n m m' x :
  phys_byte (poke a (peek m a n) m') x
  = if decide (a ≤ x < a + Z.of_nat n) then phys_byte m x else phys_byte m' x.
Proof.
  rewrite phys_byte_poke, length_peek by apply peek_ok.
  destruct (Z.leb_spec a x), (Z.ltb_spec x (a + Z.of_nat n)), (decide (a ≤ x < a + Z.of_nat n));
    cbn [andb]; try done; try lia.
  destruct (peek m a n !! Z.to_nat (x - a)) as [b|] eqn:E.
  - rewrite <-(peek_holds m a n _ b E). cbn [default from_option id]. f_equal. lia.
  - apply lookup_ge_None in E. rewrite length_peek in E. lia.
Qed.

Lemma le_bytes_ok n v : bytes_ok (le_bytes n v).
Proof.
  revert v. induction n as [|n IH]; intros v; constructor; [by apply Z.mod_pos_bound|apply IH].
Qed.

(** ** The trampoline *)

Module StartupCode.

Definition CodeBase : Z := 0x5000.
Definition PageTableBase : Z := 0x3000.

(** [saved] is what the buffer at [dataBackup] holds. *)
Record t : Type := mk { callbackFunc : Z; dataBackup : Z; saved : list Z }.

Section Ops.
Context `{AnsaRational} `{VirtualAllocator smp}.
(** [GlobalMap::GetPdpt()], [GetPageTable().GetPml4()], and the machine code of
    [anarch_proc_entry]. *)
Context (pdpt pml4 : Z) (proc_entry : list Z).

(** A store to low memory, which the kernel maps where it is. *)
Definition write (a : Z) (l : list Z) : M (machine smp) unit :=
  modify (λ s, set_mem (poke a l s.(mem)) s).

Definition new (cb : Z) : M (machine smp) t :=
  dataBackup ← VAlloc 0x3000;
  match dataBackup with
  | None => panic "StartupCode::StartupCode() - failed to allocate backup"
  | Some dataBackup =>
      saved ← gets (λ s, peek s.(mem) PageTableBase 0x3000);
      _ ← write PageTableBase (le_bytes 8 (pdpt .| 3));
      '(limit, start) ← on_gdt Gdt.Pointer;
      _ ← write (PageTableBase + 0x1000) (le_bytes 2 limit ++ le_bytes 8 start);
      let codeLen := Z.of_nat (length proc_entry) in
      _ ← assert (codeLen <? 0x1000) "codeLen < 0x1000";
      _ ← write CodeBase proc_entry;
      mret (mk cb dataBackup saved)
  end.

Definition delete (c : t) : M (machine smp) unit :=
  _ ← write PageTableBase c.(saved);
  VFree c.(dataBackup).

(** The stack of the trampoline: the two words below the code. *)
Definition ResetStartupStack (c : t) : M (machine smp) unit :=
  let bootstrapStack := CodeBase - 2 * 8 in
  _ ← write bootstrapStack (le_bytes 8 pml4);
  write (bootstrapStack + 8) (le_bytes 8 c.(callbackFunc)).
End Ops.
End StartupCode.

(** ** The domain list *)

Module DomainList.
Section Ops.
Context `{AnsaRational} `{WindowMap smp, AnsaLock smp, Device, Cpuid, VirtualAllocator smp, World smp}.

(** As in Processor.v: the memory-mapped local APIC, the clock, the layout of
    the objects, fresh memory, the physical allocator. *)
Context (xapic : XApic.t) (clk : Clock smp).
Context (offLocalData offTaskSegment sizeof_Cpu sizeof_Domain : Z) (junk : Cpu.t).
Context (physAlloc : Z → Z → M (machine smp) (option Z)) (physFree : Z → M (machine smp) unit)
  (physOwns : Z → M (machine smp) bool).
(** As for the trampoline, and the addresses of the entries of the interrupt
    table and of its pointer. *)
Context (pdpt pml4 : Z) (proc_entry : list Z) (entriesBase idtPtrBase : Z).
(** [fuel] bounds the turns of a sleep. *)
Context (fuel : nat).

Local Abbreviation init_cpu := (InitNewCpu xapic offLocalData offTaskSegment sizeof_Cpu junk
  physAlloc physFree physOwns).

(** [for (i = 0; i < 20; i++)]: whether the flag was seen. *)
Fixpoint poll_loop (n : nat) : M (machine smp) bool :=
  match n with
  | O => mret false
  | S n' =>
      _ ← SetCritical false;
      _ ← MicroSleep clk fuel 10000;
      _ ← SetCritical true;
      seen ← ScopedCriticalLock InitLock (gets (λ s, s.(alloc).(initFlag)));
      if (seen : bool) then mret true else poll_loop n'
  end.

(** [for (j = 0; j < 2; j++)] *)
Fixpoint send_loop (lapic : Lapic.Lapic smp) (apicId : Z) (n : nat) : M (machine smp) bool :=
  match n with
  | O => mret false
  | S n' =>
      _ ← Lapic.ClearErrors lapic;
      _ ← lapic.(Lapic.SendIpi) apicId 5 6 1 0;
      seen ← poll_loop 20;
      if (seen : bool) then mret true else send_loop lapic apicId n'
  end.

Definition BootstrapCpu (apicId : Z) : M (machine smp) unit :=
  ScopedCritical (
    lapic ← LapicModule.GetLapic xapic;
    id ← lapic.(Lapic.GetId);
    if apicId =? id then mret tt else
    _ ← put_text "Starting CPU ";
    _ ← put_number apicId;
    _ ← put_text "...";
    _ ← Lapic.ClearErrors lapic;
    _ ← lapic.(Lapic.SendIpi) apicId 0 5 1 1;
    _ ← SetCritical false;
    _ ← Sleep clk fuel 1;
    _ ← SetCritical true;
    _ ← lapic.(Lapic.SendIpi) apicId 0 5 0 1;
    _ ← update (set_initFlag false);
    seen ← send_loop lapic apicId 2;
    if (seen : bool) then mret tt
    else _ ← put_text " [FAIL]"; put_endl).

(** One turn of the loop over the table. *)
Definition start_entry (table : ApicTable.t) (code : StartupCode.t) (it : ApicTable.Iterator)
  : M (machine smp) unit :=
  ty ← ApicTable.GetType table it;
  if ty =? ApicTable.TypeLapic then
    _ ← StartupCode.ResetStartupStack pml4 code;
    apicId ← ApicTable.field table (ApicTable.GetEntry it + ApicTable.LocalApic_apicId) 1;
    BootstrapCpu apicId
  else
    ty ← ApicTable.GetType table it;
    if ty =? ApicTable.TypeX2Apic then
      _ ← StartupCode.ResetStartupStack pml4 code;
      x2apicId ← ApicTable.field table (ApicTable.GetEntry it + ApicTable.LocalApic2_x2apicId) 4;
      BootstrapCpu x2apicId
    else mret tt.

(** [table] is [*AcpiModule::GetGlobal().GetApicTable()]; the trampoline is
    taken down on both returns. *)
Definition StartCpus (table : ApicTable.t) (entrance : Z) : M (machine smp) unit :=
  code ← StartupCode.new pdpt proc_entry entrance;
  _ ← (if negb (ApicTable.CanIterate table) then mret tt
       else
         _ ← ApicTable.do_entries (B := unit) (R := unit) (ApicTable.fuel table) table
               (λ it _, _ ← start_entry table code it; mret (inl tt))
               (ApicTable.GetIterator table) tt;
         mret tt);
  StartupCode.delete code.

(** The addresses of [Cpu::HandleWakeup] and of [CpuEntrance]. *)
Definition Initialize (acpi : AcpiModule.t) (wakeup entrance : Z) : M (machine smp) unit :=
  _ ← set_routine IntVectors.Wakeup wakeup;
  match acpi.(AcpiModule.apicTable) with
  | None => stop (Undefined "no APIC table")
  | Some table =>
      lapicCount ← ApicTable.CountLapics table true;
      domain ← New sizeof_Domain (new_Domain sizeof_Cpu lapicCount);
      match domain with
      | None => stop (AssertFail "mainDomain != NULL")
      | Some d =>
          _ ← update (set_domain (Some d));
          _ ← init_cpu;
          StartCpus table entrance
      end
  end.

(** [Idt::GetGlobal().Set()], [lidt] included. *)
Definition set_idt_register : M (machine smp) unit :=
  '(limit, start) ← on_idt (Idt.Set_ entriesBase idtPtrBase);
  emit (EvLidt limit start).

(** [Irt::Initialize] of interrupts/irt.cpp. *)
Definition Irt_Initialize : M (machine smp) unit :=
  _ ← put_text "Initializing Interrupt Routine Table...";
  _ ← set_idt_register;
  _ ← put_text " [OK]";
  put_endl.

(** What a started processor does before it sleeps. *)
Definition CpuStall_announce : M (machine smp) unit :=
  _ ← put_text " [OK]";
  _ ← put_endl;
  _ ← update (set_initFlag true);
  _ ← CriticalLock_Release InitLock;
  SetCritical false.

Definition CpuStall : M (machine smp) unit :=
  _ ← CpuStall_announce; stop (Hang "hlt").

(** Up to the transition to the processor's own stack, whose top is the
    result.  [Tlb] is initialized after the domain list, so [GlobalMap::Set]
    meets it before that. *)
Definition CpuEntrance_setup : M (machine smp) Z :=
  _ ← CriticalLock_Seize InitLock;
  _ ← set_idt_register;
  _ ← GlobalMap.Set_ WillSet_uninitialized pml4;
  _ ← on_gdt Gdt.Set_;
  lapic ← LapicModule.GetLapic xapic;
  _ ← lapic.(Lapic.Enable);
  _ ← Lapic.SetDefaults lapic;
  _ ← SetCritical false;
  idx ← init_cpu;
  d ← GetDomain;
  let cpu := GetCpu sizeof_Cpu d idx in
  _ ← SetCritical true;
  GetStackTop cpu.

Definition CpuEntrance : M (machine smp) unit :=
  _ ← CpuEntrance_setup; CpuStall.
End Ops.
End DomainList.

(** ** The trampoline is set up and taken down *)

Section Trampoline.
Context `{AnsaRational} `{VirtualAllocator smp}.
Context (pdpt pml4 : Z) (proc_entry : list Z).
Implicit Types (s : machine smp) (m : gmap Z Z).

Definition pointer_bytes (start : Z) : list Z := le_bytes 2 0xffff ++ le_bytes 8 start.

(** Low memory with the trampoline, and with its stack. *)
Definition built_low (start : Z) m : gmap Z Z :=
  poke StartupCode.CodeBase proc_entry
    (poke (StartupCode.PageTableBase + 0x1000) (pointer_bytes start)
      (poke StartupCode.PageTableBase (le_bytes 8 (pdpt .| 3)) m)).

Definition stacked cb m : gmap Z Z :=
  poke (StartupCode.CodeBase - 2 * 8 + 8) (le_bytes 8 cb)
    (poke (StartupCode.CodeBase - 2 * 8) (le_bytes 8 pml4) m).

Lemma run_write a l s : StartupCode.write a l s = Ok (tt, set_mem (poke a l s.(mem)) s).
Proof. unfold StartupCode.write. by rewrite run_modify. Qed.

Lemma run_new_StartupCode cb backup s :
  VAlloc 0x3000 s = Ok (Some backup, s) → (length proc_entry < Z.to_nat 0x1000)%nat →
  StartupCode.new pdpt proc_entry cb s
  = Ok (StartupCode.mk cb backup (peek s.(mem) StartupCode.PageTableBase 0x3000),
        set_mem (built_low s.(alloc).(gdt).(Gdt.buffer) s.(mem)) s).
Proof.
  intros Ha Hl. unfold StartupCode.new. run Ha. cbn beta iota. run run_gets.
  set (saved := peek _ _ _). clearbody saved. run run_write.
  erewrite run_bind; [|apply run_zoom; apply run_gets]. cbn beta iota.
  run run_write. run_assert ltac:(apply Z.ltb_lt; lia). run run_write. by destruct s as [? ? ? ? ? ? ? []].
Qed.

Lemma run_ResetStartupStack code s :
  StartupCode.ResetStartupStack pml4 code s
  = Ok (tt, set_mem (stacked code.(StartupCode.callbackFunc) s.(mem)) s).
Proof. unfold StartupCode.ResetStartupStack. run run_write. by rewrite run_write. Qed.

Lemma trampoline_bytes start cb m : bytes_ok proc_entry →
  (length proc_entry < Z.to_nat 0x1000)%nat →
  let f := phys_byte (stacked cb (built_low start m)) in
  holds f 0x3000 (le_bytes 8 (pdpt .| 3)) ∧ holds f 0x4000 (pointer_bytes start) ∧
  holds f 0x4ff0 (le_bytes 8 pml4) ∧ holds f 0x4ff8 (le_bytes 8 cb) ∧ holds f 0x5000 proc_entry ∧
  ∀ a, ¬ 0x3000 ≤ a < 0x6000 → f a = phys_byte m a.
Proof.
  intros Hok Hl f. unfold f, stacked, built_low, StartupCode.CodeBase, StartupCode.PageTableBase.
  assert (bytes_ok (pointer_bytes start)) as Hp by (apply Forall_app; split; apply le_bytes_ok).
  assert (length (pointer_bytes start) = 10%nat) as Hpl by done.
  pose proof le_bytes_ok as Hle. pose proof length_le_bytes as Hll.
  split_and!.
  - do 4 (apply poke_keeps; [done|rewrite ?Hll, ?Hpl; lia|]). by apply poke_holds.
  - do 3 (apply poke_keeps; [done|rewrite ?Hll, ?Hpl; lia|]). by apply poke_holds.
  - apply poke_keeps; [done|rewrite ?Hll; lia|]. by apply poke_holds.
  - by apply poke_holds.
  - do 2 (apply poke_keeps; [done|rewrite ?Hll; lia|]). by apply poke_holds.
  - intros a Ha. rewrite !phys_byte_poke, !Hll, Hpl by done.
    repeat (match goal with |- context [?x <=? a] => destruct (Z.leb_spec x a) end; cbn [andb];
      try match goal with |- context [a <? ?x] => destruct (Z.ltb_spec a x) end; cbn [andb]);
      done || lia.
Qed.
End Trampoline.

(** The trampoline: with the page-table entry, the descriptor-table
    pointer, the code and the stack in place, a processor that starts at
    0x5000 finds the words that proc-entry.s reads, and what lay below and
    above them is as it was; taking it down, whatever the started processors
    left in the three pages, puts back every byte that was there, and changes
    no other. *)
Lemma StartupCode_roundtrip `{AnsaRational} `{VirtualAllocator smp}
  (pdpt pml4 cb backup : Z) (proc_entry : list Z) (s : machine smp)
  (Ha : VAlloc 0x3000 s = Ok (Some backup, s)) (Hf : ∀ s', VFree backup s' = Ok (tt, s'))
  (Hok : bytes_ok proc_entry) (Hl : (length proc_entry < Z.to_nat 0x1000)%nat)
  (Hp : is_u64 (pdpt .| 3)) (H4 : is_u64 pml4) (Hc : is_u64 cb)
  (Hg : is_u64 s.(alloc).(gdt).(Gdt.buffer)) :
  ∃ code s1 s2, StartupCode.new pdpt proc_entry cb s = Ok (code, s1) ∧
    StartupCode.ResetStartupStack pml4 code s1 = Ok (tt, s2) ∧
    le (phys_byte s2.(mem)) 0x3000 8 = pdpt .| 3 ∧
    le (phys_byte s2.(mem)) 0x4000 2 = 0xffff ∧
    le (phys_byte s2.(mem)) 0x4002 8 = s.(alloc).(gdt).(Gdt.buffer) ∧
    le (phys_byte s2.(mem)) 0x4ff0 8 = pml4 ∧ le (phys_byte s2.(mem)) 0x4ff8 8 = cb ∧
    holds (phys_byte s2.(mem)) 0x5000 proc_entry ∧
    (∀ a, ¬ 0x3000 ≤ a < 0x6000 → phys_byte s2.(mem) a = phys_byte s.(mem) a) ∧
    ∀ s3, ∃ s4, StartupCode.delete code s3 = Ok (tt, s4) ∧
      (∀ a, 0x3000 ≤ a < 0x6000 → phys_byte s4.(mem) a = phys_byte s.(mem) a) ∧
      (∀ a, ¬ 0x3000 ≤ a < 0x6000 → phys_byte s4.(mem) a = phys_byte s3.(mem) a).
Proof.
  destruct (trampoline_bytes pdpt pml4 proc_entry s.(alloc).(gdt).(Gdt.buffer) cb s.(mem) Hok Hl)
    as (H1 & H2 & H3 & H5 & H6 & H7).
  apply holds_app in H2 as [H2 H2'].
  eexists _, _, _. split; [by apply run_new_StartupCode|]. split; [apply run_ResetStartupStack|].
  cbn [mem set_mem StartupCode.callbackFunc].
  split_and!; [by apply le_holds|apply le_holds; [lia|exact H2]|by apply le_holds|by apply le_holds
    |by apply le_holds|exact H6|exact H7|].
  intros s3. eexists. unfold StartupCode.delete. split; [run run_write; apply Hf|].
  cbn [mem set_mem StartupCode.saved]. split; intros a Ha'; rewrite poke_peek;
    unfold StartupCode.PageTableBase in *; case_decide; done || lia.
Qed.

Lemma StartupCode_roundtrip_witness :
  ∃ code s1 s2, StartupCode.new 0x1c0000 [0xfa; 0xf4] 0x8000 example_smp = Ok (code, s1) ∧
    StartupCode.ResetStartupStack 0x1b0000 code s1 = Ok (tt, s2) ∧
    le (phys_byte s2.(mem)) 0x4002 8 = 0x200000.
Proof.
  destruct (StartupCode_roundtrip 0x1c0000 0x1b0000 0x8000 0x100000 [0xfa; 0xf4] example_smp
    ltac:(done) ltac:(done) ltac:(repeat (apply Forall_cons; split); [by vm_compute..|by apply Forall_nil])
    ltac:(cbn; lia) ltac:(split; by vm_compute) ltac:(split; by vm_compute)
    ltac:(split; by vm_compute) ltac:(split; by vm_compute))
    as (code & s1 & s2 & Hn & Hr & _ & _ & Hg & _).
  exists code, s1, s2. split; [exact Hn|]. split; [exact Hr|exact Hg].
Defined.

(** ** What a started processor does *)

(** Computations of a critical section that only add to the trace and write
    model-specific registers. *)
Section Quiet.
Context {A : Type}.
Implicit Types (s : machine A).

Definition quiet {X} (m : M (machine A) X) : Prop :=
  ∀ s, critical s → ∃ x l r, m s = Ok (x, set_trace (l ++ s.(trace)) (set_msrs r s)).

Lemma quiet_bind {X Y} (m : M (machine A) X) (f : X → M (machine A) Y) :
  quiet m → (∀ x, quiet (f x)) → quiet (x ← m; f x).
Proof.
  intros Hm Hf s Hc. destruct (Hm s Hc) as (x & l & r & Hx).
  destruct (Hf x (set_trace (l ++ s.(trace)) (set_msrs r s))) as (y & l' & r' & Hy); [done|].
  exists y, (l' ++ l), r'. run Hx. rewrite Hy. cbn. by rewrite app_assoc.
Qed.

(** The state itself, seen as one that adds nothing. *)
Lemma quiet_here s : set_trace ([] ++ s.(trace)) (set_msrs s.(msrs) s) = s.
Proof. by destruct s. Qed.

Lemma quiet_ret {X} (x : X) : quiet (mret x).
Proof. intros s _. exists x, [], s.(msrs). by rewrite quiet_here. Qed.

Lemma quiet_AssertCritical : quiet AssertCritical.
Proof.
  intros s Hc. exists tt, [], s.(msrs). rewrite quiet_here. by apply run_AssertCritical.
Qed.

Lemma quiet_assert b what : b = true → quiet (assert b what).
Proof. intros -> s _. exists tt, [], s.(msrs). by rewrite quiet_here, run_assert. Qed.

Lemma quiet_emit e : quiet (emit e).
Proof. intros s _. exists tt, [e], s.(msrs). by destruct s. Qed.

Lemma quiet_WriteMsr cell v : quiet (WriteMsr cell v).
Proof.
  apply quiet_bind; [apply quiet_AssertCritical|intros _].
  apply quiet_bind; [apply quiet_emit|intros _]. intros s _. eexists tt, [], _.
  rewrite run_modify. unfold set_trace, set_msrs. reflexivity.
Qed.

Lemma quiet_ReadMsr cell : quiet (ReadMsr cell).
Proof.
  apply quiet_bind; [apply quiet_AssertCritical|intros _]. intros s _.
  eexists _, [], s.(msrs). rewrite quiet_here. unfold_m. reflexivity.
Qed.

Lemma quiet_mmio_write w off n v : 0 ≤ off → off + Z.of_nat n ≤ w.(wsize) →
  quiet (mmio_write w off n v).
Proof. intros Ho Hs. unfold mmio_write. rewrite in_window_size by done. apply quiet_emit. Qed.

Context `{WindowMap A, Device}.

(** The registers of the local APIC below the command register. *)
Lemma quiet_WriteReg base x2 reg v : reg ≠ Lapic.RegIcr → 0 ≤ reg ≤ 0x3f → 0 ≤ v < 2 ^ 32 →
  quiet ((LapicModule.object (XApic.mk (Window base 0x1000) base) x2).(Lapic.WriteReg) reg v).
Proof.
  intros Hr Hr' Hv. destruct x2; cbn [LapicModule.object Lapic.WriteReg X2Apic.lapic XApic.lapic].
  { apply quiet_bind; [apply quiet_AssertCritical|intros _; apply quiet_WriteMsr]. }
  apply quiet_bind; [apply quiet_AssertCritical|intros _].
  destruct (Z.eqb_spec reg Lapic.RegIcr); [done|cbn [negb]].
  apply quiet_bind; [apply quiet_assert|intros _; apply quiet_mmio_write; cbn; lia].
  assert (v .& 0xFFFFFFFF00000000 = 0) as ->; [|done].
  change 0xFFFFFFFF00000000 with (Z.ones 32 .<< 32).
  rewrite land_field by lia. rewrite (Z.div_small v) by done. done.
Qed.

Lemma quiet_Enable base x2 :
  quiet ((LapicModule.object (XApic.mk (Window base 0x1000) base) x2).(Lapic.Enable)).
Proof.
  destruct x2; (apply quiet_bind; [apply quiet_AssertCritical|intros _];
    apply quiet_bind; [apply quiet_ReadMsr|intros v; apply quiet_WriteMsr]).
Qed.

Lemma quiet_SetDefaults base x2 :
  quiet (Lapic.SetDefaults (LapicModule.object (XApic.mk (Window base 0x1000) base) x2)).
Proof.
  apply quiet_bind; [apply quiet_AssertCritical|intros _].
  do 9 (apply quiet_bind; [apply quiet_WriteReg; [done|by vm_compute|by vm_compute]|intros _]).
  apply quiet_WriteReg; [done|by vm_compute|by vm_compute].
Qed.
End Quiet.

Section Entrance.
Context `{AnsaRational} `{WindowMap smp, LockLaws smp, Device, Cpuid, VirtualAllocator smp}.
Context (base offLocalData offTaskSegment sizeof_Cpu : Z) (junk : Cpu.t).
Context (physAlloc : Z → Z → M (machine smp) (option Z)) (physFree : Z → M (machine smp) unit)
  (physOwns : Z → M (machine smp) bool).
Context (pml4 entriesBase idtPtrBase : Z).
Implicit Types (s : machine smp).

(** A processor comes in with its interrupts off. *)
Definition came_in s : Prop := s.(critical_loaded) = true ∧ s.(iflag) = false.

Lemma came_in_critical s : came_in s → critical s.
Proof. intros [_ Hi]. by right. Qed.

Lemma run_SetCritical b s : s.(critical_loaded) = true →
  SetCritical b s = Ok (tt, set_iflag (negb b) s).
Proof. intros Hl. unfold SetCritical, IgnoreCriticality. run run_gets. by rewrite Hl. Qed.

Lemma run_set_idt_register s :
  idtPtrBase .& 0x7 = 0 → entriesBase .& 0x7 = 0 →
  ∃ i, DomainList.set_idt_register entriesBase idtPtrBase s
    = Ok (tt, push_event (EvLidt 0xfff entriesBase) (set_alloc (set_idt i s.(alloc)) s)) ∧
    i.(Idt.entries) = s.(alloc).(idt).(Idt.entries) ∧
    i.(Idt.handlers) = s.(alloc).(idt).(Idt.handlers).
Proof.
  intros Hp He. unfold DomainList.set_idt_register, on_idt, Idt.Set_. rewrite Hp, He.
  eexists (Idt.mkIdt _ _ _ _). split; [reflexivity|done].
Qed.

(** The table is loaded, and its gates and thunks stay as they are. *)
Lemma run_Irt_Initialize s :
  idtPtrBase .& 0x7 = 0 → entriesBase .& 0x7 = 0 →
  ∃ s', DomainList.Irt_Initialize entriesBase idtPtrBase s = Ok (tt, s') ∧
    EvLidt 0xfff entriesBase ∈ s'.(trace) ∧
    s'.(alloc).(idt).(Idt.entries) = s.(alloc).(idt).(Idt.entries) ∧
    s'.(alloc).(idt).(Idt.handlers) = s.(alloc).(idt).(Idt.handlers).
Proof.
  intros Hp He. unfold DomainList.Irt_Initialize, put_text, put_endl, emit. run run_modify.
  destruct (run_set_idt_register (push_event (EvPrint "Initializing Interrupt Routine Table...") s) Hp He)
    as (i & Hr & Hi & Hh). run Hr. run run_modify.
  eexists. split; [reflexivity|]. split; [do 2 right; left|done].
Qed.

Lemma run_Gdt_Set s : critical s →
  on_gdt Gdt.Set_ s = Ok (tt, push_event (EvLgdt 0xffff s.(alloc).(gdt).(Gdt.buffer)) s).
Proof.
  intros Hc. unfold on_gdt. erewrite run_zoom; [|unfold Gdt.Set_; run run_AssertCritical; [|exact Hc];
    run run_gets; reflexivity].
  by destruct s as [? ? ? ? ? ? ? []].
Qed.

(** The registers of the processor, with the lock. *)
Definition loaded s (i : Idt.t) (l : list event) (r : gmap Z Z) : machine smp :=
  set_trace (l ++ EvLgdt 0xffff s.(alloc).(gdt).(Gdt.buffer) :: EvLoadCr3 pml4
      :: EvLidt 0xfff entriesBase :: s.(trace))
    (set_msrs r (set_cr3 pml4 (set_held (InitLock :: s.(held)) (set_alloc (set_idt i s.(alloc)) s)))).

Lemma run_load_registers s :
  came_in s → (InitLock ∉ s.(held)) → idtPtrBase .& 0x7 = 0 → entriesBase .& 0x7 = 0 →
  ∃ i l r, (∀ X (k : M (machine smp) X), (_ ← CriticalLock_Seize InitLock;
      _ ← DomainList.set_idt_register entriesBase idtPtrBase;
      _ ← GlobalMap.Set_ WillSet_uninitialized pml4;
      _ ← on_gdt Gdt.Set_;
      lapic ← LapicModule.GetLapic (the_xapic base);
      _ ← lapic.(Lapic.Enable);
      _ ← Lapic.SetDefaults lapic;
      k) s = k (loaded s i l r)) ∧
    i.(Idt.entries) = s.(alloc).(idt).(Idt.entries) ∧
    i.(Idt.handlers) = s.(alloc).(idt).(Idt.handlers).
Proof.
  intros Hci Hl Hp He. pose proof (came_in_critical s Hci) as Hc.
  set (s1 := set_held (InitLock :: s.(held)) s).
  destruct (run_set_idt_register s1 Hp He) as (i & Hi & Hent).
  set (s2 := push_event (EvLidt _ _) _) in Hi.
  set (s3 := push_event (EvLgdt 0xffff s.(alloc).(gdt).(Gdt.buffer))
    (set_cr3 pml4 (push_event (EvLoadCr3 pml4) s2))).
  assert (critical s3) as Hc3 by exact Hc.
  destruct (quiet_Enable base LapicModule.has_x2 s3 Hc3) as ([] & l1 & r1 & Hen).
  set (s4 := set_trace _ _) in Hen. assert (critical s4) as Hc4 by exact Hc.
  destruct (quiet_SetDefaults base LapicModule.has_x2 s4 Hc4) as ([] & l2 & r2 & Hde).
  exists i, (l2 ++ l1), r2. split; [|exact Hent]. intros X k.
  erewrite run_bind; [|unfold CriticalLock_Seize; run run_AssertCritical; [|done];
    by apply seize_free]. fold s1. run Hi.
  erewrite run_bind; [|unfold GlobalMap.Set_; do 2 (run run_AssertCritical; [|exact Hc]);
    run run_modify; apply run_modify].
  erewrite run_bind; [|apply run_Gdt_Set; exact Hc]. fold s3.
  erewrite run_bind; [|apply LapicModule.run_GetLapic; exact Hc3]. unfold the_xapic.
  run Hen. run Hde. f_equal. unfold loaded, s4. cbn. rewrite <-app_assoc. by destruct s.
Qed.
(** From the lock to the stack: the object is built with interrupts on. *)
Lemma run_CpuEntrance_setup s (d : Domain.t) stack :
  came_in s → (InitLock ∉ s.(held)) → idtPtrBase .& 0x7 = 0 → entriesBase .& 0x7 = 0 →
  s.(alloc).(mainDomain) = Some d → d.(Domain.count) < d.(Domain.capacity) →
  (∀ s', VAlloc Cpu.StackSize s' = Ok (Some stack, s')) →
  let this := GetCpu sizeof_Cpu d d.(Domain.count) in
  is_u64 (this + offLocalData) → is_u64 (this + offTaskSegment) →
  is_u64 (stack + Cpu.StackSize) → 0 ≤ s.(alloc).(gdt).(Gdt.amountUsed) ≤ 0x10000 - 0x10 →
  ∃ i l r sel w,
    let s1 := set_iflag true (loaded s i l r) in
    let w' := set_domain (Some (Domain.mk d.(Domain.cpuData) d.(Domain.capacity)
      (d.(Domain.count) + 1))) w in
    DomainList.CpuEntrance_setup (the_xapic base) offLocalData offTaskSegment sizeof_Cpu junk
      physAlloc physFree physOwns pml4 entriesBase idtPtrBase s
    = Ok (stack + Cpu.StackSize,
          set_iflag false (set_alloc w' (after_events offLocalData s1 this sel))) ∧
    built offTaskSegment s1 this stack sel w ∧
    i.(Idt.entries) = s.(alloc).(idt).(Idt.entries) ∧
    i.(Idt.handlers) = s.(alloc).(idt).(Idt.handlers).
Proof.
  intros Hci Hl Hp He Hd Hlt Hs this Hu1 Hu2 Hu3 Hg. unfold DomainList.CpuEntrance_setup.
  destruct (run_load_registers s Hci Hl Hp He) as (i & l & r & Hrun & Hent).
  rewrite Hrun. set (s1 := set_iflag true (loaded s i l r)).
  destruct (run_InitNewCpu base offLocalData offTaskSegment sizeof_Cpu junk physAlloc physFree
    physOwns s1 d stack) as (sel & w & Hr & Hb); [by right|apply Hci|done..|].
  exists i, l, r, sel, w. split; [|by split].
  erewrite run_bind; [|apply run_SetCritical, Hci]. fold s1. run Hr.
  pose proof Hb as [(c & Hcpu & _ & Htop & _) _ _ _ _].
  erewrite run_bind; [|unfold GetDomain; unfold_m; reflexivity]. cbn beta.
  erewrite run_bind; [|apply run_SetCritical, Hci].
  unfold GetStackTop, load. unfold_m. cbn [alloc set_alloc set_iflag set_domain cpus Domain.count].
  change (GetCpu sizeof_Cpu (Domain.mk _ _ _) d.(Domain.count))
    with (GetCpu sizeof_Cpu d d.(Domain.count)). rewrite Hcpu. cbn [negb]. by rewrite Htop.
Qed.

Lemma run_CpuStall_announce s held : came_in s → s.(Machine.held) = InitLock :: held →
  DomainList.CpuStall_announce s
  = Ok (tt, set_iflag true (set_held held (set_alloc (set_initFlag true s.(alloc))
      (push_event (EvPrint newline) (push_event (EvPrint " [OK]") s))))).
Proof.
  intros Hci Hh. unfold DomainList.CpuStall_announce.
  do 3 (erewrite run_bind; [|apply run_modify]).
  erewrite run_bind; [|unfold CriticalLock_Release; run run_AssertCritical;
    [|by apply came_in_critical]; by eapply release_held].
  by apply run_SetCritical, Hci.
Qed.
(** What [CpuEntrance_setup] and [CpuStall_announce] do together. *)
Lemma run_CpuEntrance s (d : Domain.t) stack :
  s.(critical_loaded) = true → s.(iflag) = false → (InitLock ∉ s.(held)) →
  idtPtrBase .& 0x7 = 0 → entriesBase .& 0x7 = 0 →
  s.(alloc).(mainDomain) = Some d → d.(Domain.count) < d.(Domain.capacity) →
  (∀ s', VAlloc Cpu.StackSize s' = Ok (Some stack, s')) →
  0 ≤ s.(alloc).(gdt).(Gdt.amountUsed) ≤ 0x10000 - 0x10 →
  let this := GetCpu sizeof_Cpu d d.(Domain.count) in
  let sel := s.(alloc).(gdt).(Gdt.amountUsed) in
  let setup := DomainList.CpuEntrance_setup (the_xapic base) offLocalData offTaskSegment
    sizeof_Cpu junk physAlloc physFree physOwns pml4 entriesBase idtPtrBase in
  is_u64 (this + offLocalData) → is_u64 (this + offTaskSegment) →
  is_u64 (stack + Cpu.StackSize) →
  ∃ s' lapic, (top ← setup; _ ← DomainList.CpuStall_announce; mret top) s
      = Ok (stack + Cpu.StackSize, s') ∧
    DomainList.CpuEntrance (the_xapic base) offLocalData offTaskSegment sizeof_Cpu junk
      physAlloc physFree physOwns pml4 entriesBase idtPtrBase s = Stop (Hang "hlt") ∧
    s'.(trace) = [EvPrint newline; EvPrint " [OK]"; EvLtr sel; EvMsr 0xc0000101 (this + offLocalData)]
      ++ lapic ++ [EvLgdt 0xffff s.(alloc).(gdt).(Gdt.buffer); EvLoadCr3 pml4;
                   EvLidt 0xfff entriesBase] ++ s.(trace) ∧
    GetCurrent offLocalData s' = Ok (this, s') ∧
    s'.(cr3) = pml4 ∧ s'.(alloc).(initFlag) = true ∧ s'.(held) = s.(held) ∧ s'.(iflag) = true ∧
    s'.(mem) = s.(mem) ∧
    s'.(alloc).(mainDomain)
      = Some (Domain.mk d.(Domain.cpuData) d.(Domain.capacity) (d.(Domain.count) + 1)) ∧
    s'.(alloc).(idt).(Idt.entries) = s.(alloc).(idt).(Idt.entries) ∧
    ∀ a, a ≠ this → s'.(alloc).(cpus) !! a = s.(alloc).(cpus) !! a.
Proof.
  intros Hl Hi Hk Hp He Hd Hlt Hs Hg this sel setup Hu1 Hu2 Hu3.
  destruct (run_CpuEntrance_setup s d stack) as (i & l & r & sel' & w & Hr & Hb & Hen & _);
    [done..|]. fold setup in Hr.
  set (s1 := set_iflag true (loaded s i l r)) in *. set (s2 := set_iflag false _) in Hr.
  pose proof (run_CpuStall_announce s2 s.(held) (conj Hl eq_refl) eq_refl) as Ha.
  eexists _, l. split; [run Hr; by run Ha|].
  split; [unfold DomainList.CpuEntrance, DomainList.CpuStall; run Hr; by run Ha|].
  pose proof (run_GetCurrent_new offLocalData offTaskSegment s1 this stack sel' w
    (Some (Domain.mk d.(Domain.cpuData) d.(Domain.capacity) (d.(Domain.count) + 1))) Hb) as Hcur.
  pose proof Hb as [_ Ho _ (_ & Hid & _) ->].
  split_and!; try done.
  - by eapply GetCurrent_same.
  - cbn. rewrite Hid. exact Hen.
Qed.
End Entrance.

(** DomainList::CpuEntrance and CpuStall, on a processor that comes out
    of the trampoline with interrupts off: with initLock held, it loads the
    interrupt table, the kernel's page tables and the descriptor table, in
    that order, then sets up its local APIC, and only then builds its object
    in the next slot of the domain; it ends on the stack of that object, with
    the object current, the flag set, the lock free and interrupts on, and
    halts.  The gates of the interrupt table and the other processors'
    objects are as they were. *)
Lemma CpuEntrance_correct `{AnsaRational}
  `{WindowMap smp, AnsaLock smp, !LockLaws smp, Device, Cpuid, VirtualAllocator smp}
  (base offLocalData offTaskSegment sizeof_Cpu : Z) (junk : Cpu.t)
  (physAlloc : Z → Z → M (machine smp) (option Z)) (physFree : Z → M (machine smp) unit)
  (physOwns : Z → M (machine smp) bool) (pml4 entriesBase idtPtrBase : Z)
  (s : machine smp) (d : Domain.t) (stack : Z)
  (Hl : s.(critical_loaded) = true) (Hi : s.(iflag) = false) (Hk : InitLock ∉ s.(held))
  (Hp : idtPtrBase .& 0x7 = 0) (He : entriesBase .& 0x7 = 0)
  (Hd : s.(alloc).(mainDomain) = Some d) (Hlt : d.(Domain.count) < d.(Domain.capacity))
  (Hs : ∀ s', VAlloc Cpu.StackSize s' = Ok (Some stack, s'))
  (Hg : 0 ≤ s.(alloc).(gdt).(Gdt.amountUsed) ≤ 0x10000 - 0x10) :
  let this := GetCpu sizeof_Cpu d d.(Domain.count) in
  let sel := s.(alloc).(gdt).(Gdt.amountUsed) in
  let setup := DomainList.CpuEntrance_setup (the_xapic base) offLocalData offTaskSegment
    sizeof_Cpu junk physAlloc physFree physOwns pml4 entriesBase idtPtrBase in
  is_u64 (this + offLocalData) → is_u64 (this + offTaskSegment) →
  is_u64 (stack + Cpu.StackSize) →
  ∃ s' lapic, (top ← setup; _ ← DomainList.CpuStall_announce; mret top) s
      = Ok (stack + Cpu.StackSize, s') ∧
    DomainList.CpuEntrance (the_xapic base) offLocalData offTaskSegment sizeof_Cpu junk
      physAlloc physFree physOwns pml4 entriesBase idtPtrBase s = Stop (Hang "hlt") ∧
    s'.(trace) = [EvPrint newline; EvPrint " [OK]"; EvLtr sel; EvMsr 0xc0000101 (this + offLocalData)]
      ++ lapic ++ [EvLgdt 0xffff s.(alloc).(gdt).(Gdt.buffer); EvLoadCr3 pml4;
                   EvLidt 0xfff entriesBase] ++ s.(trace) ∧
    GetCurrent offLocalData s' = Ok (this, s') ∧
    s'.(cr3) = pml4 ∧ s'.(alloc).(initFlag) = true ∧ s'.(held) = s.(held) ∧ s'.(iflag) = true ∧
    s'.(alloc).(mainDomain)
      = Some (Domain.mk d.(Domain.cpuData) d.(Domain.capacity) (d.(Domain.count) + 1)) ∧
    s'.(alloc).(idt).(Idt.entries) = s.(alloc).(idt).(Idt.entries) ∧
    ∀ a, a ≠ this → s'.(alloc).(cpus) !! a = s.(alloc).(cpus) !! a.
Proof.
  intros this sel setup Hu1 Hu2 Hu3.
  destruct (run_CpuEntrance base offLocalData offTaskSegment sizeof_Cpu junk physAlloc physFree
    physOwns pml4 entriesBase idtPtrBase s d stack) as (s' & lapic & Hr & Hh & Ht & Hc & Hc3 & Hf & Hlk
    & Hif & _ & Hrest); [done..|].
  by exists s', lapic.
Qed.

Definition arriving : machine smp := set_iflag false example_smp.

Lemma CpuEntrance_correct_witness :
  ∃ s', (top ← DomainList.CpuEntrance_setup (the_xapic 0xfee00000) 0x40 0x58 0x100 blank_cpu
      no_phys_alloc no_phys_free no_phys_owns 0x1b0000 0x250000 0x251000;
      _ ← DomainList.CpuStall_announce; mret top) arriving = Ok (0x110000, s') ∧
    GetCurrent 0x40 s' = Ok (0x300000, s') ∧ s'.(alloc).(initFlag) = true.
Proof.
  destruct (CpuEntrance_correct 0xfee00000 0x40 0x58 0x100 blank_cpu no_phys_alloc no_phys_free
    no_phys_owns 0x1b0000 0x250000 0x251000 arriving (Domain.mk 0x300000 2 0) 0x100000
    eq_refl eq_refl ltac:(by apply not_elem_of_nil) eq_refl eq_refl eq_refl ltac:(by vm_compute)
    ltac:(done) ltac:(split; by vm_compute) ltac:(split; by vm_compute) ltac:(split; by vm_compute)
    ltac:(split; by vm_compute)) as (s' & l & Hr & _ & _ & Hc & _ & Hf & _).
  exists s'. split; [exact Hr|]. split; [exact Hc|exact Hf].
Defined.
