(* ===== verification/ProcEntry.v ===== *)
(** * The trampoline

    src/arch/x64/smp/proc-entry.s, which [StartupCode] copies to 0x5000 and a
    started processor runs: from real mode, over protected mode with the
    temporary page tables at 0x3000, to 64-bit mode, the kernel's page tables
    and [DomainList::CpuEntrance].  The code is a list of instructions over the
    registers it uses; memory is read physically until paging is on, and
    through the page tables that CR3 names from then on. *)

From stdpp Require Import base numbers list gmap strings.
From Stdlib Require Import ZArith Lia.
From S2P Require Import Prelude Machine Mmu Devices FreeTable Segments.
#[local] Open Scope Z_scope.

(** ** The processor *)

(** 16-bit real mode, 16-bit code with protection, paging and long mode on,
    and 64-bit code. *)
Inductive cpu_mode : Type := Real | Compat | Long.

#[export] Instance cpu_mode_eq_dec : EqDecision cpu_mode.
Proof. solve_decision. Defined.

Inductive data_segment : Type := DS | ES | FS | GS.

Record ap : Type := mkAp {
  mode : cpu_mode;
  rax : Z; rbx : Z; rcx : Z; rdx : Z; rsp : Z;
  cr0 : Z; cr3 : Z; cr4 : Z; efer : Z;
  gdt_limit : Z; gdt_base : Z;
  cs : Z; ss : Z; data : list (data_segment * Z);   (* loaded, newest first *)
  iflag : bool;
}.

Definition set_mode x c := mkAp x c.(rax) c.(rbx) c.(rcx) c.(rdx) c.(rsp) c.(cr0) c.(cr3) c.(cr4)
  c.(efer) c.(gdt_limit) c.(gdt_base) c.(cs) c.(ss) c.(data) c.(iflag).
Definition set_rax x c := mkAp c.(mode) x c.(rbx) c.(rcx) c.(rdx) c.(rsp) c.(cr0) c.(cr3) c.(cr4)
  c.(efer) c.(gdt_limit) c.(gdt_base) c.(cs) c.(ss) c.(data) c.(iflag).
Definition set_rbx x c := mkAp c.(mode) c.(rax) x c.(rcx) c.(rdx) c.(rsp) c.(cr0) c.(cr3) c.(cr4)
  c.(efer) c.(gdt_limit) c.(gdt_base) c.(cs) c.(ss) c.(data) c.(iflag).
Definition set_rcx x c := mkAp c.(mode) c.(rax) c.(rbx) x c.(rdx) c.(rsp) c.(cr0) c.(cr3) c.(cr4)
  c.(efer) c.(gdt_limit) c.(gdt_base) c.(cs) c.(ss) c.(data) c.(iflag).
Definition set_rdx x c := mkAp c.(mode) c.(rax) c.(rbx) c.(rcx) x c.(rsp) c.(cr0) c.(cr3) c.(cr4)
  c.(efer) c.(gdt_limit) c.(gdt_base) c.(cs) c.(ss) c.(data) c.(iflag).
Definition set_rsp x c := mkAp c.(mode) c.(rax) c.(rbx) c.(rcx) c.(rdx) x c.(cr0) c.(cr3) c.(cr4)
  c.(efer) c.(gdt_limit) c.(gdt_base) c.(cs) c.(ss) c.(data) c.(iflag).
Definition set_cr0 x c := mkAp c.(mode) c.(rax) c.(rbx) c.(rcx) c.(rdx) c.(rsp) x c.(cr3) c.(cr4)
  c.(efer) c.(gdt_limit) c.(gdt_base) c.(cs) c.(ss) c.(data) c.(iflag).
Definition set_cr3 x c := mkAp c.(mode) c.(rax) c.(rbx) c.(rcx) c.(rdx) c.(rsp) c.(cr0) x c.(cr4)
  c.(efer) c.(gdt_limit) c.(gdt_base) c.(cs) c.(ss) c.(data) c.(iflag).
Definition set_cr4 x c := mkAp c.(mode) c.(rax) c.(rbx) c.(rcx) c.(rdx) c.(rsp) c.(cr0) c.(cr3) x
  c.(efer) c.(gdt_limit) c.(gdt_base) c.(cs) c.(ss) c.(data) c.(iflag).
Definition set_efer x c := mkAp c.(mode) c.(rax) c.(rbx) c.(rcx) c.(rdx) c.(rsp) c.(cr0) c.(cr3) c.(cr4)
  x c.(gdt_limit) c.(gdt_base) c.(cs) c.(ss) c.(data) c.(iflag).
Definition set_gdtr limit base c := mkAp c.(mode) c.(rax) c.(rbx) c.(rcx) c.(rdx) c.(rsp) c.(cr0) c.(cr3)
  c.(cr4) c.(efer) limit base c.(cs) c.(ss) c.(data) c.(iflag).
Definition set_cs x c := mkAp c.(mode) c.(rax) c.(rbx) c.(rcx) c.(rdx) c.(rsp) c.(cr0) c.(cr3) c.(cr4)
  c.(efer) c.(gdt_limit) c.(gdt_base) x c.(ss) c.(data) c.(iflag).
Definition set_ss x c := mkAp c.(mode) c.(rax) c.(rbx) c.(rcx) c.(rdx) c.(rsp) c.(cr0) c.(cr3) c.(cr4)
  c.(efer) c.(gdt_limit) c.(gdt_base) c.(cs) x c.(data) c.(iflag).
Definition set_data x c := mkAp c.(mode) c.(rax) c.(rbx) c.(rcx) c.(rdx) c.(rsp) c.(cr0) c.(cr3) c.(cr4)
  c.(efer) c.(gdt_limit) c.(gdt_base) c.(cs) c.(ss) x c.(iflag).
Definition set_if x c := mkAp c.(mode) c.(rax) c.(rbx) c.(rcx) c.(rdx) c.(rsp) c.(cr0) c.(cr3) c.(cr4)
  c.(efer) c.(gdt_limit) c.(gdt_base) c.(cs) c.(ss) c.(data) x.

(** After the INIT and startup messages: real mode at 0x500:0, interrupts off,
    registers cleared but for the signature in EDX; the cache bits of CR0 are
    as they were. *)
Definition started (signature cr0 : Z) : ap :=
  mkAp Real 0 0 0 signature 0 cr0 0 0 0 0xffff 0 0x500 0 [] false.

(** ** The code *)

Inductive ap_instr : Type :=
  | JmpStart                        (* jmp 0:.start *)
  | Cli
  | MovSp (v : Z)
  | MovEax (v : Z)
  | MovCr4Eax
  | MovCr3Eax
  | MovEcx (v : Z)
  | Rdmsr
  | OrEax (v : Z)
  | Wrmsr
  | MovEbxCr0
  | OrEbx (v : Z)
  | MovCr0Ebx
  | MovEbx (v : Z)
  | LgdtEbx                         (* lgdt [ebx], with 16-bit operands *)
  | JmpLong (selector : Z)          (* jmp selector:.entry_64 *)
  | MovAx (v : Z)
  | MovData (r : data_segment)      (* mov r, ax *)
  | XorAx
  | MovSsAx
  | PopRax
  | MovCr3Rax.

Definition PROC_ADDR_BASE : Z := 0x5000.
Definition PROC_TEMP_CR3 : Z := 0x3000.
Definition PROC_GDT_PTR : Z := 0x4000.

Definition anarch_proc_entry : list ap_instr :=
  [ JmpStart;
    Cli;
    MovSp (PROC_ADDR_BASE - 0x10);
    (* set PAE and PGE bits *)
    MovEax 0xa0;
    MovCr4Eax;
    (* set CR3 to temporary page table *)
    MovEax PROC_TEMP_CR3;
    MovCr3Eax;
    (* set LME, SCE, NXE bits of EFER MSR *)
    MovEcx 0xC0000080;
    Rdmsr;
    OrEax 0x901;
    Wrmsr;
    (* enable paging and protection simultaneously *)
    MovEbxCr0;
    OrEbx 0x80000001;
    MovCr0Ebx;
    (* pop GDT base off the stack *)
    MovEbx PROC_GDT_PTR;
    LgdtEbx;
    JmpLong 0x8;
    (* setup segment registers *)
    MovAx 0x10;
    MovData DS;
    MovData ES;
    MovData FS;
    MovData GS;
    XorAx;
    MovSsAx;
    (* pop real CR3 off stack *)
    PopRax;
    MovCr3Rax ].
    (* [ret], below, jumps to the 64-bit CPU entry function *)

(** ** What the instructions do *)

Section Exec.
(** Physical memory. *)
Context (m : gmap Z Z).

(** An address of the current mode. *)
Definition linear (c : ap) (a : Z) : option Z :=
  match c.(mode) with Real => Some a | _ => translate m c.(cr3) a end.

(** [n] bytes within a page. *)
Definition read_bytes (a : Z) (n : nat) : M ap Z := λ c,
  if a mod 0x1000 + Z.of_nat n <=? 0x1000 then
    match linear c a with
    | Some p => Ok (le (phys_byte m) p n, c)
    | None => Stop (PageFault a)
    end
  else Stop (Undefined "across pages").

(** The code is where it is loaded in the current mode. *)
Definition fetch : M ap unit := λ c,
  match linear c PROC_ADDR_BASE with
  | Some p => if p =? PROC_ADDR_BASE then Ok (tt, c) else Stop (Undefined "other code")
  | None => Stop (PageFault PROC_ADDR_BASE)
  end.

(** The descriptor of a selector, which the processor reads from the table. *)
Definition descriptor (selector : Z) : M ap segment :=
  c ← get;
  let off := selector .& 0xfff8 in
  if off + 7 <=? c.(gdt_limit) then
    access ← read_bytes (c.(gdt_base) + off + 5) 1;
    flags ← read_bytes (c.(gdt_base) + off + 6) 1;
    mret (decode_segment access flags)
  else stop (Undefined "general protection").

Definition pop64 : M ap Z :=
  sp ← gets rsp; v ← read_bytes sp 8; _ ← modify (set_rsp (sp + 8)); mret v.

(** Paging starts in long mode when EFER.LME (bit 8) and CR4.PAE (bit 5) are
    set; EFER.LMA (bit 10) shows it. *)
Definition write_cr0 (v : Z) : M ap unit :=
  c ← get;
  if Z.testbit v 0 && Z.testbit v 31 && Z.testbit c.(efer) 8 && Z.testbit c.(cr4) 5
  then modify (λ c, set_mode Compat (set_efer (c.(efer) .| 0x400) (set_cr0 v c)))
  else stop (Undefined "not into long mode").

Definition exec_ap (i : ap_instr) : M ap unit :=
  c ← get;
  match i with
  | JmpStart => modify (set_cs 0)
  | Cli => modify (set_if false)
  | MovSp v => modify (set_rsp (c.(rsp) / 2 ^ 16 * 2 ^ 16 + v))
  | MovEax v => modify (set_rax v)
  | MovCr4Eax => modify (set_cr4 c.(rax))
  | MovCr3Eax | MovCr3Rax => modify (set_cr3 c.(rax))
  | MovEcx v => modify (set_rcx v)
  | Rdmsr =>
      if c.(rcx) =? 0xC0000080
      then _ ← modify (set_rax (u32 c.(efer))); modify (set_rdx (c.(efer) .>> 32))
      else stop (Undefined "rdmsr")
  | OrEax v => modify (set_rax (u32 c.(rax) .| v))
  | Wrmsr =>
      if c.(rcx) =? 0xC0000080 then modify (set_efer (u32 c.(rax) .| (u32 c.(rdx) .<< 32)))
      else stop (Undefined "wrmsr")
  | MovEbxCr0 => modify (set_rbx c.(cr0))
  | OrEbx v => modify (set_rbx (c.(rbx) .| v))
  | MovCr0Ebx => write_cr0 c.(rbx)
  | MovEbx v => modify (set_rbx v)
  | LgdtEbx =>
      (* with 16-bit operands the base has 24 bits *)
      limit ← read_bytes c.(rbx) 2;
      base ← read_bytes (c.(rbx) + 2) 3;
      modify (set_gdtr limit base)
  | JmpLong selector =>
      d ← descriptor selector;
      if d.(seg_code) && d.(seg_present) && d.(seg_long)
      then modify (λ c, set_cs selector (set_mode Long c))
      else stop (Undefined "general protection")
  | MovAx v => modify (set_rax (c.(rax) / 2 ^ 16 * 2 ^ 16 + v))
  | MovData r =>
      let selector := u16 c.(rax) in
      d ← descriptor selector;
      if d.(seg_present) then modify (set_data ((r, selector) :: c.(data)))
      else stop (Undefined "general protection")
  | XorAx => modify (set_rax (c.(rax) / 2 ^ 16 * 2 ^ 16))
  | MovSsAx =>
      (* 64-bit code of the kernel may have no stack segment *)
      if u16 c.(rax) =? 0 then modify (set_ss 0) else stop (Undefined "stack segment")
  | PopRax => v ← pop64; modify (set_rax v)
  end.

Fixpoint exec_aps (l : list ap_instr) : M ap unit :=
  match l with
  | [] => mret tt
  | i :: l => _ ← fetch; _ ← exec_ap i; exec_aps l
  end.

(** The code up to the [ret], which pops where to go on. *)
Definition run_entry : M ap Z := _ ← exec_aps anarch_proc_entry; _ ← fetch; pop64.
End Exec.

(** ** Facts *)

(** Two tables with the same first entry translate the first 512 GiB alike. *)
Lemma translate_first m r r' v : 0 ≤ v < span 0 → read64 m (frame r) = read64 m (frame r') →
  translate m r v = translate m r' v.
Proof.
  intros Hv He. unfold translate, leaf4. cbn [leaf].
  assert (idx v 0 = 0) as ->.
  { unfold idx. by rewrite Z.div_small. }
  change (8 * 0) with 0. by rewrite !Z.add_0_r, He.
Qed.

(** The first bytes of a little-endian integer. *)
Lemma le_prefix f a n k : (∀ i, 0 ≤ f i < 2 ^ 8) →
  le f a n = le f a (n + k) mod 2 ^ (8 * Z.of_nat n).
Proof.
  intros Hf. revert a. induction n as [|n IH]; intros a.
  - by rewrite Z.mod_1_r.
  - cbn [le Nat.add]. rewrite (IH (a + 1)).
    replace (8 * Z.of_nat (S n)) with (8 + 8 * Z.of_nat n) by lia.
    assert (0 < 2 ^ (8 * Z.of_nat n)) by (apply Z.pow_pos_nonneg; lia).
    rewrite Z.pow_add_r, Z.rem_mul_r by lia.
    pose proof (Hf a) as Ha. set (x := le f (a + 1) (n + k)).
    replace ((f a + 2 ^ 8 * x) mod 2 ^ 8) with (f a) by zlia.
    replace ((f a + 2 ^ 8 * x) / 2 ^ 8) with x by zlia. done.
Qed.

Section Entry.
Context (m : gmap Z Z).
Implicit Types (c : ap) (g : Gdt.t).

Lemma run_read_bytes a p n c : a mod 0x1000 + Z.of_nat n ≤ 0x1000 → linear m c a = Some p →
  read_bytes m a n c = Ok (le (phys_byte m) p n, c).
Proof.
  intros Hn Hl. unfold read_bytes. destruct (Z.leb_spec (a mod 0x1000 + Z.of_nat n) 0x1000); [|lia].
  by rewrite Hl.
Qed.

Lemma run_fetch c : linear m c PROC_ADDR_BASE = Some PROC_ADDR_BASE → fetch m c = Ok (tt, c).
Proof. intros Hl. unfold fetch. by rewrite Hl. Qed.

Lemma run_pop64 c : c.(rsp) mod 0x1000 + 8 ≤ 0x1000 → linear m c c.(rsp) = Some c.(rsp) →
  pop64 m c = Ok (le (phys_byte m) c.(rsp) 8, set_rsp (c.(rsp) + 8) c).
Proof.
  intros Hn Hl. unfold pop64. run (run_gets rsp c). run run_read_bytes; [|done..].
  by run run_modify.
Qed.

(** The byte at an address of the processor. *)
Definition sees c (a b : Z) : Prop := ∃ p, linear m c a = Some p ∧ phys_byte m p = b.

Lemma run_read_byte c a b : sees c a b → read_bytes m a 1 c = Ok (b, c).
Proof.
  intros (p & Hl & <-). rewrite (run_read_bytes a p) by (done || zlia).
  cbn [le]. by rewrite Z.mul_0_r, Z.add_0_r.
Qed.

Lemma run_descriptor selector c access flags :
  (selector .& 0xfff8) + 7 ≤ c.(gdt_limit) →
  sees c (c.(gdt_base) + (selector .& 0xfff8) + 5) access →
  sees c (c.(gdt_base) + (selector .& 0xfff8) + 6) flags →
  descriptor m selector c = Ok (decode_segment access flags, c).
Proof.
  intros Hl Ha Hf. unfold descriptor. rewrite (run_bind _ _ _ c c) by done.
  apply Z.leb_le in Hl. rewrite Hl.
  run run_read_byte; [|exact Ha]. by run run_read_byte; [|exact Hf].
Qed.

Lemma run_exec_app l l' c c' : exec_aps m l c = Ok (tt, c') →
  exec_aps m (l ++ l') c = exec_aps m l' c'.
Proof.
  revert c. induction l as [|i l IH]; intros c; cbn [exec_aps app]; [by intros [= ->]|].
  intros H. apply bind_ok_inv in H as ([] & c1 & Hf & H).
  apply bind_ok_inv in H as ([] & c2 & He & H).
  run Hf. run He. by apply IH.
Qed.

(** One instruction that runs at its own address. *)
Lemma run_step i l c c' : linear m c PROC_ADDR_BASE = Some PROC_ADDR_BASE →
  exec_ap m i c = Ok (tt, c') → exec_aps m (i :: l) c = exec_aps m l c'.
Proof. intros Hl He. cbn [exec_aps]. run run_fetch; [|done]. by run He. Qed.

(** The processor that goes on to the far jump: in long mode, with 16-bit code
    and the temporary page tables. *)
Definition before_jump (base cr0 : Z) : ap :=
  mkAp Compat 0x901 PROC_GDT_PTR 0xC0000080 0 0x4ff0 (cr0 .| 0x80000001) PROC_TEMP_CR3 0xa0 0xd01
    0xffff base 0 0 [] false.

(** In 64-bit mode, with the segments loaded. *)
Definition with_segments (base cr0 : Z) : ap :=
  mkAp Long 0 PROC_GDT_PTR 0xC0000080 0 0x4ff0 (cr0 .| 0x80000001) PROC_TEMP_CR3 0xa0 0xd01
    0xffff base 8 0 [(GS, 0x10); (FS, 0x10); (ES, 0x10); (DS, 0x10)] false.

Definition after_entry (base cr0 pml4 : Z) : ap :=
  mkAp Long pml4 PROC_GDT_PTR 0xC0000080 0 PROC_ADDR_BASE (cr0 .| 0x80000001) pml4 0xa0 0xd01
    0xffff base 8 0 [(GS, 0x10); (FS, 0x10); (ES, 0x10); (DS, 0x10)] false.

Lemma run_real signature cr0 :
  exec_aps m (take 13 anarch_proc_entry) (started signature cr0)
  = Ok (tt, mkAp Real 0x901 (cr0 .| 0x80000001) 0xC0000080 0 0x4ff0 cr0 PROC_TEMP_CR3 0xa0 0x901
      0xffff 0 0 0 [] false).
Proof. reflexivity. Qed.

Lemma paging_bits cr0 : Z.testbit (cr0 .| 0x80000001) 0 = true ∧ Z.testbit (cr0 .| 0x80000001) 31 = true.
Proof. rewrite !Z.lor_spec. by rewrite !orb_true_r. Qed.

Context (pml4 : Z).
Hypotheses (Hfirst : read64 m PROC_TEMP_CR3 = read64 m (frame pml4)).
Hypothesis (Hlow : ∀ v, 0x3000 ≤ v < 0x6000 → translate m pml4 v = Some v).

(** Both tables map the first 512 GiB alike. *)
Lemma linear_first c v : 0 ≤ v < span 0 → c.(mode) ≠ Real →
  c.(cr3) = PROC_TEMP_CR3 ∨ c.(cr3) = pml4 → linear m c v = translate m pml4 v.
Proof.
  intros Hv Hm Hc. unfold linear. destruct (mode c); [done|..];
    (destruct Hc as [->| ->]; [by apply translate_first|done]).
Qed.

Lemma linear_low c v : 0x3000 ≤ v < 0x6000 →
  c.(mode) = Real ∨ c.(cr3) = PROC_TEMP_CR3 ∨ c.(cr3) = pml4 → linear m c v = Some v.
Proof.
  intros Hv Hc. destruct (decide (c.(mode) = Real)) as [Hm|Hm]; [unfold linear; by rewrite Hm|].
  destruct Hc as [|Hc]; [done|]. rewrite linear_first; [by apply Hlow| |done..].
  unfold span. cbn. lia.
Qed.

Lemma run_to_jump signature cr0 :
  le (phys_byte m) PROC_GDT_PTR 2 = 0xffff →
  exec_aps m (take 16 anarch_proc_entry) (started signature cr0)
  = Ok (tt, before_jump (le (phys_byte m) (PROC_GDT_PTR + 2) 3) cr0).
Proof.
  intros Hlimit. change (take 16 anarch_proc_entry)
    with (take 13 anarch_proc_entry ++ [MovCr0Ebx; MovEbx PROC_GDT_PTR; LgdtEbx]).
  rewrite (run_exec_app _ _ _ _ (run_real signature cr0)).
  destruct (paging_bits cr0) as [H0 H31].
  erewrite run_step; [|done|].
  2: { unfold exec_ap, write_cr0. unfold_m. cbn [rbx efer cr4]. by rewrite H0, H31. }
  erewrite run_step; [|by apply linear_low; [unfold PROC_ADDR_BASE; lia|auto]|done].
  erewrite run_step; [reflexivity|by apply linear_low; [unfold PROC_ADDR_BASE; lia|auto]|].
  unfold exec_ap. rewrite (run_bind _ _ _ _ _ eq_refl).
  run run_read_bytes; [|done|by apply linear_low; [by vm_compute|auto]].
  run run_read_bytes; [|done|by apply linear_low; [by vm_compute|auto]].
  cbn [rbx set_rbx]. rewrite Hlimit. reflexivity.
Qed.

(** A byte below 16 MiB and some, as the kernel's tables map it. *)
Lemma sees_low c a b : 0 ≤ a < 2 ^ 25 → c.(mode) ≠ Real → c.(cr3) = PROC_TEMP_CR3 →
  (∃ p, translate m pml4 a = Some p ∧ phys_byte m p = b) → sees c a b.
Proof.
  intros Ha Hm Hc (p & Hp & Hb). exists p. rewrite linear_first; [done| |done|by left].
  assert (2 ^ 25 < span 0) by done. lia.
Qed.

(** The descriptors at [base] are those of [g] for the selectors of the
    kernel. *)
Definition gdt_at (base : Z) g : Prop :=
  ∀ i, 0 ≤ i < 0x18 → ∃ p, translate m pml4 (base + i) = Some p ∧ phys_byte m p = byte_at g i.

Lemma run_gdt_descriptor base g selector c :
  gdt_at base g → 0 ≤ base < 2 ^ 24 → selector = 0x08 ∨ selector = 0x10 →
  c.(mode) ≠ Real → c.(cr3) = PROC_TEMP_CR3 → c.(gdt_base) = base → c.(gdt_limit) = 0xffff →
  descriptor m selector c = Ok (segment_of g selector, c).
Proof.
  intros Hg Hb Hs Hm Hc Hbase Hl.
  assert (selector .& 0xfff8 = selector) as Hsel by (by destruct Hs as [->| ->]).
  apply run_descriptor; rewrite ?Hbase, ?Hl, Hsel; [lia|..];
    (apply sees_low; [lia|done|done|]; rewrite <-Z.add_assoc; apply Hg; lia).
Qed.

Lemma run_segments base g ps cr0 : table g ps → gdt_at base g → 0 ≤ base < 2 ^ 24 →
  exec_aps m (take 8 (drop 16 anarch_proc_entry)) (before_jump base cr0)
  = Ok (tt, with_segments base cr0).
Proof.
  intros Ht Hg Hb. destruct (table_fixed g ps Ht) as (Hkc & Hkd & _).
  assert (∀ c, c.(cr3) = PROC_TEMP_CR3 → linear m c PROC_ADDR_BASE = Some PROC_ADDR_BASE) as Hlin.
  { intros. apply linear_low; [unfold PROC_ADDR_BASE; lia|auto]. }
  cbn [take drop anarch_proc_entry]. unfold before_jump.
  repeat (erewrite run_step; [|by apply Hlin|]; cycle 1;
    [unfold exec_ap; rewrite (run_bind _ _ _ _ _ eq_refl);
     first [reflexivity
           |run (run_gdt_descriptor base g 8); [|by auto..]; rewrite Hkc; reflexivity
           |change (u16 _) with 0x10; run (run_gdt_descriptor base g 0x10); [|by auto..];
            rewrite Hkd; reflexivity]|]).
  reflexivity.
Qed.

Lemma run_pop_cr3 base cr0 : le (phys_byte m) (PROC_ADDR_BASE - 0x10) 8 = pml4 →
  exec_aps m [PopRax; MovCr3Rax] (with_segments base cr0)
  = Ok (tt, set_rsp (PROC_ADDR_BASE - 8) (after_entry base cr0 pml4)).
Proof.
  intros H4.
  rewrite (run_step PopRax _ _ (set_rax pml4 (set_rsp (PROC_ADDR_BASE - 8) (with_segments base cr0)))).
  - by erewrite run_step; [|by apply linear_low; [unfold PROC_ADDR_BASE; lia|auto]|done].
  - by apply linear_low; [unfold PROC_ADDR_BASE; lia|auto].
  - unfold exec_ap. rewrite (run_bind _ _ _ _ _ eq_refl).
    run run_pop64; [|done|by apply linear_low; [by vm_compute|auto]].
    change (rsp (with_segments base cr0)) with (PROC_ADDR_BASE - 0x10). by rewrite H4.
Qed.

(** The low 24 bits of the base. *)
Lemma gdt_base_24 buffer : le (phys_byte m) (PROC_GDT_PTR + 2) 8 = buffer →
  le (phys_byte m) (PROC_GDT_PTR + 2) 3 = buffer mod 2 ^ 24.
Proof. intros <-. apply (le_prefix _ _ 3 5), phys_byte_range. Qed.

Lemma run_run_entry g ps buffer cb signature cr0 :
  table g ps → gdt_at (buffer mod 2 ^ 24) g → le (phys_byte m) PROC_GDT_PTR 2 = 0xffff →
  le (phys_byte m) (PROC_GDT_PTR + 2) 8 = buffer →
  le (phys_byte m) (PROC_ADDR_BASE - 0x10) 8 = pml4 →
  le (phys_byte m) (PROC_ADDR_BASE - 8) 8 = cb →
  run_entry m (started signature cr0) = Ok (cb, after_entry (buffer mod 2 ^ 24) cr0 pml4).
Proof.
  intros Ht Hg Hl Hb H4 Hc. unfold run_entry.
  pose proof (Z.mod_pos_bound buffer (2 ^ 24) ltac:(lia)) as Hr.
  assert (exec_aps m anarch_proc_entry (started signature cr0)
    = Ok (tt, set_rsp (PROC_ADDR_BASE - 8) (after_entry (buffer mod 2 ^ 24) cr0 pml4))) as He.
  { rewrite <-(take_drop 16 anarch_proc_entry), (run_exec_app _ _ _ _ (run_to_jump _ _ Hl)).
    rewrite (gdt_base_24 buffer Hb).
    rewrite <-(take_drop 8 (drop 16 _)), (run_exec_app _ _ _ _ (run_segments _ g ps _ Ht Hg Hr)).
    by apply run_pop_cr3. }
  run He. run run_fetch; [|by apply linear_low; [unfold PROC_ADDR_BASE; lia|auto]].
  rewrite run_pop64; [|done|by apply linear_low; [by vm_compute|auto]].
  change (rsp (set_rsp _ _)) with (PROC_ADDR_BASE - 8). by rewrite Hc.
Qed.

(** What lies at the truncated base decides about the far jump. *)
Lemma run_run_entry_stop buffer access flags signature cr0 :
  le (phys_byte m) PROC_GDT_PTR 2 = 0xffff → le (phys_byte m) (PROC_GDT_PTR + 2) 8 = buffer →
  (∃ p, translate m pml4 (buffer mod 2 ^ 24 + 8 + 5) = Some p ∧ phys_byte m p = access) →
  (∃ p, translate m pml4 (buffer mod 2 ^ 24 + 8 + 6) = Some p ∧ phys_byte m p = flags) →
  let d := decode_segment access flags in
  d.(seg_code) && d.(seg_present) && d.(seg_long) = false →
  run_entry m (started signature cr0) = Stop (Undefined "general protection").
Proof.
  intros Hl Hb Ha Hf d Hd. apply run_bind_stop.
  pose proof (Z.mod_pos_bound buffer (2 ^ 24) ltac:(lia)) as Hr.
  rewrite <-(take_drop 16 anarch_proc_entry), (run_exec_app _ _ _ _ (run_to_jump _ _ Hl)).
  rewrite (gdt_base_24 buffer Hb). cbn [drop anarch_proc_entry exec_aps].
  run run_fetch; [|by apply linear_low; [unfold PROC_ADDR_BASE; lia|auto]].
  apply run_bind_stop. unfold exec_ap. rewrite (run_bind _ _ _ _ _ eq_refl).
  assert (∀ k b, 0 ≤ k < 8 →
    (∃ p, translate m pml4 (buffer mod 2 ^ 24 + 8 + k) = Some p ∧ phys_byte m p = b) →
    sees (before_jump (buffer mod 2 ^ 24) cr0) (buffer mod 2 ^ 24 + 8 + k) b) as Hsee.
  { intros k b Hk. by apply sees_low; [lia|..]. }
  run (run_descriptor 0x8 _ access flags); [|done|by apply Hsee|by apply Hsee].
  fold d. by rewrite Hd.
Qed.
End Entry.

(** A started processor that finds the trampoline in low memory as
    [StartupCode] leaves it (the entry of the kernel's first 512 GiB, the
    pointer to the descriptor table, the kernel's PML4 and the callback) runs
    it up to the far jump with the low 24 bits of the pointer, since [lgdt] has
    16-bit operands.  When the table is at that address it ends in the callback
    in 64-bit mode with the kernel's page tables, code segment and data
    segments, with interrupts off and an empty stack, whatever signature and
    cache bits it starts with; when what is there instead does not read as code
    of the kernel it faults. *)
Lemma trampoline_enters (m : gmap Z Z) (buffer pml4 cb signature cache : Z)
  (Hw : is_u64 (read64 m 0x3000))
  (He : le (phys_byte m) 0x3000 8 = read64 m (frame pml4))
  (Hlow : ∀ v, 0x3000 ≤ v < 0x6000 → translate m pml4 v = Some v)
  (Hl : le (phys_byte m) 0x4000 2 = 0xffff) (Hb : le (phys_byte m) 0x4002 8 = buffer)
  (H4 : le (phys_byte m) 0x4ff0 8 = pml4) (Hc : le (phys_byte m) 0x4ff8 8 = cb) :
  (∀ g ps, table g ps → gdt_at m pml4 (buffer mod 2 ^ 24) g →
    run_entry m (started signature cache) = Ok (cb, after_entry (buffer mod 2 ^ 24) cache pml4)) ∧
  (∀ access flags, let d := decode_segment access flags in
    (∃ p, translate m pml4 (buffer mod 2 ^ 24 + 8 + 5) = Some p ∧ phys_byte m p = access) →
    (∃ p, translate m pml4 (buffer mod 2 ^ 24 + 8 + 6) = Some p ∧ phys_byte m p = flags) →
    d.(seg_code) && d.(seg_present) && d.(seg_long) = false →
    run_entry m (started signature cache) = Stop (Undefined "general protection")).
Proof.
  rewrite le_read64 in He by done. split.
  - intros g ps Ht Hg. by apply (run_run_entry m pml4 He Hlow g ps).
  - intros access flags d Ha Hf Hd. by apply (run_run_entry_stop m pml4 He Hlow buffer access flags).
Qed.
