(* ===== verification/Boot.v ===== *)
(** * The start of one processor

    The parts that take a processor from its startup message to the halt loop of
    [CpuStall], put together: [StartupCode] (DomainList.v) writes the trampoline
    to low memory, the processor runs it (ProcEntry.v) through the kernel's page
    tables (PageTree.v) and the bytes of the descriptor table (Segments.v),
    [DomainList::CpuEntrance] (DomainList.v) builds its object, and the
    destructor of [StartupCode] takes the trampoline down. *)

From stdpp Require Import base numbers list gmap strings.
From Stdlib Require Import ZArith Lia.
From S2P Require Import Prelude Machine Concrete Mmu PageTable PageTree Interrupts Devices FreeTable Acpi AcpiRoot Apic Segments Clock GlobalMap Processor DomainList ProcEntry.
#[local] Open Scope Z_scope.

(** ** Words beside the trampoline *)

(** A word that a store of bytes does not reach. *)
Lemma poke_read64 a l m w : w mod 8 = 0 → w + 8 ≤ a ∨ a + Z.of_nat (length l) ≤ w →
  read64 (poke a l m) w = read64 m w.
Proof.
  revert a m. induction l as [|b l IH]; intros a m Hw Ha; cbn [poke length] in *; [done|].
  rewrite IH by lia. unfold poke_byte, read64. rewrite lookup_insert_ne; [done|zlia].
Qed.

Lemma ldiff_u64 x y : is_u64 x → is_u64 (Z.ldiff x y).
Proof.
  intros Hx. assert (Z.ldiff x y = Z.ldiff x y mod 2 ^ 64) as ->; [|apply Z.mod_pos_bound; lia].
  apply Z.bits_inj'. intros i Hi. destruct (Z.ltb_spec i 64).
  - by rewrite Z.mod_pow2_bits_low.
  - rewrite Z.mod_pow2_bits_high, Z.ldiff_spec by lia.
    rewrite <-(Z.mod_small x (2 ^ 64)), Z.mod_pow2_bits_high by (done || lia). done.
Qed.

Lemma poke_byte_u64 a b m w : 0 ≤ b < 2 ^ 8 → is_u64 (read64 m w) → is_u64 (read64 (poke_byte a b m) w).
Proof.
  intros Hb Hw. unfold poke_byte, read64. destruct (decide (a - a mod 8 = w)) as [<-|Hne].
  2: by rewrite lookup_insert_ne.
  rewrite lookup_insert_eq. cbn [default from_option id].
  pose proof (Z.mod_pos_bound a 8 ltac:(lia)) as Hm. apply lor_u64; [by apply ldiff_u64|].
  rewrite Z.shiftl_mul_pow2 by lia. unfold is_u64.
  assert (2 ^ (8 * (a mod 8)) ≤ 2 ^ 56) by (apply Z.pow_le_mono_r; lia).
  assert (0 < 2 ^ (8 * (a mod 8))) by (apply Z.pow_pos_nonneg; lia). nia.
Qed.

Lemma poke_u64 a l m w : bytes_ok l → is_u64 (read64 m w) → is_u64 (read64 (poke a l m) w).
Proof.
  intros Hl. revert a m. induction Hl as [|b l Hb Hl IH]; intros a m Hw; cbn [poke]; [done|].
  by apply IH, poke_byte_u64.
Qed.

(** ** The kernel's tables beside the trampoline *)

Section Low.
Context `{AnsaRational} `{VirtualAllocator smp}.
Context (pdpt pml4 : Z) (proc_entry : list Z).
Hypothesis (Hok : bytes_ok proc_entry).
Hypothesis (Hlen : (length proc_entry < Z.to_nat 0x1000)%nat).
Implicit Types (m : gmap Z Z) (T : gmap (list Z) Z).

(** Memory with the trampoline and its stack. *)
Definition with_trampoline (start cb : Z) m : gmap Z Z :=
  stacked pml4 cb (built_low pdpt proc_entry start m).

Lemma trampoline_word start cb m w : w mod 8 = 0 → ¬ 0x3000 ≤ w < 0x6000 →
  read64 (with_trampoline start cb m) w = read64 m w.
Proof.
  intros Hw Ho. unfold with_trampoline, stacked, built_low, StartupCode.CodeBase, StartupCode.PageTableBase.
  assert (length (pointer_bytes start) = 10%nat) as Hpl by done.
  pose proof length_le_bytes as Hll.
  by rewrite !poke_read64 by (rewrite ?Hpl, ?Hll; zlia).
Qed.

Lemma trampoline_holds start cb m : let f := phys_byte (with_trampoline start cb m) in
  holds f 0x3000 (le_bytes 8 (pdpt .| 3)) ∧ holds f 0x4000 (pointer_bytes start) ∧
  holds f 0x4ff0 (le_bytes 8 pml4) ∧ holds f 0x4ff8 (le_bytes 8 cb) ∧ holds f 0x5000 proc_entry ∧
  ∀ a, ¬ 0x3000 ≤ a < 0x6000 → f a = phys_byte m a.
Proof. exact (trampoline_bytes pdpt pml4 proc_entry start cb m Hok Hlen). Qed.

Lemma trampoline_u64 start cb m w : is_u64 (read64 m w) → is_u64 (read64 (with_trampoline start cb m) w).
Proof.
  intros Hw. unfold with_trampoline, stacked, built_low.
  assert (bytes_ok (pointer_bytes start)) by (apply Forall_app; split; apply le_bytes_ok).
  by repeat (apply poke_u64; [done || apply le_bytes_ok|]).
Qed.

Lemma trampoline_translate start cb m T v : tree_ok m pml4 T →
  (∀ p g, T !! p = Some g → 0x6000 ≤ g) → idx v 0 ≠ 511 →
  translate (with_trampoline start cb m) pml4 v = translate m pml4 v.
Proof.
  intros HT Hhigh Hv. destruct (t_page _ _ _ HT _ _ (t_root _ _ _ HT)) as [Ha Hb].
  unfold translate. rewrite (frame_page pml4) by done.
  rewrite (leaf_agree m (with_trampoline start cb m) pml4 T [-1]); [done..| |done|].
  - intros q h j Hq Hj _. apply trampoline_word.
    + destruct (t_page _ _ _ HT _ _ Hq) as [? _]. unfold slot. zlia.
    + apply Hhigh in Hq. unfold slot. lia.
  - unfold passes. cbn [length vpath]. pose proof (idx_range v (Z.of_nat 0)). intros [= Hi]. lia.
Qed.
End Low.

(** The machine as [CpuEntrance] finds it on a processor in the state [c]. *)
Definition arrive `{AnsaRational} (c : ap) (s : machine smp) : machine smp :=
  set_iflag c.(ProcEntry.iflag) (Machine.set_cr3 c.(ProcEntry.cr3) s).

Lemma idx_low v : 0 ≤ v < 2 ^ 26 → idx v 0 ≠ 511.
Proof.
  intros Hv. assert (2 ^ 26 < span 0) by done. unfold idx. by rewrite Z.div_small by lia.
Qed.

(** The trampoline runs in the memory that [StartupCode] leaves. *)
Lemma run_entry_with_trampoline `{AnsaRational} `{VirtualAllocator smp}
    (pdpt pml4 entrance signature cache : Z) (proc_entry : list Z) (m : gmap Z Z) (g : Gdt.t)
    (ps : list Z) (T : gmap (list Z) Z) :
  bytes_ok proc_entry → (length proc_entry < Z.to_nat 0x1000)%nat → is_u64 entrance →
  tree_ok m pml4 T → (∀ p h, T !! p = Some h → 0x6000 ≤ h) → (∀ a, is_u64 (read64 m a)) →
  read64 m pml4 = pdpt .| 3 → (∀ v, 0x3000 ≤ v < 0x6000 → translate m pml4 v = Some v) →
  table g ps → 0 ≤ g.(Gdt.buffer) < 2 ^ 24 →
  (∀ i, 0 ≤ i < 0x18 → ∃ p, translate m pml4 (g.(Gdt.buffer) + i) = Some p ∧
    ¬ 0x3000 ≤ p < 0x6000 ∧ phys_byte m p = byte_at g i) →
  run_entry (with_trampoline pdpt pml4 proc_entry g.(Gdt.buffer) entrance m) (started signature cache)
  = Ok (entrance, after_entry g.(Gdt.buffer) cache pml4).
Proof.
  intros Hok Hlen Hc HT Hhigh Hw Hpdpt Hlow Htab Hbuf Hgdt.
  destruct (t_page _ _ _ HT _ _ (t_root _ _ _ HT)) as [Hp4 Hp4'].
  destruct (trampoline_holds pdpt pml4 proc_entry Hok Hlen g.(Gdt.buffer) entrance m)
    as (H1 & H2 & H4 & H5 & _ & H7).
  apply holds_app in H2 as [H2 H2'].
  set (m' := with_trampoline pdpt pml4 proc_entry g.(Gdt.buffer) entrance m) in *.
  assert (Ht : ∀ v, 0 ≤ v < 2 ^ 26 → translate m' pml4 v = translate m pml4 v).
  { intros v Hv. unfold m'. eapply trampoline_translate; eauto using idx_low. }
  assert (Hu : ∀ x, is_u64 x → 0 ≤ x < 2 ^ (8 * Z.of_nat 8)) by done.
  assert (Hpml4 : read64 m' (frame pml4) = pdpt .| 3).
  { rewrite frame_page by done. unfold m'. rewrite trampoline_word; [done..|zlia|].
    specialize (Hhigh [] pml4 (t_root _ _ _ HT)). lia. }
  assert (He : read64 m' PROC_TEMP_CR3 = read64 m' (frame pml4)).
  { rewrite Hpml4, <-le_read64; [|done|by apply trampoline_u64].
    apply le_holds; [|exact H1]. apply Hu. rewrite <-Hpdpt. apply Hw. }
  assert (Hmod : g.(Gdt.buffer) mod 2 ^ 24 = g.(Gdt.buffer)) by (apply Z.mod_small; lia).
  replace (after_entry g.(Gdt.buffer) cache pml4)
    with (after_entry (g.(Gdt.buffer) mod 2 ^ 24) cache pml4) by (by rewrite Hmod).
  apply (run_run_entry m' pml4 He) with (g := g) (ps := ps).
  - intros v Hv. rewrite Ht by lia. by apply Hlow.
  - done.
  - intros i Hi. rewrite Hmod. destruct (Hgdt i Hi) as (p & Hp & Hout & Hb).
    exists p. split; [|by rewrite H7]. rewrite Ht; [done|lia].
  - apply le_holds; [done|exact H2].
  - apply le_holds; [apply Hu; split; lia|exact H2'].
  - apply le_holds; [apply Hu; split; lia|exact H4].
  - by apply le_holds; [apply Hu|].
Qed.

(** ** Properties *)

(** C38. One processor from its startup message to the halt loop.  When the
    kernel's tables map the low pages and the descriptor table (which lies
    below 16 MiB) and do not lie in the pages of the trampoline themselves,
    StartupCode sets up a trampoline that takes a started processor, whatever
    its signature and cache bits, to CpuEntrance in 64-bit mode with the
    kernel's tables and segments and interrupts off; CpuEntrance builds the
    processor's object in the next slot of the domain, makes it current and
    lets the first processor go on; and the destructor of StartupCode then
    leaves every byte of memory as it was before. *)
Theorem processor_starts `{AnsaRational}
  `{WindowMap smp, AnsaLock smp, !LockLaws smp, Device, Cpuid, VirtualAllocator smp}
  (base offLocalData offTaskSegment sizeof_Cpu : Z) (junk : Cpu.t)
  (physAlloc : Z → Z → M (machine smp) (option Z)) (physFree : Z → M (machine smp) unit)
  (physOwns : Z → M (machine smp) bool) (pdpt pml4 entriesBase idtPtrBase entrance : Z)
  (proc_entry : list Z) (T : gmap (list Z) Z) (ps : list Z)
  (s : machine smp) (d : Domain.t) (stack backup signature cache : Z)
  (* the trampoline *)
  (Ha : VAlloc 0x3000 s = Ok (Some backup, s)) (Hf : ∀ s', VFree backup s' = Ok (tt, s'))
  (Hok : bytes_ok proc_entry) (Hlen : (length proc_entry < Z.to_nat 0x1000)%nat)
  (Hent : is_u64 entrance)
  (* the kernel's tables *)
  (HT : tree_ok s.(mem) pml4 T) (Hhigh : ∀ p h, T !! p = Some h → 0x6000 ≤ h)
  (Hw : ∀ a, is_u64 (read64 s.(mem) a)) (Hpdpt : read64 s.(mem) pml4 = pdpt .| 3)
  (Hlow : ∀ v, 0x3000 ≤ v < 0x6000 → translate s.(mem) pml4 v = Some v)
  (* the descriptor table *)
  (Htab : table s.(alloc).(gdt) ps) (Hbuf : 0 ≤ s.(alloc).(gdt).(Gdt.buffer) < 2 ^ 24)
  (Hgdt : ∀ i, 0 ≤ i < 0x18 →
    ∃ p, translate s.(mem) pml4 (s.(alloc).(gdt).(Gdt.buffer) + i) = Some p ∧
      ¬ 0x3000 ≤ p < 0x6000 ∧ phys_byte s.(mem) p = byte_at s.(alloc).(gdt) i)
  (Hroom : s.(alloc).(gdt).(Gdt.amountUsed) ≤ 0x10000 - 0x10)
  (* the domain *)
  (Hl : s.(critical_loaded) = true) (Hk : InitLock ∉ s.(held))
  (Hp : idtPtrBase .& 0x7 = 0) (He : entriesBase .& 0x7 = 0)
  (Hd : s.(alloc).(mainDomain) = Some d) (Hlt : d.(Domain.count) < d.(Domain.capacity))
  (Hs : ∀ s', VAlloc Cpu.StackSize s' = Ok (Some stack, s'))
  (Hu1 : is_u64 (GetCpu sizeof_Cpu d d.(Domain.count) + offLocalData))
  (Hu2 : is_u64 (GetCpu sizeof_Cpu d d.(Domain.count) + offTaskSegment))
  (Hu3 : is_u64 (stack + Cpu.StackSize)) :
  let this := GetCpu sizeof_Cpu d d.(Domain.count) in
  ∃ code s1 s2 c s3 s4,
    StartupCode.new pdpt proc_entry entrance s = Ok (code, s1) ∧
    StartupCode.ResetStartupStack pml4 code s1 = Ok (tt, s2) ∧
    run_entry s2.(mem) (started signature cache) = Ok (entrance, c) ∧
    c.(mode) = Long ∧ c.(ProcEntry.cs) = 0x08 ∧ c.(ProcEntry.cr3) = pml4 ∧
    c.(gdt_base) = s.(alloc).(gdt).(Gdt.buffer) ∧ c.(ProcEntry.iflag) = false ∧
    (top ← DomainList.CpuEntrance_setup (the_xapic base) offLocalData offTaskSegment sizeof_Cpu
             junk physAlloc physFree physOwns pml4 entriesBase idtPtrBase;
     _ ← DomainList.CpuStall_announce; mret top) (arrive c s2) = Ok (stack + Cpu.StackSize, s3) ∧
    DomainList.CpuEntrance (the_xapic base) offLocalData offTaskSegment sizeof_Cpu junk
      physAlloc physFree physOwns pml4 entriesBase idtPtrBase (arrive c s2) = Stop (Hang "hlt") ∧
    GetCurrent offLocalData s3 = Ok (this, s3) ∧ s3.(Machine.cr3) = pml4 ∧
    s3.(alloc).(initFlag) = true ∧ s3.(held) = s.(held) ∧ s3.(Machine.iflag) = true ∧
    s3.(alloc).(mainDomain)
      = Some (Domain.mk d.(Domain.cpuData) d.(Domain.capacity) (d.(Domain.count) + 1)) ∧
    StartupCode.delete code s3 = Ok (tt, s4) ∧
    ∀ a, phys_byte s4.(mem) a = phys_byte s.(mem) a.
Proof.
  intros this.
  set (g := s.(alloc).(gdt)) in *.
  set (s2 := set_mem (with_trampoline pdpt pml4 proc_entry g.(Gdt.buffer) entrance s.(mem)) s).
  set (c := after_entry g.(Gdt.buffer) cache pml4).
  assert (0 ≤ g.(Gdt.amountUsed)) by (destruct Htab as [-> _]; lia).
  destruct (run_CpuEntrance base offLocalData offTaskSegment sizeof_Cpu junk physAlloc physFree
    physOwns pml4 entriesBase idtPtrBase (arrive c s2) d stack) as (s3 & lapic & Hr & Hh & _ & Hcur &
    Hc3 & Hfl & Hlk & Hif & Hmem & Hdom & _ & _); [done..|].
  destruct (trampoline_holds pdpt pml4 proc_entry Hok Hlen g.(Gdt.buffer) entrance s.(mem))
    as (_ & _ & _ & _ & _ & Hout).
  eexists _, _, s2, c, s3, _. split; [by apply run_new_StartupCode|].
  split; [rewrite run_ResetStartupStack; reflexivity|].
  split; [by apply (run_entry_with_trampoline _ _ _ _ _ _ _ _ ps T)|].
  assert (∀ cb l, StartupCode.delete (StartupCode.mk cb backup l) s3
    = Ok (tt, set_mem (poke StartupCode.PageTableBase l s3.(mem)) s3)) as Hdel.
  { intros cb l. unfold StartupCode.delete. run run_write. apply Hf. }
  do 5 (split; [done|]). split; [exact Hr|]. split; [exact Hh|].
  split; [exact Hcur|]. split; [exact Hc3|]. split; [exact Hfl|]. split; [exact Hlk|].
  split; [exact Hif|]. split; [exact Hdom|]. split; [apply Hdel|].
  intros a. cbn [mem set_mem]. rewrite poke_peek, Hmem.
  destruct (decide _) as [|Ha']; [reflexivity|]. apply Hout. unfold StartupCode.PageTableBase in Ha'. lia.
Qed.

(** *** A machine for it

    The tables are at 0x10000 and 0x11000 and map the first GiB to itself; the
    descriptor table is at 2 MiB. *)
Definition start_words : gmap Z Z :=
  <[0x11000 := 0x83]> (<[0x10000 := 0x11003]> (<[0x10ff8 := 0x10003]>
    (<[0x200008 := 9174325022162944]> {[0x200010 := 9167727952396288]}))).
Definition start_tree : gmap (list Z) Z := <[[0] := 0x11000]> {[ [] := 0x10000 ]}.
Definition start_gdt : Gdt.t := Gdt.mk 0x200000 0x28 (Gdt.write_bytes 8 fixed_bytes ∅).
Definition start_smp : machine smp :=
  set_mem start_words (set_alloc (set_gdt start_gdt example_smp.(alloc)) example_smp).

Lemma start_u64 a : is_u64 (read64 start_words a).
Proof.
  unfold read64, start_words. destruct (_ !! a) as [v|] eqn:E; [|by vm_compute].
  cbn [default from_option id].
  repeat (apply lookup_insert_Some in E as [[_ <-]|[_ E]]; [split; by vm_compute|]).
  apply lookup_singleton_Some in E as [_ <-]. split; by vm_compute.
Qed.

Lemma start_tree_ok : tree_ok start_words 0x10000 start_tree.
Proof.
  set (m0 := <[0x10ff8 := 0x10003]> (<[0x200008 := 9174325022162944]> {[0x200010 := 9167727952396288]}) : gmap Z Z).
  set (m1 := write64 m0 (slot 0x10000 0) 0x11003).
  assert (H0 : tree_ok m0 0x10000 {[ [] := 0x10000 ]}).
  { apply tree_root; try done. intros i Hi. rewrite unset_word; [done|]. unfold m0, slot.
    rewrite !lookup_insert_ne by lia. apply lookup_singleton_ne. lia. }
  assert (H1 : tree_ok m1 0x10000 start_tree).
  { apply (tree_new m0 _ _ _ [] 0x10000 0); try done.
    - by apply (agree_write _ 0x10000 _ []).
    - intros [_ Hx]. lia.
    - cbn [length]. lia.
    - intros q [_ Hq]%lookup_singleton_Some. lia.
    - intros j Hj. apply unset_word. unfold m1, m0, write64, slot.
      rewrite !lookup_insert_ne by lia. apply lookup_singleton_ne. lia. }
  change start_words with (write64 m1 (slot 0x11000 0) 0x83).
  rewrite <-(prune_none _ _ _ [0; 0] H1) by by vm_compute.
  apply (tree_leaf m1 _ _ _ [0] 0x11000 0); [done|by apply (agree_write _ 0x10000)|done| |].
  - by intros [? _].
  - right. unfold write64, read64. by rewrite lookup_insert_eq.
Qed.

Lemma start_low v : 0 ≤ v < 2 ^ 30 → translate start_words 0x10000 v = Some v.
Proof.
  intros Hv. unfold translate, leaf4, canonical.
  replace (v <? 2 ^ 47) with true by (symmetry; apply Z.ltb_lt; lia). cbn [orb leaf].
  assert (idx v 0 = 0 ∧ idx v (0 + 1) = 0) as [H0 H1].
  { change (2 ^ 30) with (span (0 + 1)) in Hv. assert (span (0 + 1) < span 0) by done.
    unfold idx. by rewrite !Z.div_small by lia. }
  rewrite H0, H1.
  assert (read64 start_words (frame 0x10000 + 8 * 0) = 0x11003) as -> by by vm_compute.
  change (is_table 0x11003) with true. cbn iota.
  assert (read64 start_words (frame 0x11003 + 8 * 0) = 0x83) as -> by by vm_compute.
  change (is_table 0x83) with false. cbn iota.
  change (Some (0 + v mod span 1) = Some v). f_equal. change (span 1) with (2 ^ 30). zlia.
Qed.

(** The first three descriptors, byte by byte. *)
Lemma start_gdt_bytes i : 0 ≤ i < 0x18 → phys_byte start_words (0x200000 + i) = byte_at start_gdt i.
Proof.
  intros Hi. assert (holds (phys_byte start_words) 0x200000 (take 24 (replicate 8 0 ++ fixed_bytes))
    ∧ holds (byte_at start_gdt) 0 (take 24 (replicate 8 0 ++ fixed_bytes))) as [H1 H2].
  { split; apply holds_b_true; by vm_compute. }
  destruct (take 24 (replicate 8 0 ++ fixed_bytes) !! Z.to_nat i) as [b|] eqn:E.
  - specialize (H1 _ _ E). specialize (H2 _ _ E). rewrite Z2Nat.id in H1, H2 by lia.
    rewrite Z.add_0_l in H2. congruence.
  - apply lookup_ge_None in E.
    assert (length (take 24 (replicate 8 0 ++ fixed_bytes)) = 24%nat) by done. lia.
Qed.

Lemma processor_starts_witness :
  ∃ code s1 s2 c s3 s4,
    StartupCode.new 0x11000 [0xfa; 0xf4] 0x8000 start_smp = Ok (code, s1) ∧
    StartupCode.ResetStartupStack 0x10000 code s1 = Ok (tt, s2) ∧
    run_entry s2.(mem) (started 0x306c3 0x60000010) = Ok (0x8000, c) ∧
    GetCurrent 0x40 s3 = Ok (0x300000, s3) ∧ StartupCode.delete code s3 = Ok (tt, s4) ∧
    ∀ a, phys_byte s4.(mem) a = phys_byte start_words a.
Proof.
  destruct (processor_starts 0xfee00000 0x40 0x58 0x100 blank_cpu no_phys_alloc no_phys_free no_phys_owns
    0x11000 0x10000 0x250000 0x251000 0x8000 [0xfa; 0xf4] start_tree [] start_smp
    (Domain.mk 0x300000 2 0) 0x100000 0x100000 0x306c3 0x60000010)
    as (code & s1 & s2 & c & s3 & s4 & Hn & Hr & He & _ & _ & _ & _ & _ & _ & _ & Hc & _ & _ & _ & _ & _ & Hd & Hm).
  - reflexivity.
  - reflexivity.
  - repeat (apply Forall_cons; split); [split; by vm_compute..|by apply Forall_nil].
  - cbn. lia.
  - split; by vm_compute.
  - exact start_tree_ok.
  - unfold start_tree. intros p h [[_ <-]|[_ [_ <-]%lookup_singleton_Some]]%lookup_insert_Some; lia.
  - exact start_u64.
  - by vm_compute.
  - intros v Hv. apply start_low. lia.
  - split; [reflexivity|]. by apply holds_b_true; vm_compute.
  - split; by vm_compute.
  - intros i Hi. exists (0x200000 + i). split; [apply start_low; lia|].
    split; [lia|by apply start_gdt_bytes].
  - by vm_compute.
  - reflexivity.
  - by apply not_elem_of_nil.
  - reflexivity.
  - reflexivity.
  - reflexivity.
  - by vm_compute.
  - reflexivity.
  - split; by vm_compute.
  - split; by vm_compute.
  - split; by vm_compute.
  - exists code, s1, s2, c, s3, s4. split; [exact Hn|]. split; [exact Hr|]. split; [exact He|].
    split; [exact Hc|]. split; [exact Hd|]. exact Hm.
Defined.
