(* ===== verification/State.v ===== *)
(** * Thread states and system calls

    The saved state of a thread (src/arch/x64/state/state.cpp), which [iretq]
    enters, and the system calls that lead back from user code: the registers
    of the module (syscall/module.cpp), and the arguments its handler pops
    (syscall/args.cpp).  The selectors both use are those of Segments.v. *)

From stdpp Require Import base numbers list gmap strings.
From Stdlib Require Import ZArith Lia.
From S2P Require Import Prelude Machine Concrete Interrupts Devices Acpi AcpiRoot Apic Segments Clock Processor.
#[local] Open Scope Z_scope.

(** ** The saved state of a thread *)

Record IsrStack : Type := mkStack { rip : Z; cs : Z; rflags : Z; rsp : Z; ss : Z }.

Module State.

Record t : Type := mk { rdi : Z; iretInfo : IsrStack; stackStart : Z }.

Definition StackSize : Z := 0x4000.

Section Ops.
Context `{AnsaRational} `{VirtualAllocator smp}.
Context (offLocalData : Z).
Context (physAlloc : Z → Z → M (machine smp) (option Z)) (physFree : Z → M (machine smp) unit)
  (physOwns : Z → M (machine smp) bool).

Local Abbreviation the_domain := (main_allocators physAlloc physFree physOwns).

(** The constructor; [junk] is what the memory of the object held.  The stack
    pointer of a user state is left as it was. *)
Definition new (junk : IsrStack) (rip rdi : Z) (kernel : bool) : M (machine smp) t :=
  _ ← GetDomain;
  stack ← ApiDomain.Alloc the_domain siblings StackSize;
  match stack with
  | None => panic "State::State() - failed to allocate stack"
  | Some stackStart =>
      mret (mk rdi
        (if kernel then mkStack rip 8 0x200 (stackStart +u StackSize) 0
         else mkStack rip 0x23 0x200 junk.(rsp) 0x1b) stackStart)
  end.

Definition delete (st : t) : M (machine smp) unit :=
  _ ← GetDomain; ApiDomain.Free the_domain siblings st.(stackStart).

(** [*Domain::GetCurrent().New<x64::State>(...)], where [object] is its size. *)
Definition reference (object : Z) (construct : M (machine smp) t) : M (machine smp) (Z * t) :=
  _ ← GetDomain;
  r ← ApiDomain.New the_domain siblings object construct;
  match r with Some x => mret x | None => stop (Undefined "null reference") end.

(** The two forms of each: without an argument it is 0. *)
Definition NewKernel (object : Z) (junk : IsrStack) (fn : Z) (arg : option Z) : M (machine smp) (Z * t) :=
  reference object (new junk fn (default 0 arg) true).
Definition NewUser (object : Z) (junk : IsrStack) (fn : Z) (arg : option Z) : M (machine smp) (Z * t) :=
  reference object (new junk fn (default 0 arg) false).

(** [Delete] of the state at [this]. *)
Definition Delete (this : Z) (st : t) : M (machine smp) unit :=
  _ ← GetDomain; ApiDomain.Delete the_domain siblings delete this st.

Definition GetStackTop (st : t) : Z := st.(stackStart) +u StackSize.

(** [Resume]: the frame that [iretq] pops and the argument in RDI. *)
Definition Resume (st : t) : M (machine smp) (IsrStack * Z) :=
  _ ← AssertCritical;
  cur ← GetCurrent offLocalData;
  _ ← SetAsyncKernelTop cur (GetStackTop st);
  _ ← (if truthy (st.(iretInfo).(cs) .& 3) then modify LocalSegment.swapgs else mret tt);
  mret (st.(iretInfo), st.(rdi)).

(** [SuspendAndCall]: the state that is saved, with the return address, flags
    and stack of the caller, and the stack that [func] is called on. *)
Definition SuspendAndCall (ret flags sp : Z) (st : t) : M (machine smp) (t * Z) :=
  _ ← AssertCritical;
  cur ← GetCurrent offLocalData;
  top ← Processor.GetStackTop cur;
  mret (mk st.(rdi) (mkStack ret 8 flags sp 0) st.(stackStart), top).
End Ops.
End State.

(** ** The arguments of a system call *)

Module SyscallArgs.

Record t : Type := mk { arguments : list Z; idx : Z }.

Definition new (arg1 arg2 arg3 arg4 arg5 : Z) : t := mk [arg1; arg2; arg3; arg4; arg5] 0.

Definition PopUInt64 : M t Z :=
  args ← get;
  _ ← assert (args.(idx) <? 5) "idx < 5";
  _ ← modify (λ a, mk a.(arguments) (a.(idx) + 1));
  mret (default 0 (args.(arguments) !! Z.to_nat args.(idx))).

Definition PopBool : M t bool := v ← PopUInt64; mret (truthy v).
Definition PopInt : M t Z := v ← PopUInt64; mret (AcpiRoot.s32 v).
Definition PopUInt32 : M t Z := v ← PopUInt64; mret (u32 v).
Definition PopPhysAddr : M t Z := PopUInt64.
Definition PopVirtAddr : M t Z := PopUInt64.
Definition PopPhysSize : M t Z := PopUInt64.
Definition PopVirtSize : M t Z := PopUInt64.

(** The handler gets the five arguments after the first, in their order, and
    no sixth. *)
Lemma pops_in_order a b c d e :
  mapM (λ _ : nat, PopUInt64) (seq 0 5) (new a b c d e)
    = Ok ([a; b; c; d; e], mk [a; b; c; d; e] 5) ∧
  PopUInt64 (mk [a; b; c; d; e] 5) = Stop (AssertFail "idx < 5").
Proof. split; reflexivity. Qed.
End SyscallArgs.

(** ** The module *)

Module Syscalls.

Definition MsrSTAR : Z := 0xC0000081.
Definition MsrLSTAR : Z := 0xC0000082.
Definition MsrSFMask : Z := 0xC0000084.

Section Ops.
Context `{AnsaRational} `{WindowMap smp, AnsaLock smp, Device, Cpuid, World smp}.
Context (xapic : XApic.t) (offLocalData sizeof_Cpu : Z).
(** The address of [AnarchRawSyscallHandler]. *)
Context (rawHandler : Z).

Definition set_count (f : Z → Z) : M (machine smp) unit :=
  update (λ w, set_syscall (SyscallModule.mk w.(syscall).(SyscallModule.handler)
    (f w.(syscall).(SyscallModule.initCount))) w).

Definition SetHandler (h : Z) : M (machine smp) unit :=
  s ← get;
  _ ← assert (negb (truthy s.(alloc).(syscall).(SyscallModule.handler))) "!handler";
  update (λ w, set_syscall (SyscallModule.mk h w.(syscall).(SyscallModule.initCount)) w).

Definition GetHandler : M (machine smp) Z :=
  gets (λ s, s.(alloc).(syscall).(SyscallModule.handler)).

Definition SetCpuRegisters : M (machine smp) unit :=
  _ ← update (λ w, set_idt (Idt.SetIst 0x2 1 w.(idt)) w);
  _ ← update (λ w, set_idt (Idt.SetIst 0x12 1 w.(idt)) w);
  ScopedCritical (
    _ ← set_count (λ n, n - 1);
    let star := (8 .<< 0x20) .| (0x13 .<< 0x30) in
    _ ← WriteMsr MsrSTAR star;
    _ ← WriteMsr MsrSFMask 0x200;
    WriteMsr MsrLSTAR rawHandler).

(** [th.RunAsync(&SetCpuRegisters)] for every other thread; [setRegisters] is
    the address of the function. *)
Definition init_loop (setRegisters : Z) (d : Domain.t) : M (machine smp) unit :=
  for_loop (Z.to_nat d.(Domain.count)) 0 (λ j,
    cur ← GetCurrent offLocalData;
    if GetCpu sizeof_Cpu d j =? cur then mret tt else
    _ ← RunAsync xapic (GetCpu sizeof_Cpu d j) setRegisters 0;
    set_count (λ n, n + 1)).

(** [while (initCount);] *)
Fixpoint count_wait (fuel : nat) : M (machine smp) unit :=
  match fuel with
  | O => stop OutOfFuel
  | S fuel' =>
      s ← get;
      if truthy s.(alloc).(syscall).(SyscallModule.initCount)
      then _ ← modify advance; count_wait fuel' else mret tt
  end.

Definition Initialize (fuel : nat) (setRegisters : Z) : M (machine smp) unit :=
  ScopedCritical (
    d ← GetDomain;
    _ ← init_loop setRegisters d;
    _ ← set_count (λ n, n + 1);
    _ ← SetCpuRegisters;
    count_wait fuel).

(** [AnarchSyscallMainEntry]; [call] runs a handler on the number of the call
    and its arguments. *)
Definition MainEntry {R} (call : Z → Z → SyscallArgs.t → M (machine smp) R) (a b c d e f : Z)
  : M (machine smp) R :=
  _ ← AssertCritical;
  handler ← GetHandler;
  _ ← assert (truthy handler) "handler != NULL";
  call handler (u16 a) (SyscallArgs.new b c d e f).
End Ops.
End Syscalls.

(** ** What the processor does with the registers *)

(** [syscall] and [sysretq]: the code and stack selectors, the instruction
    pointer and the flags they load. *)
Record entered : Type := mkEntered { to_cs : Z; to_ss : Z; to_rip : Z; to_rflags : Z }.

Definition msr {A} (s : machine A) (cell : Z) : Z := default 0 (s.(msrs) !! cell).

Definition syscall_enters {A} (s : machine A) (flags : Z) : entered :=
  let sel := (msr s Syscalls.MsrSTAR .>> 32) .& 0xfffc in
  mkEntered sel (sel + 8) (msr s Syscalls.MsrLSTAR) (Z.ldiff flags (msr s Syscalls.MsrSFMask)).

Definition sysret_enters {A} (s : machine A) (rcx r11 : Z) : entered :=
  let sel := u16 (msr s Syscalls.MsrSTAR .>> 48) in
  mkEntered ((sel + 16) .| 3) ((sel + 8) .| 3) rcx r11.

(** ** The registers of the module *)

Section Registers.
Context `{AnsaRational}.
Context (rawHandler : Z).
Implicit Types (s : machine smp).

Definition star : Z := 0x13000800000000.

(** The registers a processor has after [SetCpuRegisters]. *)
Definition call_ready s : Prop :=
  msr s Syscalls.MsrSTAR = star ∧ msr s Syscalls.MsrSFMask = 0x200 ∧
  msr s Syscalls.MsrLSTAR = rawHandler.

Definition with_ists (i : Idt.t) : Idt.t := Idt.SetIst 0x12 1 (Idt.SetIst 0x2 1 i).

(** The state of the components after [SetCpuRegisters]. *)
Definition registered (w : smp) : smp :=
  set_syscall (SyscallModule.mk w.(syscall).(SyscallModule.handler)
    (w.(syscall).(SyscallModule.initCount) - 1)) (set_idt (with_ists w.(idt)) w).

Lemma run_SetCpuRegisters s : is_u64 rawHandler →
  ∃ s', Syscalls.SetCpuRegisters rawHandler s = Ok (tt, s') ∧ call_ready s' ∧
    s'.(alloc) = registered s.(alloc) ∧ s'.(iflag) = s.(iflag) ∧
    s'.(critical_loaded) = s.(critical_loaded) ∧ s'.(mem) = s.(mem) ∧ s'.(held) = s.(held) ∧
    (∀ cell, cell ∉ [Syscalls.MsrSTAR; Syscalls.MsrSFMask; Syscalls.MsrLSTAR] →
      msr s' cell = msr s cell).
Proof.
  intros Hr. unfold Syscalls.SetCpuRegisters.
  set (s1 := set_alloc (set_idt (with_ists s.(alloc).(idt)) s.(alloc)) s).
  set (s2 := set_alloc (registered s.(alloc)) (enter_critical s1)).
  set (s3 := set_msr Syscalls.MsrLSTAR rawHandler (set_msr Syscalls.MsrSFMask 0x200
    (set_msr Syscalls.MsrSTAR star s2))).
  assert (critical s2) as Hc by apply enter_critical_critical.
  assert (Syscalls.set_count (λ n, n - 1) (enter_critical s1) = Ok (tt, s2)) as Hcnt.
  { unfold Syscalls.set_count, update. rewrite run_modify, enter_alloc. done. }
  exists (leave_critical s1 s3). split.
  - do 2 (erewrite run_bind; [|apply run_modify]).
    apply run_ScopedCritical. cbn [alloc set_alloc set_idt].
    change (set_alloc (set_idt (Idt.SetIst 18 1 _) _) _) with s1.
    run Hcnt.
    run run_WriteMsr; [|done|split; by vm_compute].
    run run_WriteMsr; [|done|split; by vm_compute]. by apply run_WriteMsr.
  - unfold s3, s2, s1, leave_critical, enter_critical, call_ready, msr.
    destruct s as [m c f [] r h t a]; destruct f; cbn; rewrite ?lookup_insert_eq;
      (repeat split; [rewrite !lookup_insert_ne by done; by rewrite lookup_insert_eq
        |rewrite lookup_insert_ne by done; by rewrite lookup_insert_eq|]);
      intros cell Hcell; rewrite !not_elem_of_cons in Hcell; destruct Hcell as (?&?&?&_);
      by rewrite !lookup_insert_ne by done.
Qed.
End Registers.

(** ** A state that is entered *)

Section Resumed.
Context `{AnsaRational} `{VirtualAllocator smp}.
Context (offLocalData : Z).
Context (physAlloc : Z → Z → M (machine smp) (option Z)) (physFree : Z → M (machine smp) unit)
  (physOwns : Z → M (machine smp) bool).
Implicit Types (s : machine smp).

Definition frame_of (junk : IsrStack) (rip stack : Z) (kernel : bool) : IsrStack :=
  if kernel then mkStack rip 8 0x200 (stack + State.StackSize) 0
  else mkStack rip 0x23 0x200 junk.(rsp) 0x1b.

Lemma run_new_State junk rip rdi kernel stack s :
  is_Some s.(alloc).(mainDomain) → VAlloc State.StackSize s = Ok (Some stack, s) →
  is_u64 (stack + State.StackSize) →
  State.new physAlloc physFree physOwns junk rip rdi kernel s
  = Ok (State.mk rdi (frame_of junk rip stack kernel) stack, s).
Proof.
  intros [d Hd] Ha Hu. unfold State.new.
  erewrite run_bind; [|unfold GetDomain; unfold_m; rewrite Hd; reflexivity].
  erewrite run_bind; [|unfold ApiDomain.Alloc; cbn [ApiDomain.first_alloc]; run Ha; reflexivity].
  cbn beta iota. rewrite u64_small by done. by destruct kernel.
Qed.

Lemma run_GetDomain s : is_Some s.(alloc).(mainDomain) → ∃ d, GetDomain s = Ok (d, s).
Proof. intros [d Hd]. exists d. unfold GetDomain. unfold_m. by rewrite Hd. Qed.

Lemma run_VAlloc_domain size s r s' : VAlloc size s = Ok (r, s') →
  ApiDomain.Alloc (main_allocators physAlloc physFree physOwns) siblings size s = Ok (r, s').
Proof.
  intros Ha. unfold ApiDomain.Alloc. cbn [ApiDomain.first_alloc]. run Ha. by destruct r.
Qed.

Lemma run_Free_domain p s s' : VOwns p s = Ok (true, s) → VFree p s = Ok (tt, s') →
  ApiDomain.Free (main_allocators physAlloc physFree physOwns) siblings p s = Ok (tt, s').
Proof. intros Ho Hf. unfold ApiDomain.Free. cbn [ApiDomain.first_free]. by run Ho. Qed.

(** A state takes an object and a stack from the heap of the domain; without
    the first it is a null reference, without the second the constructor
    panics. *)
Lemma run_reference object junk fn arg kernel s p s1 :
  is_Some s.(alloc).(mainDomain) → VAlloc object s = Ok (p, s1) →
  (∀ r s', VAlloc State.StackSize s1 = Ok (r, s') → is_Some s1.(alloc).(mainDomain) →
    State.reference physAlloc physFree physOwns object
      (State.new physAlloc physFree physOwns junk fn arg kernel) s
    = match p, r with
      | None, _ => Stop (Undefined "null reference")
      | Some _, None => Stop (Panic "State::State() - failed to allocate stack")
      | Some p, Some stack =>
          Ok ((p, State.mk arg (if kernel then mkStack fn 8 0x200 (stack +u State.StackSize) 0
            else mkStack fn 0x23 0x200 junk.(rsp) 0x1b) stack), s')
      end).
Proof.
  intros Hd Ha r s' Hs Hd1. destruct (run_GetDomain s Hd) as [d Hg], (run_GetDomain s1 Hd1) as [d1 Hg1].
  unfold State.reference. run Hg.
  assert (∀ f, ApiDomain.New (main_allocators physAlloc physFree physOwns) siblings object f s
    = match p with None => Ok (None, s1) | Some p => (x ← f; mret (Some (p, x)) : M _ (option (Z * State.t))) s1 end)
    as Hnew.
  { intros f. unfold ApiDomain.New. run run_VAlloc_domain; [|exact Ha]. by destruct p. }
  destruct p as [p|].
  - destruct r as [stack|].
    + assert (State.new physAlloc physFree physOwns junk fn arg kernel s1
        = Ok (State.mk arg (if kernel then mkStack fn 8 0x200 (stack +u State.StackSize) 0
            else mkStack fn 0x23 0x200 junk.(rsp) 0x1b) stack, s')) as Hn.
      { unfold State.new. run Hg1. run run_VAlloc_domain; [|exact Hs]. done. }
      erewrite run_bind; [|rewrite Hnew; run Hn; reflexivity]. done.
    + apply run_bind_stop. rewrite Hnew. apply run_bind_stop.
      unfold State.new. run Hg1. run run_VAlloc_domain; [|exact Hs]. done.
  - by erewrite run_bind; [|apply Hnew].
Qed.

(** [Delete] gives both back, the stack first. *)
Lemma run_Delete_State this st s s1 s2 :
  is_Some s.(alloc).(mainDomain) →
  VOwns st.(State.stackStart) s = Ok (true, s) → VFree st.(State.stackStart) s = Ok (tt, s1) →
  VOwns this s1 = Ok (true, s1) → VFree this s1 = Ok (tt, s2) →
  State.Delete physAlloc physFree physOwns this st s = Ok (tt, s2).
Proof.
  intros Hd Ho Hf Ho' Hf'. destruct (run_GetDomain s Hd) as [d Hg].
  unfold State.Delete, ApiDomain.Delete, State.delete. run Hg.
  erewrite run_bind; [by apply run_Free_domain|]. run Hg. by apply run_Free_domain.
Qed.

(** The object the GS base points to. *)
Definition current_is s this (c : Cpu.t) : Prop :=
  msr s 0xc0000101 = this + offLocalData ∧ s.(alloc).(cpus) !! this = Some c ∧
  c.(Cpu.thisCpu) = this.

Definition resumed s this (c : Cpu.t) (top : Z) (user : bool) : machine smp :=
  let s1 := set_alloc (set_cpus (<[this := Cpu.set_kernel_top top c]> s.(alloc).(cpus)) s.(alloc)) s in
  if user then LocalSegment.swapgs s1 else s1.

Lemma run_Resume st s this c :
  critical s → current_is s this c → is_u64 (st.(State.stackStart) + State.StackSize) →
  State.Resume offLocalData st s
  = Ok ((st.(State.iretInfo), st.(State.rdi)),
        resumed s this c (st.(State.stackStart) + State.StackSize)
          (truthy (st.(State.iretInfo).(cs) .& 3))).
Proof.
  intros Hc (Hgs & Hcpu & Hthis) Hu. unfold State.Resume, State.GetStackTop.
  run run_AssertCritical; [|done].
  erewrite run_bind; [|unfold GetCurrent, gs_object, load; run run_gets; unfold_m;
    unfold msr in Hgs; rewrite Hgs; replace (this + offLocalData - offLocalData) with this by lia;
    rewrite Hcpu; reflexivity].
  rewrite Hthis, u64_small by done.
  erewrite run_bind; [|unfold SetAsyncKernelTop, load; unfold_m; rewrite Hcpu; reflexivity].
  unfold resumed. by destruct (truthy _).
Qed.
End Resumed.

(** ** The gates and the selectors *)

Lemma SetIst_entries k v i : (Z.to_nat k < length i.(Idt.entries))%nat →
  (∃ e, (Idt.SetIst k v i).(Idt.entries) !! Z.to_nat k = Some e ∧ e.(Interrupts.ist) = v mod 8) ∧
  (∀ n, n ≠ Z.to_nat k → (Idt.SetIst k v i).(Idt.entries) !! n = i.(Idt.entries) !! n) ∧
  gate_offset <$> (Idt.SetIst k v i).(Idt.entries) = gate_offset <$> i.(Idt.entries) ∧
  length (Idt.SetIst k v i).(Idt.entries) = length i.(Idt.entries).
Proof.
  intros Hk. destruct (lookup_lt_is_Some_2 _ _ Hk) as [e He].
  unfold Idt.SetIst. cbn [Idt.entries]. rewrite He, length_insert. cbn [default from_option id].
  split_and!; [|by intros n Hn; rewrite list_lookup_insert_ne by done| |done].
  - eexists. by rewrite list_lookup_insert_eq.
  - rewrite list_fmap_insert. apply list_insert_id. by rewrite list_lookup_fmap, He.
Qed.

Lemma with_ists_entries i : length i.(Idt.entries) = 256%nat →
  ∃ e2 e12, (with_ists i).(Idt.entries) !! 2%nat = Some e2 ∧ e2.(Interrupts.ist) = 1 ∧
    (with_ists i).(Idt.entries) !! 18%nat = Some e12 ∧ e12.(Interrupts.ist) = 1 ∧
    gate_offset <$> (with_ists i).(Idt.entries) = gate_offset <$> i.(Idt.entries).
Proof.
  intros Hl. destruct (SetIst_entries 0x2 1 i) as ((e2 & H2 & Hi2) & _ & Hg & Hlen); [lia|].
  destruct (SetIst_entries 0x12 1 (Idt.SetIst 0x2 1 i)) as ((e12 & H12 & Hi12) & Hn & Hg' & _); [lia|].
  exists e2, e12. unfold with_ists. rewrite Hn, Hg', Hg by done. done.
Qed.

Lemma star_selectors {A} (s : machine A) flags rcx r11 : msr s Syscalls.MsrSTAR = star →
  (syscall_enters s flags).(to_cs) = 0x8 ∧ (syscall_enters s flags).(to_ss) = 0x10 ∧
  (sysret_enters s rcx r11).(to_cs) = 0x23 ∧ (sysret_enters s rcx r11).(to_ss) = 0x1b.
Proof. unfold syscall_enters, sysret_enters. intros ->. by vm_compute. Qed.

Lemma mask_flags {A} (s : machine A) flags i : msr s Syscalls.MsrSFMask = 0x200 → 0 ≤ i →
  Z.testbit (syscall_enters s flags).(to_rflags) i = negb (i =? 9) && Z.testbit flags i.
Proof.
  unfold syscall_enters. intros -> Hi. cbn [to_rflags]. change 0x200 with (2 ^ 9).
  rewrite Z.ldiff_spec, Z.pow2_bits_eqb, andb_comm by lia. by rewrite Z.eqb_sym.
Qed.

Lemma swapgs_registers {A} (s : machine A) :
  msr (LocalSegment.swapgs s) 0xc0000101 = msr s 0xc0000102 ∧
  msr (LocalSegment.swapgs s) 0xc0000102 = msr s 0xc0000101.
Proof.
  unfold msr, LocalSegment.swapgs, LocalSegment.GS_BASE, LocalSegment.KERNEL_GS_BASE.
  cbn [msrs set_msrs]. by rewrite lookup_insert_eq, lookup_insert_ne, lookup_insert_eq by done.
Qed.

(** ** Properties *)

(** C33. Threads enter the modes the descriptor table has for them, and system
    calls lead back: a new state, once resumed, starts at its function with
    its argument and interrupts on, in the kernel's code segment on its own
    stack or in the user's segments with GS exchanged, and the stack for
    interrupts and system calls of the processor is the top of the state's;
    after SyscallModule::SetCpuRegisters, [syscall] enters the handler with the
    kernel's segments, interrupts off and the other flags kept, and [sysret]
    goes back to the selectors a user state starts with; interrupts 2 and 0x12
    use the first interrupt stack, with their gates as they were, and one
    processor fewer is waited for. *)
Theorem State_Syscall_modes `{AnsaRational} `{VirtualAllocator smp} (offLocalData rawHandler : Z)
  (physAlloc : Z → Z → M (machine smp) (option Z)) (physFree : Z → M (machine smp) unit)
  (physOwns : Z → M (machine smp) bool)
  (s : machine smp) (ps : list Z) (this : Z) (c : Cpu.t) (junk : IsrStack) (rip rdi stack : Z)
  (kernel : bool)
  (Hc : critical s) (Ht : table s.(alloc).(gdt) ps) (Hcur : current_is offLocalData s this c)
  (Hrsp : length c.(Cpu.taskSegment).(Segments.rsp) = 3%nat)
  (Hd : is_Some s.(alloc).(mainDomain)) (Hs : VAlloc State.StackSize s = Ok (Some stack, s))
  (Hu : is_u64 (stack + State.StackSize)) (Hr : is_u64 rawHandler)
  (Hidt : length s.(alloc).(idt).(Idt.entries) = 256%nat) :
  ∃ st frame s1 s2 c1 e2 e12,
    State.new physAlloc physFree physOwns junk rip rdi kernel s = Ok (st, s) ∧
    State.Resume offLocalData st s = Ok ((frame, rdi), s1) ∧
    Syscalls.SetCpuRegisters rawHandler s1 = Ok (tt, s2) ∧
    let g := s.(alloc).(gdt) in
    (* the state that is entered *)
    State.rip frame = rip ∧ frame.(rflags) = 0x200 ∧
    segment_of g frame.(cs) = Segment true (if kernel then 0 else 3) true true ∧
    (if kernel then frame.(rsp) = stack + State.StackSize ∧ frame.(ss) = 0 ∧ s1.(msrs) = s.(msrs)
     else segment_of g frame.(ss) = Segment false 3 true true ∧
       msr s1 0xc0000101 = msr s 0xc0000102 ∧ msr s1 0xc0000102 = msr s 0xc0000101) ∧
    s1.(alloc).(cpus) !! this = Some c1 ∧ c1.(Cpu.syscallStack) = stack + State.StackSize ∧
    c1.(Cpu.taskSegment).(Segments.rsp) !! 0%nat = Some (stack + State.StackSize) ∧
    (* the way back *)
    (∀ flags, let e := syscall_enters s2 flags in
      e.(to_rip) = rawHandler ∧ segment_of g e.(to_cs) = Segment true 0 true true ∧
      segment_of g e.(to_ss) = Segment false 0 true true ∧ Z.testbit e.(to_rflags) 9 = false ∧
      ∀ i, 0 ≤ i → i ≠ 9 → Z.testbit e.(to_rflags) i = Z.testbit flags i) ∧
    (∀ rcx r11, let e := sysret_enters s2 rcx r11 in
      e.(to_rip) = rcx ∧ e.(to_cs) = (frame_of junk rip stack false).(cs) ∧
      e.(to_ss) = (frame_of junk rip stack false).(ss)) ∧
    s2.(alloc).(idt).(Idt.entries) !! 2%nat = Some e2 ∧ e2.(Interrupts.ist) = 1 ∧
    s2.(alloc).(idt).(Idt.entries) !! 18%nat = Some e12 ∧ e12.(Interrupts.ist) = 1 ∧
    gate_offset <$> s2.(alloc).(idt).(Idt.entries)
      = gate_offset <$> s.(alloc).(idt).(Idt.entries) ∧
    s2.(alloc).(syscall).(SyscallModule.initCount)
      = s.(alloc).(syscall).(SyscallModule.initCount) - 1.
Proof.
  destruct (table_fixed _ _ Ht) as (Hkc & Hkd & Hud & Huc).
  set (user := negb kernel). set (s1 := resumed s this c (stack + State.StackSize) user).
  destruct (run_SetCpuRegisters rawHandler s1 Hr) as (s2 & Hset & (Hst & Hm & Hls) & Hal & _).
  destruct (with_ists_entries s.(alloc).(idt) Hidt) as (e2 & e12 & Hists).
  assert (s1.(alloc).(idt) = s.(alloc).(idt) ∧ s1.(alloc).(syscall) = s.(alloc).(syscall) ∧
    s1.(alloc).(cpus) !! this = Some (Cpu.set_kernel_top (stack + State.StackSize) c)) as (Hi & Hsy & Hcp).
  { unfold s1, resumed. destruct user; cbn; by rewrite lookup_insert_eq. }
  exists (State.mk rdi (frame_of junk rip stack kernel) stack), (frame_of junk rip stack kernel), s1, s2.
  exists (Cpu.set_kernel_top (stack + State.StackSize) c), e2, e12.
  split; [by apply run_new_State|]. split; [|split; [exact Hset|]].
  { rewrite (run_Resume offLocalData _ s this c) by done. unfold s1, user. by destruct kernel. }
  cbn zeta. rewrite Hal. cbn [registered set_syscall set_idt idt syscall SyscallModule.initCount].
  rewrite Hi, Hsy.
  split_and!; try apply Hists; try exact Hcp; try (by destruct kernel).
  - unfold s1, user. destruct kernel; [done|]. split; [exact Hud|].
    split; [exact (proj1 (swapgs_registers _))|exact (proj2 (swapgs_registers _))].
  - cbn. by apply list_lookup_insert_eq; rewrite Hrsp; lia.
  - intros flags. destruct (star_selectors s2 flags 0 0 Hst) as (-> & -> & _).
    split_and!; try done.
    + rewrite mask_flags by done. done.
    + intros i Hi' Hne. rewrite mask_flags by done. by destruct (Z.eqb_spec i 9).
  - intros rcx r11. by destruct (star_selectors s2 0 rcx r11 Hst) as (_ & _ & -> & ->).
Qed.

(** A processor in a critical section whose object is at 0x300000, with the
    descriptor table of [Gdt::Initialize]. *)
Definition user_gdt : Gdt.t := Gdt.mk 0x200000 0x28 (Gdt.write_bytes 8 fixed_bytes ∅).
Definition user_cpu : Cpu.t := Cpu.mk _ 0 0 false no_timer 0x300000 0 0 (mkTss [0; 0; 0] [] 0) 0 0.
Definition user_smp : machine smp :=
  set_msrs {[0xc0000101 := 0x300040]} (set_iflag false (set_alloc
    (set_cpus {[0x300000 := user_cpu]} (set_gdt user_gdt example_smp.(alloc))) example_smp)).

Lemma State_Syscall_modes_witness :
  ∃ st frame s1 s2,
    State.new no_phys_alloc no_phys_free no_phys_owns (mkStack 0 0 0 0x7000 0) 0x400000 0x55 false
      user_smp = Ok (st, user_smp) ∧
    State.Resume 0x40 st user_smp = Ok ((frame, 0x55), s1) ∧
    Syscalls.SetCpuRegisters 0x110000 s1 = Ok (tt, s2) ∧
    segment_of user_gdt frame.(cs) = Segment true 3 true true ∧
    Z.testbit (syscall_enters s2 0x202).(to_rflags) 9 = false.
Proof.
  assert (table user_smp.(alloc).(gdt) []) as Ht.
  { split; [reflexivity|apply holds_b_true; by vm_compute]. }
  assert (current_is 0x40 user_smp 0x300000 user_cpu) as Hc
    by (split; [reflexivity|split; reflexivity]).
  assert (length user_smp.(alloc).(idt).(Idt.entries) = 256%nat) as Hi by (by vm_compute).
  assert (length user_cpu.(Cpu.taskSegment).(Segments.rsp) = 3%nat) as Hr by done.
  assert (is_Some user_smp.(alloc).(mainDomain)) as Hm by (by eexists).
  assert (VAlloc State.StackSize user_smp = Ok (Some 0x100000, user_smp)) as Hv by reflexivity.
  destruct (State_Syscall_modes 0x40 0x110000 no_phys_alloc no_phys_free no_phys_owns user_smp []
    0x300000 user_cpu (mkStack 0 0 0 0x7000 0) 0x400000 0x55 0x100000 false
    (or_intror eq_refl) Ht Hc Hr Hm Hv
    ltac:(split; by vm_compute) ltac:(split; by vm_compute) Hi)
    as (st & frame & s1 & s2 & c1 & e2 & e12 & H1 & H2 & H3 & _ & _ & H4 & _ & _ & _ & _ & H5 & _).
  exists st, frame, s1, s2. split; [exact H1|]. split; [exact H2|]. split; [exact H3|].
  split; [exact H4|]. exact (proj1 (proj2 (proj2 (proj2 (H5 0x202))))).
Defined.
