(* ===== verification/Asm.v ===== *)
(** * Assembly entry points

    The code that the processor enters before any C++: the interrupt stubs of
    src/arch/x64/interrupts/raw-isr.s, as lists of instructions over the
    general registers and the stack.  What the C++ compiler makes of a function
    is a parameter that follows the System V calling convention.  An interrupt
    is run whole: what the processor pushes, the thunk of its gate
    (Interrupts.v), the stub, the C++ handler, and [iretq]. *)

From stdpp Require Import base numbers list gmap strings.
From Stdlib Require Import ZArith Lia.
From S2P Require Import Prelude Machine Concrete Interrupts.
#[local] Open Scope Z_scope.

(** ** Registers and the stack *)

Inductive reg : Type :=
  | RAX | RBX | RCX | RDX | RSI | RDI | RBP | RSP
  | R8 | R9 | R10 | R11 | R12 | R13 | R14 | R15.

#[export] Instance reg_eq_dec : EqDecision reg.
Proof. solve_decision. Defined.

(** The general registers, and the 64-bit words of memory by byte address. *)
Record core : Type := mkCore { regs : reg → Z; stack : gmap Z Z }.

Definition set_reg (r : reg) (v : Z) (c : core) : core :=
  mkCore (λ x, if decide (x = r) then v else c.(regs) x) c.(stack).
Definition set_word (a v : Z) (c : core) : core := mkCore c.(regs) (<[a := v]> c.(stack)).

(** A word of the address space. *)
Definition word_address (a : Z) : bool := (0 <=? a) && (a <? 2 ^ 64) && (a mod 8 =? 0).

(** ** Instructions *)

(** The C++ functions that the stubs call. *)
Inductive extern : Type :=
  | InterruptCoded | InterruptNonCoded | InterruptPicEoi | AnarchSyscallMainEntry.

Inductive instr : Type :=
  | Push (r : reg)
  | Pop (r : reg)
  | Mov (d s : reg)
  | MovImm (d : reg) (v : Z)
  | Load (d base : reg) (disp : Z)      (* mov d, [base + disp] *)
  | LoadGs (d : reg) (disp : Z)         (* mov d, [gs:disp] *)
  | Lea (d base : reg) (disp : Z)
  | AddImm (d : reg) (v : Z)
  | Call (f : extern)
  | Swapgs.

Section Exec.
Context {A : Type}.
(** The words of the GS segment, and calling a C++ function. *)
Context (gs_word : Z → M (machine A) Z) (call : extern → core → M (machine A) core).

Definition read_word (a : Z) (c : core) : M (machine A) Z :=
  if word_address a then
    match c.(stack) !! a with Some v => mret v | None => stop (Undefined "stack word") end
  else stop (Undefined "word address").

Definition write_word (a v : Z) (c : core) : M (machine A) core :=
  if word_address a then mret (set_word a v c) else stop (Undefined "word address").

Definition push (v : Z) (c : core) : M (machine A) core :=
  let sp := c.(regs) RSP - 8 in write_word sp v (set_reg RSP sp c).

Definition pop (c : core) : M (machine A) (Z * core) :=
  let sp := c.(regs) RSP in v ← read_word sp c; mret (v, set_reg RSP (sp + 8) c).

Definition exec (i : instr) (c : core) : M (machine A) core :=
  match i with
  | Push r => push (c.(regs) r) c
  | Pop r => '(v, c) ← pop c; mret (set_reg r v c)
  | Mov d s => mret (set_reg d (c.(regs) s) c)
  | MovImm d v => mret (set_reg d v c)
  | Load d base disp => v ← read_word (c.(regs) base + disp) c; mret (set_reg d v c)
  | LoadGs d disp => v ← gs_word disp; mret (set_reg d v c)
  | Lea d base disp => mret (set_reg d (u64 (c.(regs) base + disp)) c)
  | AddImm d v => mret (set_reg d (u64 (c.(regs) d + v)) c)
  | Call f => call f c
  | Swapgs => _ ← modify LocalSegment.swapgs; mret c
  end.

Fixpoint exec_list (l : list instr) (c : core) : M (machine A) core :=
  match l with
  | [] => mret c
  | i :: l => c ← exec i c; exec_list l c
  end.
End Exec.

(** What the System V convention promises of a call: the registers that belong
    to the caller, and the caller's part of the stack. *)
Definition callee_saved : list reg := [RBX; RBP; RSP; R12; R13; R14; R15].

Record sysv (c c' : core) : Prop := {
  sv_regs : ∀ r, r ∈ callee_saved → c'.(regs) r = c.(regs) r;
  sv_stack : ∀ a, c.(regs) RSP ≤ a → c'.(stack) !! a = c.(stack) !! a;
}.

(** ** The stubs *)

Module RawIsr.
(** [pushunpres] and [popunpres]. *)
Definition unpreserved : list reg := [RDI; RSI; RDX; RCX; R8; R9; R10; R11; RAX].
Definition pushunpres : list instr := Push <$> unpreserved.
Definition popunpres : list instr := Pop <$> [RAX; R11; R10; R9; R8; RCX; RDX; RSI; RDI].

Definition RawNonCodedIsr : list instr :=
  pushunpres ++
  [ Load RDI RSP 0x48;     (* vector number *)
    Lea RSI RSP 0x50;      (* ISR stack *)
    Call InterruptNonCoded ] ++
  popunpres ++
  [ AddImm RSP 0x8 ].

Definition RawCodedIsr : list instr :=
  pushunpres ++
  [ Load RDI RSP 0x48;     (* vector number *)
    Lea RSI RSP 0x58;      (* ISR stack *)
    Load RDX RSP 0x50;     (* exception code *)
    Call InterruptCoded ] ++
  popunpres ++
  [ AddImm RSP 0x10 ].

Definition RawPicEoiIsr : list instr :=
  pushunpres ++
  [ Load RDI RSP 0x48;     (* vector number *)
    Lea RSI RSP 0x50;      (* ISR stack *)
    Call InterruptPicEoi ] ++
  popunpres ++
  [ AddImm RSP 0x8 ].
End RawIsr.

(** ** An interrupt *)

(** The code that is interrupted: its registers and what the frame saves. *)
Record context : Type := mkContext { cregs : reg → Z; crip : Z; ccs : Z; crflags : Z; css : Z }.

Section Interrupt.
Context {A : Type}.
(** The parameters of the handlers of Interrupts.v. *)
Context (call_routine : Z → Z → Z → M (machine A) unit).
Context (call_delegate : Z → Z → bool → M (machine A) unit).
Context (irt : Irt.t) (GlobalPageDelegate cr2 : Z) (report print_eoi : M (machine A) unit).
(** What a compiled function leaves in the registers and below the stack. *)
Context (after : machine A → core → core).
(** The addresses of the thunks and of the stubs. *)
Context (handlersBase coded nonCoded picEoi : Z).

(** The handlers read the interrupted CS from the frame that RSI points to. *)
Definition call_handler (f : extern) (c : core) : M (machine A) core :=
  cs ← read_word (c.(regs) RSI + 8) c;
  _ ← match f with
      | InterruptCoded => Isr.InterruptCoded call_routine call_delegate irt GlobalPageDelegate cr2
                            report (c.(regs) RDI) (c.(regs) RSI) cs (c.(regs) RDX)
      | InterruptNonCoded => Isr.InterruptNonCoded call_routine irt report
                               (c.(regs) RDI) (c.(regs) RSI) cs
      | InterruptPicEoi => Isr.InterruptPicEoi print_eoi (c.(regs) RDI)
      | AnarchSyscallMainEntry => stop (Undefined "not an interrupt handler")
      end;
  s ← get;
  mret (after s c).

(** What the processor does first: interrupts are off in an interrupt gate, and
    the frame is pushed from [sp] on, with the error code if there is one. *)
Definition deliver (sp : Z) (code : option Z) (u : context) (st : gmap Z Z) : M (machine A) core :=
  _ ← modify (set_iflag false);
  c ← push u.(css) (set_reg RSP sp (mkCore u.(cregs) st));
  c ← push (u.(cregs) RSP) c;
  c ← push u.(crflags) c;
  c ← push u.(ccs) c;
  c ← push u.(crip) c;
  match code with Some e => push e c | None => mret c end.

(** The thunk at [base]: the address it enters, and the registers there. *)
Definition run_gate (base : Z) (bs : list Z) (c : core) : M (machine A) (Z * core) :=
  match run_code 7 base bs (Interrupts.mkCore (c.(regs) RAX) (c.(regs) RSP) base c.(stack)) with
  | Some t => mret (t.(rip), set_reg RAX t.(rax) (set_reg RSP t.(rsp) (mkCore c.(regs) t.(Interrupts.stack))))
  | None => stop (Undefined "not the code of a thunk")
  end.

Definition gate (idt : Idt.t) (v : Z) (c : core) : M (machine A) (Z * core) :=
  match idt.(Idt.entries) !! Z.to_nat v, idt.(Idt.handlers) !! Z.to_nat v with
  | Some e, Some h =>
      if gate_offset e =? handlersBase + 0x20 * v then run_gate (gate_offset e) (handler_code h) c
      else stop (Undefined "not a thunk")
  | _, _ => stop (Undefined "no gate")
  end.

Definition stub (fn : Z) : M (machine A) (list instr) :=
  if fn =? coded then mret RawIsr.RawCodedIsr
  else if fn =? nonCoded then mret RawIsr.RawNonCodedIsr
  else if fn =? picEoi then mret RawIsr.RawPicEoiIsr
  else stop (Undefined "not a stub").

Definition iretq (c : core) : M (machine A) (context * gmap Z Z) :=
  '(rip, c) ← pop c;
  '(cs, c) ← pop c;
  '(rflags, c) ← pop c;
  '(sp, c) ← pop c;
  '(ss, c) ← pop c;
  _ ← modify (set_iflag (Z.testbit rflags 9));
  mret (mkContext (set_reg RSP sp c).(regs) rip cs rflags ss, c.(stack)).

(** Interrupt [v] with its frame from [sp] on. *)
Definition interrupt (idt : Idt.t) (v sp : Z) (code : option Z) (u : context) (st : gmap Z Z)
  : M (machine A) (context * gmap Z Z) :=
  c ← deliver sp code u st;
  '(fn, c) ← gate idt v c;
  l ← stub fn;
  c ← exec_list (λ _, stop (Undefined "no GS segment")) call_handler l c;
  iretq c.
End Interrupt.

(** ** Pushing and popping *)

Definition pushed (v : Z) (c : core) : core :=
  set_word (c.(regs) RSP - 8) v (set_reg RSP (c.(regs) RSP - 8) c).
Fixpoint pushes (vs : list Z) (c : core) : core :=
  match vs with [] => c | v :: vs => pushes vs (pushed v c) end.

(** The words from the stack pointer up, and an aligned stack pointer with
    [n] words below it. *)
Definition top (c : core) (l : list Z) : Prop :=
  ∀ i v, l !! i = Some v → c.(stack) !! (c.(regs) RSP + 8 * Z.of_nat i) = Some v.
Definition room (c : core) (n : nat) : Prop :=
  c.(regs) RSP mod 8 = 0 ∧ 8 * Z.of_nat n ≤ c.(regs) RSP ≤ 2 ^ 64.

Lemma set_reg_eq r v c : (set_reg r v c).(regs) r = v.
Proof. cbn. by rewrite decide_True. Qed.
Lemma set_reg_ne r r' v c : r' ≠ r → (set_reg r v c).(regs) r' = c.(regs) r'.
Proof. intros. cbn. by rewrite decide_False. Qed.

Lemma set_reg_stack r v c : (set_reg r v c).(stack) = c.(stack).
Proof. done. Qed.

Lemma word_address_true a : 0 ≤ a → a + 8 ≤ 2 ^ 64 → a mod 8 = 0 → word_address a = true.
Proof.
  intros. unfold word_address. rewrite !andb_true_iff, Z.leb_le, Z.ltb_lt, Z.eqb_eq. lia.
Qed.

Lemma pushed_rsp v c : (pushed v c).(regs) RSP = c.(regs) RSP - 8.
Proof. apply set_reg_eq. Qed.
Lemma pushed_reg r v c : r ≠ RSP → (pushed v c).(regs) r = c.(regs) r.
Proof. intros. by apply (set_reg_ne RSP). Qed.
Lemma pushed_room v c n : room c (S n) → room (pushed v c) n.
Proof. unfold room. rewrite pushed_rsp. intros [? ?]. split; [zlia|lia]. Qed.
Lemma pushed_above v c a : c.(regs) RSP ≤ a → (pushed v c).(stack) !! a = c.(stack) !! a.
Proof. intros. cbn. by rewrite lookup_insert_ne by lia. Qed.
Lemma pushed_top v c l : top c l → top (pushed v c) (v :: l).
Proof.
  intros Ht [|i] w; cbn -[pushed].
  - intros [= ->]. cbn. by rewrite decide_True, Z.add_0_r, lookup_insert_eq.
  - intros Hw. rewrite pushed_above; rewrite pushed_rsp; [|lia].
    rewrite <-(Ht i w Hw). f_equal. lia.
Qed.

Lemma pushes_rsp vs c : (pushes vs c).(regs) RSP = c.(regs) RSP - 8 * Z.of_nat (length vs).
Proof.
  revert c. induction vs as [|v vs IH]; intros c; [cbn; lia|].
  cbn [pushes length]. rewrite IH, pushed_rsp. lia.
Qed.
Lemma pushes_reg r vs c : r ≠ RSP → (pushes vs c).(regs) r = c.(regs) r.
Proof.
  intros Hr. revert c. induction vs as [|v vs IH]; intros c; [done|].
  cbn [pushes]. by rewrite IH, pushed_reg.
Qed.
Lemma pushes_above vs c a : c.(regs) RSP ≤ a → (pushes vs c).(stack) !! a = c.(stack) !! a.
Proof.
  revert c. induction vs as [|v vs IH]; intros c Ha; [done|].
  cbn [pushes]. rewrite IH, pushed_above; [done..|]. rewrite pushed_rsp. lia.
Qed.
Lemma pushes_top vs c l : top c l → top (pushes vs c) (reverse vs ++ l).
Proof.
  revert c l. induction vs as [|v vs IH]; intros c l Ht; [done|].
  cbn [pushes]. rewrite reverse_cons, <-app_assoc. by apply IH, pushed_top.
Qed.
Lemma pushes_snoc vs v c : pushes (vs ++ [v]) c = pushed v (pushes vs c).
Proof. revert c. induction vs as [|w vs IH]; intros c; [done|apply IH]. Qed.
Lemma top_nil c : top c [].
Proof. by intros i v. Qed.
Lemma top_app_l c l k : top c (l ++ k) → top c l.
Proof. intros Ht i v Hi. by apply Ht, lookup_app_l_Some. Qed.

(** The words above the stack pointer that a call gives back. *)
Lemma top_sysv c c' l : sysv c c' → top c l → top c' l.
Proof.
  intros [Hr Hs] Ht i v Hi. rewrite Hr by (unfold callee_saved; set_solver).
  rewrite Hs by lia. by apply Ht.
Qed.

Section Words.
Context {A : Type}.
Implicit Types (s : machine A).

Lemma run_push_word v c s : room c 1 → push v c s = Ok (pushed v c, s).
Proof.
  intros [? ?]. unfold push, write_word. by rewrite word_address_true by zlia.
Qed.

Lemma run_read_word a c v s :
  word_address a = true → c.(stack) !! a = Some v → read_word a c s = Ok (v, s).
Proof. unfold read_word. by intros -> ->. Qed.

Lemma run_pop v l c s : top c (v :: l) → c.(regs) RSP mod 8 = 0 → 0 ≤ c.(regs) RSP →
  c.(regs) RSP + 8 ≤ 2 ^ 64 → pop c s = Ok ((v, set_reg RSP (c.(regs) RSP + 8) c), s).
Proof.
  intros Ht ? ? ?. unfold pop. erewrite run_bind; [done|].
  apply run_read_word; [by apply word_address_true|].
  rewrite <-(Ht 0%nat v) by done. f_equal. lia.
Qed.

(** The words [l] are left to pop. *)
Definition to_pop (c : core) (l : list Z) : Prop :=
  top c l ∧ c.(regs) RSP mod 8 = 0 ∧ 0 ≤ c.(regs) RSP ∧ c.(regs) RSP + 8 * Z.of_nat (length l) ≤ 2 ^ 64.

Lemma run_pop_next v l c s : to_pop c (v :: l) →
  ∃ c', pop c s = Ok ((v, c'), s) ∧ to_pop c' l ∧ c'.(stack) = c.(stack)
    ∧ ∀ r, r ≠ RSP → c'.(regs) r = c.(regs) r.
Proof.
  intros (Ht & Hm & H0 & H64). cbn [length] in H64. eexists.
  split; [by apply (run_pop v l); [done..|lia]|]. split; [|split; [done|intros; by apply set_reg_ne]].
  unfold to_pop. rewrite set_reg_eq. split_and!; [|zlia|lia|lia].
  intros i w Hi. rewrite set_reg_eq. rewrite <-(Ht (S i) w Hi). cbn [stack set_reg]. f_equal. lia.
Qed.
End Words.

Section PushPop.
Context {A : Type}.
Context (gs_word : Z → M (machine A) Z) (call : extern → core → M (machine A) core).
Implicit Types (s : machine A).

Lemma exec_list_cons i l c s c' s' : exec gs_word call i c s = Ok (c', s') →
  exec_list gs_word call (i :: l) c s = exec_list gs_word call l c' s'.
Proof. intros Hi. cbn [exec_list]. by run Hi. Qed.

Lemma exec_list_app l k c s c' s' :
  exec_list gs_word call l c s = Ok (c', s') →
  exec_list gs_word call (l ++ k) c s = exec_list gs_word call k c' s'.
Proof.
  revert c s. induction l as [|i l IH]; intros c s; cbn [exec_list app]; [by intros [= -> ->]|].
  unfold mbind, M_bind. destruct (exec _ _ i c s) as [[c1 s1]|]; [apply IH|done].
Qed.

Lemma run_pushes rs c s : RSP ∉ rs → room c (length rs) →
  exec_list gs_word call (Push <$> rs) c s = Ok (pushes (c.(regs) <$> rs) c, s).
Proof.
  revert c. induction rs as [|r rs IH]; intros c Hr Hroom; [done|].
  apply not_elem_of_cons in Hr as [Hr Hrs]. cbn [fmap list_fmap exec_list exec pushes].
  run run_push_word; [|destruct Hroom; split; cbn [length] in *; lia].
  rewrite IH by (done || by apply pushed_room). do 3 f_equal.
  apply list_fmap_ext. intros i x Hx. apply pushed_reg.
  intros ->. by apply Hrs, (list_elem_of_lookup_2 _ i).
Qed.

(** What [vs] leaves in the registers [rs]. *)
Lemma run_pops rs vs l c s : RSP ∉ rs → NoDup rs → length vs = length rs → top c (vs ++ l) →
  c.(regs) RSP mod 8 = 0 → 0 ≤ c.(regs) RSP → c.(regs) RSP + 8 * Z.of_nat (length rs) ≤ 2 ^ 64 →
  ∃ c', exec_list gs_word call (Pop <$> rs) c s = Ok (c', s)
    ∧ c'.(stack) = c.(stack) ∧ top c' l
    ∧ c'.(regs) RSP = c.(regs) RSP + 8 * Z.of_nat (length rs)
    ∧ (∀ i r, rs !! i = Some r → vs !! i = Some (c'.(regs) r))
    ∧ ∀ r, r ∉ rs → r ≠ RSP → c'.(regs) r = c.(regs) r.
Proof.
  revert vs c. induction rs as [|r rs IH]; intros [|v vs] c Hsp Hnd Hlen Ht Hm H0 H64; try done.
  { exists c. split_and!; [done..|cbn; lia|done|done]. }
  apply not_elem_of_cons in Hsp as [Hr Hrs]. apply NoDup_cons in Hnd as [Hn Hnd].
  cbn [length] in *. cbn [fmap list_fmap exec_list exec].
  set (c1 := set_reg r v (set_reg RSP (c.(regs) RSP + 8) c)).
  assert (Hsp1 : c1.(regs) RSP = c.(regs) RSP + 8).
  { unfold c1. rewrite set_reg_ne by done. apply set_reg_eq. }
  destruct (IH vs c1) as (c' & Hr' & Hs' & Ht' & Hsp' & Hv & Hk);
    [done|done|lia| |rewrite Hsp1; zlia|rewrite Hsp1; lia|rewrite Hsp1; lia|].
  { intros i w Hw. rewrite Hsp1. replace (_ + 8 + _) with (c.(regs) RSP + 8 * Z.of_nat (S i)) by lia.
    by apply Ht. }
  exists c'. split_and!; [|done|done|rewrite Hsp', Hsp1; lia| |].
  - erewrite run_bind; [exact Hr'|]. erewrite run_bind; [|apply (run_pop v (vs ++ l)); [exact Ht|done|done|lia]]. done.
  - intros [|i] x; cbn; [|apply Hv]. intros [= <-]. rewrite Hk by done. unfold c1. by rewrite set_reg_eq.
  - intros x [Hx Hxs]%not_elem_of_cons Hxsp. rewrite Hk by done. unfold c1. by rewrite !set_reg_ne.
Qed.
End PushPop.

(** ** The stubs *)

Section Stubs.
Context {A : Type}.
Context (gs_word : Z → M (machine A) Z) (call : extern → core → M (machine A) core).
Implicit Types (s : machine A).

(** The stack of a stub: from [c] on, the words [l] of the frame. *)
Definition stub_stack (c : core) (l : list Z) : Prop :=
  top c l ∧ room c 9 ∧ c.(regs) RSP + 8 * Z.of_nat (length l) ≤ 2 ^ 64.

(** [c1] has the registers that the callee keeps, and the stack, of [c]. *)
Definition keeps_saved (c c1 : core) : Prop :=
  c1.(stack) = c.(stack) ∧ ∀ r, r ∈ callee_saved → c1.(regs) r = c.(regs) r.

Definition saved (c : core) : core := pushes (c.(regs) <$> RawIsr.unpreserved) c.

Lemma saved_rsp c : (saved c).(regs) RSP = c.(regs) RSP - 72.
Proof. unfold saved. rewrite pushes_rsp. cbn. lia. Qed.

(** The word [i] of the frame, read by the stub. *)
Lemma run_load_frame c c1 l i v d s : stub_stack c l → l !! i = Some v → keeps_saved (saved c) c1 →
  exec gs_word call (Load d RSP (0x48 + 8 * Z.of_nat i)) c1 s = Ok (set_reg d v c1, s).
Proof.
  intros (Ht & [Hm Hr] & H64) Hi [Hst Hreg]. cbn [exec].
  rewrite Hreg, saved_rsp by (by apply (bool_decide_unpack _)).
  pose proof (lookup_lt_Some _ _ _ Hi). run run_read_word; [done|apply word_address_true; zlia|].
  rewrite Hst. unfold saved. rewrite pushes_above by lia. rewrite <-(Ht i v Hi). f_equal. lia.
Qed.

Lemma keeps_saved_refl c : keeps_saved c c.
Proof. done. Qed.

(** The argument registers are not the caller's. *)
Lemma keeps_saved_set c c1 r v : r ∉ callee_saved → keeps_saved c c1 → keeps_saved c (set_reg r v c1).
Proof.
  intros Hr [Hs Hk]. split; [done|]. intros r' Hr'. rewrite set_reg_ne; [by apply Hk|].
  by intros ->.
Qed.

Lemma run_stub_prefix setup k c l s c1 s1 : stub_stack c l →
  exec_list gs_word call setup (saved c) s = Ok (c1, s1) →
  exec_list gs_word call (RawIsr.pushunpres ++ setup ++ k) c s = exec_list gs_word call k c1 s1.
Proof.
  intros (_ & Hroom & _) Hs. unfold RawIsr.pushunpres.
  rewrite (exec_list_app _ _ _ _ c s (saved c) s); [by apply exec_list_app|].
  apply run_pushes; [|done]. by apply (bool_decide_unpack _).
Qed.

Lemma run_stub_suffix k c l s c1 c2 : stub_stack c l → keeps_saved (saved c) c1 → sysv c1 c2 →
  0 ≤ k ≤ 8 * Z.of_nat (length l) → c.(regs) RSP + k < 2 ^ 64 →
  ∃ c', exec_list gs_word call (RawIsr.popunpres ++ [AddImm RSP k]) c2 s = Ok (c', s)
    ∧ c'.(regs) RSP = c.(regs) RSP + k ∧ (∀ r, r ≠ RSP → c'.(regs) r = c.(regs) r)
    ∧ ∀ a, c.(regs) RSP ≤ a → c'.(stack) !! a = c.(stack) !! a.
Proof.
  intros (Ht & [Hm Hr] & H64) [Hst Hreg] Hsv Hk Hk64. pose proof Hsv as [Hvr Hvs].
  assert (Hsp : c2.(regs) RSP = c.(regs) RSP - 72).
  { rewrite Hvr, Hreg, saved_rsp; [done|by apply (bool_decide_unpack _)..]. }
  assert (Habove : ∀ a, c.(regs) RSP - 72 ≤ a → c2.(stack) !! a = (saved c).(stack) !! a).
  { intros a Ha. rewrite Hvs, Hst; [done|]. rewrite Hreg, saved_rsp; [done|by apply (bool_decide_unpack _)]. }
  assert (Ht2 : top c2 (reverse (c.(regs) <$> RawIsr.unpreserved) ++ l)).
  { intros i v Hi. rewrite Hsp, Habove by lia. rewrite <-saved_rsp. by apply (pushes_top _ c l Ht). }
  destruct (run_pops gs_word call [RAX; R11; R10; R9; R8; RCX; RDX; RSI; RDI]
    (reverse (c.(regs) <$> RawIsr.unpreserved)) l c2 s) as (c3 & Hrun & Hs3 & _ & Hsp3 & Hv & Hkeep);
    [by apply (bool_decide_unpack _)|by apply (bool_decide_unpack _)|done|done|rewrite Hsp; zlia|rewrite Hsp; lia|cbn; lia|].
  exists (set_reg RSP (u64 (c3.(regs) RSP + k)) c3). split_and!.
  - unfold RawIsr.popunpres. by rewrite (exec_list_app _ _ _ _ c2 s c3 s).
  - rewrite set_reg_eq, Hsp3, Hsp. cbn [length]. rewrite u64_small by (unfold is_u64; lia). lia.
  - intros r Hne. rewrite set_reg_ne by done.
    destruct (decide (r ∈ [RAX; R11; R10; R9; R8; RCX; RDX; RSI; RDI])) as [Hin|Hin].
    + apply list_elem_of_lookup in Hin as [i Hi]. specialize (Hv i r Hi).
      change (reverse (c.(regs) <$> RawIsr.unpreserved))
        with (c.(regs) <$> [RAX; R11; R10; R9; R8; RCX; RDX; RSI; RDI]) in Hv.
      rewrite list_lookup_fmap, Hi in Hv. by injection Hv.
    + rewrite Hkeep by done. assert (r ∈ callee_saved) 
        by (destruct r; first [by apply (bool_decide_unpack _)|exfalso; apply Hin; by apply (bool_decide_unpack _)|done]).
      rewrite Hvr, Hreg by done. by apply pushes_reg.
  - intros a Ha. cbn [stack set_reg]. rewrite Hs3, Habove by lia. by apply pushes_above.
Qed.
End Stubs.

(** *** The end of an interrupt *)

(** The words of the frame, from the top of the stack. *)
Definition frame_words (u : context) : list Z :=
  [u.(crip); u.(ccs); u.(crflags); u.(cregs) RSP; u.(css)].

Lemma run_iretq_frame {A} u c (s : machine A) : to_pop c (frame_words u) →
  ∃ u' (st' : gmap Z Z), iretq c s = Ok ((u', st'), set_iflag (Z.testbit u.(crflags) 9) s)
    ∧ u'.(cregs) RSP = u.(cregs) RSP ∧ (∀ r, r ≠ RSP → u'.(cregs) r = c.(regs) r)
    ∧ u'.(crip) = u.(crip) ∧ u'.(ccs) = u.(ccs) ∧ u'.(crflags) = u.(crflags) ∧ u'.(css) = u.(css)
    ∧ st' = c.(stack).
Proof.
  intros Hp.
  destruct (run_pop_next _ _ _ s Hp) as (c1 & Hr1 & Hp1 & Hs1 & Hk1).
  destruct (run_pop_next _ _ _ s Hp1) as (c2 & Hr2 & Hp2 & Hs2 & Hk2).
  destruct (run_pop_next _ _ _ s Hp2) as (c3 & Hr3 & Hp3 & Hs3 & Hk3).
  destruct (run_pop_next _ _ _ s Hp3) as (c4 & Hr4 & Hp4 & Hs4 & Hk4).
  destruct (run_pop_next _ _ _ s Hp4) as (c5 & Hr5 & _ & Hs5 & Hk5).
  eexists _, _. split.
  - unfold iretq. run Hr1. cbn beta iota. run Hr2. cbn beta iota. run Hr3. cbn beta iota.
    run Hr4. cbn beta iota. run Hr5. cbn beta iota. run run_modify. reflexivity.
  - cbn [cregs crip ccs crflags css]. split_and!; try done.
    + intros r Hne. by rewrite set_reg_ne, Hk5, Hk4, Hk3, Hk2, Hk1.
    + by rewrite Hs5, Hs4, Hs3, Hs2, Hs1.
Qed.

(** ** Interrupts between two instructions *)

Section Transparent.
Context {A : Type}.
Context (call_routine : Z → Z → Z → M (machine A) unit).
Context (call_delegate : Z → Z → bool → M (machine A) unit).
Context (irt : Irt.t) (GlobalPageDelegate cr2 : Z) (report print_eoi : M (machine A) unit).
Context (after : machine A → core → core) (after_sysv : ∀ s c, sysv c (after s c)).
Context (handlersBase coded nonCoded picEoi : Z).
Implicit Types (s : machine A).

Abbreviation run_handler :=
  (call_handler call_routine call_delegate irt GlobalPageDelegate cr2 report print_eoi after).
Abbreviation run_interrupt :=
  (interrupt call_routine call_delegate irt GlobalPageDelegate cr2 report print_eoi after
    handlersBase coded nonCoded picEoi).

Definition code_words (code : option Z) : list Z :=
  match code with Some e => [e] | None => [] end.

(** Where the stub starts, with the vector on top. *)
Definition entry_sp (sp : Z) (code : option Z) : Z :=
  sp - 48 - 8 * Z.of_nat (length (code_words code)).

(** The C++ function that a stub calls, and what it does for vector [v]. *)
Definition stub_call (pic : bool) (code : option Z) : extern :=
  if pic then InterruptPicEoi
  else match code with Some _ => InterruptCoded | None => InterruptNonCoded end.
Definition handler (pic : bool) (v frame cs : Z) (code : option Z) : M (machine A) unit :=
  if pic then Isr.InterruptPicEoi print_eoi v
  else match code with
  | Some e => Isr.InterruptCoded call_routine call_delegate irt GlobalPageDelegate cr2 report v frame cs e
  | None => Isr.InterruptNonCoded call_routine irt report v frame cs
  end.

(** The state in which the stub is entered. *)
Record at_stub (v sp : Z) (code : option Z) (u : context) (st : gmap Z Z) (c : core) : Prop := {
  as_rsp : c.(regs) RSP = entry_sp sp code;
  as_regs : ∀ r, r ≠ RSP → c.(regs) r = u.(cregs) r;
  as_top : top c (v :: code_words code ++ frame_words u);
  as_above : ∀ a, sp ≤ a → c.(stack) !! a = st !! a;
}.

Lemma at_stub_stack v sp code u st c : at_stub v sp code u st c →
  sp mod 16 = 0 → 0x100 ≤ sp < 2 ^ 64 → stub_stack c (v :: code_words code ++ frame_words u).
Proof.
  intros [Hsp _ Ht _] Hm Hs. split; [done|]. unfold room. rewrite Hsp. unfold entry_sp.
  destruct code; cbn [code_words frame_words length app]; (split; [split; [zlia|lia]|lia]).
Qed.

Lemma run_deliver sp code u st s : sp mod 16 = 0 → 0x100 ≤ sp < 2 ^ 64 →
  ∃ c, deliver sp code u st s = Ok (c, set_iflag false s)
    ∧ c.(regs) RSP = entry_sp sp code + 8 ∧ (∀ r, r ≠ RSP → c.(regs) r = u.(cregs) r)
    ∧ top c (code_words code ++ frame_words u) ∧ ∀ a, sp ≤ a → c.(stack) !! a = st !! a.
Proof.
  intros Hm Hs. set (c0 := set_reg RSP sp (mkCore u.(cregs) st)).
  assert (Hsp : c0.(regs) RSP = sp) by apply set_reg_eq.
  set (vs := [u.(css); u.(cregs) RSP; u.(crflags); u.(ccs); u.(crip)]).
  assert (Hpush : ∀ vs v x, (length vs < 8)%nat →
    push v (pushes vs c0) x = Ok (pushes (vs ++ [v]) c0, x : machine A)).
  { intros vs' v x Hlen. rewrite run_push_word.
    - by rewrite pushes_snoc.
    - unfold room. rewrite pushes_rsp, Hsp. split; [zlia|lia]. }
  set (ws := vs ++ code_words code).
  assert (Hws : (pushes ws c0).(regs) RSP = entry_sp sp code + 8).
  { rewrite pushes_rsp, Hsp. unfold entry_sp, ws, vs. destruct code; cbn; lia. }
  exists (pushes ws c0). split_and!; [|done| | |].
  - unfold deliver. run run_modify. fold c0.
    assert (Hfst : ∀ v x, push v c0 x = Ok (pushes [v] c0, x : machine A)) by (intros; apply (Hpush []); cbn; lia).
    run Hfst. do 4 (run Hpush; [|cbn; lia]). cbn [app].
    destruct code as [e|]; [by apply (Hpush vs); cbn; lia|done].
  - intros r Hr. rewrite pushes_reg by done. by apply set_reg_ne.
  - replace (code_words code ++ frame_words u) with (reverse ws ++ []) by (destruct code; reflexivity).
    apply pushes_top, top_nil.
  - intros a Ha. by rewrite pushes_above by lia.
Qed.

Lemma run_run_gate base bs c s v fn :
  (∀ t, Interrupts.rip t = base →
     ∃ t', run_code 7 base bs t = Some t' ∧ entered v fn t t') →
  ∃ c', run_gate base bs c s = Ok ((fn, c'), s) ∧ c'.(regs) RSP = c.(regs) RSP - 8
    ∧ (∀ r, r ≠ RSP → c'.(regs) r = c.(regs) r)
    ∧ c'.(stack) !! (c.(regs) RSP - 8) = Some v
    ∧ ∀ a, c.(regs) RSP ≤ a → c'.(stack) !! a = c.(stack) !! a.
Proof.
  intros Hrun. set (t := Interrupts.mkCore (c.(regs) RAX) (c.(regs) RSP) base c.(stack)).
  destruct (Hrun t eq_refl) as (t' & Ht' & Hrip & Hrax & Hrsp & Htop & Hab).
  eexists. split_and!.
  - unfold run_gate. fold t. by rewrite Ht', Hrip.
  - rewrite set_reg_ne, set_reg_eq by done. exact Hrsp.
  - intros r Hr. destruct (decide (r = RAX)) as [->|Hne]; [by rewrite set_reg_eq|].
    by rewrite !set_reg_ne by done.
  - exact Htop.
  - exact Hab.
Qed.

Lemma run_gate_of idt v fn sp code u st c s :
  dispatches handlersBase idt v fn → c.(regs) RSP = entry_sp sp code + 8 →
  (∀ r, r ≠ RSP → c.(regs) r = u.(cregs) r) → top c (code_words code ++ frame_words u) →
  (∀ a, sp ≤ a → c.(stack) !! a = st !! a) →
  ∃ c', gate handlersBase idt v c s = Ok ((fn, c'), s) ∧ at_stub v sp code u st c'.
Proof.
  intros (e & h & He & Hh & _ & Hg & _ & Hrun) Hsp Hregs Htop Hab.
  destruct (run_run_gate (gate_offset e) (handler_code h) c s v fn Hrun) as (c' & Hr & Hsp' & Hr' & Ht' & Ha').
  exists c'. split.
  - unfold gate. by rewrite He, Hh, (proj2 (Z.eqb_eq _ _) Hg).
  - split.
    + rewrite Hsp', Hsp. lia.
    + intros r Hne. by rewrite Hr', Hregs.
    + intros [|i] w Hi; cbn [lookup list_lookup] in Hi.
      * injection Hi as <-. rewrite Hsp', <-Ht'. f_equal. lia.
      * rewrite Ha' by lia. rewrite <-(Htop i w Hi). f_equal. lia.
    + intros a Ha. rewrite Ha', Hab by (rewrite ?Hsp; unfold entry_sp; lia). done.
Qed.

(** The handler is called on the vector, the frame and the code. *)
Lemma run_call_handler pic v frame cs code c s :
  c.(regs) RDI = v → c.(regs) RSI = frame → (∀ e, code = Some e → c.(regs) RDX = e) →
  word_address (frame + 8) = true → c.(stack) !! (frame + 8) = Some cs →
  run_handler (stub_call pic code) c s = match handler pic v frame cs code s with
    | Ok (_, s') => Ok (after s' c, s')
    | Stop x => Stop x
    end.
Proof.
  intros Hd Hi Hx Hw Hc. unfold call_handler. rewrite Hi.
  run run_read_word; [|done|exact Hc]. rewrite Hd. unfold mbind, M_bind, handler, stub_call.
  destruct pic; [|destruct code as [e|]; [rewrite (Hx e eq_refl)|]];
    by match goal with |- context [match ?m s with _ => _ end] => destruct (m s) as [[[] ?]|] end.
Qed.

Lemma run_iretq sp u (st : gmap Z Z) c s : 0x100 ≤ sp < 2 ^ 64 → sp mod 16 = 0 →
  c.(regs) RSP = sp - 40 → top c (frame_words u) → (∀ r, r ≠ RSP → c.(regs) r = u.(cregs) r) →
  (∀ a, sp ≤ a → c.(stack) !! a = st !! a) →
  ∃ u' (st' : gmap Z Z), iretq c s = Ok ((u', st'), set_iflag (Z.testbit u.(crflags) 9) s)
    ∧ (∀ r, u'.(cregs) r = u.(cregs) r) ∧ u'.(crip) = u.(crip) ∧ u'.(ccs) = u.(ccs)
    ∧ u'.(crflags) = u.(crflags) ∧ u'.(css) = u.(css)
    ∧ ∀ a, sp ≤ a → st' !! a = st !! a.
Proof.
  intros Hs Hm Hsp Ht Hr Hab.
  destruct (run_iretq_frame u c s) as (u' & st' & Hi & Hsp' & Hk & Hrip & Hcs & Hfl & Hss & Hst).
  { split_and!; [done|rewrite Hsp..]; cbn; zlia || lia. }
  exists u', st'. split_and!; try done.
  - intros r. destruct (decide (r = RSP)) as [->|Hne]; [done|]. by rewrite Hk, Hr.
  - intros a Ha. by rewrite Hst, Hab.
Qed.

(** What the stub of a vector does before the call. *)
Definition stub_setup (code : option Z) : list instr :=
  match code with
  | Some _ => [Load RDI RSP 0x48; Lea RSI RSP 0x58; Load RDX RSP 0x50]
  | None => [Load RDI RSP 0x48; Lea RSI RSP 0x50]
  end.
Definition stub_of (pic : bool) (code : option Z) : list instr :=
  if pic then RawIsr.RawPicEoiIsr
  else match code with Some _ => RawIsr.RawCodedIsr | None => RawIsr.RawNonCodedIsr end.

(** From any registers that keep the saved ones. *)
Lemma run_setup gs (call : extern → core → M (machine A) core) v frame code c0 s :
  c0.(regs) RSP + (match code with Some _ => 0x58 | None => 0x50 end) = frame → is_u64 frame →
  (∀ c1, keeps_saved c0 c1 → exec gs call (Load RDI RSP 0x48) c1 s = Ok (set_reg RDI v c1, s)) →
  (∀ e c1, code = Some e → keeps_saved c0 c1 →
    exec gs call (Load RDX RSP 0x50) c1 s = Ok (set_reg RDX e c1, s)) →
  ∃ c1, exec_list gs call (stub_setup code) c0 s = Ok (c1, s)
    ∧ keeps_saved c0 c1 ∧ c1.(regs) RDI = v ∧ c1.(regs) RSI = frame
    ∧ (∀ e, code = Some e → c1.(regs) RDX = e).
Proof.
  intros Hf H64 Hl Hx. set (c2 := set_reg RDI v c0). set (c3 := set_reg RSI frame c2).
  assert (H2 : keeps_saved c0 c2) by (apply keeps_saved_set; [by apply (bool_decide_unpack _)|done]).
  assert (H3 : keeps_saved c0 c3) by (apply keeps_saved_set; [by apply (bool_decide_unpack _)|done]).
  assert (Hlea : exec gs call (Lea RSI RSP (match code with Some _ => 0x58 | None => 0x50 end)) c2 s
    = Ok (c3, s)).
  { cbn [exec]. unfold c2. by rewrite set_reg_ne, Hf, u64_small. }
  destruct code as [e|]; cbn [stub_setup];
    rewrite (exec_list_cons _ _ _ _ _ _ _ _ (Hl c0 (keeps_saved_refl c0))),
      (exec_list_cons _ _ _ _ _ _ _ _ Hlea).
  - exists (set_reg RDX e c3). split; [by rewrite (exec_list_cons _ _ _ _ _ _ _ _ (Hx e c3 eq_refl H3))|].
    split; [by apply keeps_saved_set; [apply (bool_decide_unpack _)|]|]. split; [done|].
    split; [done|]. by intros ? [= <-].
  - by exists c3.
Qed.

Lemma run_stub_setup gs (call : extern → core → M (machine A) core) v sp code u st c s :
  at_stub v sp code u st c → sp mod 16 = 0 → 0x100 ≤ sp < 2 ^ 64 →
  ∃ c1, exec_list gs call (stub_setup code) (saved c) s = Ok (c1, s)
    ∧ keeps_saved (saved c) c1 ∧ c1.(regs) RDI = v ∧ c1.(regs) RSI = sp - 40
    ∧ (∀ e, code = Some e → c1.(regs) RDX = e) ∧ c1.(stack) !! (sp - 40 + 8) = Some u.(ccs).
Proof.
  intros Has Hm Hs. pose proof (at_stub_stack _ _ _ _ _ _ Has Hm Hs) as Hst.
  destruct Has as [Hsp _ Htop _].
  destruct (run_setup gs call v (sp - 40) code (saved c) s) as (c1 & Hr & Hk & Hd & Hi & Hx).
  - rewrite saved_rsp, Hsp. unfold entry_sp. destruct code; cbn; lia.
  - unfold is_u64. lia.
  - intros c1 Hk. exact (run_load_frame _ _ c c1 _ 0 v RDI s Hst eq_refl Hk).
  - intros e c1 -> Hk. exact (run_load_frame _ _ c c1 _ 1 e RDX s Hst eq_refl Hk).
  - exists c1. split_and!; try assumption. destruct Hk as [-> _]. unfold saved.
    rewrite pushes_above by (rewrite Hsp; unfold entry_sp; lia).
    rewrite <-(Htop (2 + length (code_words code))%nat u.(ccs)) by (by destruct code).
    f_equal. rewrite Hsp. unfold entry_sp. lia.
Qed.

(** The stub around the call. *)
Lemma run_stub gs pic v sp code u st c s : at_stub v sp code u st c → (pic = true → code = None) →
  sp mod 16 = 0 → 0x100 ≤ sp < 2 ^ 64 →
  match handler pic v (sp - 40) u.(ccs) code s with
  | Ok (_, s') => ∃ c', exec_list gs run_handler (stub_of pic code) c s = Ok (c', s')
      ∧ c'.(regs) RSP = sp - 40 ∧ top c' (frame_words u)
      ∧ (∀ r, r ≠ RSP → c'.(regs) r = u.(cregs) r) ∧ ∀ a, sp ≤ a → c'.(stack) !! a = st !! a
  | Stop f => exec_list gs run_handler (stub_of pic code) c s = Stop f
  end.
Proof.
  intros Has Hp Hm Hs. pose proof (at_stub_stack _ _ _ _ _ _ Has Hm Hs) as Hst.
  destruct (run_stub_setup gs run_handler _ _ _ _ _ _ s Has Hm Hs) as (c1 & Hset & Hk & Hd & Hi & Hx & Hcs).
  destruct Has as [Hsp Hregs Htop Hab]. set (k := 8 * Z.of_nat (1 + length (code_words code))).
  assert (Hksp : c.(regs) RSP + k = sp - 40) by (rewrite Hsp; unfold entry_sp, k; lia).
  assert (Heq : stub_of pic code = RawIsr.pushunpres ++ stub_setup code
    ++ Call (stub_call pic code) :: RawIsr.popunpres ++ [AddImm RSP k]) 
    by (destruct pic; [specialize (Hp eq_refl); by subst code|by destruct code]).
  rewrite Heq, (run_stub_prefix gs run_handler _ _ _ _ _ _ _ Hst Hset). cbn [exec_list exec].
  pose proof (run_call_handler pic v (sp - 40) u.(ccs) code c1 s Hd Hi Hx
    ltac:(apply word_address_true; zlia) Hcs) as Hcall.
  destruct (handler pic v (sp - 40) u.(ccs) code s) as [[[] s']|f]; [|by apply run_bind_stop].
  run Hcall.
  destruct (run_stub_suffix gs run_handler k c _ s' c1 (after s' c1) Hst Hk (after_sysv _ _))
    as (c' & Hrun & Hsp' & Hr' & Ha'); [unfold k; destruct code; cbn; lia|lia|].
  exists c'. split_and!; [done|lia| | |].
  - intros i w Hi'. rewrite Hsp', Hksp, Ha' by lia.
    rewrite <-(Htop (1 + length (code_words code) + i)%nat w); [f_equal; unfold k in Hksp; lia|].
    change (v :: code_words code ++ frame_words u) with ((v :: code_words code) ++ frame_words u).
    rewrite lookup_app_r by (cbn [length]; lia). rewrite <-Hi'. f_equal. cbn [length]. lia.
  - intros r Hr. by rewrite Hr', Hregs.
  - intros a Ha. rewrite Ha', Hab by (rewrite ?Hsp; unfold entry_sp; lia). done.
Qed.

(** The table of gates: of [Irt::ConfigurePicEoi] or of [Irt::Configure]. *)
Definition configured (pic : bool) (idt : Idt.t) : Idt.t :=
  if pic then Irt.ConfigurePicEoi handlersBase picEoi idt
  else Irt.Configure handlersBase coded nonCoded idt.

Lemma configured_dispatches pic idt v code :
  sized idt → 0 ≤ handlersBase → handlersBase + 0x2000 ≤ 2 ^ 64 →
  Forall is_u64 [coded; nonCoded; picEoi] → NoDup [coded; nonCoded; picEoi] → 0 ≤ v < 256 →
  (is_Some code ↔ pushes_code v) → (pic = true → code = None) →
  ∃ fn, dispatches handlersBase (configured pic idt) v fn ∧
    ∀ s, stub coded nonCoded picEoi fn s = Ok (stub_of pic code, s).
Proof.
  intros Hsz Hb0 Hb Hfn Hnd Hv Hcode Hp.
  rewrite !Forall_cons in Hfn. destruct Hfn as (Hcd & Hnc & Hpi & _).
  assert (coded ≠ nonCoded ∧ coded ≠ picEoi ∧ nonCoded ≠ picEoi) as (N1 & N2 & N3).
  { rewrite !NoDup_cons in Hnd. set_solver. }
  destruct pic.
  - exists picEoi. split; [by apply ConfigurePicEoi_dispatches|]. intros s. unfold stub.
    by rewrite !(proj2 (Z.eqb_neq _ _)), Z.eqb_refl by done.
  - exists (if Irt.hasCode v then coded else nonCoded). split; [by apply Configure_dispatches|].
    intros s. rewrite <-hasCode_spec in Hcode. unfold stub. destruct (Irt.hasCode v), code as [e|].
    + by rewrite Z.eqb_refl.
    + by destruct (proj2 Hcode eq_refl).
    + by discriminate (proj1 Hcode (mk_is_Some _ _ eq_refl)).
    + by rewrite (proj2 (Z.eqb_neq _ _)), Z.eqb_refl by done.
Qed.

(** C35. After [Irt::Configure] or [Irt::ConfigurePicEoi] an interrupt is a call
    of the C++ handler between two instructions.  Delivering vector [v], with
    an error code exactly for the exceptions that have one, runs the thunk of
    its gate and the stub, which call InterruptCoded, InterruptNonCoded or
    InterruptPicEoi with the vector, the frame and the code, in a state that
    differs from the interrupted one only in that interrupts are off.  If the
    handler stops the machine, so does the interrupt.  If it returns, following
    the calling convention, the interrupted code goes on at the same
    instruction, with every register, its selectors, its flags and its stack as
    they were. *)
Theorem interrupt_transparent pic idt v sp code u (st : gmap Z Z) s :
  sized idt → 0 ≤ handlersBase → handlersBase + 0x2000 ≤ 2 ^ 64 →
  Forall is_u64 [coded; nonCoded; picEoi] → NoDup [coded; nonCoded; picEoi] → 0 ≤ v < 256 →
  (is_Some code ↔ pushes_code v) → (pic = true → code = None) → sp mod 16 = 0 → 0x100 ≤ sp < 2 ^ 64 →
  match handler pic v (sp - 40) u.(ccs) code (set_iflag false s) with
  | Ok (_, s') => ∃ u' (st' : gmap Z Z),
      run_interrupt (configured pic idt) v sp code u st s
      = Ok ((u', st'), set_iflag (Z.testbit u.(crflags) 9) s')
      ∧ (∀ r, u'.(cregs) r = u.(cregs) r) ∧ u'.(crip) = u.(crip) ∧ u'.(ccs) = u.(ccs)
      ∧ u'.(crflags) = u.(crflags) ∧ u'.(css) = u.(css)
      ∧ ∀ a, sp ≤ a → st' !! a = st !! a
  | Stop f => run_interrupt (configured pic idt) v sp code u st s = Stop f
  end.
Proof.
  intros Hsz Hb0 Hb Hfn Hnd Hv Hcode Hp Hm Hs.
  destruct (run_deliver sp code u st s Hm Hs) as (c1 & Hd & Hsp1 & Hr1 & Ht1 & Ha1).
  destruct (configured_dispatches pic idt v code Hsz Hb0 Hb Hfn Hnd Hv Hcode Hp) as (fn & Hdis & Hstub).
  destruct (run_gate_of _ _ _ sp code u st c1 (set_iflag false s) Hdis Hsp1 Hr1 Ht1 Ha1) as (c2 & Hg & Has).
  pose proof (run_stub (λ _, stop (Undefined "no GS segment")) pic v sp code u st c2 (set_iflag false s)
    Has Hp Hm Hs) as Hrun.
  unfold interrupt. destruct (handler _ _ _ _ _ _) as [[[] s']|f].
  - destruct Hrun as (c3 & Hx & Hsp3 & Ht3 & Hr3 & Ha3).
    destruct (run_iretq sp u st c3 s' Hs Hm Hsp3 Ht3 Hr3 Ha3) as (u' & st' & Hi & Hrest).
    exists u', st'. split; [|exact Hrest].
    run Hd. run Hg. cbn beta iota. run Hstub. by run Hx.
  - run Hd. run Hg. cbn beta iota. run Hstub. by apply run_bind_stop.
Qed.
End Transparent.

(** The stack pointer at the call: the convention wants a multiple of 16, which
    only the vectors with an error code get. *)
Lemma stub_call_alignment v sp code u st c : at_stub v sp code u st c → sp mod 16 = 0 →
  (saved c).(regs) RSP mod 16 = match code with Some _ => 0 | None => 8 end.
Proof.
  intros [Hsp _ _ _] Hm. rewrite saved_rsp, Hsp. unfold entry_sp. destruct code; cbn; zlia.
Qed.

(** Kernel code at 0x101234 that a timer interrupts. *)
Definition busy : context := mkContext (λ r, match r with RSP => 0x8010 | RAX => 7 | _ => 1 end)
  0x101234 8 0x202 0x10.
Definition busy_machine : machine unit := Machine _ ∅ 0 true true ∅ [] [] tt.
Definition busy_irt : Irt.t := Irt.Set_ 0x20 0x120000 (replicate 256 0).

Lemma interrupt_transparent_witness :
  ∃ u' st', interrupt (λ _ _ _, emit (EvOutB 0x40 0)) (λ _ _ _, mret tt) busy_irt 0 0 (mret tt) (mret tt)
      (λ _ c, c) 0x300000 0x111000 0x222000 0x333000
      (configured 0x300000 0x111000 0x222000 0x333000 false Idt.new) 0x20 0x8000 None busy ∅ busy_machine
    = Ok ((u', st'), push_event (EvOutB 0x40 0) busy_machine)
    ∧ u'.(crip) = 0x101234 ∧ u'.(cregs) RAX = 7 ∧ u'.(cregs) RSP = 0x8010.
Proof.
  generalize (interrupt_transparent (λ _ _ _, emit (EvOutB 0x40 0)) (λ _ _ _, mret tt) busy_irt 0 0
    (mret tt) (mret tt) (λ _ c, c) (λ _ c, Build_sysv c c (λ _ _, eq_refl) (λ _ _, eq_refl))
    0x300000 0x111000 0x222000 0x333000 false Idt.new 0x20 0x8000 None busy ∅ busy_machine
    (conj eq_refl eq_refl) ltac:(lia) ltac:(lia)
    ltac:(repeat (apply Forall_cons; split); [split; by vm_compute..|by apply Forall_nil])
    ltac:(apply (bool_decide_unpack _); by vm_compute) ltac:(lia)
    ltac:(split; [intros [? [=]]|unfold pushes_code; lia]) ltac:(done) eq_refl ltac:(lia)).
  assert (handler (λ _ _ _, emit (EvOutB 0x40 0)) (λ _ _ _, mret tt) busy_irt 0 0 (mret tt)
    (mret tt) false 0x20 (0x8000 - 40) busy.(ccs) None (set_iflag false busy_machine)
    = Ok (tt, push_event (EvOutB 0x40 0) (set_iflag false busy_machine))) as -> by reflexivity.
  intros (u' & st' & Hr & Hregs & Hrip & _). exists u', st'.
  split; [exact Hr|]. clear Hr. rewrite !Hregs. by split_and!.
Defined.
