(* ===== verification/Syscall.v ===== *)
(** * System calls, from user code and back

    The result of a system call (src/arch/api/syscall-ret.hpp), a union in 16
    bytes that the System V convention returns in RAX and RDX, and the entry
    that user code reaches (src/arch/x64/syscall/handler.s), over the C++ entry
    of State.v: a system call is run whole, from the [syscall] instruction to
    the one after it. *)

From stdpp Require Import base numbers list gmap strings.
From Stdlib Require Import ZArith Lia.
From S2P Require Import Prelude Machine Concrete Interrupts Devices Acpi AcpiRoot Apic Segments Clock Processor State Asm.
#[local] Open Scope Z_scope.

(** ** The result *)

(** Little-endian numbers of a given width. *)
Abbreviation le_bytes := Interrupts.le_bytes.

Module SyscallRet.

(** The members of the union. *)
Inductive member : Type :=
  | boolean | integer | integer32 | integer64 | phys | virt | pSize | vSize.

#[export] Instance member_eq_dec : EqDecision member.
Proof. solve_decision. Defined.

Definition width (m : member) : nat :=
  match m with boolean => 1 | integer | integer32 => 4 | _ => 8 end.

(** The eight bytes of [value], and [errorValue], an [int]. *)
Record t : Type := mk { value : list Z; errorValue : Z }.

(** [SyscallRet r;] leaves [value] as the memory was. *)
Definition uninitialized (junk : list Z) : t := mk junk 0.

(** [r.value.m = v], which writes the bytes of the member, and reading it. *)
Definition store (m : member) (v : Z) (r : t) : t :=
  mk (le_bytes (width m) (v mod 256 ^ Z.of_nat (width m)) ++ drop (width m) r.(value)) r.(errorValue).
Definition load (m : member) (bytes : list Z) : Z :=
  let x := le_value (take (width m) bytes) in
  match m with
  | boolean => if truthy x then 1 else 0
  | integer => s32 x
  | _ => x
  end.
Definition read (m : member) (r : t) : Z := load m r.(value).

Section Ops.
(** What the memory of the object held. *)
Context (junk : list Z).

Definition Error {S} (code : Z) : M S t :=
  _ ← assert (negb (code =? 0)) "code != 0";
  mret (mk (uninitialized junk).(value) code).
Definition Empty : t := store boolean 1 (uninitialized junk).
Definition Boolean (b : bool) : t := store boolean (if b then 1 else 0) (uninitialized junk).
Definition Integer (i : Z) : t := store integer i (uninitialized junk).
Definition Integer32 (i : Z) : t := store integer32 i (uninitialized junk).
Definition Integer64 (i : Z) : t := store integer64 i (uninitialized junk).
Definition Phys (p : Z) : t := store phys p (uninitialized junk).
Definition Virt (v : Z) : t := store virt v (uninitialized junk).
Definition PhysSize (p : Z) : t := store pSize p (uninitialized junk).
Definition VirtSize (s : Z) : t := store vSize s (uninitialized junk).
End Ops.

(** The values of a member's type. *)
Definition fits (m : member) (v : Z) : Prop :=
  match m with
  | boolean => v = 0 ∨ v = 1
  | integer => - 2 ^ 31 ≤ v < 2 ^ 31
  | integer32 => 0 ≤ v < 2 ^ 32
  | _ => is_u64 v
  end.

(** A typed result, and the function that builds it. *)
Inductive result : Type :=
  | IsError (code : Z)
  | IsValue (m : member) (v : Z).

Definition build {S} (junk : list Z) (x : result) : M S t :=
  match x with
  | IsError code => Error junk code
  | IsValue m v => mret (match m with
      | boolean => Boolean junk (truthy v)
      | integer => Integer junk v
      | integer32 => Integer32 junk v
      | integer64 => Integer64 junk v
      | phys => Phys junk v
      | virt => Virt junk v
      | pSize => PhysSize junk v
      | vSize => VirtSize junk v
      end)
  end.

Definition typed (x : result) : Prop :=
  match x with
  | IsError code => fits integer code ∧ code ≠ 0
  | IsValue m v => fits m v
  end.

(** The object in memory. *)
Record well_formed (r : t) : Prop := {
  wf_bytes : length r.(value) = 8%nat ∧ Forall (λ b, 0 ≤ b < 256) r.(value);
  wf_error : fits integer r.(errorValue);
}.

(** In registers: RAX is the union, the low half of RDX the error. *)
Definition rax (r : t) : Z := le_value r.(value).
Definition edx (r : t) : Z := u32 r.(errorValue).

(** What user code, which knows the member [m], makes of the registers. *)
Definition of_registers (m : member) (rax rdx : Z) : result :=
  if s32 rdx =? 0 then IsValue m (load m (le_bytes 8 rax)) else IsError (s32 rdx).
End SyscallRet.

(** ** The entry *)

Definition AnarchRawSyscallHandler : list instr :=
  [ Swapgs;                (* get our CPU data section *)
    Mov R10 RSP;           (* save the user stack *)
    LoadGs RSP 0x8;        (* syscallStack field *)
    (* the old user stack pointer and the return address *)
    Push R10;
    Push RCX;
    (* the 4th argument, since this register was used by SYSCALL *)
    Mov RCX RBX;
    Call AnarchSyscallMainEntry;   (* sets RAX and RDX to return value *)
    Pop RCX;
    Pop RSP;
    MovImm R11 0x200;
    Swapgs ].

Section Entry.
Context `{AnsaRational}.
Context (offLocalData rawHandler : Z).
(** Running the handler that is set, and what the compiled entry leaves in the
    registers and below the stack when it returns a result. *)
Context (call : Z → Z → SyscallArgs.t → M (machine smp) SyscallRet.t).
Context (after : machine smp → SyscallRet.t → core → core).

(** The words of [Cpu::LocalData], which the GS segment starts with. *)
Definition gs_word (disp : Z) : M (machine smp) Z :=
  this ← gs_object offLocalData;
  c ← load this;
  if disp =? 0 then mret c.(Cpu.thisCpu)
  else if disp =? 8 then mret c.(Cpu.syscallStack)
  else if disp =? 16 then mret c.(Cpu.userData)
  else stop (Undefined "outside LocalData").

Definition call_entry (f : extern) (c : core) : M (machine smp) core :=
  match f with
  | AnarchSyscallMainEntry =>
      r ← Syscalls.MainEntry call (c.(regs) RDI) (c.(regs) RSI) (c.(regs) RDX) (c.(regs) RCX)
            (c.(regs) R8) (c.(regs) R9);
      s ← get;
      mret (after s r c)
  | _ => stop (Undefined "not the entry of a system call")
  end.

(** [syscall] and [sysretq]. *)
Definition syscall_instr (u : context) (st : gmap Z Z) : M (machine smp) core :=
  s ← get;
  let e := syscall_enters s u.(crflags) in
  _ ← modify (set_iflag (Z.testbit e.(to_rflags) 9));
  if e.(to_rip) =? rawHandler
  then mret (set_reg RCX u.(crip) (set_reg R11 u.(crflags) (mkCore u.(cregs) st)))
  else stop (Undefined "LSTAR is not the handler").

Definition sysret_instr (c : core) : M (machine smp) (context * gmap Z Z) :=
  s ← get;
  let e := sysret_enters s (c.(regs) RCX) (c.(regs) R11) in
  _ ← modify (set_iflag (Z.testbit e.(to_rflags) 9));
  mret (mkContext c.(regs) e.(to_rip) e.(to_cs) e.(to_rflags) e.(to_ss), c.(stack)).

(** A system call of [u], whose instruction pointer is after the instruction. *)
Definition system_call (u : context) (st : gmap Z Z) : M (machine smp) (context * gmap Z Z) :=
  c ← syscall_instr u st;
  c ← exec_list gs_word call_entry AnarchRawSyscallHandler c;
  sysret_instr c.
End Entry.

(** ** The union and the registers *)

Module RetLemmas.
Import SyscallRet.

Lemma length_number n x : length (le_bytes n x) = n.
Proof. revert x. induction n as [|n IH]; intros x; [done|]. cbn. by rewrite IH. Qed.

Lemma number_range n x : Forall (λ b, 0 ≤ b < 256) (le_bytes n x).
Proof. revert x. induction n as [|n IH]; intros x; [constructor|]. constructor; [by apply Z.mod_pos_bound|apply IH]. Qed.

Lemma number_value bs : Forall (λ b, 0 ≤ b < 256) bs → le_bytes (length bs) (le_value bs) = bs.
Proof.
  induction 1 as [|b bs Hb _ IH]; [done|]. cbn beta in Hb.
  cbn [length le_bytes le_value]. f_equal; [zlia|].
  transitivity (le_bytes (length bs) (le_value bs)); [f_equal; zlia|done].
Qed.

Lemma s32_u32 x y : u32 x = u32 y → s32 x = s32 y.
Proof. unfold s32. by intros ->. Qed.

Lemma s32_edx rdx e : fits integer e → u32 rdx = u32 e → s32 rdx = e.
Proof.
  cbn [fits]. intros He Hr. rewrite (s32_u32 _ e Hr). unfold s32, u32.
  case_test; zlia.
Qed.

(** A value comes back from its representation. *)
Lemma load_number m v bs : fits m v →
  load m (le_bytes (width m) (v mod 256 ^ Z.of_nat (width m)) ++ bs) = v.
Proof.
  intros Hv. unfold load. rewrite take_app_length' by (by rewrite length_number).
  rewrite le_value_bytes, Z.mod_mod by (try apply Z.mod_pos_bound; destruct m; done).
  destruct m; cbn [width fits] in *; [by destruct Hv as [->| ->]| |by apply Z.mod_small..].
  apply s32_edx; [done|]. unfold u32. change (256 ^ Z.of_nat 4) with (2 ^ 32). by rewrite Z.mod_mod.
Qed.

Lemma member_width m : (width m ≤ 8)%nat.
Proof. destruct m; cbn; lia. Qed.

Lemma store_well_formed m v r : well_formed r → well_formed (store m v r).
Proof.
  intros [[Hl Hb] He]. split; [|done]. cbn [store value]. split.
  - rewrite length_app, length_number, length_drop, Hl. pose proof (member_width m). lia.
  - apply Forall_app. split; [apply number_range|by apply Forall_drop].
Qed.

Lemma load_rax m r : well_formed r → load m (le_bytes 8 (rax r)) = read m r.
Proof.
  intros [[Hl Hb] _]. unfold rax. rewrite <-Hl, number_value by done. done.
Qed.

Lemma of_registers_error m r rdx : well_formed r → u32 rdx = edx r → r.(errorValue) ≠ 0 →
  of_registers m (rax r) rdx = IsError r.(errorValue).
Proof.
  intros [_ He] Hx Hne. unfold of_registers. rewrite (s32_edx _ _ He Hx).
  by rewrite (proj2 (Z.eqb_neq _ _) Hne).
Qed.

Lemma of_registers_value m r rdx : well_formed r → u32 rdx = edx r → r.(errorValue) = 0 →
  of_registers m (rax r) rdx = IsValue m (read m r).
Proof.
  intros Hwf Hx Hz. pose proof Hwf as [_ He]. unfold of_registers.
  by rewrite (s32_edx _ _ He Hx), Hz, load_rax.
Qed.

(** C37. A system call's result keeps its type on the way to user code: a result
    that is built from a value of a member's type, or from an error code of
    type [int] other than 0, is an object of eight bytes and an [int] that the
    registers RAX and RDX give back as the same error, or as the same value
    under the same member, whatever the memory and the upper half of RDX held;
    a full-width member may be read as any other.  An error leaves all of RAX,
    and a narrow value its upper bytes, as the memory was.  The error code 0 is
    refused. *)
Theorem SyscallRet_typed {S} (junk : list Z) (x : result) (s : S)
  (Hl : length junk = 8%nat) (Hb : Forall (λ b, 0 ≤ b < 256) junk) :
  build junk (IsError 0) s = Stop (AssertFail "code != 0") ∧
  (typed x → ∃ r, build junk x s = Ok (r, s) ∧ well_formed r ∧
    ∀ rdx, u32 rdx = edx r →
      match x with
      | IsError code => (∀ m, of_registers m (rax r) rdx = IsError code) ∧ r.(value) = junk
      | IsValue m v => of_registers m (rax r) rdx = IsValue m v
          ∧ (∀ m', width m = 8%nat → width m' = 8%nat → of_registers m' (rax r) rdx = IsValue m' v)
          ∧ drop (width m) r.(value) = drop (width m) junk
      end).
Proof.
  split; [done|]. assert (Hj : well_formed (uninitialized junk)) by (split; [done|cbn; lia]).
  destruct x as [code|m v]; cbn [typed].
  - intros [Hc Hne]. assert (Hwf : well_formed (mk junk code)) by (split; [done|exact Hc]).
    exists (mk junk code). split_and!; [|done|].
    + cbn [build]. unfold Error. by run_assert (apply negb_true_iff, Z.eqb_neq).
    + intros rdx Hx. split; [|done]. intros m. by apply (of_registers_error m (mk junk code)).
  - intros Hv. exists (store m v (uninitialized junk)).
    pose proof (store_well_formed m v _ Hj) as Hwf. split_and!; [|done|].
    + destruct m; try done. cbn [fits] in Hv. by destruct Hv as [->| ->].
    + intros rdx Hx.
      assert (Hread : ∀ m', m' = m ∨ width m = 8%nat ∧ width m' = 8%nat →
        read m' (store m v (uninitialized junk)) = v).
      { intros m' [->|[Hm Hm']]; [by apply load_number|].
        transitivity (read m (store m v (uninitialized junk))); [|by apply load_number].
        destruct m, m'; try done. }
      split_and!.
      * by rewrite of_registers_value, Hread by auto.
      * intros m' Hm Hm'. by rewrite of_registers_value, Hread by auto.
      * cbn [store value]. by rewrite drop_app_length' by (by rewrite length_number).
Qed.

Lemma SyscallRet_typed_witness :
  ∃ r, build (replicate 8 0xcc) (IsValue integer (-5)) tt = Ok (r, tt) ∧
    of_registers integer (rax r) 0x700000000 = IsValue integer (-5) ∧
    drop 4 r.(value) = [0xcc; 0xcc; 0xcc; 0xcc].
Proof.
  destruct (SyscallRet_typed (replicate 8 0xcc) (IsValue integer (-5)) tt eq_refl
    ltac:(repeat constructor; lia)) as [_ H].
  destruct H as (r & Hr & _ & Hx); [cbn; lia|].
  exists r. split; [exact Hr|]. injection Hr as <-. destruct (Hx 0x700000000 eq_refl) as (Hm & _ & Hd).
  split; [exact Hm|exact Hd].
Defined.
End RetLemmas.

(** ** A system call *)

Section Roundtrip.
Context `{AnsaRational}.
Context (offLocalData rawHandler : Z).
Context (call : Z → Z → SyscallArgs.t → M (machine smp) SyscallRet.t).
Context (after : machine smp → SyscallRet.t → core → core).
Implicit Types (s : machine smp).

(** The compiled entry follows the convention. *)
Record returns_result : Prop := {
  after_sysv : ∀ s r c, sysv c (after s r c);
  after_rax : ∀ s r c, (after s r c).(regs) RAX = SyscallRet.rax r;
  after_edx : ∀ s r c, u32 ((after s r c).(regs) RDX) = SyscallRet.edx r;
}.
Context (Hret : returns_result).

(** The processor: its registers are set, its object has a stack for system
    calls that ends at [top], and the module has a handler. *)
Record serves s (this top h : Z) : Prop := {
  sv_ready : call_ready rawHandler s;
  sv_gs : msr s LocalSegment.KERNEL_GS_BASE = this + offLocalData;
  sv_cpu : ∃ c, s.(alloc).(cpus) !! this = Some c ∧ c.(Cpu.syscallStack) = top;
  sv_top : top mod 16 = 0 ∧ 0x100 ≤ top < 2 ^ 64;
  sv_handler : s.(alloc).(syscall).(SyscallModule.handler) = h ∧ h ≠ 0;
}.

(** The state in which the handler runs. *)
Definition entered_state s : machine smp := LocalSegment.swapgs (set_iflag false s).

Lemma entered_msr s cell : cell ≠ LocalSegment.GS_BASE → cell ≠ LocalSegment.KERNEL_GS_BASE →
  msr (entered_state s) cell = msr s cell.
Proof. intros H1 H2. unfold msr, entered_state. cbn. by rewrite !lookup_insert_ne by congruence. Qed.

Lemma run_gs_stack s this top h : serves s this top h →
  gs_word offLocalData 8 (entered_state s) = Ok (top, entered_state s).
Proof.
  intros [_ Hgs (c & Hc & <-) _ _]. unfold gs_word, gs_object, Processor.load.
  run run_gets. change (default 0 (msrs (entered_state s) !! 3221225729))
    with (msr (entered_state s) LocalSegment.GS_BASE).
  unfold entered_state. rewrite (proj1 (swapgs_registers _)). change (msr (set_iflag false s)) with (msr s).
  change 3221225730 with LocalSegment.KERNEL_GS_BASE. rewrite Hgs.
  replace (this + offLocalData - offLocalData) with this by lia.
  unfold_m. change (alloc (LocalSegment.swapgs (set_iflag false s))) with (alloc s). by rewrite Hc.
Qed.

Lemma run_MainEntry s this top h a b c d e f : serves s this top h →
  Syscalls.MainEntry call a b c d e f (entered_state s)
  = call h (u16 a) (SyscallArgs.new b c d e f) (entered_state s).
Proof.
  intros [_ _ _ _ [Hh Hne]]. unfold Syscalls.MainEntry.
  run run_AssertCritical; [|by right]. run run_gets.
  change (alloc (entered_state s)) with (alloc s). rewrite Hh.
  by run_assert (unfold truthy; rewrite (proj2 (Z.eqb_neq _ _)) by done).
Qed.

(** The registers the entry is called with. *)
Definition called (u : context) (st : gmap Z Z) (top : Z) : core :=
  let c := set_reg RCX u.(crip) (set_reg R11 u.(crflags) (mkCore u.(cregs) st)) in
  let c := set_reg RSP top (set_reg R10 (u.(cregs) RSP) c) in
  set_reg RCX (u.(cregs) RBX) (pushed u.(crip) (pushed (u.(cregs) RSP) c)).

Lemma called_facts u st top :
  (called u st top).(regs) RSP = top - 16
  ∧ Asm.top (called u st top) [u.(crip); u.(cregs) RSP]
  ∧ (∀ r, r ∉ [RCX; R10; R11; RSP] → (called u st top).(regs) r = u.(cregs) r)
  ∧ (called u st top).(regs) RCX = u.(cregs) RBX
  ∧ ∀ a, top ≤ a → (called u st top).(stack) !! a = st !! a.
Proof.
  unfold called. set (c := set_reg RSP top _).
  assert (Hsp : c.(regs) RSP = top) by apply set_reg_eq. split_and!.
  - rewrite set_reg_ne, !pushed_rsp, Hsp by done. lia.
  - apply (pushed_top u.(crip)), pushed_top, top_nil.
  - intros r Hr. rewrite !not_elem_of_cons in Hr. destruct Hr as (? & ? & ? & ? & _).
    rewrite set_reg_ne, !pushed_reg by done. unfold c. by rewrite !set_reg_ne.
  - apply set_reg_eq.
  - intros a Ha. cbn [stack set_reg]. by rewrite !pushed_above by (rewrite ?pushed_rsp; lia).
Qed.

(** The handler up to the call. *)
Lemma run_entry_prefix l u st s this top h : serves s this top h →
  exec_list (gs_word offLocalData) (call_entry call after)
    (Swapgs :: Mov R10 RSP :: LoadGs RSP 0x8 :: Push R10 :: Push RCX :: Mov RCX RBX :: l)
    (set_reg RCX u.(crip) (set_reg R11 u.(crflags) (mkCore u.(cregs) st))) (set_iflag false s)
  = exec_list (gs_word offLocalData) (call_entry call after) l (called u st top) (entered_state s).
Proof.
  intros Hs. pose proof Hs as [_ _ _ [Hm Ht] _]. cbn [exec_list exec].
  set (c0 := set_reg RCX _ _). set (c2 := set_reg RSP top (set_reg R10 (c0.(regs) RSP) c0)).
  assert (Hsp : c2.(regs) RSP = top) by apply set_reg_eq.
  erewrite run_bind; [|run run_modify; reflexivity].
  erewrite run_bind; [|apply run_ret].
  erewrite run_bind; [|erewrite run_bind; [|by eapply run_gs_stack]; reflexivity]. fold c2.
  run run_push_word; [|unfold room; rewrite Hsp; split; [zlia|lia]].
  run run_push_word; [|unfold room; rewrite pushed_rsp, Hsp; split; [zlia|lia]].
  erewrite run_bind; [|apply run_ret]. f_equal.
Qed.

(** The handler after the call, and [sysretq]. *)
Lemma run_entry_suffix c u s : to_pop c [u.(crip); u.(cregs) RSP] → msr s Syscalls.MsrSTAR = star →
  ∃ u', (c' ← exec_list (gs_word offLocalData) (call_entry call after)
            [Pop RCX; Pop RSP; MovImm R11 0x200; Swapgs] c; sysret_instr c') s
      = Ok ((u', c.(stack)), set_iflag true (LocalSegment.swapgs s))
    ∧ u'.(crip) = u.(crip) ∧ u'.(ccs) = 0x23 ∧ u'.(css) = 0x1b ∧ u'.(crflags) = 0x200
    ∧ u'.(cregs) RSP = u.(cregs) RSP
    ∧ ∀ r, r ∉ [RCX; R11; RSP] → u'.(cregs) r = c.(regs) r.
Proof.
  intros Hp Hstar.
  destruct (run_pop_next _ _ _ s Hp) as (c1 & Hr1 & Hp1 & Hs1 & Hk1).
  assert (Hp1' : to_pop (set_reg RCX u.(crip) c1) [u.(cregs) RSP]).
  { destruct Hp1 as (Ht & ?). split; [|by rewrite set_reg_ne].
    intros i v Hi. rewrite set_reg_ne by done. by apply Ht. }
  destruct (run_pop_next _ _ _ s Hp1') as (c2 & Hr2 & _ & Hs2 & Hk2).
  set (c3 := set_reg R11 0x200 (set_reg RSP (u.(cregs) RSP) c2)).
  set (s1 := LocalSegment.swapgs s).
  assert (Hst : msr s1 Syscalls.MsrSTAR = star).
  { unfold s1, msr in *. cbn. by rewrite !lookup_insert_ne. }
  assert (Hrcx : c3.(regs) RCX = u.(crip)).
  { unfold c3. rewrite !set_reg_ne, Hk2 by done. apply set_reg_eq. }
  assert (Hr11 : c3.(regs) R11 = 0x200) by apply set_reg_eq.
  destruct (star_selectors s1 0 (c3.(regs) RCX) (c3.(regs) R11) Hst) as (_ & _ & Hcs & Hss).
  exists (mkContext c3.(regs) u.(crip) 0x23 0x200 0x1b). split_and!; try done.
  - erewrite run_bind with (a := c3) (s' := s1).
    + unfold sysret_instr. erewrite run_bind; [|reflexivity]. cbn beta zeta.
      run run_modify. rewrite Hcs, Hss. cbn [to_rip to_rflags sysret_enters]. rewrite Hrcx, Hr11.
      unfold mret, M_ret. do 3 f_equal. by unfold c3; cbn [stack set_reg]; rewrite Hs2; cbn; rewrite Hs1.
    + cbn [exec_list exec]. erewrite run_bind; [|run Hr1; reflexivity].
      erewrite run_bind; [|run Hr2; reflexivity]. erewrite run_bind; [|apply run_ret].
      erewrite run_bind; [|run run_modify; reflexivity]. done.
  - intros r Hr. rewrite !not_elem_of_cons in Hr. destruct Hr as (? & ? & ? & _).
    cbn [cregs]. unfold c3. rewrite !set_reg_ne, Hk2 by done. by rewrite set_reg_ne, Hk1.
Qed.

(** The instruction, and the call of the entry. *)
Lemma run_syscall_instr u st s this top h : serves s this top h →
  syscall_instr rawHandler u st s
  = Ok (set_reg RCX u.(crip) (set_reg R11 u.(crflags) (mkCore u.(cregs) st)), set_iflag false s).
Proof.
  intros [(_ & Hm & Hl) _ _ _ _]. unfold syscall_instr.
  erewrite run_bind; [|reflexivity]. cbn zeta. rewrite mask_flags by done. run run_modify.
  cbn [to_rip syscall_enters]. by rewrite Hl, Z.eqb_refl.
Qed.

Lemma run_call_entry u st s this top h : serves s this top h →
  call_entry call after AnarchSyscallMainEntry (called u st top) (entered_state s)
  = match call h (u16 (u.(cregs) RDI)) (SyscallArgs.new (u.(cregs) RSI) (u.(cregs) RDX)
      (u.(cregs) RBX) (u.(cregs) R8) (u.(cregs) R9)) (entered_state s) with
    | Ok (r, s2) => Ok (after s2 r (called u st top), s2)
    | Stop f => Stop f
    end.
Proof.
  intros Hs. destruct (called_facts u st top) as (_ & _ & Hregs & Hrcx & _).
  unfold call_entry, mbind, M_bind. erewrite run_MainEntry by done. rewrite Hrcx.
  rewrite !Hregs by (by apply (bool_decide_unpack _)). by destruct (call _ _ _ _) as [[r s2]|f].
Qed.

(** C36. A system call runs the handler that is set, in the kernel: with
    interrupts off, the GS base of the processor's object, the number in the
    low 16 bits of RDI and the arguments in RSI, RDX, RBX, R8 and R9.
    If the handler stops the machine so does the call.  If it returns, the user
    code goes on after the instruction with its own selectors and stack
    pointer, the registers that a function keeps, and interrupts on, the result
    in RAX and RDX so that it reads back as the result that was returned, the
    stack above the kernel's untouched; and when the handler left the GS bases
    alone, they are the user's again. *)
Theorem system_call_roundtrip u (st : gmap Z Z) s this top h :
  serves s this top h →
  match call h (u16 (u.(cregs) RDI))
    (SyscallArgs.new (u.(cregs) RSI) (u.(cregs) RDX) (u.(cregs) RBX) (u.(cregs) R8) (u.(cregs) R9))
    (entered_state s) with
  | Stop f => system_call offLocalData rawHandler call after u st s = Stop f
  | Ok (r, s2) => msr s2 Syscalls.MsrSTAR = star → SyscallRet.well_formed r →
      ∃ u' (st' : gmap Z Z) s3,
        system_call offLocalData rawHandler call after u st s = Ok ((u', st'), s3)
        ∧ s3 = set_iflag true (LocalSegment.swapgs s2)
        ∧ u'.(crip) = u.(crip) ∧ u'.(ccs) = 0x23 ∧ u'.(css) = 0x1b ∧ u'.(crflags) = 0x200
        ∧ (∀ x, x ∈ callee_saved → u'.(cregs) x = u.(cregs) x)
        ∧ (∀ m, SyscallRet.of_registers m (u'.(cregs) RAX) (u'.(cregs) RDX)
            = if r.(SyscallRet.errorValue) =? 0 then SyscallRet.IsValue m (SyscallRet.read m r)
              else SyscallRet.IsError r.(SyscallRet.errorValue))
        ∧ (∀ a, top ≤ a → st' !! a = st !! a)
        ∧ ((∀ x, x = LocalSegment.GS_BASE ∨ x = LocalSegment.KERNEL_GS_BASE →
              msr s2 x = msr (entered_state s) x) →
           ∀ x, x = LocalSegment.GS_BASE ∨ x = LocalSegment.KERNEL_GS_BASE → msr s3 x = msr s x)
  end.
Proof.
  intros Hs. destruct (called_facts u st top) as (Hsp & Htop & Hregs & _ & Hab).
  pose proof (run_syscall_instr u st s this top h Hs) as Hin.
  pose proof (run_call_entry u st s this top h Hs) as Hmain.
  destruct (call _ _ _ _) as [[r s2]|f].
  - intros Hstar Hwf. pose proof (after_sysv Hret s2 r (called u st top)) as Hsv.
    set (c := after s2 r (called u st top)) in *.
    assert (Hp : to_pop c [u.(crip); u.(cregs) RSP]).
    { destruct Hs as [_ _ _ [Hm Ht] _]. split; [by eapply top_sysv|].
      destruct Hsv as [-> _]; [|by apply (bool_decide_unpack _)]. rewrite Hsp. cbn [length].
      split_and!; [zlia|lia|lia]. }
    destruct (run_entry_suffix c u s2 Hp Hstar) as (u' & Hrun & Hrip & Hcs & Hss & Hfl & Hrsp & Hk).
    exists u', c.(stack), (set_iflag true (LocalSegment.swapgs s2)). split_and!; try done.
    + unfold system_call. run Hin. unfold AnarchRawSyscallHandler.
      unfold mbind, M_bind at 1. erewrite run_entry_prefix by done. cbn [exec_list exec].
      unfold mbind, M_bind at 1. rewrite Hmain. exact Hrun.
    + intros x Hx. destruct (decide (x = RSP)) as [->|Hne]; [done|].
      assert (x ∉ [RCX; R11; RSP] ∧ x ∉ [RCX; R10; R11; RSP]) as [Hx1 Hx2]
        by (clear -Hx Hne; destruct x; first [done|exfalso; revert Hx; apply (bool_decide_unpack _); done|split; apply (bool_decide_unpack _); done]).
      rewrite Hk by done. destruct Hsv as [-> _]; [|done]. by apply Hregs.
    + intros m. rewrite !Hk by (by apply (bool_decide_unpack _)). unfold c. rewrite (after_rax Hret).
      pose proof (after_edx Hret s2 r (called u st top)) as Hedx.
      destruct (Z.eqb_spec r.(SyscallRet.errorValue) 0).
      * by apply RetLemmas.of_registers_value.
      * by apply RetLemmas.of_registers_error.
    + intros a Ha. destruct Hsv as [_ ->]; [by apply Hab|rewrite Hsp; lia].
    + intros Hgs x Hx. change (msr (set_iflag true ?y)) with (msr y).
      destruct (swapgs_registers s2) as [H1 H2]. destruct (swapgs_registers (set_iflag false s)) as [H3 H4].
      destruct Hx as [->| ->]; [etransitivity; [exact H1|]; rewrite Hgs by auto; exact H4
        |etransitivity; [exact H2|]; rewrite Hgs by auto; exact H3].
  - unfold system_call. run Hin. unfold AnarchRawSyscallHandler.
    unfold mbind, M_bind at 1. erewrite run_entry_prefix by done. cbn [exec_list exec].
    unfold mbind, M_bind at 1. by rewrite Hmain.
Qed.
End Roundtrip.

(** ** Example *)

(** A processor whose system calls answer with their number. *)
Definition answer (h n : Z) (args : SyscallArgs.t) : M (machine smp) SyscallRet.t :=
  mret (SyscallRet.Integer (replicate 8 0xcc) n).
Definition answered (s : machine smp) (r : SyscallRet.t) (c : core) : core :=
  set_reg RAX (SyscallRet.rax r) (set_reg RDX (SyscallRet.edx r) c).

Lemma answered_returns : returns_result answered.
Proof.
  split; [split; [|done]| |].
  - intros x Hx. unfold answered.
    rewrite !set_reg_ne; [done|intros ->; revert Hx; by apply (bool_decide_unpack _)..].
  - intros s r c. apply set_reg_eq.
  - intros s r c. unfold answered. rewrite set_reg_ne, set_reg_eq by done.
    unfold SyscallRet.edx, u32. by rewrite Z.mod_mod.
Qed.

Definition call_smp : machine smp :=
  set_msrs {[Syscalls.MsrSTAR := star; Syscalls.MsrSFMask := 0x200; Syscalls.MsrLSTAR := 0x110000;
             0xc0000102 := 0x300040]}
    (set_alloc (set_syscall (SyscallModule.mk 0x130000 0) (set_cpus
      {[0x300000 := Cpu.set_kernel_top 0x108000 user_cpu]} example_smp.(alloc))) example_smp).

(** User code that makes the call 42. *)
Definition caller : context :=
  mkContext (λ r, match r with RDI => 42 | RSP => 0x7ff8 | RBX => 3 | _ => 0 end) 0x400002 0x23 0x202 0x1b.

Lemma call_smp_serves : serves 0x40 0x110000 call_smp 0x300000 0x108000 0x130000.
Proof.
  split; [split_and!; reflexivity|reflexivity| |split; [reflexivity|lia]|split; [reflexivity|lia]].
  eexists. split; reflexivity.
Qed.

Lemma system_call_roundtrip_witness :
  ∃ u' st' s', system_call 0x40 0x110000 answer answered caller ∅ call_smp = Ok ((u', st'), s')
    ∧ u'.(crip) = 0x400002 ∧ u'.(cregs) RSP = 0x7ff8
    ∧ SyscallRet.of_registers SyscallRet.integer (u'.(cregs) RAX) (u'.(cregs) RDX)
      = SyscallRet.IsValue SyscallRet.integer 42.
Proof.
  pose proof (system_call_roundtrip 0x40 0x110000 answer answered answered_returns caller ∅ call_smp
    0x300000 0x108000 0x130000 call_smp_serves) as H.
  destruct H as (u' & st' & s' & Hr & _ & Hrip & _ & _ & _ & Hk & Hm & _); [reflexivity| |].
  { split; [split; [reflexivity|repeat constructor; by vm_compute]|by vm_compute]. }
  exists u', st', s'. split; [exact Hr|]. clear Hr. split; [exact Hrip|].
  split; [rewrite Hk; [reflexivity|by apply (bool_decide_unpack _)]|].
  rewrite Hm. by vm_compute.
Defined.
