(* ===== verification/Switch.v ===== *)
(** * Switching threads

    The inline assembly of src/arch/x64/state/state.cpp and smp/cpu.cpp, over the
    registers and the memory of Asm.v: [State::SuspendAndCall] saves where its
    caller is in the state and calls a function on the stack of the processor,
    [State::Resume] copies the saved frame to its stack and enters it with
    [iretq], and [Thread::RunSync] leaves the current stack for good. *)

From stdpp Require Import base numbers list gmap strings.
From Stdlib Require Import ZArith Lia.
From S2P Require Import Prelude Machine Concrete Interrupts Asm.
#[local] Open Scope Z_scope.

(** ** Instructions *)

Inductive switch_instr : Type :=
  | Plain (i : instr)
  | Store (base : reg) (disp : Z) (s : reg)     (* mov [base + disp], s *)
  | Pushfq
  | RepMovsq
  | CallReg (r : reg) (back : Z).               (* call *r, from before [back] *)

Section Switch.
Context {A : Type}.
(** The flags of the processor. *)
Context (flags : Z).

(** The words that [rep movsq] copies, forwards. *)
Fixpoint movsq (n : nat) (c : core) : M (machine A) core :=
  match n with
  | O => mret c
  | S n =>
      v ← read_word (c.(regs) RSI) c;
      c ← write_word (c.(regs) RDI) v c;
      movsq n (set_reg RCX (c.(regs) RCX - 1) (set_reg RDI (c.(regs) RDI + 8)
        (set_reg RSI (c.(regs) RSI + 8) c)))
  end.

(** None of the plain instructions of this file calls or uses GS. *)
Definition exec_switch (i : switch_instr) (c : core) : M (machine A) core :=
  match i with
  | Plain i => exec (λ _, stop (Undefined "GS")) (λ _ _, stop (Undefined "call")) i c
  | Store base disp r => write_word (c.(regs) base + disp) (c.(regs) r) c
  | Pushfq => push flags c
  | RepMovsq => movsq (Z.to_nat (c.(regs) RCX)) c
  | CallReg r back => push back c
  end.

Fixpoint exec_switches (l : list switch_instr) (c : core) : M (machine A) core :=
  match l with
  | [] => mret c
  | i :: l => c ← exec_switch i c; exec_switches l c
  end.

(** ** The code *)

(** &iretInfo is in RDI for [SuspendAndCall(func)] and in RSI for
    [SuspendAndCall(func, arg)], which has the argument in RDI; the top of the
    processor's stack is in RCX and the function in RBX; [back] is the label
    after the call. *)
Definition suspend_asm (info : reg) (back : Z) : list switch_instr :=
  [ Plain (MovImm RAX back);
    Store info 0 RAX;           (* save RIP *)
    Pushfq;
    Plain (Pop RAX);
    Store info 0x10 RAX;        (* save RFLAGS *)
    Store info 0x18 RSP;        (* save RSP *)
    Plain (Mov RSP RCX);        (* load new RSP *)
    CallReg RBX back ].

(** The function that is entered, and the registers and memory it finds.  [info]
    is &iretInfo; [arg] is there in the second form. *)
Definition SuspendAndCall (back info : Z) (arg : option Z) (c : core) : M (machine A) (Z * core) :=
  _ ← AssertCritical;
  c ← write_word (info + 8) 8 c;     (* iretInfo.cs *)
  c ← write_word (info + 0x20) 0 c;  (* iretInfo.ss *)
  let func := c.(regs) RBX in
  c ← match arg with
      | None => exec_switches (suspend_asm RDI back) (set_reg RDI info c)
      | Some arg => exec_switches (suspend_asm RSI back) (set_reg RDI arg (set_reg RSI info c))
      end;
  mret (func, c).

(** [Resume]: &iretInfo is in RSI and the argument in RDX. *)
Definition resume_asm : list switch_instr :=
  [ Plain (AddImm RSP (-0x28));
    Plain (MovImm RCX 5);
    Plain (Mov RDI RSP);
    RepMovsq;
    Plain (Mov RDI RDX) ].

Definition enter_frame (c : core) : M (machine A) (context * gmap Z Z) :=
  c ← exec_switches resume_asm c; iretq c.

(** The whole function but for [SetAsyncKernelTop], which is in State.v. *)
Definition Resume (info arg : Z) (c : core) : M (machine A) (context * gmap Z Z) :=
  _ ← AssertCritical;
  cs ← read_word (info + 8) c;
  _ ← (if truthy (cs .& 3) then modify LocalSegment.swapgs else mret tt);
  enter_frame (set_reg RDX arg (set_reg RSI info c)).

(** [Thread::RunSync]: the stack top is in RAX, the function in RSI and its
    argument in RDI. *)
Definition run_sync_asm (back : Z) : list switch_instr := [ Plain (Mov RSP RAX); CallReg RSI back ].
Definition RunSync (back : Z) (c : core) : M (machine A) (Z * core) :=
  _ ← AssertCritical;
  let func := c.(regs) RSI in c ← exec_switches (run_sync_asm back) c; mret (func, c).
End Switch.

(** ** Running the code *)

Lemma set_word_regs a v c : (set_word a v c).(regs) = c.(regs).
Proof. done. Qed.
Lemma set_word_eq a v c : (set_word a v c).(stack) !! a = Some v.
Proof. apply lookup_insert_eq. Qed.
Lemma set_word_ne a v c b : b ≠ a → (set_word a v c).(stack) !! b = c.(stack) !! b.
Proof. intros. by apply lookup_insert_ne. Qed.

(** Read the registers of a core that is written down. *)
Ltac regs := repeat first [rewrite set_word_regs | rewrite set_reg_eq | rewrite set_reg_ne by done].
Ltac words := repeat first [rewrite set_reg_stack | rewrite set_word_eq | rewrite set_word_ne by lia].

(** Five words, as the frame of [iretq] has. *)
Definition in_frame (info a : Z) : Prop := info ≤ a < info + 40.

Section Running.
Context {A : Type} (flags : Z).
Implicit Types (s : machine A) (c : core).

Lemma run_write_word a v c s : 0 ≤ a → a + 8 ≤ 2 ^ 64 → a mod 8 = 0 →
  write_word a v c s = Ok (set_word a v c, s).
Proof. intros. unfold write_word. by rewrite word_address_true. Qed.

Lemma exec_switches_cons i l c c' s : exec_switch flags i c s = Ok (c', s) →
  exec_switches flags (i :: l) c s = exec_switches flags l c' s.
Proof. intros Hi. cbn [exec_switches]. by run Hi. Qed.

Lemma run_Store base disp r a v c s : c.(regs) base + disp = a → c.(regs) r = v →
  0 ≤ a → a + 8 ≤ 2 ^ 64 → a mod 8 = 0 →
  exec_switch flags (Store base disp r) c s = Ok (set_word a v c, s).
Proof. intros <- <-. apply run_write_word. Qed.

Lemma run_push_at v sp c s : c.(regs) RSP = sp → 8 ≤ sp < 2 ^ 64 → sp mod 8 = 0 →
  push v c s = Ok (set_word (sp - 8) v (set_reg RSP (sp - 8) c), s).
Proof. intros <- ? ?. unfold push. by rewrite run_write_word by zlia. Qed.

Lemma run_pop_at r v sp c c' s : c.(regs) RSP = sp → c.(stack) !! sp = Some v →
  0 ≤ sp → sp + 8 ≤ 2 ^ 64 → sp mod 8 = 0 → c' = set_reg r v (set_reg RSP (sp + 8) c) →
  ('(v, c) ← pop c; mret (set_reg r v c) : M (machine A) core) s = Ok (c', s).
Proof.
  intros Hsp Hv ? ? ? ->. unfold pop. rewrite Hsp.
  erewrite run_bind; [|run run_read_word; [reflexivity|by apply word_address_true|exact Hv]].
  done.
Qed.

(** The core after the code of [SuspendAndCall], but for RAX. *)
Lemma run_suspend_asm base back c s info sp top :
  base = RDI ∨ base = RSI → c.(regs) base = info → c.(regs) RSP = sp → c.(regs) RCX = top →
  0 ≤ info → info + 40 ≤ 2 ^ 64 → info mod 8 = 0 → 8 ≤ sp < 2 ^ 64 → sp mod 8 = 0 →
  8 ≤ top < 2 ^ 64 → top mod 8 = 0 → ¬ in_frame info (sp - 8) → ¬ in_frame info (top - 8) →
  ∃ c', exec_switches flags (suspend_asm base back) c s = Ok (c', s) ∧
    c'.(regs) RSP = top - 8 ∧ (∀ r, r ≠ RSP → r ≠ RAX → c'.(regs) r = c.(regs) r) ∧
    c'.(stack) !! info = Some back ∧ c'.(stack) !! (info + 16) = Some flags ∧
    c'.(stack) !! (info + 24) = Some sp ∧ c'.(stack) !! (top - 8) = Some back ∧
    ∀ a, a ≠ info → a ≠ info + 16 → a ≠ info + 24 → a ≠ sp - 8 → a ≠ top - 8 →
      c'.(stack) !! a = c.(stack) !! a.
Proof.
  intros Hbase Hi Hsp Htop Hi0 Hi64 Hi8 Hs0 Hs8 Ht0 Ht8 Hfs Hft. unfold in_frame in *.
  assert (base ≠ RAX ∧ base ≠ RSP) as [Hb1 Hb2] by (by destruct Hbase as [->| ->]).
  set (c1 := set_reg RAX back c).
  assert (Hb : c1.(regs) base = info) by (unfold c1; by rewrite set_reg_ne).
  set (c2 := set_word info back c1).
  set (c3 := set_word (sp - 8) flags (set_reg RSP (sp - 8) c2)).
  set (c4 := set_reg RAX flags (set_reg RSP sp c3)).
  set (c5 := set_word (info + 24) sp (set_word (info + 16) flags c4)).
  set (c6 := set_word (top - 8) back (set_reg RSP (top - 8) (set_reg RSP top c5))).
  assert (c2.(regs) base = info ∧ c2.(regs) RSP = sp ∧ c2.(regs) RAX = back) as (_ & Hsp2 & _).
  { unfold c2, c1. by regs. }
  assert (c4.(regs) base = info ∧ c4.(regs) RSP = sp ∧ c4.(regs) RAX = flags ∧ c4.(regs) RCX = top)
    as (Hb4 & Hsp4 & Hax4 & Hcx4).
  { unfold c4, c3, c2, c1. by regs. }
  exists c6. split; [|].
  - unfold suspend_asm. rewrite (exec_switches_cons _ _ _ c1) by done.
    rewrite (exec_switches_cons _ _ _ c2)
      by (apply run_Store; [rewrite Hb; lia|apply set_reg_eq|lia..|done]).
    rewrite (exec_switches_cons _ _ _ c3) by (by apply run_push_at).
    rewrite (exec_switches_cons _ _ _ c4).
    2: { cbn [exec_switch exec]. apply (run_pop_at _ flags (sp - 8)); [unfold c3; by regs|apply set_word_eq|lia|lia|zlia|].
         unfold c4. do 2 f_equal. lia. }
    rewrite (exec_switches_cons _ _ _ (set_word (info + 16) flags c4))
      by (apply run_Store; [by rewrite Hb4|done|lia|lia|zlia]).
    rewrite (exec_switches_cons _ _ _ c5)
      by (apply run_Store; [by rewrite set_word_regs, Hb4|done|lia|lia|zlia]).
    rewrite (exec_switches_cons _ _ _ (set_reg RSP top c5))
      by (cbn [exec_switch exec]; unfold c5; by rewrite !set_word_regs, Hcx4).
    rewrite (exec_switches_cons _ _ _ c6) by (apply run_push_at; [apply set_reg_eq|done|done]).
    done.
  - unfold c6, c5, c4, c3, c2, c1. split_and!.
    + by regs.
    + intros r Hr1 Hr2. by regs.
    + by words.
    + by words.
    + by words.
    + by words.
    + intros a H1 H2 H3 H4 H5. by words.
Qed.

(** The words [ws] from [a] up. *)
Definition words_at (a : Z) (ws : list Z) c : Prop :=
  ∀ i v, ws !! i = Some v → c.(stack) !! (a + 8 * Z.of_nat i) = Some v.

Lemma run_movsq ws c s src dst : c.(regs) RSI = src → c.(regs) RDI = dst →
  words_at src ws c → 0 ≤ src → src + 8 * Z.of_nat (length ws) ≤ 2 ^ 64 → src mod 8 = 0 →
  0 ≤ dst → dst + 8 * Z.of_nat (length ws) ≤ 2 ^ 64 → dst mod 8 = 0 →
  src + 8 * Z.of_nat (length ws) ≤ dst ∨ dst + 8 * Z.of_nat (length ws) ≤ src →
  ∃ c', movsq (length ws) c s = Ok (c', s) ∧ words_at dst ws c' ∧
    c'.(regs) RCX = c.(regs) RCX - Z.of_nat (length ws) ∧
    c'.(regs) RSI = src + 8 * Z.of_nat (length ws) ∧
    (∀ r, r ≠ RCX → r ≠ RSI → r ≠ RDI → c'.(regs) r = c.(regs) r) ∧
    ∀ a, ¬ dst ≤ a < dst + 8 * Z.of_nat (length ws) → c'.(stack) !! a = c.(stack) !! a.
Proof.
  revert c src dst. induction ws as [|w ws IH]; intros c src dst Hsi Hdi Hw Hs0 Hs64 Hs8 Hd0 Hd64 Hd8 Hdis;
    cbn [length movsq] in *.
  { exists c. split_and!; try done; lia. }
  set (c1 := set_reg RCX (c.(regs) RCX - 1) (set_reg RDI (dst + 8) (set_reg RSI (src + 8) (set_word dst w c)))).
  destruct (IH c1 (src + 8) (dst + 8)) as (c' & Hr & Hw' & Hcx & Hsi' & Hk & Hst);
    [unfold c1; by regs|unfold c1; by regs| |lia|lia|zlia|lia|lia|zlia|lia|].
  { intros i v Hi. specialize (Hw (S i) v Hi). unfold c1. pose proof (lookup_lt_Some _ _ _ Hi).
    words. rewrite <-Hw. f_equal. lia. }
  exists c'. split_and!.
  - rewrite Hsi, Hdi. run (run_read_word src c w).
    + run run_write_word; [|lia|lia|done]. rewrite !set_word_regs, Hsi, Hdi. exact Hr.
    + apply word_address_true; lia.
    + rewrite <-(Hw 0%nat w eq_refl). f_equal. lia.
  - intros [|i] v Hi; cbn [lookup list_lookup] in Hi.
    + injection Hi as ->. rewrite Hst by lia. unfold c1. replace (dst + 8 * Z.of_nat 0) with dst by lia.
      by words.
    + rewrite <-(Hw' i v Hi). f_equal. lia.
  - rewrite Hcx. unfold c1. regs. lia.
  - rewrite Hsi'. lia.
  - intros r H1 H2 H3. rewrite Hk by done. unfold c1. by regs.
  - intros a Ha. rewrite Hst by lia. unfold c1. by words.
Qed.

(** The frame that [Resume] copies and enters. *)
Lemma run_enter_frame c s info sp u :
  c.(regs) RSI = info → c.(regs) RSP = sp → words_at info (frame_words u) c →
  0 ≤ info → info + 40 ≤ 2 ^ 64 → info mod 8 = 0 → 40 ≤ sp < 2 ^ 64 → sp mod 8 = 0 →
  info + 40 ≤ sp - 40 ∨ sp ≤ info →
  ∃ u' st', enter_frame flags c s = Ok ((u', st'), set_iflag (Z.testbit u.(crflags) 9) s) ∧
    u'.(crip) = u.(crip) ∧ u'.(ccs) = u.(ccs) ∧ u'.(crflags) = u.(crflags) ∧
    u'.(cregs) RSP = u.(cregs) RSP ∧ u'.(css) = u.(css) ∧ u'.(cregs) RDI = c.(regs) RDX ∧
    (∀ r, r ∉ [RSP; RDI; RSI; RCX] → u'.(cregs) r = c.(regs) r) ∧
    ∀ a, ¬ sp - 40 ≤ a < sp → st' !! a = c.(stack) !! a.
Proof.
  intros Hsi Hsp Hw Hi0 Hi64 Hi8 Hs0 Hs8 Hdis.
  set (c1 := set_reg RDI (sp - 40) (set_reg RCX 5 (set_reg RSP (sp - 40) c))).
  destruct (run_movsq (frame_words u) c1 s info (sp - 40)) as (c2 & Hr & Hw2 & _ & _ & Hk & Hst);
    cbn [frame_words length]; [unfold c1; by regs|unfold c1; by regs| |lia|lia|done|lia|lia|zlia|lia|].
  { intros i v Hi. unfold c1. words. by apply Hw. }
  assert (Hsp2 : c2.(regs) RSP = sp - 40) by (rewrite Hk by done; unfold c1; by regs).
  set (c3 := set_reg RDI (c2.(regs) RDX) c2).
  destruct (run_iretq_frame u c3 s) as (u' & st' & Hq & Hsp' & Hku & Hrip & Hcs & Hfl & Hss & Hst').
  { unfold c3. split_and!; rewrite ?set_reg_ne by done; rewrite ?Hsp2; cbn; try (zlia || lia).
    intros i v Hi. regs. words. rewrite Hsp2. by apply Hw2. }
  assert (Hrun : exec_switches flags resume_asm c s = Ok (c3, s)).
  { unfold resume_asm. rewrite (exec_switches_cons _ _ _ (set_reg RSP (sp - 40) c)).
    2: { cbn [exec_switch exec]. rewrite Hsp, u64_small by (unfold is_u64; lia). done. }
    rewrite (exec_switches_cons _ _ _ (set_reg RCX 5 (set_reg RSP (sp - 40) c))) by done.
    rewrite (exec_switches_cons _ _ _ c1).
    2: { cbn [exec_switch exec]. unfold c1. by regs. }
    rewrite (exec_switches_cons _ _ _ c2).
    2: { cbn [exec_switch exec]. unfold c1 at 1. regs. exact Hr. }
    by rewrite (exec_switches_cons _ _ _ c3). }
  exists u', st'. split; [unfold enter_frame; by run Hrun|]. split_and!; try done.
  - rewrite Hku by done. unfold c3. regs. rewrite Hk by done. unfold c1. by regs.
  - intros r Hr'. rewrite !not_elem_of_cons in Hr'. destruct Hr' as (? & ? & ? & ? & _).
    rewrite Hku by done. unfold c3. regs. rewrite Hk by done. unfold c1. by regs.
  - intros a Ha. rewrite Hst'. unfold c3. words. rewrite Hst by (cbn [frame_words length]; lia).
    unfold c1. by words.
Qed.

Lemma run_SuspendAndCall back info arg c s sp top :
  critical s → c.(regs) RSP = sp → c.(regs) RCX = top →
  0 ≤ info → info + 40 ≤ 2 ^ 64 → info mod 8 = 0 → 8 ≤ sp < 2 ^ 64 → sp mod 8 = 0 →
  8 ≤ top < 2 ^ 64 → top mod 8 = 0 → ¬ in_frame info (sp - 8) → ¬ in_frame info (top - 8) →
  ∃ c1, SuspendAndCall flags back info arg c s = Ok ((c.(regs) RBX, c1), s) ∧
    c1.(regs) RSP = top - 8 ∧ c1.(stack) !! (top - 8) = Some back ∧
    (∀ x, arg = Some x → c1.(regs) RDI = x) ∧ words_at info [back; 8; flags; sp; 0] c1 ∧
    ∀ a, ¬ in_frame info a → a ≠ sp - 8 → a ≠ top - 8 → c1.(stack) !! a = c.(stack) !! a.
Proof.
  intros Hc Hsp Htop Hi0 Hi64 Hi8 Hs0 Hs8 Ht0 Ht8 Hfs Hft.
  set (c0 := set_word (info + 0x20) 0 (set_word (info + 8) 8 c)).
  set (c1 := match arg with
    | None => set_reg RDI info c0 | Some x => set_reg RDI x (set_reg RSI info c0) end).
  set (base := match arg with None => RDI | Some _ => RSI end).
  destruct (run_suspend_asm base back c1 s info sp top) as
    (c2 & Hr & Hsp2 & Hk & H1 & H2 & H3 & H4 & Hst); try done; try lia.
  { unfold base. destruct arg; auto. }
  1-3: unfold c1, base; destruct arg; by regs.
  assert (∀ a, c1.(stack) !! a = c0.(stack) !! a) as Hc1 by (by intros a; unfold c1; destruct arg).
  exists c2. split_and!; try done.
  - unfold SuspendAndCall. run run_AssertCritical; [|done].
    run run_write_word; [|lia|lia|zlia]. run run_write_word; [|lia|lia|zlia]. fold c0.
    erewrite run_bind; [reflexivity|].
    unfold c1, base in Hr. by destruct arg.
  - intros x ->. rewrite Hk by done. unfold c1. by regs.
  - unfold in_frame in *. intros i v Hi.
    assert (i = 0 ∨ i = 1 ∨ i = 2 ∨ i = 3 ∨ i = 4)%nat as Hi'.
    { apply lookup_lt_Some in Hi. cbn in Hi. lia. }
    destruct Hi' as [->|[->|[->|[->| ->]]]]; cbn in Hi; injection Hi as <-; cbn [Z.of_nat];
      rewrite ?Z.add_0_r; try done; change (Z.of_nat _) with 1 || change (Z.of_nat _) with 4.
    + rewrite Hst by lia. rewrite Hc1. unfold c0. by words.
    + rewrite Hst by lia. rewrite Hc1. unfold c0. by words.
  - unfold in_frame in *. intros a H H' H''. rewrite Hst, Hc1 by lia. unfold c0. by words.
Qed.
End Running.

(** C32. A thread that suspends itself goes on where it was.  SuspendAndCall, in
    either form, calls its function (with its argument) on the stack it is
    given, and touches only the state, the word below the stack pointer and the
    return address on the new stack.  Whatever runs next, on any stack, if it
    leaves the saved frame alone a later Resume of the state enters the label
    after the call, in the kernel's code segment without touching GS, with the
    stack pointer and the flags of the suspended thread (so that a critical
    section goes on) and the argument of the state in RDI.  All other registers, those that
    a C++ function has to keep, RBX and RBP among them, are those of the code
    that resumes. *)
Theorem suspend_resume {A} (flags flags' back info : Z) (arg : option Z) (sp top : Z) (c : core)
  (s : machine A)
  (Hc : critical s) (Hsp : c.(regs) RSP = sp) (Htop : c.(regs) RCX = top)
  (Hi0 : 0 ≤ info) (Hi64 : info + 40 ≤ 2 ^ 64) (Hi8 : info mod 8 = 0)
  (Hs0 : 8 ≤ sp < 2 ^ 64) (Hs8 : sp mod 8 = 0) (Ht0 : 8 ≤ top < 2 ^ 64) (Ht8 : top mod 8 = 0)
  (Hfs : ¬ in_frame info (sp - 8)) (Hft : ¬ in_frame info (top - 8)) :
  ∃ c1, SuspendAndCall flags back info arg c s = Ok ((c.(regs) RBX, c1), s) ∧
    c1.(regs) RSP = top - 8 ∧ c1.(stack) !! (top - 8) = Some back ∧
    (∀ x, arg = Some x → c1.(regs) RDI = x) ∧
    (∀ a, ¬ in_frame info a → a ≠ sp - 8 → a ≠ top - 8 → c1.(stack) !! a = c.(stack) !! a) ∧
    ∀ (c' : core) (s' : machine A) rdi sp', critical s' → c'.(regs) RSP = sp' →
      40 ≤ sp' < 2 ^ 64 → sp' mod 8 = 0 → info + 40 ≤ sp' - 40 ∨ sp' ≤ info →
      (∀ a, in_frame info a → c'.(stack) !! a = c1.(stack) !! a) →
      ∃ u st', Resume flags' info rdi c' s' = Ok ((u, st'), set_iflag (Z.testbit flags 9) s') ∧
        u.(crip) = back ∧ u.(ccs) = 8 ∧ u.(crflags) = flags ∧ u.(cregs) RSP = sp ∧ u.(css) = 0 ∧
        u.(cregs) RDI = rdi ∧ (∀ r, r ∉ [RSP; RDI; RSI; RCX; RDX] → u.(cregs) r = c'.(regs) r) ∧
        ∀ a, ¬ sp' - 40 ≤ a < sp' → st' !! a = c'.(stack) !! a.
Proof.
  destruct (run_SuspendAndCall flags back info arg c s sp top) as
    (c1 & Hr & Hsp1 & Hback & Hdi & Hw & Hst); try done.
  exists c1. split_and!; try done. intros c' s' rdi sp' Hc' Hsp' Hs0' Hs8' Hdis Hkeep.
  set (u := mkContext (λ _, sp) back 8 flags 0).
  assert (Hw' : words_at info (frame_words u) c').
  { intros i v Hi. rewrite Hkeep; [by apply Hw|]. unfold in_frame.
    apply lookup_lt_Some in Hi. cbn in Hi. lia. }
  destruct (run_enter_frame flags' (set_reg RDX rdi (set_reg RSI info c')) s' info sp' u)
    as (u' & st' & Hq & Hrip & Hcs & Hfl & Hrsp & Hss & Hdi' & Hk & Hst'); try done; try by regs.
  exists u', st'. split_and!; try done.
  - unfold Resume. run run_AssertCritical; [|done].
    run run_read_word; [|apply word_address_true; zlia|exact (Hw' 1%nat 8 eq_refl)].
    by rewrite (run_bind _ _ _ tt s').
  - intros r Hn. rewrite !not_elem_of_cons in Hn. destruct Hn as (? & ? & ? & ? & ? & _).
    rewrite Hk; [by regs|]. rewrite !not_elem_of_cons. by repeat split; try apply not_elem_of_nil.
Qed.

(** A thread at 0x101234 whose state is at 0x9000 suspends itself, and another
    one resumes it. *)
Definition suspended : core :=
  mkCore (λ r, match r with RSP => 0x8010 | RCX => 0x20000 | RBX => 0x120000 | _ => 1 end) ∅.
Definition off_machine : machine unit := set_iflag false busy_machine.

Lemma suspend_resume_witness :
  ∃ c1 u st', SuspendAndCall 0x2 0x101234 0x9000 None suspended off_machine
      = Ok ((0x120000, c1), off_machine) ∧
    Resume 0x202 0x9000 7 (set_reg RSP 0x30000 c1) off_machine = Ok ((u, st'), off_machine) ∧
    u.(crip) = 0x101234 ∧ u.(cregs) RSP = 0x8010 ∧ u.(cregs) RDI = 7.
Proof.
  destruct (suspend_resume 0x2 0x202 0x101234 0x9000 None 0x8010 0x20000 suspended off_machine)
    as (c1 & Hs & _ & _ & _ & _ & Hr);
    [by right|done..|lia|lia|done|lia|done|lia|done|unfold in_frame; lia|unfold in_frame; lia|].
  destruct (Hr (set_reg RSP 0x30000 c1) off_machine 7 0x30000) as (u & st' & Hq & Hrip & _ & _ & Hsp & _ & Hdi & _);
    [by right|apply set_reg_eq|lia|done|lia|done|].
  exists c1, u, st'. split; [exact Hs|]. split; [exact Hq|]. by split_and!.
Defined.

(** [Thread::RunSync] enters its function on the stack of the processor, which
    is aligned as at any call. *)
Lemma RunSync_enters {A} (back top : Z) (c : core) (s : machine A) flags :
  critical s → c.(regs) RAX = top → 8 ≤ top < 2 ^ 64 → top mod 16 = 0 →
  ∃ c', RunSync flags back c s = Ok ((c.(regs) RSI, c'), s) ∧
    (c'.(regs) RSP + 8) mod 16 = 0 ∧ c'.(regs) RDI = c.(regs) RDI ∧
    ∀ a, a ≠ top - 8 → c'.(stack) !! a = c.(stack) !! a.
Proof.
  intros Hc Htop Ht0 Ht16. exists (set_word (top - 8) back (set_reg RSP (top - 8) (set_reg RSP top c))).
  split_and!.
  - unfold RunSync. run run_AssertCritical; [|done]. erewrite run_bind; [reflexivity|].
    unfold run_sync_asm. rewrite (exec_switches_cons _ _ _ _ (set_reg RSP top c))
      by (cbn [exec_switch exec]; by rewrite Htop).
    rewrite (exec_switches_cons _ _ _ _ (set_word (top - 8) back (set_reg RSP (top - 8) (set_reg RSP top c)))); [done|].
    apply run_push_at; [apply set_reg_eq|done|zlia].
  - regs. zlia.
  - by regs.
  - intros a Ha. by words.
Qed.
