(* ===== verification/System.v ===== *)
(** * Panics, critical sections and the boot information

    [PanicModule] (src/arch/x64/panic/panic.cpp), which stops every processor;
    [CriticalModule] (src/arch/x64/critical/module.cpp), which turns interrupts
    on for the first time; and the boot information (src/arch/x64/public/init.cpp). *)

From stdpp Require Import base numbers list gmap strings.
From Stdlib Require Import ZArith Lia.
From S2P Require Import Prelude Machine Concrete Interrupts Devices Acpi AcpiRoot Apic Segments Clock Processor.
#[local] Open Scope Z_scope.

(** ** The panic module *)

Module PanicModule.

(** A [char] is signed. *)
Definition s8 (c : Z) : Z := let y := u8 c in if y <? 2 ^ 7 then y else y - 2 ^ 8.

Definition prefix : list Z := [80; 65; 78; 73; 67; 58; 32]. (* "PANIC: " *)

Section Ops.
Context `{AnsaRational} `{WindowMap smp, AnsaLock smp, Device, Cpuid}.
Context (xapic : XApic.t) (offLocalData sizeof_Cpu : Z).
(** [IsInitialized()] *)
Context (initialized : bool).

(** A store to the cell [i] of the text buffer. *)
Definition put_cell (i v : Z) : M (machine smp) unit := emit (EvMmio (0xb8000 + 2 * i) 2 (u16 v)).

(** [while ( *p) buf[i++] = *p++ | attr;] on the bytes up to the null. *)
Fixpoint write_chars (attr i : Z) (p : list Z) : M (machine smp) Z :=
  match p with
  | [] => mret i
  | c :: p' =>
      if c =? 0 then mret i
      else _ ← put_cell i (s8 c .| attr); write_chars attr (i + 1) p'
  end.

Definition WriteError (msg : list Z) : M (machine smp) unit :=
  i ← write_chars 0xf200 0 prefix;
  i ← write_chars 0xf900 i msg;
  put_cell i 0xf920.

Definition distribute_loop (lapic : Lapic.Lapic smp) (current : Z) (d : Domain.t) : M (machine smp) unit :=
  for_loop (Z.to_nat d.(Domain.count)) 0 (λ j,
    let cpu := GetCpu sizeof_Cpu d j in
    if cpu =? current then mret tt
    else id ← GetApicId cpu; lapic.(Lapic.SendIpi) id IntVectors.Panic 0 1 0).

Definition DistributeError : M (machine smp) unit :=
  if negb initialized then mret tt else
  lapic ← LapicModule.GetLapic xapic;
  current ← GetCurrent offLocalData;
  d ← GetDomain;
  distribute_loop lapic current d.

(** What a panic does before the processor halts: whether it is the first. *)
Definition announce (msg : list Z) : M (machine smp) bool :=
  _ ← modify (set_iflag false);
  n ← gets (λ s, s.(alloc).(panicCount));
  _ ← update (λ w, set_panicCount (w.(panicCount) + 1) w);
  if truthy n then mret false
  else
    _ ← WriteError msg;
    _ ← DistributeError;
    _ ← WriteError msg;
    mret true.

Definition Panic (msg : list Z) : M (machine smp) unit :=
  _ ← announce msg; stop (Hang "hlt").

(** [haltCpu] is the address of [HaltCpu]. *)
Definition Initialize (haltCpu : Z) : M (machine smp) unit := set_routine IntVectors.Panic haltCpu.

Definition HaltCpu : M (machine smp) unit :=
  lapic ← LapicModule.GetLapic xapic;
  _ ← Lapic.SendEoi lapic;
  _ ← modify (set_iflag false);
  stop (Hang "hlt").

(** *** What is on the screen *)

(** The events of [WriteError], newest first. *)
Fixpoint cells (attr i : Z) (p : list Z) (tr : list event) : list event :=
  match p with
  | [] => tr
  | c :: p' => cells attr (i + 1) p' (EvMmio (0xb8000 + 2 * i) 2 (u16 (s8 c .| attr)) :: tr)
  end.

Definition shown (msg : list Z) (tr : list event) : list event :=
  let n := Z.of_nat (length msg) in
  EvMmio (0xb8000 + 2 * (7 + n)) 2 0xf920 :: cells 0xf900 7 msg (cells 0xf200 0 prefix tr).

Lemma run_write_chars attr i p (s : machine smp) : Forall (λ c, c ≠ 0) p →
  write_chars attr i p s = Ok (i + Z.of_nat (length p), set_trace (cells attr i p s.(trace)) s).
Proof.
  revert i s. induction p as [|c p IH]; intros i s Hp; cbn [write_chars cells length].
  { rewrite Z.add_0_r. by destruct s. }
  apply Forall_cons in Hp as [Hc Hp]. destruct (Z.eqb_spec c 0); [done|].
  run run_modify. rewrite IH by done.
  by replace (i + 1 + Z.of_nat (length p)) with (i + Z.of_nat (S (length p))) by lia.
Qed.

(** A message without null bytes is shown after the prefix, and a blank. *)
Lemma run_WriteError msg (s : machine smp) : Forall (λ c, c ≠ 0) msg →
  WriteError msg s = Ok (tt, set_trace (shown msg s.(trace)) s).
Proof.
  intros Hm. unfold WriteError.
  run run_write_chars; [|by repeat constructor]. run run_write_chars; [|done]. done.
Qed.

(** Only the first panic of the system writes: a second one, on another
    processor, halts at once. *)
Lemma run_second_panic msg (s : machine smp) : s.(alloc).(panicCount) ≠ 0 →
  ∃ s', announce msg s = Ok (false, s') ∧ s'.(trace) = s.(trace) ∧ s'.(iflag) = false.
Proof.
  intros Hn. eexists. unfold announce. run run_modify. run run_gets. run run_modify.
  assert (truthy (set_iflag false s).(alloc).(panicCount) = true) as -> by (by apply truthy_true).
  done.
Qed.

Lemma run_first_panic msg (s : machine smp) : s.(alloc).(panicCount) = 0 → initialized = false →
  Forall (λ c, c ≠ 0) msg →
  ∃ s', announce msg s = Ok (true, s') ∧ s'.(trace) = shown msg (shown msg s.(trace)) ∧
    s'.(iflag) = false ∧ s'.(alloc).(panicCount) = 1.
Proof.
  intros Hn Hi Hm. eexists. unfold announce, DistributeError. rewrite Hi. cbn [negb].
  run run_modify. run run_gets. run run_modify.
  assert (truthy (set_iflag false s).(alloc).(panicCount) = false) as -> by (by apply truthy_false).
  run run_WriteError; [|done]. erewrite run_bind; [|reflexivity].
  run run_WriteError; [|done]. split; [reflexivity|]. split_and!; try done. cbn. by rewrite Hn.
Qed.
End Ops.
End PanicModule.

(** ** The critical module *)

Module CriticalModule.
Section Ops.
Context `{AnsaRational} `{World smp}.
(** The addresses of the handlers' table and of the entry stubs. *)
Context (handlersBase RawPicEoiIsr RawCodedIsr RawNonCodedIsr : Z).

Definition on_gates (f : Idt.t → Idt.t) : M (machine smp) unit :=
  update (λ w, set_idt (f w.(idt)) w).

(** Interrupts that are pending come in between [sti] and [cli], and are only
    acknowledged. *)
Definition Initialize : M (machine smp) unit :=
  _ ← put_text "Initializing criticality subsystem...";
  _ ← on_gates (Irt.ConfigurePicEoi handlersBase RawPicEoiIsr);
  _ ← modify (set_iflag true);
  _ ← modify advance;
  _ ← modify (set_iflag false);
  _ ← on_gates (Irt.Configure handlersBase RawCodedIsr RawNonCodedIsr);
  _ ← modify (set_iflag true);
  _ ← put_text " [OK]";
  put_endl.

(** Every vector leads to the stub for it when interrupts stay on. *)
Lemma Initialize_dispatches (s : machine smp) v :
  sized (advance (set_iflag true (set_alloc (set_idt (Irt.ConfigurePicEoi handlersBase RawPicEoiIsr
    s.(alloc).(idt)) s.(alloc)) (push_event (EvPrint "Initializing criticality subsystem...") s)))).(alloc).(idt) →
  0 ≤ handlersBase → handlersBase + 0x2000 ≤ 2 ^ 64 →
  is_u64 RawCodedIsr → is_u64 RawNonCodedIsr → 0 ≤ v < 256 →
  ∃ s', Initialize s = Ok (tt, s') ∧ s'.(iflag) = true ∧
    dispatches handlersBase s'.(alloc).(idt) v
      (if Irt.hasCode v then RawCodedIsr else RawNonCodedIsr).
Proof.
  intros Hs Hb0 Hb Hc Hn Hv. eexists. unfold Initialize.
  do 8 (erewrite run_bind; [|apply run_modify]). split; [apply run_modify|].
  split; [done|]. cbn.
  apply (run_configure_loop handlersBase 256 0 (λ i, if Irt.hasCode i then RawCodedIsr else RawNonCodedIsr));
    try done; try lia. intros i. by destruct (Irt.hasCode i).
Qed.
End Ops.
End CriticalModule.

(** ** The boot information *)

Module Init.

(** [bootInfo]: 0 is the null pointer. *)
Definition InitializeSingletons : M Z unit := modify (λ _, 0).

Definition SetBootInfo (info : Z) : M Z unit :=
  _ ← assert (truthy info) "info != NULL";
  bootInfo ← get;
  _ ← assert (negb (truthy bootInfo)) "!bootInfo";
  modify (λ _, info).

Definition GetBootInfo : M Z Z := get.

(** It is set once. *)
Lemma boot_info_once info other : info ≠ 0 →
  (_ ← InitializeSingletons; _ ← SetBootInfo info; GetBootInfo) 0 = Ok (info, info) ∧
  (other ≠ 0 → SetBootInfo other info = Stop (AssertFail "!bootInfo")).
Proof.
  intros Hi. unfold SetBootInfo. split.
  - run run_modify. apply truthy_true in Hi. by rewrite Hi.
  - intros Ho. run run_assert; [|by apply truthy_true].
    erewrite run_bind; [|reflexivity]. apply run_bind_stop, run_assert_fail.
    apply negb_false_iff. by apply truthy_true.
Qed.
End Init.
