(* ===== verification/Startup.v ===== *)
(** * Starting the other processors

    [DomainList::BootstrapCpu], which the first processor runs for every entry
    of the interrupt controller table, and [CpuEntrance] and [CpuStall], which
    the started processors run (src/arch/x64/domains/domain-list.cpp), meet in
    [initLock] and [initFlag].  DomainList.v has them as computations; here
    every access to what they share is a step of its own, so that all
    interleavings are covered, those of a processor that starts after the
    first one gave up on it included. *)

From stdpp Require Import base numbers list functions relations.
From Stdlib Require Import ZArith Lia.
From S2P Require Import Prelude.
#[local] Open Scope nat_scope.

(** ** The processors *)

(** A started processor: before the startup message, on its way to
    [initLock.Seize()], with the lock, with its object built in slot [k], with
    the index [k] that [InitNewCpu] returned, with the flag set, and asleep
    after the release.  [ApStopped]: the assertion of [InitNewCpu] failed. *)
Inductive ap_pc : Type :=
  | ApReset
  | ApStarted
  | ApSeized
  | ApBuilt (k : nat)
  | ApCounted (k : nat)
  | ApFlagged (k : nat)
  | ApStalled (k : nat)
  | ApStopped.

#[export] Instance ap_pc_eq_dec : EqDecision ap_pc.
Proof. solve_decision. Defined.

(** The first processor: at the next entry, after the INIT messages to [id],
    before the startup message number [j], before the poll [i] of that
    message, with the lock, and with the flag read. *)
Inductive bsp_pc : Type :=
  | BNext
  | BInit (id : Z)
  | BSend (id : Z) (j : nat)
  | BPoll (id : Z) (j i : nat)
  | BHold (id : Z) (j i : nat)
  | BGot (id : Z) (j i : nat) (seen : bool).

Inductive holder : Type := ByBsp | ByAp (id : Z).

Record world : Type := mkWorld {
  todo : list Z;               (* the entries the iterator has still to reach *)
  bsp : bsp_pc;
  aps : Z → ap_pc;
  lock : option holder;        (* initLock *)
  flag : bool;                 (* initFlag *)
  count : nat;                 (* Domain::count *)
  tried : list Z;              (* those BootstrapCpu has returned for, newest first *)
  failed : bool;               (* it has printed [FAIL] *)
}.

Definition set_todo l (w : world) : world :=
  mkWorld l w.(bsp) w.(aps) w.(lock) w.(flag) w.(count) w.(tried) w.(failed).
Definition set_bsp b (w : world) : world :=
  mkWorld w.(todo) b w.(aps) w.(lock) w.(flag) w.(count) w.(tried) w.(failed).
Definition set_ap id a (w : world) : world :=
  mkWorld w.(todo) w.(bsp) (<[id := a]> w.(aps)) w.(lock) w.(flag) w.(count) w.(tried) w.(failed).
Definition set_lock l (w : world) : world :=
  mkWorld w.(todo) w.(bsp) w.(aps) l w.(flag) w.(count) w.(tried) w.(failed).
Definition set_flag f (w : world) : world :=
  mkWorld w.(todo) w.(bsp) w.(aps) w.(lock) f w.(count) w.(tried) w.(failed).
Definition set_count n (w : world) : world :=
  mkWorld w.(todo) w.(bsp) w.(aps) w.(lock) w.(flag) n w.(tried) w.(failed).
Definition finish id (fail : bool) (w : world) : world :=
  mkWorld w.(todo) BNext w.(aps) w.(lock) w.(flag) w.(count) (id :: w.(tried)) (w.(failed) || fail).

(** The bounds of the two loops of [BootstrapCpu]. *)
Definition sends : nat := 2.
Definition polls : nat := 20.

(** A poll that did not see the flag: the next poll, the next message, or the
    failure. *)
Definition next_poll id j i (w : world) : world :=
  if S i <? polls then set_bsp (BPoll id j (S i)) w
  else if S j <? sends then set_bsp (BSend id (S j)) w
  else finish id true w.

(** What a startup message does to a processor. *)
Definition start (a : ap_pc) : ap_pc := match a with ApReset => ApStarted | _ => a end.

Section Handshake.
(** The entries of the table in order, the identifier of the first processor,
    [Domain::capacity], and the processors that answer a startup message. *)
Context (order : list Z) (self : Z) (capacity : nat) (present : Z → bool).

Inductive step (w : world) : world → Prop :=
  (** [if (apicId == lapic.GetId()) return;] *)
  | step_self l :
      w.(bsp) = BNext → w.(todo) = self :: l → step w (set_todo l w)
  (** [SendIpi(apicId, 0, 5, 1, 1)], the sleep, [SendIpi(apicId, 0, 5, 0, 1)] *)
  | step_init id l :
      w.(bsp) = BNext → w.(todo) = id :: l → id ≠ self →
      step w (set_todo l (set_bsp (BInit id) (set_ap id ApReset w)))
  (** [initFlag = 0;] *)
  | step_clear id :
      w.(bsp) = BInit id → step w (set_bsp (BSend id 0) (set_flag false w))
  (** [lapic.SendIpi(apicId, 5, 6, 1, 0);] *)
  | step_send id j :
      w.(bsp) = BSend id j →
      step w (set_bsp (BPoll id j 0)
        (if present id then set_ap id (start (w.(aps) id)) w else w))
  (** [ScopedLock scope(initLock);] *)
  | step_poll id j i :
      w.(bsp) = BPoll id j i → w.(lock) = None →
      step w (set_lock (Some ByBsp) (set_bsp (BHold id j i) w))
  (** [if (initFlag)] *)
  | step_read id j i :
      w.(bsp) = BHold id j i → step w (set_bsp (BGot id j i w.(flag)) w)
  (** The end of the scope, and the return if the flag was set. *)
  | step_got id j i (seen : bool) :
      w.(bsp) = BGot id j i seen →
      step w (set_lock None (if seen then finish id false w else next_poll id j i w))
  (** [list.initLock.Seize();] *)
  | step_seize id :
      w.(aps) id = ApStarted → w.(lock) = None →
      step w (set_lock (Some (ByAp id)) (set_ap id ApSeized w))
  (** [assert(count < capacity); new(cpuPtr) Cpu();] *)
  | step_build id :
      w.(aps) id = ApSeized → w.(count) < capacity →
      step w (set_ap id (ApBuilt w.(count)) w)
  | step_full id :
      w.(aps) id = ApSeized → capacity ≤ w.(count) → step w (set_ap id ApStopped w)
  (** [return count++;] *)
  | step_count id k :
      w.(aps) id = ApBuilt k →
      step w (set_count (S w.(count)) (set_ap id (ApCounted w.(count)) w))
  (** [list.initFlag = true;] *)
  | step_flag id k :
      w.(aps) id = ApCounted k → step w (set_flag true (set_ap id (ApFlagged k) w))
  (** [list.initLock.Release();] *)
  | step_release id k :
      w.(aps) id = ApFlagged k → step w (set_lock None (set_ap id (ApStalled k) w)).

(** When [StartCpus] starts: the first processor has index 0. *)
Definition initial (w : world) : Prop :=
  w.(todo) = order ∧ NoDup order ∧ self ∈ order ∧ w.(bsp) = BNext ∧
  (∀ id, w.(aps) id = ApReset) ∧ w.(lock) = None ∧ w.(count) = 1 ∧ 0 < capacity ∧
  w.(tried) = [] ∧ w.(failed) = false.

Definition at_rest (w : world) : Prop := ∀ w', ¬ step w w'.

(** ** Where a processor is *)

Definition in_section (a : ap_pc) : bool :=
  match a with ApReset | ApStarted | ApStalled _ => false | _ => true end.

(** The index it has in the domain. *)
Definition index (a : ap_pc) : option nat :=
  match a with ApCounted k | ApFlagged k | ApStalled k => Some k | _ => None end.

Definition bsp_holds (b : bsp_pc) : bool :=
  match b with BHold _ _ _ | BGot _ _ _ _ => true | _ => false end.

(** The entry [BootstrapCpu] runs for, before and after the first message. *)
Definition initing (b : bsp_pc) : option Z :=
  match b with BInit id | BSend id 0 => Some id | _ => None end.
Definition polling (b : bsp_pc) : option Z :=
  match b with
  | BSend id (S _) | BPoll id _ _ | BHold id _ _ | BGot id _ _ _ => Some id
  | _ => None
  end.
Definition current (b : bsp_pc) : list Z :=
  match b with
  | BNext => []
  | BInit id | BSend id _ | BPoll id _ _ | BHold id _ _ | BGot id _ _ _ => [id]
  end.

Definition in_loops (b : bsp_pc) : Prop :=
  match b with
  | BNext | BInit _ => True
  | BSend _ j => j < sends
  | BPoll _ j i | BHold _ j i | BGot _ j i _ => j < sends ∧ i < polls
  end.

Definition joined (a : ap_pc) : nat := match index a with Some _ => 1 | None => 0 end.

(** A sum over the processors of the table. *)
Definition total (f : ap_pc → nat) (w : world) : nat := sum_list_with (f ∘ w.(aps)) order.

(** ** The invariant *)

(** While no processor has failed to start, those tried are asleep in the
    domain, in their order, and only the current one is on its way. *)
Record on_time (w : world) : Prop := {
  ot_tried : ∀ i id, rev w.(tried) !! i = Some id → w.(aps) id = ApStalled (S i);
  ot_count : w.(count) = S (length w.(tried)) +
    match polling w.(bsp) with Some id => joined (w.(aps) id) | None => 0 end;
  ot_index : ∀ id k, polling w.(bsp) = Some id → index (w.(aps) id) = Some k →
    k = S (length w.(tried));
  ot_clear : ∀ id, w.(bsp) = BSend id 0 → w.(flag) = false;
  ot_flag : ∀ id, polling w.(bsp) = Some id → w.(flag) = true →
    ∃ k, w.(aps) id = ApFlagged k ∨ w.(aps) id = ApStalled k;
  ot_seen : ∀ id j i, w.(bsp) = BGot id j i true → ∃ k, w.(aps) id = ApStalled k;
}.

Record inv (w : world) : Prop := {
  inv_nodup : NoDup (w.(tried) ++ current w.(bsp) ++ w.(todo));
  inv_order : ∀ id, id ∈ order ↔ id = self ∨ id ∈ w.(tried) ++ current w.(bsp) ++ w.(todo);
  inv_self : self ∉ w.(tried) ++ current w.(bsp);
  inv_loops : in_loops w.(bsp);
  inv_reset : ∀ id, w.(aps) id ≠ ApReset →
    present id = true ∧ (id ∈ w.(tried) ∨ polling w.(bsp) = Some id);
  inv_started : ∀ id, present id = true → id ∈ w.(tried) ∨ polling w.(bsp) = Some id →
    w.(aps) id ≠ ApReset;
  inv_lock_bsp : bsp_holds w.(bsp) = true ↔ w.(lock) = Some ByBsp;
  inv_lock_ap : ∀ id, in_section (w.(aps) id) = true ↔ w.(lock) = Some (ByAp id);
  inv_count : w.(count) = S (total joined w);
  inv_index : ∀ id k, index (w.(aps) id) = Some k → 1 ≤ k < w.(count);
  inv_distinct : ∀ i j k, index (w.(aps) i) = Some k → index (w.(aps) j) = Some k → i = j;
  inv_built : ∀ id k, w.(aps) id = ApBuilt k → k = w.(count) ∧ w.(count) < capacity;
  inv_stopped : ∀ id, w.(aps) id = ApStopped → capacity ≤ w.(count);
  inv_capacity : 1 ≤ w.(count) ≤ capacity;
  inv_on_time : w.(failed) = false → on_time w;
}.

Lemma polling_current b id : polling b = Some id → current b = [id].
Proof. destruct b as [| |? []| | |]; cbn; congruence. Qed.

Lemma started_in_order w id : inv w → w.(aps) id ≠ ApReset → id ∈ order ∧ id ≠ self.
Proof.
  intros Hi Hr. destruct (inv_reset _ Hi id Hr) as [_ Ht].
  assert (id ∈ w.(tried) ++ current w.(bsp)) as Hin.
  { apply elem_of_app. destruct Ht as [|Ht%polling_current]; [by left|]. rewrite Ht.
    right. by apply list_elem_of_singleton. }
  split.
  - apply (inv_order _ Hi). right. rewrite app_assoc. apply elem_of_app. by left.
  - intros ->. by apply (inv_self _ Hi).
Qed.

Lemma sum_same {X} (f g : X → nat) l :
  (∀ x, x ∈ l → f x = g x) → sum_list_with f l = sum_list_with g l.
Proof.
  intros He. induction l as [|x l IH]; [done|]. cbn [sum_list_with].
  rewrite (He x) by (by apply list_elem_of_here). rewrite IH; [done|].
  intros y Hy. apply He. by apply list_elem_of_further.
Qed.

Lemma total_insert f w id a : NoDup order → id ∈ order →
  sum_list_with (f ∘ <[id := a]> w.(aps)) order + f (w.(aps) id) = total f w + f a.
Proof.
  unfold total. intros Hnd Hin. induction order as [|x l IH]; [by apply not_elem_of_nil in Hin|].
  apply NoDup_cons in Hnd as [Hx Hnd]. cbn [sum_list_with]. unfold compose at 1 3.
  apply elem_of_cons in Hin as [->|Hin].
  - rewrite fn_lookup_insert.
    rewrite (sum_same _ (f ∘ aps w) l); [unfold compose; lia|].
    intros y Hy. unfold compose. rewrite fn_lookup_insert_ne; [done|]. congruence.
  - specialize (IH Hnd Hin). rewrite fn_lookup_insert_ne by congruence. lia.
Qed.

Lemma initial_consistent w : initial w → inv w.
Proof.
  intros (Ht & Hnd & Hs & Hb & Ha & Hl & Hc & Hcap & Htr & Hf).
  split; rewrite ?Hb, ?Htr, ?Ht, ?Hc, ?Hl; cbn [app current polling in_loops bsp_holds]; try done.
  - intros id. split; [by right|by intros [->|]].
  - by apply not_elem_of_nil.
  - intros id Hx. by rewrite Ha in Hx.
  - intros id _ [Hx|Hx]; [by apply not_elem_of_nil in Hx|done].
  - intros id. by rewrite Ha.
  - unfold total. rewrite (sum_same _ (λ _, 0)) by (intros id _; unfold compose; by rewrite Ha).
    f_equal. clear. induction order; [done|]. cbn [sum_list_with]. lia.
  - intros id k Hx. by rewrite Ha in Hx.
  - intros i j k Hx. by rewrite Ha in Hx.
  - intros id k Hx. by rewrite Ha in Hx.
  - intros id Hx. by rewrite Ha in Hx.
  - intros _. split; rewrite ?Htr, ?Hb, ?Hc; cbn; done.
Qed.

(** *** A step of a started processor *)

Record ap_change w id (a' : ap_pc) (l' : option holder) (f' : bool) (c' : nat) : Prop := {
  ch_started : w.(aps) id ≠ ApReset ∧ a' ≠ ApReset;
  ch_live : ∀ k, w.(aps) id ≠ ApStalled k;
  ch_bsp : l' = Some ByBsp ↔ w.(lock) = Some ByBsp;
  ch_lock : in_section a' = true ↔ l' = Some (ByAp id);
  ch_others : ∀ j, j ≠ id → l' = Some (ByAp j) ↔ w.(lock) = Some (ByAp j);
  ch_count : c' + joined (w.(aps) id) = w.(count) + joined a' ∧ w.(count) ≤ c' ≤ capacity;
  ch_index : ∀ k, index a' = Some k →
    index (w.(aps) id) = Some k ∨ k = w.(count) ∧ c' = S w.(count);
  ch_built : ∀ k, a' = ApBuilt k → k = c' ∧ c' < capacity;
  ch_stopped : a' = ApStopped → capacity ≤ c';
  ch_held : c' = w.(count) ∨ in_section (w.(aps) id) = true;
  ch_flag : f' = w.(flag) ∧ (∀ k, w.(aps) id = ApFlagged k → a' = ApStalled k)
    ∨ f' = true ∧ ∃ k, a' = ApFlagged k;
}.

Definition changed w id a' l' f' c' : world :=
  mkWorld w.(todo) w.(bsp) (<[id := a']> w.(aps)) l' f' c' w.(tried) w.(failed).

Ltac at_ap id :=
  match goal with
  | |- context [(<[id := _]> _) ?j] =>
      destruct (decide (j = id)) as [->|]; [rewrite fn_lookup_insert|rewrite fn_lookup_insert_ne by done]
  end.

Lemma on_time_change w id a' l' f' c' : inv w → ap_change w id a' l' f' c' →
  on_time w → w.(failed) = false → on_time (changed w id a' l' f' c').
Proof.
  intros Hi [[Hr Hr'] Hlive _ _ _ [Hc _] Hx _ _ _ Hfl] Ho Hf. destruct Ho as [Ht Hcnt Hix Hcl Hflag Hseen].
  destruct (inv_reset _ Hi id Hr) as [_ [Htr|Hp]].
  { apply list_elem_of_In, in_rev, list_elem_of_In, list_elem_of_lookup in Htr as [i Hid].
    by apply Ht, Hlive in Hid. }
  assert (id ∉ w.(tried)) as Hnt.
  { pose proof (inv_nodup _ Hi) as Hnd. rewrite (polling_current _ _ Hp) in Hnd.
    apply NoDup_app in Hnd as (_ & Hnd & _). intros Hin. apply (Hnd id Hin). by apply list_elem_of_here. }
  split; cbn [changed tried aps count bsp flag].
  - intros i j Hj. rewrite fn_lookup_insert_ne; [by apply Ht|]. intros ->. apply Hnt.
    apply list_elem_of_lookup_2, list_elem_of_In, in_rev, list_elem_of_In in Hj. done.
  - rewrite Hp in *. rewrite fn_lookup_insert. lia.
  - intros j k Hj Hk. assert (j = id) as -> by congruence. rewrite fn_lookup_insert in Hk.
    destruct (Hx k Hk) as [Ho|[-> Hc']]; [by eapply Hix|].
    rewrite Hp in Hcnt. assert (joined a' = 1) by (unfold joined; by rewrite Hk). lia.
  - intros j Hb. by rewrite Hb in Hp.
  - intros j Hj Ht'. assert (j = id) as -> by congruence. rewrite fn_lookup_insert.
    destruct Hfl as [[-> Hfl]|[_ [k ->]]]; [|by exists k; left].
    destruct (Hflag id Hp Ht') as [k [Hk|Hk]]; exists k; [right; by apply Hfl|].
    by destruct (Hlive k).
  - intros j m i Hb. rewrite Hb in Hp. cbn in Hp. simplify_eq.
    destruct (Hseen _ _ _ Hb) as [k Hk]. by destruct (Hlive k).
Qed.

Lemma changed_inv w id a' l' f' c' :
  NoDup order → inv w → ap_change w id a' l' f' c' → inv (changed w id a' l' f' c').
Proof.
  intros Hnd Hi Hch. pose proof Hch as [[Hr Hr'] Hlive Hlb Hla Hlo [Hc [Hc1 Hc2]] Hx Hb Hst Hh Hfl].
  pose proof (proj1 (started_in_order w id Hi Hr)) as Hord.
  pose proof (on_time_change w id a' l' f' c' Hi Hch) as Hot.
  destruct Hi as [Hn Ho Hs Hlp Hre Hsd Hl1 Hl2 Hcn Hix Hd Hbu Hsp Hcp Hok].
  split; cbn [changed tried aps count bsp flag todo lock failed]; try done.
  - intros j. at_ap id; [by intros _; apply Hre|apply Hre].
  - intros j Hp Ht. at_ap id; [done|by apply Hsd].
  - by rewrite Hlb.
  - intros j. at_ap id; [done|]. by rewrite Hlo, Hl2.
  - pose proof (total_insert joined w id a' Hnd Hord) as Ht. unfold total at 1. cbn [changed aps]. lia.
  - intros j k. at_ap id; [|intros Hk; apply Hix in Hk; lia].
    intros [Hk|[-> ->]]%Hx; [apply Hix in Hk; lia|lia].
  - assert (∀ j k, j ≠ id → index a' = Some k → index (w.(aps) j) = Some k → False) as Hne.
    { intros j k Hj Ha Hk. destruct (Hx k Ha) as [Hk'|[-> _]]; [by apply Hj, (Hd j id k)|].
      apply Hix in Hk. lia. }
    intros i j k. destruct (decide (i = id)) as [->|], (decide (j = id)) as [->|];
      rewrite ?fn_lookup_insert, ?fn_lookup_insert_ne by done; try done.
    + intros Ha Hk. by destruct (Hne j k).
    + intros Hk Ha. by destruct (Hne i k).
    + apply Hd.
  - intros j k. at_ap id; [apply Hb|]. intros Hk. destruct Hh as [->|Hin]; [by eapply Hbu|].
    apply Hl2 in Hin. assert (w.(lock) = Some (ByAp j)) as Hj by (apply Hl2; by rewrite Hk).
    congruence.
  - intros j. at_ap id; [done|]. intros Hk. apply Hsp in Hk. lia.
  - lia.
  - intros Hf. by apply Hot; [apply Hok|].
Qed.

(** *** A step of the first processor *)

Definition entries (w : world) : list Z := w.(tried) ++ current w.(bsp) ++ w.(todo).

Lemma bsp_move w w' k :
  inv w → (∀ id, w'.(aps) id = w.(aps) id) → w'.(count) = w.(count) →
  (k = [] ∨ k = [self]) → entries w ≡ₚ k ++ entries w' →
  (self ∉ w'.(tried) ++ current w'.(bsp)) → in_loops w'.(bsp) →
  (∀ id, id ∈ w'.(tried) ∨ polling w'.(bsp) = Some id ↔ id ∈ w.(tried) ∨ polling w.(bsp) = Some id) →
  (bsp_holds w'.(bsp) = true ↔ w'.(lock) = Some ByBsp) →
  (∀ id, w'.(lock) = Some (ByAp id) ↔ w.(lock) = Some (ByAp id)) →
  (w'.(failed) = false → on_time w') → inv w'.
Proof.
  intros Hi Ha Hc Hk Hp Hs Hlp Hpo Hl1 Hl2 Hot.
  destruct Hi as [Hn Ho _ _ Hre Hsd _ Hla Hcn Hix Hd Hbu Hsp Hcp _]. fold (entries w) in *.
  split; rewrite ?Hc; fold (entries w'); try done; intros *; rewrite ?Ha; try done.
  - rewrite Hp in Hn. by apply NoDup_app in Hn as (_ & _ & Hn).
  - rewrite Ho, Hp, elem_of_app. destruct Hk as [->| ->]; [by rewrite elem_of_nil; tauto|].
    rewrite list_elem_of_singleton. tauto.
  - rewrite Hpo. apply Hre.
  - rewrite Hpo. apply Hsd.
  - by rewrite Hl2.
  - rewrite Hcn. unfold total. f_equal. apply sum_same. intros j _. unfold compose. by rewrite Ha.
  - apply Hix.
  - apply Hd.
  - apply Hbu.
  - apply Hsp.
Qed.

Lemma reset_entry w id l : inv w → w.(bsp) = BNext → w.(todo) = id :: l → w.(aps) id = ApReset.
Proof.
  intros Hi Hb Ht. destruct (decide (w.(aps) id = ApReset)) as [|Hne]; [done|].
  destruct (inv_reset _ Hi id Hne) as [_ [Hx|Hx]]; [|by rewrite Hb in Hx].
  pose proof (inv_nodup _ Hi) as Hn. rewrite Hb, Ht in Hn. cbn [current app] in Hn.
  apply NoDup_app in Hn as (_ & Hn & _). exfalso. apply (Hn id Hx), list_elem_of_here.
Qed.

(** [on_time] looks at the processors, the index counter, what was tried, the
    flag and the place of the first one. *)
Lemma on_time_bsp w w' :
  on_time w → (∀ id, w'.(aps) id = w.(aps) id) → w'.(count) = w.(count) →
  w'.(tried) = w.(tried) → w'.(flag) = w.(flag) → polling w'.(bsp) = polling w.(bsp) →
  (∀ id, w'.(bsp) = BSend id 0 → w'.(flag) = false) →
  (∀ id j i, w'.(bsp) = BGot id j i true → ∃ k, w.(aps) id = ApStalled k) → on_time w'.
Proof.
  intros [Ht Hcn Hix Hcl Hfl Hsn] Ha Hc Htr Hf Hp Hcl' Hsn'.
  split; intros *; rewrite ?Ha, ?Hc, ?Htr, ?Hp; auto.
  - rewrite Hcn. by destruct (polling (bsp w)); rewrite ?Ha.
  - apply Hix.
  - apply Hcl'.
  - rewrite Hf. apply Hfl.
  - apply Hsn'.
Qed.

Lemma self_inv w l : inv w → w.(bsp) = BNext → w.(todo) = self :: l → inv (set_todo l w).
Proof.
  intros Hi Hb Ht. apply (bsp_move w _ [self]); cbn; try done; rewrite ?Hb; cbn; try done.
  - by right.
  - unfold entries. cbn. rewrite Hb, Ht. cbn. by rewrite Permutation_middle.
  - rewrite app_nil_r. intros Hs. apply (inv_self _ Hi), elem_of_app. by left.
  - pose proof (inv_lock_bsp _ Hi) as Hl. by rewrite Hb in Hl.
  - intros Hf. pose proof (inv_on_time _ Hi Hf) as Ho.
    apply (on_time_bsp w); try done; cbn; intros *; by rewrite Hb.
Qed.

Lemma init_inv w id l : inv w → w.(bsp) = BNext → w.(todo) = id :: l → id ≠ self →
  inv (set_todo l (set_bsp (BInit id) (set_ap id ApReset w))).
Proof.
  intros Hi Hb Ht Hne. pose proof (reset_entry w id l Hi Hb Ht) as Hr.
  assert (∀ j, (<[id := ApReset]> w.(aps)) j = w.(aps) j) as Ha by (intros j; by at_ap id).
  apply (bsp_move w _ []); cbn; try done; rewrite ?Hb; cbn; try done.
  - by left.
  - unfold entries. by rewrite Hb, Ht.
  - rewrite elem_of_app, list_elem_of_singleton. intros [Hs|Hs]; [|congruence].
    apply (inv_self _ Hi), elem_of_app. by left.
  - pose proof (inv_lock_bsp _ Hi) as Hl. by rewrite Hb in Hl.
  - intros Hf. apply (on_time_bsp w); try done; cbn; rewrite ?Hb; try done. by apply inv_on_time.
Qed.

Lemma clear_inv w id : inv w → w.(bsp) = BInit id → inv (set_bsp (BSend id 0) (set_flag false w)).
Proof.
  intros Hi Hb. apply (bsp_move w _ []); cbn; try done; rewrite ?Hb; cbn; try done.
  - by left.
  - unfold entries. by rewrite Hb.
  - pose proof (inv_self _ Hi) as Hs. by rewrite Hb in Hs.
  - unfold sends. lia.
  - pose proof (inv_lock_bsp _ Hi) as Hl. by rewrite Hb in Hl.
  - intros Hf. destruct (inv_on_time _ Hi Hf) as [Ht Hcn Hix Hcl Hfl Hsn]. rewrite Hb in *.
    split; cbn; done.
Qed.

Lemma poll_inv w id j i : inv w → w.(bsp) = BPoll id j i → w.(lock) = None →
  inv (set_lock (Some ByBsp) (set_bsp (BHold id j i) w)).
Proof.
  intros Hi Hb Hn. pose proof (inv_loops _ Hi) as Hl.
  pose proof (inv_self _ Hi) as Hs. rewrite Hb in Hl, Hs.
  apply (bsp_move w _ []); cbn; try done; rewrite ?Hb, ?Hn; cbn; try done.
  - by left.
  - unfold entries. by rewrite Hb.
  - intros Hf. apply (on_time_bsp w); try done; cbn; rewrite ?Hb; try done. by apply inv_on_time.
Qed.

Lemma flag_read_inv w id j i : inv w → w.(bsp) = BHold id j i →
  inv (set_bsp (BGot id j i w.(flag)) w).
Proof.
  intros Hi Hb. pose proof (inv_loops _ Hi) as Hl.
  pose proof (inv_self _ Hi) as Hs. pose proof (inv_lock_bsp _ Hi) as Hk. rewrite Hb in Hl, Hs, Hk.
  apply (bsp_move w _ []); cbn; try done; rewrite ?Hb; cbn; try done.
  - by left.
  - unfold entries. by rewrite Hb.
  - intros Hf. pose proof (inv_on_time _ Hi Hf) as Ho.
    apply (on_time_bsp w); try done; cbn; rewrite ?Hb; try done.
    intros id' j' i' [= <- _ _ Ht]. destruct (ot_flag _ Ho id) as [k Hx]; [by rewrite Hb|done|].
    exists k. destruct Hx as [Hx|Hx]; [|done].
    assert (w.(lock) = Some (ByAp id)) by (apply (inv_lock_ap _ Hi); by rewrite Hx).
    rewrite (proj1 Hk eq_refl) in *. done.
Qed.

(** The first message finds the processor in reset. *)
Lemma first_send w id : inv w → w.(bsp) = BSend id 0 → (id ∉ w.(tried)) ∧ w.(aps) id = ApReset.
Proof.
  intros Hi Hb. pose proof (inv_nodup _ Hi) as Hn. rewrite Hb in Hn. cbn [current] in Hn.
  apply NoDup_app in Hn as (_ & Hn & _).
  assert (id ∉ w.(tried)) as Hid by (intros Hx; by apply (Hn id Hx), list_elem_of_here).
  split; [done|]. destruct (decide (w.(aps) id = ApReset)) as [|Hne]; [done|].
  destruct (inv_reset _ Hi id Hne) as [_ [Hx|Hx]]; [done|by rewrite Hb in Hx].
Qed.

(** What is out of the way: not in the section, without an index. *)
Definition fresh (a : ap_pc) : Prop := a = ApReset ∨ a = ApStarted.

Lemma first_send_inv w id a : NoDup order → inv w → w.(bsp) = BSend id 0 → fresh a →
  (a ≠ ApReset ↔ present id = true) → inv (set_bsp (BPoll id 0 0) (set_ap id a w)).
Proof.
  intros Hnd Hi Hb Hfr Ha. destruct (first_send w id Hi Hb) as [Hid Hr].
  assert (in_section a = false ∧ index a = None ∧ joined a = 0 ∧ (∀ k, a ≠ ApBuilt k) ∧ a ≠ ApStopped)
    as (Hs & Hix & Hj & Hbu & Hsp) by (by destruct Hfr; subst a).
  assert (id ∈ order) as Hord.
  { apply (inv_order _ Hi). right. rewrite Hb. cbn [current].
    rewrite !elem_of_app, list_elem_of_singleton. tauto. }
  pose proof (total_insert joined w id a Hnd Hord) as Ht. rewrite Hr, Hj in Ht.
  assert (∀ j k, index ((<[id := a]> w.(aps)) j) = Some k → index (w.(aps) j) = Some k) as Hidx.
  { intros j k. by at_ap id; [rewrite Hix|]. }
  pose proof Hi as [Hn Ho Hse Hlp Hre Hsd Hl1 Hl2 Hcn Hin Hd Hbt Hst Hcp Hot]. rewrite Hb in *.
  split; cbn [set_bsp set_ap tried aps count bsp flag todo lock failed in_loops]; try done.
  - unfold sends, polls. lia.
  - intros j. cbn [polling]. at_ap id; [intros Hx; split; [by apply Ha|by right]|].
    intros Hx. destruct (Hre j Hx) as [Hp [Hj'|Hj']]; [by auto|done].
  - intros j Hp Hx. at_ap id; [by apply Ha|]. apply Hsd; [done|].
    destruct Hx as [Hx|Hx]; [by left|]. cbn in Hx. congruence.
  - intros j. at_ap id; [|apply Hl2]. by rewrite Hs, <-Hl2, Hr.
  - rewrite Hcn. unfold total at 2. cbn [aps set_bsp set_ap]. cbn [joined index] in Ht. lia.
  - intros j k Hk. by eapply Hin, Hidx.
  - intros i j k H1 H2. eapply Hd; by apply Hidx.
  - intros j k. at_ap id; [by intros ?%Hbu|apply Hbt].
  - intros j. at_ap id; [done|apply Hst].
  - intros Hf. destruct (Hot Hf) as [Ht' Hc Hi' Hcl _ _]. rewrite Hb in *.
    split; cbn [set_bsp set_ap tried aps count bsp flag polling]; try done.
    + intros i j Hj'. rewrite fn_lookup_insert_ne; [by apply Ht'|]. intros ->. apply Hid.
      by eapply list_elem_of_In, in_rev, list_elem_of_In, list_elem_of_lookup_2.
    + rewrite Hc, fn_lookup_insert, Hj. done.
    + intros j k [= <-]. by rewrite fn_lookup_insert, Hix.
    + intros j _ Hx. by rewrite (Hcl id eq_refl) in Hx.
Qed.

Lemma send_inv w id j : NoDup order → inv w → w.(bsp) = BSend id j →
  inv (set_bsp (BPoll id j 0) (if present id then set_ap id (start (w.(aps) id)) w else w)).
Proof.
  intros Hnd Hi Hb. destruct j as [|j].
  - destruct (first_send w id Hi Hb) as [_ Hr].
    destruct (present id) eqn:Hp.
    { apply first_send_inv; rewrite ?Hr, ?Hp; try done. by right. }
    assert (inv (set_bsp (BPoll id 0 0) (set_ap id ApReset w))) as Hx.
    { apply first_send_inv; rewrite ?Hp; try done. by left. }
    assert (∀ i, (<[id := ApReset]> w.(aps)) i = w.(aps) i) as Ha by (intros i; by at_ap id).
    apply (bsp_move _ _ [] Hx); cbn; try done; try (by left);
      [apply (inv_self _ Hx)|apply (inv_loops _ Hx)|apply (inv_lock_bsp _ Hx)|].
    intros Hf. by apply (on_time_bsp _ _ (inv_on_time _ Hx Hf)); cbn.
  - assert (∀ i, (if present id then set_ap id (start (w.(aps) id)) w else w).(aps) i = w.(aps) i) as Ha.
    { intros i. destruct (present id) eqn:Hp; [|done]. cbn. at_ap id; [|done].
      assert (w.(aps) id ≠ ApReset) by (apply (inv_started _ Hi); [done|right; by rewrite Hb]).
      by destruct (w.(aps) id). }
    pose proof (inv_self _ Hi) as Hs. pose proof (inv_lock_bsp _ Hi) as Hl.
    pose proof (inv_loops _ Hi) as Hlp. rewrite Hb in Hs, Hl, Hlp. cbn in Hlp.
    set (w1 := if present id then _ else _) in *.
    assert (w1.(tried) = w.(tried) ∧ w1.(todo) = w.(todo) ∧ w1.(lock) = w.(lock) ∧
      w1.(count) = w.(count) ∧ w1.(flag) = w.(flag) ∧ w1.(failed) = w.(failed)) as (E1&E2&E3&E4&E5&E6)
      by (unfold w1; by destruct (present id)).
    apply (bsp_move w _ []); cbn [set_bsp aps count tried bsp todo flag lock failed]; try done;
      rewrite ?E1, ?E3, ?Hb; try done.
    + by left.
    + unfold entries. cbn. by rewrite E1, E2, Hb.
    + split; [done|unfold polls; lia].
    + rewrite E6. intros Hf. apply (on_time_bsp w); cbn; rewrite ?E5, ?Hb; try done.
      by apply inv_on_time.
Qed.

(** The scope of the lock ends. *)
Lemma got_inv w id j i (seen : bool) : inv w → w.(bsp) = BGot id j i seen →
  inv (set_lock None (if seen then finish id false w else next_poll id j i w)).
Proof.
  intros Hi Hb. pose proof (inv_self _ Hi) as Hs. pose proof (inv_loops _ Hi) as Hlp.
  pose proof (proj1 (inv_lock_bsp _ Hi)) as Hl. rewrite Hb in Hs, Hlp, Hl. specialize (Hl eq_refl).
  cbn in Hlp.
  assert (∀ w' f, w' = set_lock None (finish id f w) → (w'.(failed) = false → on_time w') → inv w')
    as Hfin.
  { intros w' f -> Hot. apply (bsp_move w _ []); cbn; rewrite ?Hb, ?Hl; try done.
    - by left.
    - unfold entries. cbn. rewrite Hb. cbn. by rewrite Permutation_middle.
    - rewrite app_nil_r. intros Hx. apply Hs. cbn. rewrite elem_of_app, list_elem_of_singleton.
      apply elem_of_cons in Hx. tauto.
    - intros x. rewrite elem_of_cons. cbn. naive_solver. }
  assert (∀ b, bsp_holds b = false → current b = [id] → in_loops b → polling b = Some id →
    inv (set_lock None (set_bsp b w))) as Hgo.
  { intros b Hbh Hcu Hlo Hpo. apply (bsp_move w _ []); cbn; rewrite ?Hb, ?Hl, ?Hpo, ?Hcu; try done.
    - by left.
    - unfold entries. cbn. by rewrite Hb.
    - by rewrite Hbh.
    - intros Hf. apply (on_time_bsp w); cbn; rewrite ?Hb, ?Hpo; try done.
      + by apply inv_on_time.
      + intros x ->. done.
      + intros x y z ->. done. }
  destruct seen.
  - eapply Hfin; [done|]. cbn. rewrite orb_false_r. intros Hf.
    destruct (inv_on_time _ Hi Hf) as [Ht Hc Hix _ _ Hsn].
    destruct (Hsn id j i Hb) as [k Hk]. rewrite Hb in *. cbn in Hc, Hix.
    rewrite Hk in Hc. cbn in Hc.
    split; cbn; try done; [|lia].
    intros m x Hx. apply lookup_app_Some in Hx as [Hx|[Hle Hx]]; [by apply Ht|].
    rewrite length_rev in Hle, Hx. apply list_lookup_singleton_Some in Hx as [Hm <-].
    rewrite Hk. f_equal. assert (k = S (length (tried w))) by (apply (Hix id); [done|by rewrite Hk]).
    lia.
  - unfold next_poll. destruct (Nat.ltb_spec (S i) polls); [|destruct (Nat.ltb_spec (S j) sends)].
    + apply Hgo; cbn; try done. lia.
    + apply Hgo; cbn; try done.
    + eapply Hfin; [done|]. cbn. by rewrite orb_true_r.
Qed.

(** The lock of a processor in the section, and the conditions of its step. *)
Ltac in_lock Hl id Ha := specialize (Hl id); rewrite Ha in Hl; specialize (Hl eq_refl).
Ltac change_side Ha Hl :=
  split; rewrite ?Ha, ?Hl; try done; try naive_solver; cbn; try lia.

Lemma handshake_step_inv w w' : NoDup order → inv w → step w w' → inv w'.
Proof.
  intros Hnd Hi Hs.
  assert (∀ id, in_section (w.(aps) id) = true → w.(lock) = Some (ByAp id)) as Hl
    by (intros id; apply (inv_lock_ap _ Hi)).
  assert (∀ id a' l' f' c', w' = changed w id a' l' f' c' → ap_change w id a' l' f' c' → inv w') as Hch
    by (intros id a' l' f' c' -> ?; by apply changed_inv).
  pose proof (inv_capacity _ Hi) as Hcap.
  destruct Hs as [l Hb Ht|id l Hb Ht Hne|id Hb|id j Hb|id j i Hb Hn|id j i Hb|id j i seen Hb
    |id Ha Hn|id Ha Hc|id Ha Hc|id k Ha|id k Ha|id k Ha].
  - by apply self_inv.
  - by apply init_inv.
  - by apply clear_inv.
  - by apply send_inv.
  - by apply poll_inv.
  - by eapply flag_read_inv.
  - by eapply got_inv.
  - eapply (Hch id); [reflexivity|]. change_side Ha Hn.
  - eapply (Hch id); [reflexivity|]. in_lock Hl id Ha. change_side Ha Hl.
  - eapply (Hch id); [reflexivity|]. in_lock Hl id Ha. change_side Ha Hl.
  - eapply (Hch id); [reflexivity|]. in_lock Hl id Ha.
    destruct (inv_built _ Hi id k Ha) as [-> Hlt]. change_side Ha Hl.
  - eapply (Hch id); [reflexivity|]. in_lock Hl id Ha. change_side Ha Hl.
  - eapply (Hch id); [reflexivity|]. in_lock Hl id Ha. change_side Ha Hl.
Qed.

Lemma handshake_inv w0 w : initial w0 → rtc step w0 w → inv w.
Proof.
  intros Hi Hr. assert (NoDup order) as Hnd by apply Hi.
  apply initial_consistent in Hi. induction Hr as [|w0 w1 w Hs Hr IH]; [done|].
  by eapply IH, handshake_step_inv.
Qed.

(** *** Every run ends *)

(** The steps a processor has left, and those of the first one: what it does
    for an entry, and three steps for each poll of each message. *)
Definition ap_rank (a : ap_pc) : nat :=
  match a with
  | ApReset => 6 | ApStarted => 5 | ApSeized => 4 | ApBuilt _ => 3 | ApCounted _ => 2
  | ApFlagged _ => 1 | ApStalled _ | ApStopped => 0
  end.
Definition send_rank : nat := S (3 * polls).
Definition poll_rank (j i : nat) : nat := send_rank * (sends - S j) + 3 * (polls - i).
Definition bsp_rank (b : bsp_pc) : nat :=
  match b with
  | BNext => 0
  | BInit _ => S (send_rank * sends)
  | BSend _ j => send_rank * (sends - j)
  | BPoll _ j i => poll_rank j i
  | BHold _ j i => poll_rank j i - 1
  | BGot _ j i _ => poll_rank j i - 2
  end.
Definition entry_rank : nat := S (S (send_rank * sends)).
Definition rank (w : world) : nat :=
  entry_rank * length w.(todo) + bsp_rank w.(bsp) + total ap_rank w.

Lemma poll_rank_pos id j i b : in_loops (BGot id j i b) → 3 ≤ poll_rank j i.
Proof. unfold poll_rank, in_loops, polls, sends. lia. Qed.

Lemma next_poll_rank id j i w : in_loops (BGot id j i false) →
  bsp_rank (next_poll id j i w).(bsp) < poll_rank j i - 2.
Proof.
  unfold in_loops, next_poll, poll_rank, send_rank. intros [Hj Hi].
  destruct (Nat.ltb_spec (S i) polls); [|destruct (Nat.ltb_spec (S j) sends)];
    cbn [set_bsp finish bsp bsp_rank]; unfold poll_rank, send_rank, sends, polls in *; lia.
Qed.

(** A step of a processor that is neither reset nor asleep. *)
Lemma ap_step_rank w id a : NoDup order → inv w → w.(aps) id ≠ ApReset →
  ap_rank a < ap_rank (w.(aps) id) →
  sum_list_with (ap_rank ∘ <[id := a]> w.(aps)) order < total ap_rank w.
Proof.
  intros Hnd Hi Hr Hlt.
  pose proof (total_insert ap_rank w id a Hnd (proj1 (started_in_order w id Hi Hr))). lia.
Qed.

Lemma handshake_step_rank w w' : NoDup order → inv w → step w w' → rank w' < rank w.
Proof.
  intros Hnd Hi Hs. pose proof (inv_loops _ Hi) as Hlp. unfold rank.
  assert (∀ id a, w.(aps) id ≠ ApReset → ap_rank a < ap_rank (w.(aps) id) →
    sum_list_with (ap_rank ∘ <[id := a]> w.(aps)) order < total ap_rank w) as Hap
    by (intros; by apply ap_step_rank).
  unfold total in *.
  destruct Hs as [l Hb Ht|id l Hb Ht Hne|id Hb|id j Hb|id j i Hb Hn|id j i Hb|id j i seen Hb
    |id Ha Hn|id Ha Hc|id Ha Hc|id k Ha|id k Ha|id k Ha];
    try (specialize (Hap id); rewrite Ha in Hap;
      cbn [set_lock set_ap set_count set_flag todo bsp aps];
      match goal with |- context [<[id := ?a]> _] => specialize (Hap a ltac:(done)) end;
      cbn [ap_rank] in Hap; lia).
  - cbn [set_todo todo bsp aps]. rewrite Ht. unfold entry_rank. cbn [length]. lia.
  - cbn [set_todo set_bsp set_ap todo bsp aps]. rewrite Ht, Hb.
    rewrite (sum_same _ (ap_rank ∘ w.(aps))); [cbn [bsp_rank length]; unfold entry_rank; lia|].
    intros j _. unfold compose. at_ap id; [by rewrite (reset_entry w id l)|done].
  - cbn [set_bsp set_flag todo bsp aps]. rewrite Hb. cbn [bsp_rank]. lia.
  - rewrite Hb in *. cbn in Hlp. cbn [set_bsp todo bsp aps bsp_rank].
    assert (poll_rank j 0 < send_rank * (sends - j)) as Hlt.
    { unfold poll_rank, send_rank, sends, polls in *. lia. }
    assert (sum_list_with (ap_rank ∘ (if present id then set_ap id (start (w.(aps) id)) w else w).(aps))
      order ≤ sum_list_with (ap_rank ∘ w.(aps)) order) as Hle.
    { destruct (present id); [|done]. cbn [set_ap aps].
      assert (id ∈ order) as Hord.
      { apply (inv_order _ Hi). right. rewrite Hb. cbn [current].
        rewrite !elem_of_app, list_elem_of_singleton. tauto. }
      pose proof (total_insert ap_rank w id (start (w.(aps) id)) Hnd Hord) as Hx.
      unfold total in Hx. assert (ap_rank (start (w.(aps) id)) ≤ ap_rank (w.(aps) id))
        by (destruct (w.(aps) id); cbn; lia). lia. }
    destruct (present id); cbn [set_ap todo aps] in *; lia.
  - cbn [set_lock set_bsp todo bsp aps]. rewrite Hb in *. cbn [bsp_rank].
    pose proof (poll_rank_pos id j i true Hlp). lia.
  - cbn [set_bsp todo bsp aps]. rewrite Hb in *. cbn [bsp_rank].
    pose proof (poll_rank_pos id j i true Hlp). lia.
  - rewrite Hb in *. pose proof (poll_rank_pos id j i true Hlp). cbn [bsp_rank].
    destruct seen; [cbn [set_lock finish todo bsp aps bsp_rank]; lia|].
    pose proof (next_poll_rank id j i w Hlp) as Hlt. unfold next_poll in *.
    destruct (S i <? polls), (S j <? sends); cbn [set_lock set_bsp finish todo bsp aps] in *; lia.
Qed.

Lemma handshake_runs w0 w n : initial w0 → nsteps step n w0 w → inv w ∧ n + rank w ≤ rank w0.
Proof.
  intros Hi Hs. assert (NoDup order) as Hnd by apply Hi. apply initial_consistent in Hi.
  induction Hs as [w0|n w0 w1 w Hs _ IH]; [by split|].
  destruct IH as [Hw Hr]; [by eapply handshake_step_inv|].
  pose proof (handshake_step_rank w0 w1 Hnd Hi Hs). split; [done|lia].
Qed.

Lemma initial_handshake_rank w : initial w → rank w = 130 * length order.
Proof.
  intros (Ht & _ & _ & Hb & Ha & _). unfold rank, total. rewrite Ht, Hb.
  rewrite (sum_same _ (λ _, 6)) by (intros id _; unfold compose; by rewrite Ha).
  assert (sum_list_with (λ _ : Z, 6) order = 6 * length order) as ->.
  { clear. induction order as [|x l IH]; [done|]. cbn [sum_list_with length]. lia. }
  cbn [bsp_rank]. unfold entry_rank, send_rank, sends, polls. lia.
Qed.

(** *** Nothing waits for ever *)

Lemma sum_bits (f : Z → nat) l : (∀ x, f x ≤ 1) → sum_list_with f l ≤ length l.
Proof.
  intros Hf. induction l as [|x l IH]; [done|]. cbn [sum_list_with length]. specialize (Hf x). lia.
Qed.

Lemma sum_bits_zero (f : Z → nat) l a : (∀ x, f x ≤ 1) → a ∈ l → f a = 0 →
  sum_list_with f l < length l.
Proof.
  intros Hf [l1 [l2 ->]]%list_elem_of_split Ha.
  rewrite sum_list_with_app, length_app. cbn [sum_list_with length].
  pose proof (sum_bits f l1 Hf). pose proof (sum_bits f l2 Hf). lia.
Qed.

Lemma sum_bits_two (f : Z → nat) l a b : (∀ x, f x ≤ 1) → a ∈ l → b ∈ l → a ≠ b →
  f a = 0 → f b = 0 → S (sum_list_with f l) < length l.
Proof.
  intros Hf [l1 [l2 ->]]%list_elem_of_split Hb Hne Ha Hb0.
  rewrite sum_list_with_app, length_app. cbn [sum_list_with length].
  pose proof (sum_bits f l1 Hf). pose proof (sum_bits f l2 Hf).
  apply elem_of_app in Hb as [Hb|[->|Hb]%elem_of_cons]; [|done|];
    pose proof (sum_bits_zero f _ b Hf Hb Hb0); lia.
Qed.

Lemma self_reset w : inv w → w.(aps) self = ApReset.
Proof.
  intros Hi. destruct (decide (w.(aps) self = ApReset)) as [|Hne]; [done|].
  by destruct (proj2 (started_in_order w self Hi Hne)).
Qed.

(** A domain with room for every processor of the table refuses none. *)
Lemma never_stopped w id : inv w → self ∈ order → length order ≤ capacity → w.(aps) id ≠ ApStopped.
Proof.
  intros Hi Hs Hcap Ha.
  destruct (started_in_order w id Hi) as [Hin Hne]; [by rewrite Ha|].
  pose proof (inv_stopped _ Hi id Ha) as Hfull. rewrite (inv_count _ Hi) in Hfull.
  pose proof (sum_bits_two (joined ∘ w.(aps)) order id self) as Hx. unfold compose in Hx.
  rewrite Ha, self_reset in Hx by done. unfold total, compose in Hfull.
  assert (∀ x, joined (w.(aps) x) ≤ 1) as Hj by (intros x; unfold joined; destruct (index _); lia).
  specialize (Hx Hj Hin Hs Hne eq_refl eq_refl). lia.
Qed.

Lemma rest_unlocked w : inv w → at_rest w → (∀ id, w.(aps) id ≠ ApStopped) → w.(lock) = None.
Proof.
  intros Hi Hr Hns. destruct (lock w) as [[|id]|] eqn:Hl; [| |done]; exfalso.
  - pose proof (proj2 (inv_lock_bsp _ Hi) Hl) as Hb.
    destruct (bsp w) eqn:E; try done; eapply Hr; [by eapply step_read|by eapply step_got].
  - pose proof (proj2 (inv_lock_ap _ Hi id) Hl) as Ha.
    destruct (aps w id) eqn:E; try done; try by eapply Hns.
    + destruct (decide (w.(count) < capacity)); eapply Hr; [by eapply step_build|].
      eapply step_full; [done|lia].
    + eapply Hr. by eapply step_count.
    + eapply Hr. by eapply step_flag.
    + eapply Hr. by eapply step_release.
Qed.

Lemma rest_done w : inv w → at_rest w → self ∈ order → length order ≤ capacity →
  w.(bsp) = BNext ∧ w.(todo) = [] ∧ w.(lock) = None ∧
  ∀ id, id ∈ order → id ≠ self → present id = true → ∃ k, w.(aps) id = ApStalled k.
Proof.
  intros Hi Hr Hself Hcap.
  assert (∀ id, w.(aps) id ≠ ApStopped) as Hns by (intros id; by apply never_stopped).
  pose proof (rest_unlocked w Hi Hr Hns) as Hl.
  assert (w.(bsp) = BNext) as Hb.
  { destruct (bsp w) eqn:E; [done|..]; exfalso; eapply Hr;
      [by eapply step_clear|by eapply step_send|by eapply step_poll|by eapply step_read
      |by eapply step_got]. }
  assert (w.(todo) = []) as Ht.
  { destruct (todo w) as [|id l] eqn:E; [done|]. exfalso.
    destruct (decide (id = self)) as [->|]; eapply Hr; [by eapply step_self|by eapply step_init]. }
  split_and!; try done. intros id Hin Hne Hp.
  apply (inv_order _ Hi) in Hin as [|Hin]; [done|]. rewrite Hb, Ht in Hin.
  cbn [current app] in Hin. rewrite app_nil_r in Hin.
  pose proof (inv_started _ Hi id Hp (or_introl Hin)) as Hnr.
  assert (in_section (w.(aps) id) = true → False) as Hsec
    by (intros Hx%(inv_lock_ap _ Hi); congruence).
  destruct (aps w id) eqn:E; try done; try by destruct Hsec.
  - exfalso. eapply Hr. by eapply step_seize.
  - by eexists.
Qed.
End Handshake.

(** ** Properties *)

(** C31. Starting the processors, in every interleaving of the first one with
    those it starts: at most one processor is between Seize and Release of
    initLock, and the one whose object is being built builds it in the slot
    after the last; the indices that InitNewCpu returned are below the count,
    at least 1, and no two are the same, the count is one more than their
    number and never passes the capacity; as long as no start timed out, the
    processors tried sleep in the domain, with the indices 1, 2, ... in the
    order of the table.  Every run ends, after at most 130 steps for an entry,
    and, when the domain has room for all entries, it ends with StartCpus
    returned, the lock free and every processor that answers a startup message
    in the domain, those that were given up on included. *)
Theorem StartCpus_handshake (order : list Z) (self : Z) (capacity : nat) (present : Z → bool)
  (w0 w : world) (n : nat) (Hi : initial order self capacity w0)
  (Hs : nsteps (step self capacity present) n w0 w) :
  (∀ i j, in_section (w.(aps) i) = true → in_section (w.(aps) j) = true → i = j) ∧
  (∀ i, in_section (w.(aps) i) = true → bsp_holds w.(bsp) = false) ∧
  (∀ i k, w.(aps) i = ApBuilt k → k = w.(count)) ∧
  (∀ i k, index (w.(aps) i) = Some k → 1 ≤ k < w.(count)) ∧
  (∀ i j k, index (w.(aps) i) = Some k → index (w.(aps) j) = Some k → i = j) ∧
  w.(count) = S (total order joined w) ∧ w.(count) ≤ capacity ∧
  (w.(failed) = false → ∀ i id, rev w.(tried) !! i = Some id → w.(aps) id = ApStalled (S i)) ∧
  n ≤ 130 * length order ∧
  (at_rest self capacity present w → length order ≤ capacity →
    w.(bsp) = BNext ∧ w.(todo) = [] ∧ w.(lock) = None ∧
    ∀ id, id ∈ order → id ≠ self → present id = true → ∃ k, w.(aps) id = ApStalled k).
Proof.
  destruct (handshake_runs order self capacity present w0 w n Hi Hs) as [Hw Hr].
  rewrite (initial_handshake_rank order self capacity w0 Hi) in Hr.
  pose proof Hw as [Hn Ho Hse Hlp Hre Hsd Hl1 Hl2 Hcn Hix Hd Hbu Hsp Hcp Hot].
  split_and!; try done; try lia.
  - intros i j H1%Hl2 H2%Hl2. congruence.
  - intros i H1%Hl2. apply not_true_is_false. intros H2%Hl1. congruence.
  - intros i k H1. by apply (Hbu i).
  - intros Hf. apply (ot_tried _ (Hot Hf)).
  - intros Hrest Hcap. apply (rest_done order self capacity present w); try done. apply Hi.
Qed.

(** Processors 0, the first one, and 1, which starts in time. *)
Definition powered (order : list Z) : world :=
  mkWorld order BNext (λ _, ApReset) None false 1 [] false.

Lemma powered_initial order self capacity :
  NoDup order → self ∈ order → 0 < capacity → initial order self capacity (powered order).
Proof. done. Qed.

Definition answers (id : Z) : bool := true.

(** The next step, by the constructor given. *)
Ltac runs_by c := eapply nsteps_l; [eapply c; cbn; try reflexivity; try done; lia|]; cbn.
Ltac runs_ap c i :=
  eapply nsteps_l; [eapply c with (id := i); cbn; try reflexivity; try done; lia|]; cbn.

Lemma start_in_time : ∃ w, nsteps (step 0 2 answers) 12 (powered [0; 1]%Z) w ∧
  w.(bsp) = BNext ∧ w.(todo) = [] ∧ w.(tried) = [1%Z] ∧ w.(failed) = false ∧ w.(count) = 2.
Proof.
  eexists. split.
  - runs_by step_self. runs_by step_init. runs_by step_clear. runs_by step_send.
    runs_ap step_seize 1%Z. runs_ap step_build 1%Z.
    runs_ap step_count 1%Z. runs_ap step_flag 1%Z.
    runs_ap step_release 1%Z.
    runs_by step_poll. runs_by step_read. runs_by step_got. apply nsteps_O.
  - done.
Qed.

Lemma StartCpus_handshake_witness : ∃ w, nsteps (step 0 2 answers) 12 (powered [0; 1]%Z) w ∧
  w.(aps) 1%Z = ApStalled 1 ∧ w.(count) = 2.
Proof.
  destruct start_in_time as (w & Hs & _ & _ & Ht & Hf & Hc). exists w.
  destruct (StartCpus_handshake [0; 1]%Z 0 2 answers (powered [0; 1]%Z) w 12
    (powered_initial [0; 1]%Z 0 2 ltac:(by apply (bool_decide_unpack _))
      ltac:(by apply (bool_decide_unpack _)) ltac:(lia)) Hs) as (_&_&_&_&_&_&_&Hok&_&_).
  split; [exact Hs|]. split; [|exact Hc]. specialize (Hok Hf 0 1%Z). rewrite Ht in Hok. by apply Hok.
Defined.

(** The capacity counts the enabled processors only, while [StartCpus] starts
    those of all entries: a processor without a slot stops with the lock held,
    and the first one waits for it for ever. *)
Lemma full_domain_waits : ∃ w, nsteps (step 0 1 answers) 6 (powered [0; 1]%Z) w ∧
  at_rest 0 1 answers w ∧ w.(bsp) = BPoll 1 0 0 ∧ w.(aps) 1%Z = ApStopped.
Proof.
  eexists. split; [|split].
  - runs_by step_self. runs_by step_init. runs_by step_clear. runs_by step_send.
    runs_ap step_seize 1%Z. runs_ap step_full 1%Z. apply nsteps_O.
  - intros w' Hs. inversion Hs; subst; cbn in *; simplify_eq;
      match goal with H : context [(<[1%Z := _]> _) ?id] |- _ =>
        destruct (decide (id = 1%Z)) as [->|];
          [rewrite fn_lookup_insert in H|rewrite !fn_lookup_insert_ne in H by done]; done
      end.
  - split; [done|]. cbn. by rewrite fn_lookup_insert.
Qed.

(** The flag says that a processor came, not which one: processor 1 comes
    after the first one gave up on it, and its flag ends the wait for
    processor 2, which has not come. *)
Ltac runs_poll := runs_by step_poll; runs_by step_read; runs_by step_got.

Lemma late_processor : ∃ w n, nsteps (step 0 3 answers) n (powered [0; 1; 2]%Z) w ∧
  w.(bsp) = BNext ∧ w.(tried) = [2; 1]%Z ∧ w.(aps) 2%Z = ApStarted.
Proof.
  eexists _, _. split.
  - runs_by step_self. runs_by step_init. runs_by step_clear. runs_by step_send.
    do 20 runs_poll. runs_by step_send. do 20 runs_poll.
    runs_by step_init. runs_by step_clear.
    runs_ap step_seize 1%Z. runs_ap step_build 1%Z. runs_ap step_count 1%Z.
    runs_ap step_flag 1%Z. runs_ap step_release 1%Z.
    runs_by step_send. runs_poll. apply nsteps_O.
  - done.
Qed.
