(* ===== verification/Broadcast.v ===== *)
(** * Initializing every processor at once

    [TimerModule::Initialize] (src/arch/x64/timer/module.cpp) has every
    processor measure its timer, and [SyscallModule::Initialize]
    (syscall/module.cpp) has every processor write the registers of its system
    calls: the first processor sends each of the others a message ([RunAsync],
    which Wakeup.v shows to run what is sent), does the same itself, and waits
    for all.  Processor.v and State.v have the functions as computations; here
    each processor is the list of the accesses to shared state that it has
    still to make, and every interleaving of these lists is a run. *)

From stdpp Require Import base numbers list functions relations.
From Stdlib Require Import ZArith Lia.
From S2P Require Import Prelude.
#[local] Open Scope nat_scope.

(** ** Processors as lists of actions *)

(** What a message makes its receiver do. *)
Inductive action : Type :=
  | SetIst                      (* Idt::SetIst, twice *)
  | Dec                         (* --initCount; *)
  | SetRegisters                (* the WriteMsr of SetCpuRegisters *)
  | SetTicks                    (* timer.ticksPerMicro = ...; *)
  | SetCalibrated               (* timer.calibrated = true; *)
  | Inc                         (* ++initCount; *)
  | WaitZero                    (* while (initCount); *)
  | WaitCalibrated (id : Z)     (* while (!timer.calibrated), of processor id *)
  | SetRoutine                  (* Irt::Set(IntVectors::LapicTimer, ...) *)
  | RunAsync (id : Z) (f : list action).

Record world : Type := mkWorld {
  code : Z → list action;
  initCount : Z;
  prepared : Z → bool;          (* its registers, or its ticks, are set *)
  calibrated : Z → bool;
  routine : bool;
}.

(** The wait is over. *)
Definition enabled (w : world) (a : action) : Prop :=
  match a with
  | WaitZero => w.(initCount) = 0%Z
  | WaitCalibrated id => w.(calibrated) id = true
  | _ => True
  end.

(** Processor [id] is left with [l] after the action. *)
Definition perform (w : world) (id : Z) (a : action) (l : list action) : world :=
  let code := <[id := l]> w.(code) in
  match a with
  | SetIst | WaitZero | WaitCalibrated _ =>
      mkWorld code w.(initCount) w.(prepared) w.(calibrated) w.(routine)
  | Dec => mkWorld code (w.(initCount) - 1) w.(prepared) w.(calibrated) w.(routine)
  | Inc => mkWorld code (w.(initCount) + 1) w.(prepared) w.(calibrated) w.(routine)
  | SetRegisters | SetTicks =>
      mkWorld code w.(initCount) (<[id := true]> w.(prepared)) w.(calibrated) w.(routine)
  | SetCalibrated =>
      mkWorld code w.(initCount) w.(prepared) (<[id := true]> w.(calibrated)) w.(routine)
  | SetRoutine => mkWorld code w.(initCount) w.(prepared) w.(calibrated) true
  | RunAsync j f =>
      mkWorld (<[j := code j ++ f]> code) w.(initCount) w.(prepared) w.(calibrated) w.(routine)
  end.

Inductive step (w : world) : world → Prop :=
  | step_at id a l :
      w.(code) id = a :: l → enabled w a → step w (perform w id a l).

Definition at_rest (w : world) : Prop := ∀ w', ¬ step w w'.

(** ** The two modules *)

(** The accesses to shared state of the two functions.  What they compute in
    between touches only their own processor and is in State.v
    ([Syscalls.SetCpuRegisters]) and Processor.v ([CalibrateMethod], with its
    sleep and its assertion). *)
Definition SetCpuRegisters : list action := [SetIst; Dec; SetRegisters].
Definition CalibrateMethod : list action := [SetTicks; SetCalibrated].

Section Programs.
(** The processors of the domain, the first one among them. *)
Context (threads : list Z) (self : Z).

Definition others : list Z := filter (λ j, j ≠ self) threads.

(** [SyscallModule::Initialize] *)
Definition Syscall_Initialize : list action :=
  (others ≫= λ j, [RunAsync j SetCpuRegisters; Inc]) ++ [Inc] ++ SetCpuRegisters ++ [WaitZero].

(** [TimerModule::Initialize] *)
Definition Timer_Initialize : list action :=
  ((λ j, RunAsync j CalibrateMethod) <$> others) ++ CalibrateMethod
  ++ (WaitCalibrated <$> threads) ++ [SetRoutine].

Definition initial (program : list action) (w : world) : Prop :=
  w.(code) self = program ∧ (∀ j, j ≠ self → w.(code) j = []) ∧ w.(initCount) = 0%Z ∧
  (∀ j, w.(prepared) j = false) ∧ (∀ j, w.(calibrated) j = false) ∧ w.(routine) = false.
End Programs.

(** ** Sums over the processors *)

Section Sums.
#[local] Open Scope Z_scope.

Fixpoint sumz {X} (f : X → Z) (l : list X) : Z :=
  match l with [] => 0 | x :: l => f x + sumz f l end.

Lemma sumz_app {X} (f : X → Z) l k : sumz f (l ++ k) = sumz f l + sumz f k.
Proof. induction l as [|x l IH]; cbn; lia. Qed.

Lemma sumz_ext {X} (f g : X → Z) l : (∀ x, x ∈ l → f x = g x) → sumz f l = sumz g l.
Proof.
  induction l as [|x l IH]; intros He; [done|]. cbn.
  rewrite (He x), IH; [done|intros y Hy; apply He; by right|by left].
Qed.

Lemma sumz_nonneg {X} (f : X → Z) l : (∀ x, x ∈ l → 0 ≤ f x) → 0 ≤ sumz f l.
Proof.
  induction l as [|x l IH]; intros Hf; [done|]. cbn.
  assert (0 ≤ f x) by (apply Hf; by left). assert (0 ≤ sumz f l); [|lia].
  apply IH. intros y Hy. apply Hf. by right.
Qed.

Lemma sumz_zero {X} (f : X → Z) l : (∀ x, x ∈ l → 0 ≤ f x) → sumz f l = 0 → ∀ x, x ∈ l → f x = 0.
Proof.
  induction l as [|x l IH]; intros Hf Hz y Hy; [by apply not_elem_of_nil in Hy|].
  cbn in Hz. assert (0 ≤ f x) by (apply Hf; by left).
  assert (∀ y, y ∈ l → 0 ≤ f y) as Hl by (intros z Hz'; apply Hf; by right).
  pose proof (sumz_nonneg f l Hl). apply elem_of_cons in Hy as [->|Hy]; [lia|]. apply IH; [done|lia|done].
Qed.

Lemma sumz_insert {X} (g : X → Z) (c : Z → X) l id x : NoDup l → id ∈ l →
  sumz (λ j, g ((<[id := x]> c) j)) l = sumz (λ j, g (c j)) l - g (c id) + g x.
Proof.
  induction 1 as [|j l Hj Hnd IH]; intros Hin; [by apply not_elem_of_nil in Hin|]. cbn.
  apply elem_of_cons in Hin as [->|Hin].
  - rewrite fn_lookup_insert, (sumz_ext _ (λ j, g (c j)) l); [lia|].
    intros k Hk. rewrite fn_lookup_insert_ne; [done|]. by intros ->.
  - rewrite IH by done. rewrite fn_lookup_insert_ne; [lia|]. by intros ->.
Qed.
End Sums.

(** The increments of [initCount] that are still to come, counted negatively
    against the decrements; and the actions. *)
Fixpoint weight (a : action) : Z :=
  match a with
  | Dec => 1
  | Inc => -1
  | RunAsync _ f => sumz weight f
  | _ => 0
  end.
Fixpoint actions (a : action) : Z :=
  match a with RunAsync _ f => 1 + sumz actions f | _ => 1 end.

(** What a message may contain. *)
Definition simple (a : action) : bool :=
  match a with SetIst | Dec | SetRegisters | SetTicks | SetCalibrated => true | _ => false end.
Definition prepares (a : action) : bool :=
  match a with SetRegisters | SetTicks => true | _ => false end.
Definition calibrates (a : action) : bool := match a with SetCalibrated => true | _ => false end.

(** The flag is set only after the ticks. *)
Fixpoint ticks_first (l : list action) : bool :=
  match l with
  | [] => true
  | SetTicks :: _ => true
  | SetCalibrated :: _ => false
  | _ :: l => ticks_first l
  end.

Section Runs.
Context (threads : list Z) (self : Z) (Hnd : NoDup threads) (Hself : self ∈ threads).
Context (program : list action).

Definition posts_well (a : action) : Prop :=
  match a with
  | RunAsync j f => j ∈ threads ∧ j ≠ self ∧ Forall (λ a, simple a = true) f ∧ ticks_first f = true
  | _ => True
  end.
Context (Hposts : Forall posts_well program) (Hticks : ticks_first program = true).

Definition total (g : action → Z) (w : world) : Z := sumz (λ j, sumz g (w.(code) j)) threads.

(** [j] has done what [p] names, or still will. *)
Definition owes (p : action → bool) (is_done : Z → bool) (w : world) (j : Z) : Prop :=
  is_done j = true ∨ Exists (λ a, p a = true) (w.(code) j)
  ∨ ∃ f, RunAsync j f ∈ w.(code) self ∧ Exists (λ a, p a = true) f.

Record inv (w : world) : Prop := {
  i_threads : ∀ j, j ∉ threads → w.(code) j = [];
  i_self : ∃ pre, program = pre ++ w.(code) self;
  i_others : ∀ j, j ≠ self → Forall (λ a, simple a = true) (w.(code) j);
  i_count : (w.(initCount) = total weight w)%Z;
  i_ticks : ∀ j, w.(prepared) j = true ∨ ticks_first (w.(code) j) = true;
  i_order : ∀ j, w.(calibrated) j = true → w.(prepared) j = true;
}.

Lemma self_posts w a : inv w → a ∈ w.(code) self → posts_well a.
Proof.
  intros Hi Ha. destruct (i_self _ Hi) as [pre Hp]. rewrite Forall_forall in Hposts.
  apply Hposts. rewrite Hp. apply elem_of_app. by right.
Qed.

(** Who posts, and to whom. *)
Lemma post_at w id j f l : inv w → w.(code) id = RunAsync j f :: l →
  id = self ∧ j ∈ threads ∧ j ≠ self ∧ Forall (λ a, simple a = true) f ∧ ticks_first f = true.
Proof.
  intros Hi Hc. destruct (decide (id = self)) as [->|Hne].
  - split; [done|]. apply (self_posts w (RunAsync j f) Hi). rewrite Hc. by left.
  - pose proof (i_others _ Hi id Hne) as Ho. rewrite Hc in Ho. by apply Forall_cons in Ho as [? _].
Qed.

(** What an action adds to the code of [j]. *)
Definition posted (a : action) (j : Z) : list action :=
  match a with RunAsync k f => if decide (j = k) then f else [] | _ => [] end.

Lemma posted_facts w id a l : inv w → w.(code) id = a :: l →
  posted a self = [] ∧ (∀ j, j ∉ threads → posted a j = []) ∧ (id ≠ self → ∀ j, posted a j = [])
  ∧ (∀ j, Forall (λ a, simple a = true) (posted a j))
  ∧ ∀ j k, ticks_first k = true → ticks_first (k ++ posted a j) = true.
Proof.
  intros Hi Hc. destruct a as [| | | | | | | | |k f]; cbn [posted];
    try (split_and!; [done..|intros j; constructor|intros j k; by rewrite app_nil_r]).
  destruct (post_at _ _ _ _ _ Hi Hc) as (-> & Hk & Hks & Hf & Ht). split_and!.
  - by rewrite decide_False.
  - intros j Hj. rewrite decide_False; [done|]. by intros ->.
  - done.
  - intros j. case_decide; [done|constructor].
  - intros j l' Hl. case_decide; [|by rewrite app_nil_r].
    induction l' as [|b bs IH]; [done|]. destruct b; cbn in *; auto.
Qed.

(** The code after an action. *)
Lemma perform_code w id a l j : inv w → w.(code) id = a :: l →
  (perform w id a l).(code) j = (if decide (j = id) then l else w.(code) j) ++ posted a j.
Proof.
  intros Hi Hc. destruct a as [| | | | | | | | |k f]; cbn [perform code posted]; rewrite ?app_nil_r;
    try (destruct (decide (j = id)) as [->|]; by rewrite ?fn_lookup_insert, ?fn_lookup_insert_ne).
  destruct (post_at _ _ _ _ _ Hi Hc) as (-> & _ & Hk & _).
  destruct (decide (j = k)) as [->|Hne].
  - by rewrite fn_lookup_insert, fn_lookup_insert_ne, (decide_False (P:=k = self)).
  - rewrite fn_lookup_insert_ne, app_nil_r by done.
    destruct (decide (j = self)) as [->|]; by rewrite ?fn_lookup_insert, ?fn_lookup_insert_ne.
Qed.

Lemma code_threads w id a l : inv w → w.(code) id = a :: l → id ∈ threads.
Proof.
  intros Hi Hc. destruct (decide (id ∈ threads)) as [|Hn]; [done|]. by rewrite (i_threads _ Hi id Hn) in Hc.
Qed.

Lemma total_perform g w id a l : inv w → w.(code) id = a :: l →
  (total g (perform w id a l) = total g w - g a +
    match a with RunAsync _ f => sumz g f | _ => 0 end)%Z.
Proof.
  intros Hi Hc. pose proof (code_threads _ _ _ _ Hi Hc) as Hid.
  assert (Hone : (sumz (λ j, sumz g ((<[id := l]> w.(code)) j)) threads = total g w - g a)%Z).
  { rewrite (sumz_insert (sumz g)) by done. unfold total. rewrite Hc. cbn. lia. }
  destruct a as [| | | | | | | | |k f]; unfold total at 1; cbn [perform code]; try (rewrite Hone; lia).
  destruct (post_at _ _ _ _ _ Hi Hc) as (-> & Hk & Hne & _).
  rewrite (sumz_insert (sumz g)), Hone, sumz_app by done. lia.
Qed.


Lemma action_inv w w' : inv w → step w w' → inv w'.
Proof.
  intros Hi [id a l Hc _]. pose proof (λ j, perform_code w id a l j Hi Hc) as Hat.
  pose proof (code_threads _ _ _ _ Hi Hc) as Hid.
  destruct (posted_facts w id a l Hi Hc) as (Hps & Hpt & _ & Hpf & Hpk).
  pose proof (total_perform weight w id a l Hi Hc) as Htot.
  destruct Hi as [Ht [pre Hs] Ho Hn Hk Hor]. split.
  - intros j Hj. by rewrite Hat, Hpt, app_nil_r, decide_False, Ht by (done || by intros ->).
  - rewrite Hat, Hps, app_nil_r. case_decide as Hid'; [|by exists pre].
    exists (pre ++ [a]). rewrite Hs, Hid', Hc, <-app_assoc. done.
  - intros j Hj. rewrite Hat. apply Forall_app. split; [|apply Hpf].
    case_decide as Hji; [|by apply Ho]. subst j. specialize (Ho id Hj). rewrite Hc in Ho.
    by apply Forall_cons in Ho as [_ ?].
  - rewrite Htot, <-Hn. destruct a; cbn [perform initCount weight]; lia.
  - intros j. rewrite Hat. specialize (Hk j). destruct (decide (j = id)) as [->|Hne].
    + rewrite Hc in Hk. destruct a; cbn [perform prepared]; rewrite ?fn_lookup_insert;
        try (by left); destruct Hk as [|Hk]; try (by left); try done; right; by apply Hpk.
    + destruct Hk as [Hk|Hk]; [left|right; by apply Hpk].
      destruct a; cbn [perform prepared]; try done; by rewrite fn_lookup_insert_ne.
  - intros j. assert (Hcal : calibrates a = true → w.(prepared) id = true).
    { destruct (Hk id) as [|Hp]; [done|]. rewrite Hc in Hp. by destruct a. }
    destruct (decide (j = id)) as [->|Hne].
    + destruct a; cbn [perform prepared calibrated]; rewrite ?fn_lookup_insert; auto.
    + destruct a; cbn [perform prepared calibrated]; rewrite ?fn_lookup_insert_ne by done; auto.
Qed.

Lemma actions_inv w w' : inv w → rtc step w w' → inv w'.
Proof. intros Hi Hr. revert Hi. induction Hr; eauto using action_inv. Qed.

(** Every step uses up one action. *)
Lemma actions_pos : ∀ a, (0 < actions a)%Z.
Proof.
  fix IH 1. intros [| | | | | | | | |j f]; try (cbn; lia). cbn.
  induction f as [|b f IHf]; cbn; [lia|]. specialize (IH b). lia.
Qed.

Lemma total_actions_nonneg w : (0 ≤ total actions w)%Z.
Proof.
  apply sumz_nonneg. intros j _. apply sumz_nonneg. intros a _. pose proof (actions_pos a). lia.
Qed.

Lemma step_actions w w' : inv w → step w w' → (total actions w' = total actions w - 1)%Z.
Proof.
  intros Hi [id a l Hc _]. rewrite (total_perform actions w id a l) by done. destruct a; cbn; lia.
Qed.

Lemma runs_end w w' n : inv w → nsteps step n w w' →
  (Z.of_nat n + total actions w' = total actions w)%Z.
Proof.
  intros Hi Hr. revert Hi. induction Hr as [w|n w1 w2 w3 Hs Hr IH]; intros Hi; [lia|].
  pose proof (step_actions w1 w2 Hi Hs). pose proof (IH (action_inv w1 w2 Hi Hs)). lia.
Qed.

(** What is owed is done, or still owed. *)
Lemma owes_step p (sel : world → Z → bool) w id a l j : inv w → w.(code) id = a :: l →
  (p a = true → sel (perform w id a l) id = true) →
  (∀ j, sel w j = true → sel (perform w id a l) j = true) →
  (∀ k f, p (RunAsync k f) = false) →
  owes p (sel w) w j → owes p (sel (perform w id a l)) (perform w id a l) j.
Proof.
  intros Hi Hc Hset Hmono Hp. pose proof (λ j, perform_code w id a l j Hi Hc) as Hat.
  intros [Hd|[Hx|(f & Hf & Hx)]]; [left; by apply Hmono| |].
  - unfold owes. rewrite Hat, Exists_app. destruct (decide (j = id)) as [->|Hne]; [|tauto].
    rewrite Hc in Hx. apply Exists_cons in Hx as [Ha|Hx]; [left; by apply Hset|tauto].
  - unfold owes. rewrite !Hat. destruct (decide (self = id)) as [Hs|Hs].
    + rewrite Hs, Hc in Hf. apply elem_of_cons in Hf as [<-|Hf].
      * right. left. apply Exists_app. right. unfold posted. by rewrite decide_True.
      * right. right. exists f. split; [|done]. apply elem_of_app. by left.
    + right. right. exists f. split; [|done]. apply elem_of_app. by left.
Qed.

Lemma owes_prepared w w' j : inv w → step w w' →
  owes prepares w.(prepared) w j → owes prepares w'.(prepared) w' j.
Proof.
  intros Hi [id a l Hc _]. apply (owes_step prepares prepared); try done.
  - destruct a; try done; intros _; cbn; by rewrite fn_lookup_insert.
  - intros k Hk. destruct a; try done; cbn; (destruct (decide (k = id)) as [->|Hne];
      [by rewrite fn_lookup_insert|by rewrite fn_lookup_insert_ne]).
Qed.

Lemma owes_calibrated w w' j : inv w → step w w' →
  owes calibrates w.(calibrated) w j → owes calibrates w'.(calibrated) w' j.
Proof.
  intros Hi [id a l Hc _]. apply (owes_step calibrates calibrated); try done.
  - destruct a; try done; intros _; cbn; by rewrite fn_lookup_insert.
  - intros k Hk. destruct a; try done; cbn; (destruct (decide (k = id)) as [->|Hne];
      [by rewrite fn_lookup_insert|by rewrite fn_lookup_insert_ne]).
Qed.

(** At rest the others have done everything. *)
Lemma rest_others w j : inv w → at_rest w → j ≠ self → w.(code) j = [].
Proof.
  intros Hi Hr Hj. pose proof (i_others _ Hi j Hj) as Ho.
  destruct (w.(code) j) as [|a l] eqn:Hc; [done|]. apply Forall_cons in Ho as [Ha _].
  destruct (Hr (perform w j a l)). apply step_at; [done|]. by destruct a.
Qed.

(** What is left of a program from an action that its first part does not have. *)
Lemma rest_of w a l p1 p2 : inv w → program = p1 ++ p2 → a ∉ p1 → w.(code) self = a :: l →
  ∃ pre, p2 = pre ++ a :: l.
Proof.
  intros Hi Hp Hn Hc. destruct (i_self _ Hi) as [pre Hs]. rewrite Hc, Hp in Hs.
  apply app_eq_inv in Hs as [(k & -> & Hk)|(k & -> & Hk)]; [|by exists k].
  destruct k as [|b k]; [by exists []|]. injection Hk as -> _. destruct Hn. apply elem_of_app. right. by left.
Qed.

Lemma last_of w a l p1 : inv w → program = p1 ++ [a] → a ∉ p1 → w.(code) self = a :: l → l = [].
Proof.
  intros Hi Hp Hn Hc. destruct (rest_of w a l p1 [a] Hi Hp Hn Hc) as [pre Hpre].
  destruct pre as [|b pre]; [by injection Hpre|]. injection Hpre as -> Hx.
  by destruct pre.
Qed.
End Runs.

(** ** The two initializations *)

Section Initialization.
Context (threads : list Z) (self : Z) (Hnd : NoDup threads) (Hself : self ∈ threads).

Lemma elem_of_others j : j ∈ others threads self ↔ j ∈ threads ∧ j ≠ self.
Proof. unfold others. rewrite list_elem_of_filter. tauto. Qed.

Lemma start_inv program w : Forall (posts_well threads self) program → ticks_first program = true →
  (sumz weight program = 0)%Z → initial self program w → inv threads self program w.
Proof.
  intros Hp Ht Hw (Hc & Ho & Hn & Hpr & Hca & _). split.
  - intros j Hj. apply Ho. by intros ->.
  - exists []. by rewrite Hc.
  - intros j Hj. rewrite Ho by done. constructor.
  - rewrite Hn. unfold total. symmetry.
    transitivity (sumz (λ _, 0%Z) threads); [apply sumz_ext|clear; by induction threads].
    intros j _. destruct (decide (j = self)) as [->|Hj]; [by rewrite Hc|by rewrite Ho].
  - intros j. right. destruct (decide (j = self)) as [->|Hj]; [by rewrite Hc|by rewrite Ho].
  - intros j Hj. by rewrite Hca in Hj.
Qed.

Lemma initial_actions program w : initial self program w →
  total threads actions w = sumz actions program.
Proof.
  intros (Hc & Ho & _). unfold total.
  transitivity (sumz (λ j, sumz actions ((<[self := program]> (λ _, [])) j)) threads).
  - apply sumz_ext. intros j _. destruct (decide (j = self)) as [->|Hj];
      [by rewrite fn_lookup_insert, Hc|by rewrite fn_lookup_insert_ne, Ho].
  - rewrite (sumz_insert (sumz actions)) by done. cbn.
    assert (sumz (λ _ : Z, 0%Z) threads = 0%Z) as -> by (clear; by induction threads). lia.
Qed.

(** The programs are as the invariant wants them. *)
Lemma Syscall_posts : Forall (posts_well threads self) (Syscall_Initialize threads self).
Proof.
  unfold Syscall_Initialize. apply Forall_app. split; [|by repeat constructor].
  apply Forall_bind. apply Forall_forall. intros j Hj%elem_of_others.
  repeat constructor; tauto.
Qed.

Lemma Timer_posts : Forall (posts_well threads self) (Timer_Initialize threads self).
Proof.
  unfold Timer_Initialize. rewrite !Forall_app, !Forall_fmap. split_and!; [|by repeat constructor| |by repeat constructor].
  - apply Forall_forall. intros j Hj%elem_of_others. cbn. split_and!; [tauto|tauto|by repeat constructor|done].
  - by apply Forall_forall.
Qed.

Lemma Syscall_sums :
  (sumz weight (Syscall_Initialize threads self) = 0)%Z
  ∧ ticks_first (Syscall_Initialize threads self) = true
  ∧ (sumz actions (Syscall_Initialize threads self) = 5 * Z.of_nat (length (others threads self)) + 5)%Z.
Proof.
  unfold Syscall_Initialize. induction (others threads self) as [|j l (IH1 & IH2 & IH3)]; [done|].
  cbn [mbind list_bind app]. cbn [app] in IH1, IH2, IH3. cbn [sumz].
  rewrite IH1, IH3. split_and!; [done|exact IH2|]. cbn. lia.
Qed.

Lemma Timer_sums :
  (sumz weight (Timer_Initialize threads self) = 0)%Z
  ∧ ticks_first (Timer_Initialize threads self) = true
  ∧ (sumz actions (Timer_Initialize threads self)
     = 3 * Z.of_nat (length (others threads self)) + Z.of_nat (length threads) + 3)%Z.
Proof.
  assert (H : (sumz weight (WaitCalibrated <$> threads) = 0)%Z
    ∧ (sumz actions (WaitCalibrated <$> threads) = Z.of_nat (length threads))%Z).
  { clear. induction threads as [|j l [IH1 IH2]]; [done|]. cbn. rewrite IH1, IH2. lia. }
  unfold Timer_Initialize. rewrite !sumz_app, (proj1 H), (proj2 H).
  induction (others threads self) as [|j l (IH1 & IH2 & IH3)].
  - cbn. split_and!; [done|done|lia].
  - cbn [fmap list_fmap sumz]. cbn [fmap list_fmap] in IH2. split_and!; [cbn in *; lia|exact IH2|cbn in *; lia].
Qed.

(** What every processor owes at the start, and what follows at rest. *)
Lemma initial_owes p program w j : initial self program w → j ∈ threads → (∀ j, j ≠ self → ∃ f,
    (j ∈ threads → RunAsync j f ∈ program) ∧ Exists (λ a, p a = true) f) →
  Exists (λ a, p a = true) program → ∀ sel, owes self p sel w j.
Proof.
  intros (Hc & _) Hj Hf Hp sel. destruct (decide (j = self)) as [->|Hne].
  - right. left. by rewrite Hc.
  - destruct (Hf j Hne) as (f & Hin & Hx). right. right. exists f. rewrite Hc. auto.
Qed.

Lemma steps_keep (P : world → Prop) program w w' :
  Forall (posts_well threads self) program → inv threads self program w →
  (∀ w w', inv threads self program w → step w w' → P w → P w') →
  rtc step w w' → P w → P w'.
Proof.
  intros Hp Hi Hs Hr. revert Hi. induction Hr as [|w1 w2 w3 H12 _ IH]; [done|].
  intros Hi HP. apply IH; [by apply (action_inv threads self Hnd program Hp w1)|by apply (Hs w1)].
Qed.

(** *** System calls *)

Section Syscall.
Abbreviation program := (Syscall_Initialize threads self).
Context (w0 : world) (Hini : initial self program w0).

Lemma Syscall_inv w : rtc step w0 w → inv threads self program w.
Proof.
  destruct Syscall_sums as (H1 & H2 & _).
  apply actions_inv; [done|apply Syscall_posts|]. by apply start_inv; [apply Syscall_posts|..].
Qed.

Definition before_wait : list action :=
  (others threads self ≫= λ j, [RunAsync j SetCpuRegisters; Inc]) ++ [Inc] ++ SetCpuRegisters.

Lemma before_wait_eq : program = before_wait ++ [WaitZero].
Proof. unfold before_wait, Syscall_Initialize. by rewrite <-!app_assoc. Qed.

Lemma no_wait_before a : match a with WaitZero | WaitCalibrated _ | SetRoutine => True | _ => False end →
  a ∉ before_wait.
Proof.
  intros Ha. unfold before_wait. rewrite elem_of_app, list_elem_of_bind.
  intros [(j & Hj & _)|Hj]; unfold SetCpuRegisters in Hj; cbn [app] in Hj; rewrite !elem_of_cons in Hj.
  - destruct Hj as [->|[->|Hj%not_elem_of_nil]]; done.
  - destruct Hj as [->|[->|[->|[->|Hj%not_elem_of_nil]]]]; done.
Qed.

Lemma Syscall_prepared w j : rtc step w0 w → j ∈ threads → owes self prepares w.(prepared) w j.
Proof.
  intros Hr Hj. assert (H0 : owes self prepares w0.(prepared) w0 j).
  { apply (initial_owes prepares program); [done|done| |].
    - intros k Hk. exists SetCpuRegisters. split; [|by right; right; left].
      intros Hin. apply elem_of_app. left. apply list_elem_of_bind. exists k.
      split; [by left|by apply elem_of_others].
    - unfold Syscall_Initialize. rewrite !Exists_app. right. right. left. by right; right; left. }
  destruct Syscall_sums as (H1 & H2 & _). revert H0.
  apply (steps_keep (λ w, owes self prepares w.(prepared) w j) program); [apply Syscall_posts| | |done].
  - by apply start_inv; [apply Syscall_posts|..].
  - intros w1 w2 Hi Hs. by apply (owes_prepared threads self program Syscall_posts).
Qed.

(** With nothing left but decrements, a weight of 0 means none. *)
Lemma no_weight l : Forall (λ a, simple a = true) l → (0 ≤ sumz weight l)%Z ∧ (sumz weight l = 0%Z → Dec ∉ l).
Proof.
  rewrite Forall_forall. intros Hs.
  assert (Hw : ∀ a, a ∈ l → (0 ≤ weight a)%Z) by (intros a Ha; specialize (Hs a Ha); by destruct a).
  split; [by apply sumz_nonneg|]. intros Hz Hd. by pose proof (sumz_zero weight l Hw Hz Dec Hd).
Qed.

Definition returned_after_dec (w : world) : Prop := w.(code) self = [] → ∀ j, Dec ∉ w.(code) j.

Lemma returned_step w w' : inv threads self program w → step w w' →
  returned_after_dec w → returned_after_dec w'.
Proof.
  intros Hi [id a l Hc Hen] Hd Hnil j.
  pose proof (λ j, perform_code threads self program Syscall_posts w id a l j Hi Hc) as Hat.
  destruct (posted_facts threads self program Syscall_posts w id a l Hi Hc) as (Hps & _ & Hpo & _ & _).
  rewrite Hat, Hps, app_nil_r in Hnil. rewrite Hat. destruct (decide (self = id)) as [<-|Hne].
  - subst l. destruct (i_self _ _ _ _ Hi) as [pre Hpre]. rewrite Hc, before_wait_eq in Hpre.
    apply app_inj_tail in Hpre as [_ <-]. cbn [posted]. rewrite app_nil_r.
    case_decide as Hj; [by apply not_elem_of_nil|].
    cbn [enabled] in Hen. rewrite (i_count _ _ _ _ Hi) in Hen.
    pose proof (λ k, no_weight (w.(code) k)) as Hnw.
    assert (Hk : ∀ k, k ∈ threads → (0 ≤ sumz weight (w.(code) k))%Z).
    { intros k _. destruct (decide (k = self)) as [->|Hk]; [by rewrite Hc|].
      by apply Hnw, (i_others _ _ _ _ Hi). }
    destruct (decide (j ∈ threads)) as [Hin|Hin].
    + apply Hnw; [by apply (i_others _ _ _ _ Hi)|]. by apply (sumz_zero _ threads Hk).
    + rewrite (i_threads _ _ _ _ Hi j Hin). apply not_elem_of_nil.
  - rewrite Hpo, app_nil_r by done. specialize (Hd Hnil). case_decide as Hj; [|apply Hd].
    intros Hx. apply (Hd id). rewrite Hc. by right.
Qed.

Lemma Syscall_rest w : rtc step w0 w → at_rest w → w.(code) self = [].
Proof.
  intros Hr Hrest. pose proof (Syscall_inv w Hr) as Hi.
  destruct (w.(code) self) as [|a l] eqn:Hc; [done|]. destruct (Hrest (perform w self a l)).
  apply step_at; [done|]. destruct a; try done.
  - rewrite (last_of threads self program w WaitZero l before_wait Hi before_wait_eq
      (no_wait_before WaitZero I) Hc) in Hc.
    cbn [enabled]. rewrite (i_count _ _ _ _ Hi). unfold total.
    rewrite (sumz_ext _ (λ _, 0%Z)); [clear; by induction threads|].
    intros j _. destruct (decide (j = self)) as [->|Hj]; [by rewrite Hc|].
    by rewrite (rest_others threads self program w j Hi Hrest Hj).
  - exfalso. assert (WaitCalibrated id ∈ program); [|].
    + destruct (i_self _ _ _ _ Hi) as [pre ->]. rewrite Hc. apply elem_of_app. right. by left.
    + rewrite before_wait_eq, elem_of_app in H. destruct H as [H|H]; [by apply no_wait_before in H|].
      by apply list_elem_of_singleton in H.
Qed.

Lemma Syscall_bound n w : nsteps step n w0 w → n ≤ 5 * length (others threads self) + 5.
Proof.
  intros Hr. destruct Syscall_sums as (_ & _ & Hsum).
  pose proof (runs_end threads self Hnd _ Syscall_posts w0 w n (Syscall_inv w0 (rtc_refl _ _)) Hr) as He.
  rewrite (initial_actions _ w0 Hini), Hsum in He. pose proof (total_actions_nonneg threads w). lia.
Qed.

Lemma Syscall_done w j : rtc step w0 w → at_rest w → j ∈ threads →
  w.(code) j = [] ∧ w.(prepared) j = true.
Proof.
  intros Hr Hrest Hj. pose proof (Syscall_rest w Hr Hrest) as Hs.
  assert (Hc : w.(code) j = []).
  { destruct (decide (j = self)) as [->|Hne]; [done|].
    by apply (rest_others threads self program); [apply Syscall_inv|..]. }
  split; [done|]. destruct (Syscall_prepared w j Hr Hj) as [|[Hx|(f & Hf & _)]]; [done| |].
  - by rewrite Hc, Exists_nil in Hx.
  - by rewrite Hs, elem_of_nil in Hf.
Qed.

Lemma Syscall_returned w : rtc step w0 w → returned_after_dec w.
Proof.
  intros Hr. apply (steps_keep returned_after_dec program w0); [apply Syscall_posts|
    by apply Syscall_inv|apply returned_step|done|].
  destruct Hini as (Hc & _). unfold returned_after_dec. rewrite Hc.
  unfold Syscall_Initialize. by destruct (others threads self).
Qed.
End Syscall.

(** *** Timers *)

Section Timer.
Abbreviation program := (Timer_Initialize threads self).
Context (w0 : world) (Hini : initial self program w0).

Lemma Timer_inv w : rtc step w0 w → inv threads self program w.
Proof.
  destruct Timer_sums as (H1 & H2 & _).
  apply actions_inv; [done|apply Timer_posts|]. by apply start_inv; [apply Timer_posts|..].
Qed.

(** The messages and the first processor's own timer; then the waits. *)
Definition measuring : list action :=
  ((λ j, RunAsync j CalibrateMethod) <$> others threads self) ++ CalibrateMethod.
Definition waiting : list action := WaitCalibrated <$> threads.

Lemma Timer_parts : program = measuring ++ waiting ++ [SetRoutine].
Proof. unfold measuring, waiting, Timer_Initialize. by rewrite <-!app_assoc. Qed.

Lemma elem_of_measuring a : a ∈ measuring ↔
  (∃ j, a = RunAsync j CalibrateMethod ∧ j ∈ others threads self) ∨ a = SetTicks ∨ a = SetCalibrated.
Proof.
  unfold measuring, CalibrateMethod. rewrite elem_of_app, list_elem_of_fmap, !elem_of_cons, elem_of_nil. tauto.
Qed.

Lemma elem_of_waits a : a ∈ waiting ++ [SetRoutine] ↔
  (∃ j, a = WaitCalibrated j ∧ j ∈ threads) ∨ a = SetRoutine.
Proof. unfold waiting. rewrite elem_of_app, list_elem_of_fmap, list_elem_of_singleton. done. Qed.

Lemma Timer_owes p sel w j : Exists (λ a, p a = true) CalibrateMethod →
  (∀ w w', inv threads self program w → step w w' → owes self p (sel w) w j → owes self p (sel w') w' j) →
  rtc step w0 w → j ∈ threads → owes self p (sel w) w j.
Proof.
  intros Hp Hs Hr Hj. destruct Timer_sums as (H1 & H2 & _).
  apply (steps_keep (λ w, owes self p (sel w) w j) program w0); [apply Timer_posts| |done|done|].
  { by apply start_inv; [apply Timer_posts|..]. }
  apply (initial_owes p program); [done|done| |].
  - intros k Hk. exists CalibrateMethod. split; [|done]. intros Hin.
    rewrite Timer_parts, elem_of_app, elem_of_measuring. left. left. exists k.
    by rewrite elem_of_others.
  - rewrite Timer_parts. unfold measuring. rewrite !Exists_app. auto.
Qed.

Lemma Timer_prepared w j : rtc step w0 w → j ∈ threads → owes self prepares w.(prepared) w j.
Proof.
  apply (Timer_owes prepares prepared); [by left|]. intros w1 w2.
  apply (owes_prepared threads self program Timer_posts).
Qed.

Lemma Timer_calibrated w j : rtc step w0 w → j ∈ threads → owes self calibrates w.(calibrated) w j.
Proof.
  apply (Timer_owes calibrates calibrated); [by right; left|]. intros w1 w2.
  apply (owes_calibrated threads self program Timer_posts).
Qed.

(** A processor that [Initialize] has not waited for is still to be waited for. *)
Definition waits_left (w : world) : Prop :=
  (w.(routine) = true → w.(code) self = []) ∧
  ∀ j, j ∈ threads → w.(calibrated) j = true ∨ WaitCalibrated j ∈ w.(code) self.

Lemma waits_step w w' : inv threads self program w → step w w' → waits_left w → waits_left w'.
Proof.
  intros Hi [id a l Hc Hen] [Hro Hwt].
  pose proof (perform_code threads self program Timer_posts w id a l self Hi Hc) as Hat.
  destruct (posted_facts threads self program Timer_posts w id a l Hi Hc) as (Hps & _).
  rewrite Hps, app_nil_r in Hat. split.
  - rewrite Hat. destruct (decide (self = id)) as [<-|Hne].
    + assert (Hr : (perform w self a l).(routine) = true → w.(routine) = true ∨ a = SetRoutine)
        by (destruct a; auto).
      intros [Hx| ->]%Hr; [by rewrite (Hro Hx) in Hc|].
      apply (last_of threads self program w SetRoutine l (measuring ++ waiting)); [done| | |done].
      * by rewrite Timer_parts, app_assoc.
      * rewrite elem_of_app, elem_of_measuring. unfold waiting. rewrite list_elem_of_fmap. naive_solver.
    + pose proof (i_others _ _ _ _ Hi id ltac:(done)) as Ho. rewrite Hc in Ho.
      apply Forall_cons in Ho as [Ha _]. intros Hx. apply Hro. by destruct a.
  - intros j Hj. rewrite Hat. destruct (Hwt j Hj) as [Hx|Hx].
    + left. destruct a; try done; cbn; (destruct (decide (j = id)) as [->|Hne];
        [by rewrite fn_lookup_insert|by rewrite fn_lookup_insert_ne]).
    + destruct (decide (self = id)) as [<-|Hne]; [|by right].
      rewrite Hc in Hx. apply elem_of_cons in Hx as [<-|Hx]; [left|by right]. exact Hen.
Qed.

Lemma Timer_waits w : rtc step w0 w → waits_left w.
Proof.
  intros Hr. apply (steps_keep waits_left program w0); [apply Timer_posts|by apply Timer_inv|apply waits_step|done|].
  destruct Hini as (Hc & _ & _ & _ & _ & Hro). split; [by rewrite Hro|]. intros j Hj. right.
  rewrite Hc, Timer_parts, elem_of_app, elem_of_waits. right. left. by exists j.
Qed.

Lemma Timer_rest w : rtc step w0 w → at_rest w → w.(code) self = [].
Proof.
  intros Hr Hrest. pose proof (Timer_inv w Hr) as Hi.
  destruct (w.(code) self) as [|a l] eqn:Hc; [done|]. destruct (Hrest (perform w self a l)).
  apply step_at; [done|].
  assert (Hin : a ∈ program).
  { destruct (i_self _ _ _ _ Hi) as [pre ->]. rewrite Hc. apply elem_of_app. right. by left. }
  rewrite Timer_parts, elem_of_app, elem_of_measuring, elem_of_waits in Hin.
  destruct Hin as [[(j & -> & _)|[->| ->]]|[(j & -> & Hj)| ->]]; try done. cbn [enabled].
  destruct (rest_of threads self program w (WaitCalibrated j) l measuring (waiting ++ [SetRoutine]) Hi
    Timer_parts) as [pre Hpre]; [rewrite elem_of_measuring; naive_solver|done|].
  assert (Hl : ∀ b, b ∈ w.(code) self → (∃ j, b = WaitCalibrated j ∧ j ∈ threads) ∨ b = SetRoutine).
  { intros b Hb. apply elem_of_waits. rewrite Hpre, <-Hc. apply elem_of_app. by right. }
  destruct (Timer_calibrated w j Hr Hj) as [|[Hx|(f & Hf & _)]]; [done| |by apply Hl in Hf; naive_solver].
  destruct (decide (j = self)) as [->|Hne].
  - apply Exists_exists in Hx as (b & Hb & Hcb). apply Hl in Hb as [(k & -> & _)| ->]; done.
  - rewrite (rest_others threads self program w j Hi Hrest Hne) in Hx. by apply Exists_nil in Hx.
Qed.

Lemma Timer_bound n w : nsteps step n w0 w → n ≤ 3 * length (others threads self) + length threads + 3.
Proof.
  intros Hr. destruct Timer_sums as (_ & _ & Hsum).
  pose proof (runs_end threads self Hnd _ Timer_posts w0 w n (Timer_inv w0 (rtc_refl _ _)) Hr) as He.
  rewrite (initial_actions _ w0 Hini), Hsum in He. pose proof (total_actions_nonneg threads w). lia.
Qed.

Lemma Timer_done w j : rtc step w0 w → at_rest w → w.(code) j = [].
Proof.
  intros Hr Hrest. destruct (decide (j = self)) as [->|Hne]; [by apply Timer_rest|].
  by apply (rest_others threads self program); [apply Timer_inv|..].
Qed.

Lemma Timer_returned w j : rtc step w0 w → w.(code) self = [] → j ∈ threads →
  w.(calibrated) j = true ∧ w.(prepared) j = true.
Proof.
  intros Hr Hs Hj. destruct (Timer_waits w Hr) as [_ Hw].
  destruct (Hw j Hj) as [Hc|Hx]; [|by rewrite Hs, elem_of_nil in Hx].
  split; [done|]. by apply (i_order _ _ _ _ (Timer_inv w Hr)).
Qed.
End Timer.
End Initialization.

(** Two processors. *)
Definition pair_start (program : list action) : world :=
  mkWorld (λ j, if decide (j = 0%Z) then program else []) 0 (λ _, false) (λ _, false) false.

Lemma pair_initial program : initial 0 program (pair_start program).
Proof. split_and!; try done. intros j Hj. cbn. by rewrite decide_False. Qed.

(** Everything but the other processor's registers. *)
Lemma early_return : ∃ w,
  rtc step (pair_start (Syscall_Initialize [0%Z; 1%Z] 0)) w ∧ w.(code) 0%Z = [] ∧ w.(prepared) 1%Z = false.
Proof.
  eexists. split.
  - do 5 (eapply rtc_l; [by apply (step_at _ 0%Z)|]).
    do 2 (eapply rtc_l; [by apply (step_at _ 1%Z)|]).
    do 2 (eapply rtc_l; [by apply (step_at _ 0%Z)|]). apply rtc_refl.
  - split; reflexivity.
Qed.

(** C40. In every interleaving both initializations end, and reach every
    processor of the domain.  SyscallModule::Initialize: at most five accesses
    for a processor; when nothing is left to do every processor has written its
    registers; when it returns every processor has counted itself down, and
    [initCount], which may be negative on the way, is not read as 0 too early.
    But a processor counts itself down before it writes the registers, so that
    with two processors there is a run in which Initialize has returned and the
    other has not written them.  TimerModule::Initialize: when it sets the
    routine of the timer vector, and so when it returns, every processor has
    its ticks and its flag, and nothing is left undone. *)
Theorem Initialize_broadcasts threads self : NoDup threads → self ∈ threads →
  (∀ w0, initial self (Syscall_Initialize threads self) w0 →
    (∀ n w, nsteps step n w0 w → n ≤ 5 * length (others threads self) + 5) ∧
    ∀ w, rtc step w0 w →
      (at_rest w → ∀ j, j ∈ threads → w.(code) j = [] ∧ w.(prepared) j = true) ∧
      (w.(code) self = [] → ∀ j, Dec ∉ w.(code) j)) ∧
  (∃ w, rtc step (pair_start (Syscall_Initialize [0%Z; 1%Z] 0)) w ∧
    w.(code) 0%Z = [] ∧ w.(prepared) 1%Z = false) ∧
  (∀ w0, initial self (Timer_Initialize threads self) w0 →
    (∀ n w, nsteps step n w0 w → n ≤ 3 * length (others threads self) + length threads + 3) ∧
    ∀ w, rtc step w0 w →
      (at_rest w → ∀ j, w.(code) j = []) ∧
      (w.(code) self = [] → ∀ j, j ∈ threads → w.(calibrated) j = true ∧ w.(prepared) j = true) ∧
      (w.(routine) = true → w.(code) self = [])).
Proof.
  intros Hnd Hself. split; [|split; [exact early_return|]]; intros w0 Hi; split.
  - apply (Syscall_bound threads self Hnd Hself w0 Hi).
  - intros w Hr. split; [|apply (Syscall_returned threads self Hnd Hself w0 Hi w Hr)].
    intros Hrest j. apply (Syscall_done threads self Hnd Hself w0 Hi w j Hr Hrest).
  - apply (Timer_bound threads self Hnd Hself w0 Hi).
  - intros w Hr. split_and!.
    + intros Hrest j. apply (Timer_done threads self Hnd Hself w0 Hi w j Hr Hrest).
    + intros Hs j. apply (Timer_returned threads self Hnd Hself w0 Hi w j Hr Hs).
    + apply (Timer_waits threads self Hnd Hself w0 Hi w Hr).
Qed.

(** The run in which the first processor measures before the other. *)
Lemma timer_run : ∃ w,
  rtc step (pair_start (Timer_Initialize [0%Z; 1%Z] 0)) w ∧ w.(code) 0%Z = [] ∧ w.(routine) = true.
Proof.
  eexists. split.
  - do 3 (eapply rtc_l; [by apply (step_at _ 0%Z)|]).
    do 2 (eapply rtc_l; [by apply (step_at _ 1%Z)|]).
    do 3 (eapply rtc_l; [by apply (step_at _ 0%Z)|]). apply rtc_refl.
  - split; reflexivity.
Qed.

Lemma Initialize_broadcasts_witness : ∃ w,
  rtc step (pair_start (Timer_Initialize [0%Z; 1%Z] 0)) w ∧ w.(routine) = true
  ∧ w.(calibrated) 1%Z = true ∧ w.(prepared) 1%Z = true.
Proof.
  destruct timer_run as (w & Hr & Hc & Hro). exists w. split; [exact Hr|]. split; [exact Hro|].
  destruct (Initialize_broadcasts [0%Z; 1%Z] 0) as (_ & _ & H);
    [by apply (bool_decide_unpack _)|by left|].
  destruct (H _ (pair_initial _)) as [_ H']. destruct (H' w Hr) as (_ & H'' & _).
  apply (H'' Hc). by right; left.
Defined.
